(* ===== verification/_CoqProject ===== *)
-Q . S2P
Prelude.v
GoSlice.v
GoStrings.v
GoText.v
GoFloat.v
GoNum.v
GoShortest.v
FloatForm.v
GoJson.v
GoUrl.v
JsonRoundTrip.v
JsonFloat.v
JsonLocal.v
GoRaw.v
JsonCompact.v
Config.v
Interfaces.v
Backend.v
Discovery.v
Metrics.v
Router.v
RouterConcurrent.v
Queue.v
RouterPool.v
QueuePool.v
Http.v
DiscoveryWire.v
OpenCode.v
OpenCodeFile.v
Exporter.v
Server.v
StatusPage.v
Federation.v
Proxy.v
Admin.v
AdminAnswers.v
AdminConcurrent.v
Main.v
Whole.v
