(* ===== verification/Prelude.v ===== *)
(** * LLM Bridge: a verification library

    The program (src/) is an HTTP proxy in Go.  It takes OpenAI-style requests,
    looks up which backends serve the requested model, picks one by distance
    and load, forwards the request, and keeps an in-flight counter per backend.
    An admin API changes the list of backends at run time; background loops poll
    the backends for their models and their Prometheus metrics.

    ** The parts of the program and the files that model them

    The library goes bottom up; a file requires only files above it.

    What the program uses of the Go language and its standard library:
    - [Prelude]: 64-bit integers with wrap-around, errors, contexts, the state
      monad, list lemmas.
    - [GoSlice]: slices over a shared heap of arrays (append, index assignment,
      in-place deletion), which is what makes aliasing visible.
    - [GoStrings], [GoText], [GoFloat], [GoNum]: [strconv], [strings], floats
      as IEEE 754 binary64, [ParseFloat], [Sprintf].  [GoShortest]: the shortest
      text of a float, which is read back as the same float.  [FloatForm]: every
      operation gives a value of the type [float64].
    - [GoJson], [GoUrl]: the parser, decoders and encoder of [encoding/json],
      percent encoding.
    - [JsonRoundTrip], [JsonFloat], [JsonLocal], [GoRaw], [JsonCompact]: what is
      encoded is decoded again, floats too; a parser looks no further than its
      value; [json.RawMessage]; [json.Marshal] of raw JSON keeps its value.

    The program:
    - [Config] (config/config.go): [Store], [Load] with defaults and environment,
      [Set] with validation, [Get] and [GetCopy].  [Interfaces]: the classes
      [PoolOps]/[PoolLaws] and [IndexOps], which is all the router knows of pool and
      discovery.
    - [Backend] (backend/backend.go): the pool; a client is an object with an
      identity, so that replacing it loses its counter as in the source;
      [ProxyRequest].
    - [Discovery] (discovery/discovery.go): the model index and one round of
      polling, from the bytes of the answers on.  [DiscoveryWire]: what those
      bytes decode to.
    - [Metrics] (metrics/metrics.go): the Prometheus parser, the rates, the
      collector and one round of scraping.
    - [Router] (router/router.go): [Route], proved against the interface only;
      [RouterPool] applies its theorems to the real pool.  [RouterConcurrent]:
      the same call as a sequence of steps, between which other calls,
      cancellations and releases happen.
    - [Queue] (router/queue.go): [enqueue], [run], [processQueue], [drain] and [stop]
      as the steps of a transition system, one per statement that another
      goroutine can observe; [processQueue] also as a function, with a proof that
      it is a run of the system.  [QueuePool] instantiates it.
    - [Http], [Server], [Proxy], [Admin], [OpenCode], [Exporter] (server/*.go): the
      responses, the state and the read endpoints, the proxied endpoints, the
      admin API, the OpenCode configuration and the metrics exposition.
      [AdminAnswers], [StatusPage] and [OpenCodeFile]: what a client can read of
      the answers; [Federation]: what another bridge can read of them.  [AdminConcurrent]:
      the requests of the admin API as sequences of steps.
    - [Main] (cmd/llm-bridge/main.go): start-up, the composition of everything
      into one transition system ([system_step]) in which a request is one step,
      and the shutdown.  [Whole]: the same in the steps that goroutines can
      observe of each other, over one shared state: the handlers
      ([handler_step], with the steps of [RouterConcurrent] and
      [AdminConcurrent]), the waiters and the goroutine of the queue (the steps of
      [Queue]), the end of contexts ([request_step]), the two polling goroutines
      with their [select] and their rounds ([disc_step], [mc_step]), and the shutdown of [main]
      with its waits for these two ([main_step]); together [world_step].

    ** How the parts interact

    A [Server] owns the configuration store, the discovery state, the router
    state (which contains the pool) and the collector.  A proxied request calls
    [Route], which asks discovery for the servers of the model and the pool for
    their load, acquires a slot, and hands the connection to [ProxyRequest]; the
    slot is released when the answer has been copied.  If every server is full and
    the fallback is [queue], the request waits in [Queue], whose goroutine calls
    [Route] again for it.  Every successful admin request ends in [syncServers],
    which copies the configured servers into the pool, discovery and the
    collector.  The handlers of the admin API work on a copy of the configuration
    that shares its array with the store, so they are functions on the heap.

    ** What the theorems show

    The properties carry a label [C<n>] in their comments, in the order of their
    importance.
    - Accounting: slots are neither lost nor invented, per call ([Backend],
      [Proxy]) and over every interleaving of the queue ([Queue]) and of calls
      of [Route] ([RouterConcurrent]), except in the race that [QueuePool]
      exhibits; how far concurrent calls overshoot a limit, exactly.
    - Routing: [Route] refines a specification on an abstract pool and index;
      nearest group first, round robin within a group, capacity respected.
    - Queue: no send blocks, first in first out, everyone is answered, deadlines.
    - Whole system ([Whole]): in every interleaving the state stays well formed
      and no handler panics; as long as the configuration stays, every slot is held
      by somebody and the collector does not crash; nobody is forgotten in the
      queue; once [ListenAndServe] has returned there is from every point of the
      shutdown a bounded run to the end of the process, through all its waits; a
      proxied request on its own does what its handler does as one function.  Request by request ([Main]): every
      request gets an answer; admin requests either take effect everywhere or
      leave pool, discovery and collector alone ([Admin]), also where the file cannot
      be written.  When admin requests
      overlap ([AdminConcurrent]), they are still safe and end, but one can undo
      another, and pool, discovery and configuration can part.
    - Data: configuration round trips through the file and through the admin API
      as text; the generated OpenCode file can be posted back; admin answers
      are readable JSON; the status page reads back as the state; raw metadata is kept byte by byte; a bridge that polls
      another one learns exactly its models; counters below 2^53 are parsed
      exactly; the exported metrics are read back as the values they show, in
      whatever order the map is ranged over.
    - Errors and bounds: every status code of the handlers, limits that add up,
      overflows of durations and of token sums.
    Where the code does not do what it means to, the theorem states what it does.

    ** Bounds, fuel and termination

    [Router.groups] recurses on the length of the list, which each round shortens.
    The JSON parser has fuel, one more than the length of the text; every call
    consumes a byte, and [JsonRoundTrip.calls_length] and
    [JsonLocal.parse_local] show that it is enough wherever a theorem needs a
    result.  Nesting is limited to 10000 as in Go.
    The search for the shortest text of a float tries up to 17 digits and falls
    back to the exact decimal, so that it needs no bound to be right.  Everything
    else is structural.
    The shutdown has at most [Whole.steps_left] steps to go, a sum over the phase of
    [main], the rounds under way and the pass through the queue; that a run exists,
    rather than that every run ends, is due to [select] and to the mutexes, of whose
    fairness nothing is assumed.
    The queue is not a function but a relation; [Queue.processQueue_is_a_run] ties the
    function to it.

    ** What is a parameter

    The YAML library ([Config.Yaml]), URL parsing ([NetURL]), the file system and
    environment ([OS]), the HTTP client ([Backend.HttpClient], [Discovery.Backends]
    and the scrapes of [Metrics]), the sort algorithm behind [sort.Slice] (any that
    sorts), the order of map iteration (any permutation), the growth of slices
    (any that is enough), the conversion of floats out of range, the clock, the
    error texts of [encoding/json], and the text of a time.

    ** Not modelled

    The embedded admin pages (web/), listening sockets and logging.  That a signal
    arrives and that [ListenAndServe] returns are events that can happen at any
    time; the second does not follow from the first, since [Start] ignores its
    context.  Waiting for a lock other than that of the queue; what
    goroutines observe of each other inside a read endpoint and inside the
    forwarding of a request, which are one step each in [Whole] (they do not
    change what the others use).  Also one step each: an [Acquire], which adds to the
    counter, looks at the context and may subtract again; the validation in [Set]
    with the reading of the shared elements, and the write of one element, a struct
    of several words that the code writes without a lock; one server of a round of
    polling.  The text of a time in the status answer, which depends on the time
    zone of the host; tickers, which can fire at any time. *)
From Stdlib Require Import ZArith Lia.
From stdpp Require Import base tactics option list numbers strings gmap sorting pretty.

Open Scope Z_scope.

(** ** Go integers

    [int] and [int64] are 64 bits wide (the program targets linux/amd64 and
    linux/arm64).  A value is a [Z]; an arithmetic operation whose result may
    leave the range is followed by [wrap64], two's complement wrap-around. *)

Definition wrap64 (z : Z) : Z := (z + 2 ^ 63) mod 2 ^ 64 - 2 ^ 63.

Definition int64 (z : Z) : Prop := - 2 ^ 63 <= z < 2 ^ 63.

Instance int64_dec z : Decision (int64 z).
Proof. unfold int64. apply _. Defined.

Lemma wrap64_range z : int64 (wrap64 z).
Proof.
  unfold int64, wrap64.
  pose proof (Z.mod_pos_bound (z + 2 ^ 63) (2 ^ 64) ltac:(lia)). lia.
Qed.

Lemma wrap64_id z : int64 z → wrap64 z = z.
Proof. unfold int64, wrap64. intros. rewrite Z.mod_small; lia. Qed.

(** Counting up by one stays below any bound that was not reached. *)
Lemma wrap64_succ_le i m : int64 i → i < m → wrap64 (i + 1) <= m.
Proof.
  intros Hi Hm. destruct (decide (i + 1 < 2 ^ 63)).
  - rewrite wrap64_id; [lia|]. unfold int64 in *. lia.
  - pose proof (wrap64_range (i + 1)). unfold int64 in *. lia.
Qed.

Lemma wrap64_add_l a b : wrap64 (wrap64 a + b) = wrap64 (a + b).
Proof.
  unfold wrap64.
  replace ((a + 2 ^ 63) mod 2 ^ 64 - 2 ^ 63 + b + 2 ^ 63)
    with ((a + 2 ^ 63) mod 2 ^ 64 + b) by lia.
  rewrite Zplus_mod_idemp_l. do 2 f_equal. lia.
Qed.

(** ** Errors

    The sentinel errors of the packages [backend] and [router] and of the
    standard [context] package, the ones made with [fmt.Errorf] from a
    message, and the ones that wrap another error with the verb [%w]. *)

Inductive error : Type :=
  | ErrServerUnhealthy
  | ErrNoServers
  | ErrAllBusy
  | ErrQueueTimeout
  | Canceled
  | DeadlineExceeded
  | Errorf (msg : string)
  | Wrapf (prefix : string) (err : error).

Instance error_eq_dec : EqDecision error.
Proof. solve_decision. Defined.

(** [err.Error()]. *)
Fixpoint Error (e : error) : string :=
  match e with
  | ErrServerUnhealthy => "server unhealthy"
  | ErrNoServers => "no servers available for model"
  | ErrAllBusy => "all servers at capacity"
  | ErrQueueTimeout => "queue wait timed out"
  | Canceled => "context canceled"
  | DeadlineExceeded => "context deadline exceeded"
  | Errorf msg => msg
  | Wrapf prefix err => prefix +:+ Error err
  end.

(** [errors.Is(err, target)] for a target that is a sentinel. *)
Fixpoint Is (err target : error) : bool :=
  bool_decide (err = target) ||
  match err with
  | Wrapf _ err' => Is err' target
  | _ => false
  end.

(** A Go call that returns [(value, error)]. *)
Inductive Result (A : Type) : Type :=
  | Ok (a : A)
  | Err (e : error).
Arguments Ok {A} a.
Arguments Err {A} e.

Instance Result_eq_dec {A} `{EqDecision A} : EqDecision (Result A).
Proof. solve_decision. Defined.

Definition is_ok {A} (r : Result A) : bool :=
  match r with Ok _ => true | Err _ => false end.

(** ** Contexts

    What a [context.Context] shows at one instant: [ctx.Err()] ([None] as long
    as [ctx.Done()] is open) and [ctx.Deadline()], in nanoseconds. *)

Record Context : Type := mkContext {
  ctx_Err : option error;
  ctx_Deadline : option Z
}.

(** [context.Background()]. *)
Definition Background : Context := mkContext None None.

(** ** The state monad of the stateful packages *)

Definition M (S A : Type) : Type := S → A * S.

Instance M_ret S : MRet (M S) := λ A a s, (a, s).
Instance M_bind S : MBind (M S) := λ A B f m s, let '(a, s') := m s in f a s'.

(** ** Lists *)

Section lists.
Context {A : Type}.
Implicit Types (l k : list A).

(** A block write, looked up at any index. *)
Lemma lookup_inserts_decide l i k j :
  list_inserts i k l !! j =
    if decide (i ≤ j < i + length k ∧ j < length l)%nat
    then k !! (j - i)%nat else l !! j.
Proof.
  case_decide as Hj; [apply list_lookup_inserts; lia|].
  destruct (decide (j < i)%nat); [by apply list_lookup_inserts_lt|].
  destruct (decide (i + length k ≤ j)%nat); [by apply list_lookup_inserts_ge|].
  rewrite !lookup_ge_None_2; rewrite ?length_inserts; [done|lia..].
Qed.

(** A block written at the end replaces the tail. *)
Lemma inserts_at_end l i k :
  length l = (i + length k)%nat → list_inserts i k l = take i l ++ k.
Proof.
  intros Hl. apply list_eq. intros j.
  rewrite lookup_inserts_decide, lookup_app, lookup_take, length_take.
  rewrite Nat.min_l by lia.
  repeat case_decide; try lia.
  - done.
  - by destruct (l !! j) eqn:E; [|apply lookup_ge_None in E; lia].
  - rewrite !lookup_ge_None_2 by lia. done.
Qed.

(** Shifting the tail left by one, as [append(l[:i], l[i+1:]...)] does in
    place, leaves the old last element at the end of the old slice. *)
Lemma inserts_shift l i x :
  last l = Some x → (i < length l)%nat →
  list_inserts i (drop (S i) l) l = delete i l ++ [x].
Proof.
  intros Hx Hi. apply list_eq. intros j.
  rewrite lookup_inserts_decide, length_drop, lookup_drop, lookup_app.
  rewrite list_lookup_delete, length_delete by by apply lookup_lt_is_Some.
  rewrite last_lookup in Hx.
  destruct (decide (S j < length l)%nat) as [|].
  - assert (is_Some (l !! S j)) as [y Hy] by by apply lookup_lt_is_Some.
    assert (is_Some (l !! j)) as [z Hz] by (apply lookup_lt_is_Some; lia).
    destruct (decide (j < i)%nat).
    + rewrite decide_False, Hz by lia. done.
    + rewrite decide_True, Hy by lia. rewrite <- Hy. f_equal. lia.
  - rewrite (decide_False (P := (_ ∧ _))) by lia.
    rewrite (decide_False (P := (j < i)%nat)) by lia.
    rewrite (lookup_ge_None_2 l (S j)) by lia.
    destruct (decide (j = pred (length l))) as [->|].
    + rewrite Hx. by destruct (pred (length l) - _)%nat eqn:?; [|lia].
    + rewrite lookup_ge_None_2 by lia.
      by destruct (j - _)%nat eqn:?; [lia|].
Qed.
End lists.

(** ** Strings *)

Lemma string_app_assoc (s1 s2 s3 : string) :
  (s1 +:+ s2) +:+ s3 = s1 +:+ s2 +:+ s3.
Proof. induction s1 as [|c s1 IH]; [done|]. exact (f_equal (String c) IH). Qed.

Lemma string_app_nil_r (s : string) : s +:+ "" = s.
Proof. induction s as [|c s IH]; [done|]. exact (f_equal (String c) IH). Qed.

Lemma length_app_string a b : String.length (a +:+ b) = (String.length a + String.length b)%nat.
Proof. induction a as [|c a IH]; [done|]. exact (f_equal S IH). Qed.

(** ** Lists that are mapped *)

Lemma forallb_map_true {A B} (f : B → bool) (g : A → B) l :
  Forall (λ x, f (g x) = true) l → forallb f (map g l) = true.
Proof. induction 1 as [|x l Hx _ IH]; [done|]. simpl. by rewrite Hx. Qed.

Lemma max_list_with_map {A B} (f : B → nat) (g : A → B) l n :
  (∀ x, f (g x) ≤ n)%nat → (max_list_with f (map g l) ≤ n)%nat.
Proof. intros Hn. induction l as [|x l IH]; simpl; [lia|]. pose proof (Hn x). lia. Qed.

Lemma max_list_with_le {A} (f : A → nat) l n :
  (∀ x, x ∈ l → (f x ≤ n)%nat) ↔ (max_list_with f l ≤ n)%nat.
Proof.
  induction l as [|x l IH]; simpl; [split; [lia|by intros _ ? ?%elem_of_nil]|].
  rewrite Nat.max_lub_iff, <- IH. split.
  - intros Hl. split; [apply Hl; left|]. intros y Hy. apply Hl. by right.
  - intros [Hx Hl] y [->|Hy]%elem_of_cons; auto.
Qed.

(** ** Automation *)

Create HintDb bridge.
Create Rewrite HintDb bridge.
#[export] Hint Resolve wrap64_range : bridge.
#[export] Hint Rewrite wrap64_add_l : bridge.

(** Split every [match] and boolean test in sight, then clean up. *)
Ltac split_cases :=
  repeat (case_match || case_decide); simplify_eq/=.
