(* ===== verification/GoSlice.v ===== *)
(** * Go slices over a shared store of backing arrays

    [config.Config] is copied by value all over the program, but its field
    [Servers] is a slice: the copies share one backing array.  The admin
    handlers write through such copies, so arrays live in a store here, and a
    slice is what the Go runtime makes of it: a pointer to an array, an
    offset, a length and a capacity. *)
From Stdlib Require Import ZArith Lia.
From stdpp Require Import base tactics option list numbers gmap.
From S2P Require Import Prelude.

Open Scope nat_scope.

(** The zero value [var x T]. *)
Class GoZero (A : Type) : Type := zero : A.

(** The capacity that [append] gives an array it has to grow is up to the
    runtime: [grow cap need] is what it allocates beyond [need]. *)
Class GrowPolicy : Type := grow : nat → nat → nat.

(** The arrays allocated so far, and the next free address. *)
Record Heap (A : Type) : Type := mkHeap {
  cells : gmap nat (list A);
  next : nat
}.
Arguments mkHeap {A} _ _.
Arguments cells {A} _.
Arguments next {A} _.

(** A slice header; a nil slice has no array. *)
Record Slice : Type := mkSlice {
  ptr : option nat;
  off : nat;
  len : nat;
  cap : nat
}.

Instance Slice_eq_dec : EqDecision Slice.
Proof. solve_decision. Defined.

Definition nil_slice : Slice := mkSlice None 0 0 0.

Section ops.
Context {A : Type} `{!GoZero A} `{!GrowPolicy}.
Implicit Types (h : Heap A) (s t : Slice) (xs : list A).

Definition empty_heap : Heap A := mkHeap ∅ 0.

Definition array h (l : nat) : list A := default [] (cells h !! l).

(** The elements [s[0], ..., s[len(s)-1]]. *)
Definition elems h s : list A :=
  match ptr s with
  | None => []
  | Some l => take (len s) (drop (off s) (array h l))
  end.

(** A fresh array holding [xs], with [spare] zeroed cells behind it. *)
Definition alloc h xs (spare : nat) : Heap A * Slice :=
  (mkHeap (<[next h := xs ++ replicate spare zero]> (cells h)) (S (next h)),
   mkSlice (Some (next h)) 0 (length xs) (length xs + spare)).

Definition write h (l i : nat) xs : Heap A :=
  mkHeap (alter (list_inserts i xs) l (cells h)) (next h).

(** [append(s, xs...)]: in place when the capacity allows it. *)
Definition append h s xs : Heap A * Slice :=
  if decide (len s + length xs <= cap s) then
    match ptr s with
    | None => (h, s)
    | Some l => (write h l (off s + len s) xs,
                 mkSlice (Some l) (off s) (len s + length xs) (cap s))
    end
  else alloc h (elems h s ++ xs) (grow (cap s) (len s + length xs)).

(** [s[i] = x]; [None] is the index out of range panic. *)
Definition set_index h s (i : nat) (x : A) : option (Heap A) :=
  if decide (i < len s) then
    match ptr s with
    | None => None
    | Some l => Some (write h l (off s + i) [x])
    end
  else None.

(** [s[:n]] and [s[n:]]. *)
Definition slice_to s (n : nat) : Slice := mkSlice (ptr s) (off s) n (cap s).
Definition slice_from s (n : nat) : Slice :=
  mkSlice (ptr s) (off s + n) (len s - n) (cap s - n).

(** [append(s[:i], s[i+1:]...)]. *)
Definition remove_at h s (i : nat) : Heap A * Slice :=
  append h (slice_to s i) (elems h (slice_from s (S i))).

(** ** Well-formed stores and slices *)

Definition heap_wf h : Prop :=
  ∀ l, next h <= l → cells h !! l = None.

Definition slice_wf h s : Prop :=
  len s <= cap s ∧
  match ptr s with
  | None => cap s = 0
  | Some l => ∃ a, cells h !! l = Some a ∧ off s + cap s <= length a
  end.

Lemma elems_length h s : slice_wf h s → length (elems h s) = len s.
Proof.
  unfold slice_wf, elems, array. intros [Hle Hp].
  destruct (ptr s) as [l|]; simpl; [|lia].
  destruct Hp as (a & -> & Ha). simpl.
  rewrite length_take, length_drop. lia.
Qed.

Lemma alloc_elems h xs spare :
  let '(h', s') := alloc h xs spare in elems h' s' = xs.
Proof.
  simpl. unfold elems, array. simpl.
  rewrite lookup_insert_eq. simpl. by rewrite drop_0, take_app_length.
Qed.

Lemma alloc_wf h xs spare :
  heap_wf h →
  let '(h', s') := alloc h xs spare in heap_wf h' ∧ slice_wf h' s'.
Proof.
  intros Hh. simpl. split.
  - intros l Hl. simpl in *. rewrite lookup_insert_ne by lia. apply Hh. lia.
  - split; simpl; [lia|]. eexists. rewrite lookup_insert_eq. split; [done|].
    rewrite length_app, length_replicate. lia.
Qed.

Lemma alloc_frame h xs spare t :
  heap_wf h → slice_wf h t →
  let '(h', _) := alloc h xs spare in elems h' t = elems h t ∧ slice_wf h' t.
Proof.
  intros Hh [Hle Ht]. simpl. unfold elems, array, slice_wf. simpl.
  destruct (ptr t) as [l|]; [|done].
  destruct Ht as (a & Ha & ?).
  assert (l ≠ next h) by (intros ->; rewrite Hh in Ha; [done|lia]).
  rewrite lookup_insert_ne by done. eauto.
Qed.

Lemma write_heap_wf h l i xs : heap_wf h → heap_wf (write h l i xs).
Proof.
  intros Hh k Hk. simpl in *. rewrite lookup_alter. case_decide; [|by apply Hh].
  subst. by rewrite Hh.
Qed.

Lemma write_slice_wf h l i xs t :
  slice_wf h t → slice_wf (write h l i xs) t.
Proof.
  unfold slice_wf. simpl. intros [Hle Ht]. split; [done|].
  destruct (ptr t) as [k|]; [|done].
  destruct Ht as (a & Ha & Hlen). rewrite lookup_alter.
  case_decide; subst; rewrite Ha; simpl; eexists; (split; [done|]);
    rewrite ?length_inserts; done.
Qed.

(** Writing behind the end of a slice does not change its elements. *)
Lemma write_behind h t l xs :
  ptr t = Some l →
  elems (write h l (off t + len t) xs) t = elems h t.
Proof.
  intros Hp. unfold elems, array. rewrite Hp. simpl.
  rewrite lookup_alter_eq. destruct (cells h !! l) as [a|]; [|done]. simpl.
  apply list_eq. intros i. rewrite !lookup_take. case_decide; [|done].
  rewrite !lookup_drop. apply list_lookup_inserts_lt. lia.
Qed.

(** Writing inside a slice replaces the elements written. *)
Lemma write_inside h s l i xs :
  slice_wf h s → ptr s = Some l → i + length xs <= len s →
  elems (write h l (off s + i) xs) s = list_inserts i xs (elems h s).
Proof.
  intros [Hle Hwf] Hp Hi. rewrite Hp in Hwf. destruct Hwf as (a & Ha & Hlen).
  unfold elems, array. rewrite Hp. simpl. rewrite lookup_alter_eq, Ha. simpl.
  apply list_eq. intros k.
  rewrite lookup_inserts_decide, !lookup_take, length_take, length_drop.
  rewrite !lookup_drop, lookup_inserts_decide.
  repeat case_decide; try lia; try done; f_equal; lia.
Qed.

Lemma elems_prefix h s n l c :
  ptr s = Some l → len s <= n →
  elems h s = take (len s) (elems h (mkSlice (Some l) (off s) n c)).
Proof.
  intros Hp Hn. unfold elems. rewrite Hp. simpl.
  rewrite take_take. f_equal. lia.
Qed.

Lemma append_spec h s xs :
  heap_wf h → slice_wf h s →
  let '(h', s') := append h s xs in
  heap_wf h' ∧ slice_wf h' s' ∧ slice_wf h' s ∧
  elems h' s' = elems h s ++ xs ∧ elems h' s = elems h s.
Proof.
  intros Hh Hs. pose proof Hs as [Hle Hp]. unfold append. case_decide as Hcap.
  - destruct (ptr s) as [l|] eqn:Hl.
    + set (s' := mkSlice (Some l) (off s) (len s + length xs) (cap s)).
      assert (slice_wf h s') as Hs' by (split; simpl; [lia|done]).
      split_and!; eauto using write_heap_wf, write_slice_wf, write_behind.
      pose proof (write_inside h s' l (len s) xs Hs' eq_refl ltac:(simpl; lia)) as Hw.
      simpl in Hw. rewrite Hw.
      rewrite (elems_prefix h s (len s + length xs) l (cap s)) by (done || lia).
      fold s'. apply inserts_at_end. by rewrite (elems_length h s' Hs').
    + destruct xs as [|x xs]; simpl in *; [|lia].
      rewrite app_nil_r. done.
  - pose proof (alloc_elems h (elems h s ++ xs) (grow (cap s) (len s + length xs))) as He.
    pose proof (alloc_wf h (elems h s ++ xs) (grow (cap s) (len s + length xs)) Hh) as Hw.
    pose proof (alloc_frame h (elems h s ++ xs) (grow (cap s) (len s + length xs)) s Hh Hs) as Hf.
    destruct (alloc _ _ _) as [h' s'].
    destruct Hw as [? ?], Hf as [? ?]. by split_and!.
Qed.

Lemma set_index_spec h s i x h' :
  slice_wf h s → set_index h s i x = Some h' →
  elems h' s = <[i:=x]> (elems h s) ∧ slice_wf h' s ∧ i < len s.
Proof.
  unfold set_index. intros Hs Hset. case_decide as Hi; [|done].
  destruct (ptr s) as [l|] eqn:Hl; [|done]. injection Hset as <-.
  split_and!; [|by apply write_slice_wf|done].
  rewrite write_inside by (done || simpl; lia). done.
Qed.

Lemma set_index_heap_wf h s i x h' :
  heap_wf h → set_index h s i x = Some h' → heap_wf h'.
Proof.
  unfold set_index. intros Hh Hset. case_decide; [|done].
  destruct (ptr s); [|done]. injection Hset as <-. by apply write_heap_wf.
Qed.

(** In range, the write succeeds. *)
Lemma set_index_total h s i x :
  slice_wf h s → i < len s → ∃ h', set_index h s i x = Some h'.
Proof.
  unfold set_index. intros [Hle Hp] Hi. rewrite decide_True by done.
  destruct (ptr s); [eauto|lia].
Qed.

Lemma slice_from_elems h s i :
  i < len s → elems h (slice_from s (S i)) = drop (S i) (elems h s).
Proof.
  intros Hi. unfold elems. simpl. destruct (ptr s); [|done].
  by rewrite skipn_firstn_comm, drop_drop.
Qed.

(** [append(s[:i], s[i+1:]...)] drops element [i] from the result, and
    shifts the tail inside the array the old header [s] still shows. *)
(** The slice it leaves is not nil. *)
Lemma remove_at_ptr h s i :
  slice_wf h s → i < len s → ptr (remove_at h s i).2 ≠ None.
Proof.
  intros [Hle Hp] Hi. unfold remove_at, append. case_decide; [|done].
  cbn [ptr slice_to]. destruct (ptr s); [done|]. lia.
Qed.

Lemma remove_at_spec h s i x :
  heap_wf h → slice_wf h s → i < len s → last (elems h s) = Some x →
  let '(h', s') := remove_at h s i in
  heap_wf h' ∧ slice_wf h' s' ∧ slice_wf h' s ∧
  elems h' s' = delete i (elems h s) ∧
  elems h' s = delete i (elems h s) ++ [x].
Proof.
  intros Hh Hs Hi Hx. pose proof (elems_length h s Hs) as Hlen.
  pose proof Hs as [Hle Hp]. unfold remove_at.
  assert (slice_wf h (slice_to s i)) as Hto by (split; [simpl; lia|done]).
  pose proof (append_spec h (slice_to s i) (elems h (slice_from s (S i))) Hh Hto) as Ha.
  unfold append in *. rewrite slice_from_elems in * by done. simpl in *.
  rewrite length_drop in *. rewrite decide_True in * by lia.
  destruct (ptr s) as [l|] eqn:Hl; [|lia].
  destruct Ha as (Hh' & Hs' & _ & He & _).
  split_and!; [done|done|by apply write_slice_wf| |].
  - rewrite He, delete_take_drop. f_equal.
    unfold elems. simpl. rewrite !Hl, take_take. f_equal. lia.
  - rewrite write_inside by (rewrite ?length_drop; done || lia).
    apply inserts_shift; [done|lia].
Qed.
End ops.
