(* ===== verification/GoStrings.v ===== *)
(** * The parts of the Go packages [strings] and [strconv] the program uses

    A Go string is a sequence of bytes: a [string], one [ascii] per byte. *)
From Stdlib Require Import ZArith Lia Ascii.
From stdpp Require Import base tactics option list numbers strings pretty.
From S2P Require Import Prelude.

(** ** [strconv.Atoi] and [strconv.Itoa] *)

Definition digit (c : ascii) : option Z :=
  match Ascii.is_nat c with
  | Some d => Some (Z.of_nat d)
  | None => None
  end.

Fixpoint digits (s : string) (acc : Z) : option Z :=
  match s with
  | EmptyString => Some acc
  | String c s' =>
      match digit c with
      | Some d => digits s' (10 * acc + d)
      | None => None
      end
  end.

(** An unsigned, non-empty run of decimal digits. *)
Definition parse_uint (s : string) : option Z :=
  match s with
  | EmptyString => None
  | _ => digits s 0
  end.

(** [strconv.Atoi]: an optional sign, decimal digits, and a range check;
    [None] is the error. *)
Definition Atoi (s : string) : option Z :=
  let r := match s with
           | String "+" s' => parse_uint s'
           | String "-" s' => Z.opp <$> parse_uint s'
           | _ => parse_uint s
           end in
  match r with
  | Some z => if decide (int64 z) then Some z else None
  | None => None
  end.

(** [strconv.Itoa] and the verb [%d]. *)
Definition Itoa (z : Z) : string := pretty z.

Example Atoi_1 : Atoi "-42" = Some (-42).
Proof. reflexivity. Qed.
Example Atoi_2 : Atoi "9223372036854775808" = None.
Proof. vm_compute. reflexivity. Qed.
Example Atoi_3 : (Atoi "1_000", Atoi "", Atoi "+", Atoi " 1") = (None, None, None, None).
Proof. reflexivity. Qed.

Lemma digits_app s1 s2 acc :
  digits (s1 +:+ s2) acc = (digits s1 acc ≫= digits s2).
Proof.
  revert acc. induction s1 as [|c s1 IH]; intros acc; simpl; [done|].
  destruct (digit c); [apply IH|done].
Qed.

Lemma digit_pretty_N_char (n : N) :
  (n < 10)%N → digit (pretty_N_char n) = Some (Z.of_N n).
Proof.
  intros Hn.
  assert (n = 0 ∨ n = 1 ∨ n = 2 ∨ n = 3 ∨ n = 4 ∨ n = 5 ∨ n = 6 ∨ n = 7
          ∨ n = 8 ∨ n = 9)%N as Hc by lia.
  by repeat (destruct Hc as [->|Hc]; [done|]); subst.
Qed.

Fixpoint pow10 (s : string) : Z :=
  match s with EmptyString => 1 | String _ s' => 10 * pow10 s' end.

Lemma digits_acc s acc z :
  digits s 0 = Some z → digits s acc = Some (acc * pow10 s + z).
Proof.
  assert (∀ s a b z, digits s a = Some z →
    digits s (b + a) = Some (b * pow10 s + z)) as Hgen.
  { clear. intros s. induction s as [|c s IH]; intros a b z; simpl.
    { intros [= ->]. f_equal. lia. }
    destruct (digit c) as [d|]; [|done]. intros Hd.
    replace (10 * (b + a) + d) with (10 * b + (10 * a + d)) by lia.
    rewrite (IH _ _ _ Hd). f_equal. lia. }
  intros H. rewrite <- (Hgen _ _ acc _ H). f_equal. lia.
Qed.

Lemma digits_pretty_N_go (x : N) s z :
  digits s 0 = Some z →
  digits (pretty_N_go x s) 0 = Some (Z.of_N x * pow10 s + z).
Proof.
  revert s z. induction (N.lt_wf_0 x) as [x _ IH]. intros s z Hs.
  destruct (decide (x = 0)%N) as [->|Hx]; [by rewrite pretty_N_go_0, Hs|].
  rewrite pretty_N_go_step by lia.
  pose proof (N.mod_lt x 10 ltac:(lia)) as Hm.
  rewrite (IH _ (N.div_lt x 10 ltac:(lia) eq_refl)
             _ (Z.of_N (x `mod` 10) * pow10 s + z)).
  - f_equal. simpl pow10. rewrite N2Z.inj_div, N2Z.inj_mod.
    pose proof (Z.div_mod (Z.of_N x) 10). simpl (Z.of_N 10). nia.
  - simpl. rewrite digit_pretty_N_char by done. by apply digits_acc.
Qed.

Lemma digits_pretty_N (x : N) : digits (pretty x) 0 = Some (Z.of_N x).
Proof.
  unfold pretty, pretty_N. case_decide as H; [by subst|].
  rewrite (digits_pretty_N_go x "" 0) by done. f_equal. simpl. lia.
Qed.

Lemma parse_uint_pretty (x : N) : parse_uint (pretty x) = Some (Z.of_N x).
Proof.
  pose proof (digits_pretty_N x) as H. unfold parse_uint.
  destruct (pretty x) eqn:E; [|done].
  exfalso. revert E. unfold pretty, pretty_N. case_decide; [done|].
  intros E. rewrite pretty_N_go_step in E by lia.
  assert (∀ n c s, pretty_N_go n (String c s) ≠ "") as Hne.
  { clear. intros n. induction (N.lt_wf_0 n) as [n _ IH]. intros c s.
    destruct (decide (n = 0)%N) as [->|]; [done|].
    rewrite pretty_N_go_step by lia. apply IH. by apply N.div_lt; lia. }
  by apply Hne in E.
Qed.

Lemma parse_uint_no_sign s z :
  parse_uint s = Some z → int64 z → Atoi s = Some z.
Proof.
  intros Hs Hz. unfold Atoi.
  assert (parse_uint s = Some z → (match s with
    | String "+" s' => parse_uint s' | String "-" s' => Z.opp <$> parse_uint s'
    | _ => parse_uint s end) = Some z) as Hm.
  { clear. destruct s as [|c s]; [done|]. intros H.
    by destruct c as [[] [] [] [] [] [] [] []]. }
  rewrite (Hm Hs). by rewrite decide_True.
Qed.

(** Printing an [int] and parsing it back gives the [int]. *)
Lemma Atoi_Itoa z : int64 z → Atoi (Itoa z) = Some z.
Proof.
  unfold Itoa. intros Hz. destruct z as [|p|p].
  - done.
  - apply parse_uint_no_sign; [|done]. apply (parse_uint_pretty (Npos p)).
  - unfold Atoi.
    change (pretty (Z.neg p)) with (String "-" (pretty (Npos p))).
    cbn beta iota. rewrite parse_uint_pretty. simpl. by rewrite decide_True.
Qed.
