(* ===== verification/GoText.v ===== *)
(** * Searching, trimming and splitting: the package [strings]

    Strings are byte sequences.  [TrimSpace] and [Fields] work on runes and
    know the white space of Unicode; a white space rune is recognised by its
    UTF-8 encoding, which cannot start inside another rune because its first
    byte is never a continuation byte. *)
From Stdlib Require Import ZArith Lia Ascii.
From stdpp Require Import base tactics option list numbers strings sorting.
From S2P Require Import Prelude.

Open Scope nat_scope.

(** ** Bytes *)

Definition NL : ascii := ascii_of_nat 10.
Definition byte_string (n : nat) : string := String (ascii_of_nat n) EmptyString.

(** [strings.HasPrefix]. *)
Fixpoint HasPrefix (s pre : string) : bool :=
  match pre, s with
  | EmptyString, _ => true
  | String a pre', String b s' => bool_decide (a = b) && HasPrefix s' pre'
  | String _ _, EmptyString => false
  end.

(** [strings.Contains]. *)
Fixpoint Contains (s sub : string) : bool :=
  HasPrefix s sub || match s with EmptyString => false | String _ s' => Contains s' sub end.

(** [s[:strings.IndexByte(s, c)]] if [c] occurs, otherwise [s]. *)
Fixpoint cut_at (c : ascii) (s : string) : string :=
  match s with
  | EmptyString => EmptyString
  | String b s' => if bool_decide (b = c) then EmptyString else String b (cut_at c s')
  end.

(** [strings.Split(s, c)] for a separator of one byte. *)
Fixpoint split_byte (c : ascii) (s : string) : list string :=
  match s with
  | EmptyString => [EmptyString]
  | String b s' =>
      if bool_decide (b = c) then EmptyString :: split_byte c s'
      else match split_byte c s' with
           | w :: ws => String b w :: ws
           | [] => [String b EmptyString]
           end
  end.

Fixpoint all_byte (c : ascii) (s : string) : bool :=
  match s with
  | EmptyString => true
  | String b s' => bool_decide (b = c) && all_byte c s'
  end.

(** [strings.TrimRight(s, c)] for a cutset of one ASCII byte. *)
Fixpoint trim_right_byte (c : ascii) (s : string) : string :=
  match s with
  | EmptyString => EmptyString
  | String b s' => if all_byte c s then EmptyString else String b (trim_right_byte c s')
  end.

(** ** White space *)

(** The encodings of the runes that [unicode.IsSpace] accepts. *)
Definition space_bytes : list (list nat) :=
  [[9]; [10]; [11]; [12]; [13]; [32]; [194; 133]; [194; 160]; [225; 154; 128];
   [226; 128; 128]; [226; 128; 129]; [226; 128; 130]; [226; 128; 131]; [226; 128; 132];
   [226; 128; 133]; [226; 128; 134]; [226; 128; 135]; [226; 128; 136]; [226; 128; 137];
   [226; 128; 138]; [226; 128; 168]; [226; 128; 169]; [226; 128; 175]; [226; 129; 159];
   [227; 128; 128]].

Definition encode (bytes : list nat) : string :=
  foldr (λ n s, String (ascii_of_nat n) s) EmptyString bytes.

(** The number of bytes of the white space rune [s] starts with, 0 if it does
    not start with one. *)
Definition space_width (s : string) : nat :=
  match filter (λ b, HasPrefix s (encode b) = true) space_bytes with
  | b :: _ => length b
  | [] => 0
  end.

(** The scanning functions walk over [s] byte by byte; [skip] bytes of the rune
    the walk is in have been dealt with. *)
Fixpoint all_space (skip : nat) (s : string) : bool :=
  match s with
  | EmptyString => true
  | String _ s' =>
      match skip with
      | S k => all_space k s'
      | O => match space_width s with O => false | S k => all_space k s' end
      end
  end.

Fixpoint trim_left_space (skip : nat) (s : string) : string :=
  match s with
  | EmptyString => EmptyString
  | String _ s' =>
      match skip with
      | S k => trim_left_space k s'
      | O => match space_width s with O => s | S k => trim_left_space k s' end
      end
  end.

Fixpoint trim_right_space (s : string) : string :=
  match s with
  | EmptyString => EmptyString
  | String b s' => if all_space 0 s then EmptyString else String b (trim_right_space s')
  end.

(** [strings.TrimSpace]. *)
Definition TrimSpace (s : string) : string := trim_right_space (trim_left_space 0 s).

(** [strings.Fields]: [cur] is the field the walk is in. *)
Fixpoint fields_go (skip : nat) (cur : string) (s : string) : list string :=
  let flush ws := if bool_decide (cur = EmptyString) then ws else cur :: ws in
  match s with
  | EmptyString => flush []
  | String b s' =>
      match skip with
      | S k => fields_go k EmptyString s'
      | O => match space_width s with
             | O => fields_go 0 (cur +:+ String b EmptyString) s'
             | S k => flush (fields_go k EmptyString s')
             end
      end
  end.

Definition Fields (s : string) : list string := fields_go 0 EmptyString s.

Example TrimSpace_1 : TrimSpace ("  a b" +:+ byte_string 13 +:+ encode [194; 160]) = "a b".
Proof. reflexivity. Qed.
Example Fields_1 : Fields (" foo" +:+ byte_string 9 +:+ " bar" +:+ encode [226; 128; 131] +:+ "b ")
  = ["foo"; "bar"; "b"].
Proof. reflexivity. Qed.
Example Fields_2 : Fields "  " = [].
Proof. reflexivity. Qed.
Example split_byte_1 : split_byte "," "a,,b" = ["a"; ""; "b"].
Proof. reflexivity. Qed.
Example trim_right_byte_1 : trim_right_byte "/" "http://h//" = "http://h".
Proof. reflexivity. Qed.
Example Contains_1 : (Contains "text/json" "json", Contains "" "", Contains "a" "ab") =
  (true, true, false).
Proof. reflexivity. Qed.

(** ** Facts *)

(** [strings.Join] of one byte, the inverse of [split_byte]. *)
Fixpoint join_byte (c : ascii) (ws : list string) : string :=
  match ws with
  | [] => EmptyString
  | [w] => w
  | w :: ws' => w +:+ String c (join_byte c ws')
  end.

Lemma split_byte_nonempty c s : split_byte c s ≠ [].
Proof. destruct s as [|b s]; simpl; [done|]. case_bool_decide; [done|]. by case_match. Qed.

Lemma join_split_byte c s : join_byte c (split_byte c s) = s.
Proof.
  induction s as [|b s IH]; [done|]. simpl. pose proof (split_byte_nonempty c s) as Hn.
  case_bool_decide as Hb.
  - subst. destruct (split_byte c s); [done|]. simpl in *. by rewrite <- IH.
  - destruct (split_byte c s) as [|w ws]; [done|]. simpl in *. destruct ws; by rewrite <- IH.
Qed.

Fixpoint no_byte (c : ascii) (s : string) : Prop :=
  match s with
  | EmptyString => True
  | String b s' => b ≠ c ∧ no_byte c s'
  end.

Lemma split_byte_no_byte c s : Forall (no_byte c) (split_byte c s).
Proof.
  induction s as [|b s IH]; simpl; [by repeat constructor|].
  case_bool_decide; [by constructor|]. destruct (split_byte c s) as [|w ws]; [by repeat constructor|].
  apply Forall_cons in IH as [? ?]. by constructor.
Qed.

(** Splitting a text of lines gives the lines back. *)
Lemma split_byte_app c w s :
  no_byte c w → split_byte c (w +:+ String c s) = w :: split_byte c s.
Proof.
  induction w as [|b w IH]; simpl; intros Hn.
  - by rewrite bool_decide_true.
  - destruct Hn as [Hb Hn]. change (String b w +:+ String c s) with (String b (w +:+ String c s)).
    simpl. by rewrite bool_decide_false, IH by done.
Qed.

Lemma cut_at_spec c s :
  no_byte c (cut_at c s) ∧ (s = cut_at c s ∨ ∃ rest, s = cut_at c s +:+ String c rest).
Proof.
  induction s as [|b s [Hn IH]]; simpl; [by split; [|left]|].
  case_bool_decide as Hb; [subst; split; [done|]; right; by exists s|].
  split; [done|]. destruct IH as [IH|[rest IH]]; [left; by rewrite <- IH|right].
  exists rest. by rewrite IH at 1.
Qed.

Lemma trim_right_byte_spec c s :
  ∃ t, s = trim_right_byte c s +:+ t ∧ all_byte c t = true.
Proof.
  induction s as [|b s (t & Hs & Ht)]; [by exists EmptyString|]. cbn [trim_right_byte].
  destruct (all_byte c (String b s)) eqn:Ha; [by exists (String b s)|].
  exists t. split; [|done]. exact (f_equal (String b) Hs).
Qed.

Lemma HasPrefix_byte a b s :
  HasPrefix (String b s) (String a EmptyString) = bool_decide (a = b).
Proof. destruct s; simpl; by rewrite andb_true_r. Qed.

(** ** Words without white space *)

(** Bytes that are neither white space nor part of an encoded rune. *)
Definition plain (c : ascii) : bool :=
  (33 <=? nat_of_ascii c) && (nat_of_ascii c <=? 126).

Fixpoint all_plain (s : string) : bool :=
  match s with
  | EmptyString => true
  | String c s' => plain c && all_plain s'
  end.

Lemma space_width_plain c s : plain c = true → space_width (String c s) = 0.
Proof.
  intros Hc. unfold space_width.
  assert (Forall (λ b, HasPrefix (String c s) (encode b) = false) space_bytes) as Hf.
  { repeat constructor; simpl; (rewrite bool_decide_false; [done|]; by intros <-). }
  induction space_bytes as [|b bs IH]; [done|]. apply Forall_cons in Hf as [Hb Hf].
  rewrite filter_cons, Hb. simpl. by apply IH.
Qed.

Lemma space_width_space s : space_width (String " " s) = 1.
Proof. by destruct s. Qed.

Lemma all_plain_app s t : all_plain (s +:+ t) = all_plain s && all_plain t.
Proof.
  induction s as [|c s IH]; [done|].
  change (String c s +:+ t) with (String c (s +:+ t)). simpl. by rewrite IH, andb_assoc.
Qed.

Lemma trim_right_space_plain s t :
  all_plain s = true → trim_right_space (s +:+ t) = s +:+ trim_right_space t.
Proof.
  induction s as [|c s IH]; [done|]. intros Hp.
  change (String c s +:+ t) with (String c (s +:+ t)).
  change (String c s +:+ trim_right_space t) with (String c (s +:+ trim_right_space t)).
  simpl in Hp. apply andb_true_iff in Hp as [Hc Hs].
  cbn [trim_right_space all_space]. by rewrite space_width_plain, IH.
Qed.

Lemma fields_go_plain cur s t :
  all_plain s = true → fields_go 0 cur (s +:+ t) = fields_go 0 (cur +:+ s) t.
Proof.
  revert cur. induction s as [|c s IH]; intros cur Hp; [by rewrite string_app_nil_r|].
  change (String c s +:+ t) with (String c (s +:+ t)).
  simpl in Hp. apply andb_true_iff in Hp as [Hc Hs].
  cbn [fields_go]. rewrite space_width_plain by done. rewrite IH by done.
  by rewrite string_app_assoc.
Qed.

(** Two words and the space between them. *)
Lemma two_words w1 w2 :
  all_plain w1 = true → all_plain w2 = true → w1 ≠ EmptyString → w2 ≠ EmptyString →
  let line := w1 +:+ " " +:+ w2 in
  TrimSpace line = line ∧ Fields line = [w1; w2].
Proof.
  intros H1 H2 Hn1 Hn2 line. split.
  - unfold TrimSpace. assert (trim_left_space 0 line = line) as ->.
    { unfold line. destruct w1 as [|c w1]; [done|].
      change (String c w1 +:+ " " +:+ w2) with (String c (w1 +:+ " " +:+ w2)).
      simpl in H1. apply andb_true_iff in H1 as [Hc _]. cbn [trim_left_space].
      by rewrite space_width_plain. }
    unfold line. rewrite trim_right_space_plain by done. f_equal.
    change (" " +:+ w2) with (String " " w2). cbn [trim_right_space all_space].
    rewrite space_width_space. destruct w2 as [|c w2]; [done|]. cbn [all_space].
    simpl in H2. pose proof H2 as [Hc _]%andb_true_iff. rewrite space_width_plain by done.
    f_equal. by rewrite <- (string_app_nil_r (String c w2)), trim_right_space_plain.
  - unfold Fields, line. rewrite fields_go_plain by done.
    change (EmptyString +:+ w1) with w1. change (" " +:+ w2) with (String " " w2).
    cbn [fields_go]. rewrite space_width_space, bool_decide_false by done. f_equal.
    rewrite <- (string_app_nil_r w2), fields_go_plain by by rewrite ?string_app_nil_r.
    change (EmptyString +:+ w2) with w2. cbn [fields_go]. by rewrite bool_decide_false, string_app_nil_r.
Qed.

Lemma no_byte_app c s t : no_byte c (s +:+ t) ↔ no_byte c s ∧ no_byte c t.
Proof.
  induction s as [|b s IH]; [by split; [|intros [_ ?]]|].
  change (String b s +:+ t) with (String b (s +:+ t)). simpl. tauto.
Qed.

Lemma plain_no_byte c s : all_plain s = true → plain c = false → no_byte c s.
Proof.
  induction s as [|b s IH]; [done|]. simpl. intros [Hb Hs]%andb_true_iff Hc.
  split; [congruence|by apply IH].
Qed.

Lemma split_byte_single c s : no_byte c s → split_byte c s = [s].
Proof.
  induction s as [|b s IH]; [done|]. simpl. intros [Hb Hs].
  by rewrite bool_decide_false, IH by done.
Qed.

(** ** [sort.Strings] *)

Definition sort_strings (l : list string) : list string := merge_sort String.le l.

Lemma sort_strings_perm l : sort_strings l ≡ₚ l.
Proof. apply merge_sort_Permutation. Qed.

Lemma sort_strings_sorted l : StronglySorted String.le (sort_strings l).
Proof. apply (StronglySorted_merge_sort String.le). Qed.

(** Sorting forgets the order the strings came in. *)
Lemma sort_strings_unique l k : l ≡ₚ k → sort_strings l = sort_strings k.
Proof.
  intros Hp. apply (StronglySorted_unique String.le); [apply sort_strings_sorted..|].
  by rewrite !sort_strings_perm.
Qed.
