(* ===== verification/GoFloat.v ===== *)
(** * Go's [float64]

    IEEE 754 binary64 numbers as the executable [spec_float] of the standard
    library: 53 bits of precision, exponents below 1024, rounding to nearest
    even. *)
From Stdlib Require Import ZArith Lia SpecFloat.
From stdpp Require Import base tactics option list numbers.
From S2P Require Import Prelude.

Open Scope Z_scope.

Abbreviation float64 := spec_float.

(** [float64(n)] for an [int] or [int64]. *)
Definition float_of_int (n : Z) : float64 := binary_normalize 53 1024 n 0 false.

(** The operators [/], [+], [*] and [<]; comparisons with NaN are false. *)
Definition fdiv : float64 → float64 → float64 := SFdiv 53 1024.
Definition fadd : float64 → float64 → float64 := SFadd 53 1024.
Definition fmul : float64 → float64 → float64 := SFmul 53 1024.
Definition flt : float64 → float64 → bool := SFltb.

Example fdiv_1 : flt (fdiv (float_of_int 5) (float_of_int 5))
                     (fdiv (float_of_int 6) (float_of_int 5)) = true.
Proof. reflexivity. Qed.
Example fdiv_nan : fdiv (float_of_int 0) (float_of_int 0) = S754_nan.
Proof. reflexivity. Qed.

Lemma flt_irrefl x : flt x x = false.
Proof.
  unfold flt, SFltb, SFcompare. destruct x as [s|s| |s m e]; try done; [by destruct s|].
  rewrite Z.compare_refl. change (Pcompare m m Eq) with (Pos.compare m m).
  rewrite Pos.compare_refl. by destruct s.
Qed.

Lemma flt_trans x y z : flt x y = true → flt y z = true → flt x z = true.
Proof.
  unfold flt, SFltb, SFcompare.
  destruct x as [s1|s1| |s1 m1 e1], y as [s2|s2| |s2 m2 e2], z as [s3|s3| |s3 m3 e3];
    try destruct s1; try destruct s2; try destruct s3; try done.
  all: change (Pcompare ?a ?b Eq) with (Pos.compare a b).
  all: destruct (Z.compare_spec e1 e2), (Z.compare_spec e2 e3), (Z.compare_spec e1 e3);
    try done; try lia.
  all: destruct (Pos.compare_spec m1 m2), (Pos.compare_spec m2 m3), (Pos.compare_spec m1 m3);
    simpl; try done; try lia.
Qed.
