(* ===== verification/GoNum.v ===== *)
(** * Reading, rounding and printing floats: [strconv.ParseFloat],
    [math.Round], the conversions to integers, and the verb [%.1f]

    Every function computes on exact integers and rounds once, as the Go
    functions are specified to do. *)
From Stdlib Require Import ZArith Lia Ascii SpecFloat.
From stdpp Require Import base tactics option list numbers strings pretty.
From S2P Require Import Prelude GoStrings GoFloat.

Open Scope Z_scope.

(** ** [strconv.ParseFloat(s, 64)] *)

Definition lower (c : ascii) : ascii :=
  let n := Z.of_N (N_of_ascii c) in
  if (65 <=? n) && (n <=? 90) then ascii_of_N (Z.to_N (n + 32)) else c.

Fixpoint lower_string (s : string) : string :=
  match s with
  | EmptyString => EmptyString
  | String c s' => String (lower c) (lower_string s')
  end.

(** A digit in base 10 or 16. *)
Definition base_digit (base : Z) (c : ascii) : option Z :=
  match digit c with
  | Some d => Some d
  | None =>
      let n := Z.of_N (N_of_ascii (lower c)) in
      if (base =? 16) && (97 <=? n) && (n <=? 102) then Some (n - 87) else None
  end.

(** [m / 2^-e] and [m / 10^-e] correctly rounded, for a natural [m]. *)
Definition scale2 (neg : bool) (m e : Z) : float64 := binary_normalize 53 1024 (if neg then - m else m) e neg.

Definition scale10 (neg : bool) (m e : Z) : float64 :=
  match m with
  | Zpos p =>
      if 0 <=? e then scale2 neg (m * 10 ^ e) 0 else
      match 10 ^ (- e) with
      | Zpos q => fdiv (S754_finite neg p 0) (S754_finite false q 0)
      | _ => S754_nan
      end
  | _ => S754_zero neg
  end.

(** The mantissa from [s] on: its value, the digits behind the point, whether a
    point, a digit, an underscore was seen, and the rest of the input. *)
Fixpoint read_mantissa (base : Z) (dot dig und : bool) (m frac : Z) (s : string)
    : bool * bool * Z * Z * string :=
  match s with
  | EmptyString => (dig, und, m, frac, s)
  | String c s' =>
      if bool_decide (c = "_"%char) then read_mantissa base dot dig true m frac s'
      else if bool_decide (c = "."%char) then
        if dot then (dig, und, m, frac, s) else read_mantissa base true dig und m frac s'
      else match base_digit base c with
           | Some d => read_mantissa base dot true und (m * base + d)
                         (if dot then frac + 1 else frac) s'
           | None => (dig, und, m, frac, s)
           end
  end.

(** The digits of the exponent; it stops growing at ten thousand. *)
Fixpoint read_exp (und : bool) (e : Z) (s : string) : option (bool * Z) :=
  match s with
  | EmptyString => Some (und, e)
  | String c s' =>
      if bool_decide (c = "_"%char) then read_exp true e s'
      else match digit c with
           | Some d => read_exp und (if e <? 10000 then e * 10 + d else e) s'
           | None => None
           end
  end.

Definition read_exponent (und : bool) (s : string) : option (bool * Z) :=
  let '(sgn, ds) := match s with
                    | String "+" s' => (1, s')
                    | String "-" s' => (-1, s')
                    | _ => (1, s)
                    end in
  match ds with
  | String c _ => match digit c with
                  | Some _ => '(u, e) ← read_exp und 0 ds; Some (u, sgn * e)
                  | None => None
                  end
  | EmptyString => None
  end.

(** [underscoreOK], without the sign: an underscore stands between digits, or
    between the base prefix and a digit.  [prev]: 0 at the start, 1 after a
    digit, 2 after an underscore, 3 after anything else. *)
Fixpoint underscores_ok (hex : bool) (prev : Z) (s : string) : bool :=
  match s with
  | EmptyString => negb (prev =? 2)
  | String c s' =>
      match base_digit (if hex then 16 else 10) c with
      | Some _ => underscores_ok hex 1 s'
      | None =>
          if bool_decide (c = "_"%char) then (prev =? 1) && underscores_ok hex 2 s'
          else negb (prev =? 2) && underscores_ok hex 3 s'
      end
  end.

Definition is_finite (x : float64) : bool :=
  match x with S754_zero _ | S754_finite _ _ _ => true | _ => false end.

(** A number without its sign; [None] is [ErrSyntax] or [ErrRange]. *)
Definition parse_unsigned (neg : bool) (s : string) : option float64 :=
  let '(hex, body) :=
    match s with
    | String "0" (String x (String c t)) =>
        if bool_decide (lower x = "x"%char) then (true, String c t) else (false, s)
    | _ => (false, s)
    end in
  let '(dig, und, m, frac, rest) :=
    read_mantissa (if hex then 16 else 10) false false false 0 0 body in
  if negb dig then None else
  '(und', e) ←
    match rest with
    | EmptyString => if hex then None else Some (und, 0)
    | String c t =>
        if bool_decide (lower c = (if hex then "p" else "e")%char) then read_exponent und t
        else None
    end;
  if und' && negb (underscores_ok hex (if hex then 1 else 0) body) then None else
  let x := if hex then scale2 neg m (e - 4 * frac) else scale10 neg m (e - frac) in
  if is_finite x then Some x else None.

Definition special (neg : bool) (s : string) : option float64 :=
  let l := lower_string s in
  if bool_decide (l = "inf") || bool_decide (l = "infinity") then Some (S754_infinity neg)
  else None.

Definition ParseFloat (s : string) : option float64 :=
  let '(neg, sgn, t) := match s with
                      | String "+" t => (false, true, t)
                      | String "-" t => (true, true, t)
                      | _ => (false, false, s)
                      end in
  match special neg t with
  | Some x => Some x
  | None =>
      if negb sgn && bool_decide (lower_string t = "nan") then Some S754_nan
      else parse_unsigned neg t
  end.

(** ** Rounding and conversion *)

(** What [int(x)] gives when [x] is not in range: the language leaves it to the
    implementation. *)
Class IntConversion : Type := out_of_range : float64 → Z.

(** [math.Round] as an integer, halves away from zero; [None] for NaN and
    infinities. *)
Definition Round (x : float64) : option Z :=
  match x with
  | S754_zero _ => Some 0
  | S754_finite s m e =>
      let r := if 0 <=? e then Zpos m * 2 ^ e
               else (2 * Zpos m + 2 ^ (- e)) / 2 ^ (- e + 1) in
      Some (if s then - r else r)
  | _ => None
  end.

(** [int(math.Round(x))] and [int64(math.Round(x))]. *)
Definition round_to_int `{!IntConversion} (x : float64) : Z :=
  match Round x with
  | Some z => if decide (int64 z) then z else out_of_range x
  | None => out_of_range x
  end.

(** ** [fmt.Sprintf] with the verb [%.1f] *)

(** The tenths of [m * 2^e], halves to even. *)
Definition tenths (m : positive) (e : Z) : Z :=
  if 0 <=? e then 10 * Zpos m * 2 ^ e else
  let q := (10 * Zpos m) / 2 ^ (- e) in
  let r := (10 * Zpos m) mod 2 ^ (- e) in
  match Z.compare (2 * r) (2 ^ (- e)) with
  | Lt => q
  | Gt => q + 1
  | Eq => if Z.even q then q else q + 1
  end.

Definition Sprintf_1f (x : float64) : string :=
  let sign (s : bool) : string := if s then "-" else EmptyString in
  match x with
  | S754_zero s => sign s +:+ "0.0"
  | S754_finite s m e =>
      let t := tenths m e in sign s +:+ Itoa (t / 10) +:+ "." +:+ Itoa (t mod 10)
  | S754_infinity s => if s then "-Inf" else "+Inf"
  | S754_nan => "NaN"
  end.

(** ** Samples *)

Definition pf (s : string) : option string := Sprintf_1f <$> ParseFloat s.

Example ParseFloat_ok :
  map pf ["0"; "12"; "-1.25"; ".5"; "5."; "1e3"; "1.5E-1"; "0x1p-2"; "0X1.8p1"; "+Inf"; "nan";
          "1_000.0"; "-0"] =
  [Some "0.0"; Some "12.0"; Some "-1.2"; Some "0.5"; Some "5.0"; Some "1000.0"; Some "0.1";
   Some "0.2"; Some "3.0"; Some "+Inf"; Some "NaN"; Some "1000.0"; Some "-0.0"].
Proof. vm_compute. reflexivity. Qed.

Example ParseFloat_bad :
  map pf [""; "."; "e5"; "1e"; "1e+"; "0x1"; "1__0"; "_1"; "1_"; "1e400"; "+nan"; "12a"; " 1"] =
  replicate 13 None.
Proof. vm_compute. reflexivity. Qed.

(** 0.1 + the nearest doubles around a halfway case. *)
Example ParseFloat_rounding :
  ParseFloat "9007199254740993" = ParseFloat "9007199254740992" ∧
  ParseFloat "9007199254740995" = ParseFloat "9007199254740996" ∧
  ParseFloat "0.1" = Some (S754_finite false 7205759403792794 (-56)) ∧
  ParseFloat "1e-400" = Some (S754_zero false).
Proof. vm_compute. auto. Qed.

Example Round_ok :
  map (λ s, ParseFloat s ≫= Round) ["0.5"; "-0.5"; "2.4999"; "1e17"; "-7.5"] =
  [Some 1; Some (-1); Some 2; Some 100000000000000000; Some (-8)].
Proof. vm_compute. reflexivity. Qed.

(** ** Integers up to 2^53 are exact *)

Lemma digits2_size p : digits2_pos p = Pos.size p.
Proof. induction p; simpl; congruence. Qed.

Lemma size_le_53 p : Z.pos p < 2 ^ 53 → (Z.pos (digits2_pos p) <= 53).
Proof.
  intros Hp. rewrite digits2_size.
  pose proof (Pos.size_le p) as Hs. destruct (Z.le_gt_cases (Z.pos (Pos.size p)) 53); [done|].
  assert (2 ^ 54 <= 2 ^ Z.pos (Pos.size p)) by (apply Z.pow_le_mono_r; lia).
  assert (2 ^ Z.pos (Pos.size p) <= 2 * Z.pos p) by (rewrite <- Pos2Z.inj_pow; lia).
  lia.
Qed.

Lemma digits2_shift p k : digits2_pos (Pos.iter xO p k) = (digits2_pos p + k)%positive.
Proof.
  induction k as [|k IH] using Pos.peano_ind; simpl; [lia|].
  rewrite Pos.iter_succ. simpl. rewrite IH. lia.
Qed.

Lemma shift_value p k : Z.pos (Pos.iter xO p k) = Z.pos p * 2 ^ Z.pos k.
Proof.
  induction k as [|k IH] using Pos.peano_ind; [simpl; lia|].
  rewrite Pos.iter_succ, Pos2Z.inj_xO, IH, Pos2Z.inj_succ, Z.pow_succ_r by lia. lia.
Qed.

(** A mantissa that has its canonical exponent is left as it is. *)
Lemma round_canonical s m e :
  fexp 53 1024 (Z.pos (digits2_pos m) + e) = e → e <= 971 →
  binary_round_aux 53 1024 s (Z.pos m) e loc_Exact = S754_finite s m e.
Proof.
  intros Hf He. unfold binary_round_aux, shr_fexp. simpl Zdigits2.
  replace (fexp 53 1024 (Z.pos (digits2_pos m) + e)) with e by (symmetry; exact Hf).
  change (Z.sub e e) with (e - e). rewrite Z.sub_diag. simpl.
  replace (fexp 53 1024 _) with e by (symmetry; exact Hf).
  rewrite Z.sub_diag. cbn [shr shr_m]. change (1024 - 53) with 971.
  destruct (Z.leb_spec e 971); [done|lia].
Qed.

Lemma float_of_pos p :
  Z.pos p < 2 ^ 53 →
  ∃ m e, float_of_int (Z.pos p) = S754_finite false m e ∧ Round (S754_finite false m e) = Some (Z.pos p).
Proof.
  intros Hp. pose proof (size_le_53 p Hp) as Hd. unfold float_of_int, binary_normalize, binary_round.
  change (Z.add (Z.pos (digits2_pos p)) 0) with (Z.pos (digits2_pos p) + 0).
  assert (fexp 53 1024 (Z.pos (digits2_pos p) + 0) = Z.pos (digits2_pos p) - 53) as Hf.
  { unfold fexp, emin. change (Z.max (Z.pos (digits2_pos p) + 0 - 53) (-1074) =
      Z.pos (digits2_pos p) - 53). lia. }
  rewrite Hf. unfold shl_align.
  replace (Z.sub (Z.pos (digits2_pos p) - 53) 0) with (Z.pos (digits2_pos p) - 53)
    by (change Z.sub with Z.sub; lia).
  destruct (Z.pos (digits2_pos p) - 53) as [|q|k] eqn:E; [|lia|].
  - exists p, 0. rewrite round_canonical; [|unfold fexp, emin;
      change (Z.max (Z.pos (digits2_pos p) + 0 - 53) (-1074) = 0); lia|lia].
    split; [done|]. simpl. f_equal. lia.
  - exists (Pos.iter xO p k), (Z.neg k). rewrite round_canonical; [| |lia].
    + split; [done|]. unfold Round. rewrite shift_value.
      destruct (Z.leb_spec 0 (Z.neg k)); [lia|]. change (- Z.neg k) with (Z.pos k).
      replace (2 * (Z.pos p * 2 ^ Z.pos k) + 2 ^ Z.pos k)
        with ((2 * Z.pos p + 1) * 2 ^ Z.pos k) by lia.
      rewrite Z.pow_add_r, (Z.mul_comm (2 ^ Z.pos k)) by lia.
      rewrite Z.div_mul_cancel_r by (try apply Z.pow_nonzero; lia).
      f_equal. symmetry. apply (Z.div_unique _ _ _ 1); lia.
    + rewrite digits2_shift. unfold fexp, emin.
      change (Z.max (Z.pos (digits2_pos p + k) + Z.neg k - 53) (-1074) = Z.neg k). lia.
Qed.

Lemma Round_float_of_int n :
  0 <= n < 2 ^ 53 → is_finite (float_of_int n) = true ∧ Round (float_of_int n) = Some n.
Proof.
  intros Hn. destruct n as [|p|p]; [done| |lia].
  by destruct (float_of_pos p) as (m & e & -> & ?); [lia|].
Qed.

(** ** Parsing what [%d] prints *)

Fixpoint all_digits (s : string) : Prop :=
  match s with
  | EmptyString => True
  | String c s' => is_Some (digit c) ∧ all_digits s'
  end.

Lemma digits_all_digits s acc z : digits s acc = Some z → all_digits s.
Proof.
  revert acc. induction s as [|c s IH]; intros acc; simpl; [done|].
  destruct (digit c); [|done]. intros Hd. split; [done|by eapply IH].
Qed.

(** What holds of the ten digits holds of every digit. *)
Lemma digit_ind (Q : ascii → Prop) c :
  is_Some (digit c) → Forall Q ["0"; "1"; "2"; "3"; "4"; "5"; "6"; "7"; "8"; "9"]%char → Q c.
Proof.
  intros [d Hd] HQ. repeat (apply Forall_cons in HQ as [? HQ]).
  by destruct c as [[] [] [] [] [] [] [] []].
Qed.

Lemma read_mantissa_digits s dig m z :
  digits s m = Some z → s ≠ "" →
  read_mantissa 10 false dig false m 0 s = (true, false, z, 0, "").
Proof.
  revert dig m. induction s as [|c s IH]; intros dig m Hd Hne; [done|]. simpl in Hd |- *.
  destruct (digit c) as [d|] eqn:Hc; [|done].
  assert (c ≠ "_"%char ∧ c ≠ "."%char) as [Hu Hp] by (split; intros ->; done).
  rewrite !bool_decide_false by done. unfold base_digit. rewrite Hc.
  rewrite (Z.mul_comm m). destruct s as [|c' s]; [by injection Hd as ->|by apply IH].
Qed.

Lemma lower_digit c :
  is_Some (digit c) →
  lower c = c ∧ c ≠ "x"%char ∧ c ≠ "i"%char ∧ c ≠ "n"%char ∧ c ≠ "+"%char ∧ c ≠ "-"%char.
Proof. intros Hc. pattern c. apply digit_ind; [done|]. repeat constructor; done. Qed.

Lemma special_digit neg c t : is_Some (digit c) → special neg (String c t) = None.
Proof.
  intros (Hl & _ & Hi & _)%lower_digit. unfold special. simpl. rewrite Hl.
  rewrite !bool_decide_false by congruence. done.
Qed.

Lemma parse_unsigned_digits neg s z :
  digits s 0 = Some z → s ≠ "" →
  parse_unsigned neg s = (let x := scale10 neg z 0 in if is_finite x then Some x else None).
Proof.
  intros Hd Hne. pose proof (digits_all_digits _ _ _ Hd) as Hall.
  pose proof (read_mantissa_digits s false 0 z Hd Hne) as Hm. unfold parse_unsigned.
  assert (match s with
    | String "0" (String x (String c t)) =>
        if bool_decide (lower x = "x"%char) then (true, String c t) else (false, s)
    | _ => (false, s)
    end = (false, s)) as ->; [|by rewrite Hm].
  destruct s as [|a [|b [|c t]]]; [done|by destruct a as [[] [] [] [] [] [] [] []]..|].
  destruct Hall as (_ & Hb & _). apply lower_digit in Hb as (-> & Hx & _).
  rewrite bool_decide_false by done. by destruct a as [[] [] [] [] [] [] [] []].
Qed.

Lemma ParseFloat_unsigned s z :
  digits s 0 = Some z → s ≠ "" → ParseFloat s = parse_unsigned false s.
Proof.
  intros Hd Hne. pose proof (digits_all_digits _ _ _ Hd) as Hall.
  destruct s as [|c t]; [done|]. destruct Hall as [Hc _].
  pose proof (special_digit false c t Hc) as Hs.
  destruct (lower_digit c Hc) as (Hl & _ & _ & Hn & Hplus & Hminus).
  unfold ParseFloat.
  assert (match String c t with
    | String "+" t => (false, true, t)
    | String "-" t => (true, true, t)
    | _ => (false, false, String c t)
    end = (false, false, String c t)) as ->
    by by destruct c as [[] [] [] [] [] [] [] []].
  rewrite Hs. simpl. by rewrite Hl, bool_decide_false by congruence.
Qed.

Lemma pretty_N_nonempty (x : N) : pretty x ≠ "".
Proof. intros E. pose proof (parse_uint_pretty x) as Hp. by rewrite E in Hp. Qed.

(** A counter below 2^53 survives being printed, read and rounded. *)
Lemma ParseFloat_Itoa n :
  0 <= n < 2 ^ 53 → ∃ x, ParseFloat (Itoa n) = Some x ∧ Round x = Some n.
Proof.
  intros Hn. destruct (Round_float_of_int n Hn) as [Hf Hr].
  assert (Itoa n = pretty (Z.to_N n)) as -> by (unfold Itoa; by destruct n as [|p|p]; [| |lia]).
  exists (float_of_int n).
  rewrite (ParseFloat_unsigned _ (Z.of_N (Z.to_N n))), (parse_unsigned_digits _ _ (Z.of_N (Z.to_N n)))
    by (apply digits_pretty_N || apply pretty_N_nonempty).
  rewrite Z2N.id by lia. split; [|done].
  assert (scale10 false n 0 = float_of_int n) as ->; [|simpl; by rewrite Hf].
  unfold scale10, scale2, float_of_int. destruct n as [|p|p]; [done| |lia].
  simpl. by rewrite Pos.mul_1_r.
Qed.
