(* ===== verification/GoShortest.v ===== *)
(** * Printing floats: [encoding/json] of a [float64]

    [strconv.AppendFloat] with precision -1 prints the fewest digits that
    [ParseFloat] reads back as the same float, and of these the nearest decimal.
    That is how it is defined here: by search, with the reading function of
    [GoNum].  Seventeen digits are enough for every float; the search ends with
    the exact decimal, so that nothing depends on this fact. *)
From Stdlib Require Import ZArith Lia Ascii SpecFloat.
From stdpp Require Import base tactics option list numbers strings pretty.
From S2P Require Import Prelude GoStrings GoFloat GoNum.

Open Scope Z_scope.

(** ** The digits *)

(** [m * 2^e] as a fraction. *)
Definition fraction (m : positive) (e : Z) : Z * Z :=
  if 0 <=? e then (Zpos m * 2 ^ e, 1) else (Zpos m, 2 ^ (- e)).

Definition times10 (k : Z) (x : Z * Z) : Z * Z :=
  if 0 <=? k then (x.1 * 10 ^ k, x.2) else (x.1, x.2 * 10 ^ (- k)).

(** [x < 10^k]. *)
Definition below10 (x : Z * Z) (k : Z) : bool := let '(a, b) := times10 (- k) x in a <? b.

(** The least [k] with [x < 10^k]: an estimate from the binary logarithm, and at
    most two steps up. *)
Definition decimal_point (m : positive) (e : Z) : Z :=
  let x := fraction m e in
  let k := (Z.log2 (Zpos m) + e) * 1233 / 4096 in
  if below10 x k then k else if below10 x (k + 1) then k + 1 else k + 2.

(** A decimal [d * 10^q] without zeros at its end. *)
Fixpoint trim_zeros (fuel : nat) (d q : Z) : Z * Z :=
  match fuel with
  | O => (d, q)
  | S f => if (0 <? d) && (d mod 10 =? 0) then trim_zeros f (d / 10) (q + 1) else (d, q)
  end.

(** The decimals with [n] digits around the float, without zero, the nearer one
    first; [k] is its decimal point. *)
Definition nearest_decimals (m : positive) (e k : Z) (n : nat) : list (Z * Z) :=
  let q := k - Z.of_nat n in
  let '(a, b) := times10 (- q) (fraction m e) in
  let d := a / b in
  filter (λ x, 0 < x.1)
    (map (λ d, trim_zeros n d q) (if 2 * (a mod b) <=? b then [d; d + 1] else [d + 1; d])).

(** ** The text *)

Fixpoint zeros (n : nat) : string :=
  match n with O => EmptyString | S n => String "0" (zeros n) end.

Fixpoint split_at (n : nat) (s : string) : string * string :=
  match n, s with
  | S n, String c s => let '(a, b) := split_at n s in (String c a, b)
  | _, _ => (EmptyString, s)
  end.

(** The decimal [d * 10^q], with an exponent ([AppendFloat] with ['e'], its
    exponent as [encoding/json] rewrites it) or without (['f']). *)
Definition decimal_text (expo : bool) (d q : Z) : string :=
  let ds := Itoa d in
  let nd := String.length ds in
  if expo then
    let '(a, b) := split_at 1 ds in
    let x := Z.of_nat nd - 1 + q in
    a +:+ (if bool_decide (b = EmptyString) then EmptyString else "." +:+ b) +:+
    "e" +:+ (if x <? 0 then Itoa x else "+" +:+ Itoa x)
  else if 0 <=? q then ds +:+ zeros (Z.to_nat q)
  else if - q <? Z.of_nat nd then
    let '(a, b) := split_at (Z.to_nat (Z.of_nat nd + q)) ds in a +:+ "." +:+ b
  else "0." +:+ zeros (Z.to_nat (- q - Z.of_nat nd)) +:+ ds.

Definition million_th : float64 := S754_finite false 4722366482869645 (-72).
Definition e21 : float64 := S754_finite false 7629394531250000 17.

(** A text that is read as the float. *)
Definition reads_back (m : positive) (e : Z) (t : string) : bool :=
  match ParseFloat t with
  | Some (S754_finite false m' e') => bool_decide (m' = m) && (e' =? e)
  | _ => false
  end.

(** The text of the first decimal that is read as the float, with [n] digits or
    more. *)
Fixpoint search (expo : bool) (m : positive) (e k : Z) (fuel n : nat) : option string :=
  match fuel with
  | O => None
  | S f =>
      let texts := map (λ x, decimal_text expo x.1 x.2) (nearest_decimals m e k n) in
      match filter (λ t, reads_back m e t = true) texts with
      | t :: _ => Some t
      | [] => search expo m e k f (S n)
      end
  end.

(** The float as an exact decimal. *)
Definition exact_decimal (m : positive) (e : Z) : Z * Z :=
  if 0 <=? e then (Zpos m * 2 ^ e, 0) else (Zpos m * 5 ^ (- e), e).

Definition shortest (m : positive) (e : Z) : string :=
  let abs := S754_finite false m e in
  let expo := flt abs million_th || negb (flt abs e21) in
  match search expo m e (decimal_point m e) 17 1 with
  | Some t => t
  | None => let '(d, q) := exact_decimal m e in decimal_text false d q
  end.

(** [floatEncoder]; the floats that it refuses have no text. *)
Definition float_text (x : float64) : option string :=
  match x with
  | S754_zero s => Some (if s then "-0" else "0")
  | S754_finite s m e => Some ((if s then "-" else EmptyString) +:+ shortest m e)
  | _ => None
  end.

Definition ft (s : string) : option string := ParseFloat s ≫= float_text.

Example float_text_ok :
  map ft ["0"; "-0"; "0.1"; "-12.50"; "1e21"; "1e20"; "5e-324"; "0.000001"; "1e-7"; "100";
          "9007199254740993"; "0.3"; "1e23"; "99.95"; "0.05"; "inf"] =
  [Some "0"; Some "-0"; Some "0.1"; Some "-12.5"; Some "1e+21"; Some "100000000000000000000";
   Some "5e-324"; Some "0.000001"; Some "1e-7"; Some "100"; Some "9007199254740992"; Some "0.3";
   Some "1e+23"; Some "99.95"; Some "0.05"; None].
Proof. vm_compute. reflexivity. Qed.

(** ** Every float is read back *)

(** Zeros at the end of the mantissa are shifted out. *)
Lemma shr_zeros p x :
  SpecFloat.iter_pos shr_1 p {| shr_m := Zpos x * 2 ^ Zpos p; shr_r := false; shr_s := false |} =
  {| shr_m := Zpos x; shr_r := false; shr_s := false |}.
Proof.
  assert (∀ y, shr_1 {| shr_m := Zpos y * 2; shr_r := false; shr_s := false |} =
    {| shr_m := Zpos y; shr_r := false; shr_s := false |}) as H1.
  { intros y. replace (Zpos y * 2) with (Zpos (xO y)) by lia. done. }
  revert x. induction p as [p IH|p IH|]; intros x; cbn [SpecFloat.iter_pos].
  - assert (∃ y, Zpos y = Zpos x * 2 ^ Zpos p) as [y Hy]
      by (exists (x * 2 ^ p)%positive; rewrite Pos2Z.inj_mul, Pos2Z.inj_pow; done).
    assert (∃ z, Zpos z = Zpos y * 2 ^ Zpos p) as [z Hz]
      by (exists (y * 2 ^ p)%positive; rewrite Pos2Z.inj_mul, Pos2Z.inj_pow; done).
    replace (Zpos x * 2 ^ Zpos (xI p)) with (Zpos z * 2).
    + rewrite H1, Hz, IH, Hy. apply IH.
    + rewrite Hz, Hy. assert (Zpos (xI p) = Zpos p + Zpos p + 1) as -> by lia.
      rewrite !Z.pow_add_r by lia. lia.
  - assert (∃ y, Zpos y = Zpos x * 2 ^ Zpos p) as [y Hy]
      by (exists (x * 2 ^ p)%positive; rewrite Pos2Z.inj_mul, Pos2Z.inj_pow; done).
    replace (Zpos x * 2 ^ Zpos (xO p)) with (Zpos y * 2 ^ Zpos p).
    + rewrite IH, Hy. apply IH.
    + rewrite Hy. assert (Zpos (xO p) = Zpos p + Zpos p) as -> by lia.
      rewrite Z.pow_add_r by lia. lia.
  - apply H1.
Qed.

Lemma digits2_pow x j : 0 <= j → Zdigits2 (Zpos x * 2 ^ j) = Zpos (digits2_pos x) + j.
Proof.
  intros Hj. destruct j as [|p|p]; [|clear Hj|lia].
  - by rewrite Z.pow_0_r, Z.mul_1_r, Z.add_0_r.
  - rewrite <- shift_value. unfold Zdigits2. rewrite digits2_shift. lia.
Qed.

(** A float is in the form that rounding gives it. *)
Definition canonical (m : positive) (e : Z) : Prop :=
  fexp 53 1024 (Zpos (digits2_pos m) + e) = e ∧ e <= 971.

Lemma round_shifted s m e j :
  canonical m e → 0 <= j →
  binary_round_aux 53 1024 s (Zpos m * 2 ^ j) (e - j) loc_Exact = S754_finite s m e.
Proof.
  intros [Hf He] Hj. rewrite <- (round_canonical s m e Hf He).
  assert (shr_fexp 53 1024 (Zpos m * 2 ^ j) (e - j) loc_Exact = shr_fexp 53 1024 (Zpos m) e loc_Exact)
    as E; [|by unfold binary_round_aux; rewrite E].
  unfold shr_fexp. rewrite digits2_pow by done.
  change (Zdigits2 (Zpos m)) with (Zpos (digits2_pos m)).
  change (Z.add (Z.pos (digits2_pos m) + j) (e - j)) with (Z.pos (digits2_pos m) + j + (e - j)).
  replace (Z.pos (digits2_pos m) + j + (e - j)) with (Z.pos (digits2_pos m) + e) by lia.
  rewrite Hf. change (Z.sub e (e - j)) with (e - (e - j)). replace (e - (e - j)) with j by lia.
  change (Z.sub e e) with (e - e). rewrite Z.sub_diag. unfold shr_record_of_loc, shr.
  destruct j as [|p|p]; [by rewrite Z.mul_1_r, Z.sub_0_r| |lia].
  rewrite shr_zeros. f_equal. change (Z.add (e - Z.pos p) (Z.pos p)) with (e - Z.pos p + Z.pos p). lia.
Qed.

Lemma digits2_bounds p : 2 ^ (Zpos (digits2_pos p) - 1) <= Zpos p < 2 ^ Zpos (digits2_pos p).
Proof.
  rewrite digits2_size. split.
  - pose proof (Pos.size_le p) as Hs. rewrite <- (Pos2Z.inj_pow 2), <- Pos2Z.inj_xO in Hs || idtac.
    assert (2 ^ Zpos (Pos.size p) <= 2 * Zpos p) as Hs' by (rewrite <- Pos2Z.inj_pow; lia).
    replace (Zpos (Pos.size p)) with (Zpos (Pos.size p) - 1 + 1) in Hs' by lia.
    rewrite Z.pow_add_r in Hs' by lia. lia.
  - pose proof (Pos.size_gt p). rewrite <- Pos2Z.inj_pow. lia.
Qed.

Lemma fexp_mono a b : a <= b → fexp 53 1024 a <= fexp 53 1024 b.
Proof.
  intros Hab. unfold fexp. change (Z.max (a - 53) (emin 53 1024) <= Z.max (b - 53) (emin 53 1024)). lia.
Qed.

Lemma new_location_exact n : new_location n 0 = loc_Exact.
Proof. unfold new_location. by destruct (Z.even n). Qed.

(** A quotient that is a float is computed exactly. *)
Lemma fdiv_exact s m1 m2 m e :
  canonical m e → e <= 0 → Zpos m1 * 2 ^ (- e) = Zpos m * Zpos m2 →
  fdiv (S754_finite s m1 0) (S754_finite false m2 0) = S754_finite s m e.
Proof.
  intros Hc He Hq. unfold fdiv, SFdiv. rewrite xorb_false_r.
  unfold SFdiv_core_binary. cbn [Zdigits2].
  set (e' := Z.min (fexp 53 1024 (Z.pos (digits2_pos m1) + 0 - (Z.pos (digits2_pos m2) + 0))) (0 - 0)).
  assert (e' <= e) as He'.
  { assert (Zpos (digits2_pos m1) - Zpos (digits2_pos m2) <= Zpos (digits2_pos m) + e) as Hd.
    { pose proof (digits2_bounds m1) as [Hb1 _]. pose proof (digits2_bounds m2) as [_ Hb2].
      pose proof (digits2_bounds m) as [_ Hb].
      assert (2 ^ (Zpos (digits2_pos m1) - 1 + - e) < 2 ^ (Zpos (digits2_pos m) + Zpos (digits2_pos m2)));
        [|apply Z.pow_lt_mono_r_iff in H; lia].
      rewrite !Z.pow_add_r by lia. nia. }
    apply fexp_mono in Hd. destruct Hc as [Hf _]. rewrite Hf in Hd. unfold e'.
    replace (Z.pos (digits2_pos m1) + 0 - (Z.pos (digits2_pos m2) + 0))
      with (Zpos (digits2_pos m1) - Zpos (digits2_pos m2)) by lia. lia. }
  assert (e' <= 0) as He0 by lia. change (0 - 0 - e') with (0 - e'). rewrite Z.sub_0_l.
  assert (match - e' with 0 => Zpos m1 | Zpos _ => Z.shiftl (Zpos m1) (- e') | Zneg _ => 0 end =
    Zpos m * 2 ^ (e - e') * Zpos m2) as ->.
  { transitivity (Zpos m1 * 2 ^ (- e')).
    - destruct (- e') as [|p|p] eqn:E; [lia| |lia]. by rewrite Z.shiftl_mul_pow2 by lia.
    - replace (- e') with (- e + (e - e')) by lia. rewrite Z.pow_add_r by lia. nia. }
  pose proof (Z.div_eucl_eq (Zpos m * 2 ^ (e - e') * Zpos m2) (Zpos m2) ltac:(lia)) as Heq.
  pose proof (Z.div_mul (Zpos m * 2 ^ (e - e')) (Zpos m2) ltac:(lia)) as Hdiv.
  pose proof (Z.mod_mul (Zpos m * 2 ^ (e - e')) (Zpos m2) ltac:(lia)) as Hmod.
  unfold Z.div in Hdiv. unfold Z.modulo in Hmod.
  destruct (Z.div_eucl _ _) as [q r]. subst q r. rewrite new_location_exact.
  replace e' with (e - (e - e')) at 2 by lia. apply round_shifted; [done|lia].
Qed.

Lemma SFopp_round sx mx ex lx :
  binary_round_aux 53 1024 (negb sx) mx ex lx = SFopp (binary_round_aux 53 1024 sx mx ex lx).
Proof.
  unfold binary_round_aux. destruct (shr_fexp _ _ mx ex lx) as [mrs e1].
  destruct (shr_fexp _ _ _ e1 _) as [mrs' e2]. destruct (shr_m mrs') as [|p|p]; [done| |done].
  by destruct (_ <=? _).
Qed.

Lemma SFopp_round_pos sx m e : binary_round 53 1024 (negb sx) m e = SFopp (binary_round 53 1024 sx m e).
Proof. unfold binary_round. destruct (shl_align _ _ _). apply SFopp_round. Qed.

Lemma scale2_opp neg m e : scale2 (negb neg) m e = SFopp (scale2 neg m e).
Proof.
  unfold scale2, binary_normalize. destruct m as [|p|p], neg; try done.
  - exact (SFopp_round_pos true p e).
  - exact (SFopp_round_pos false p e).
  - exact (SFopp_round_pos false p e).
  - exact (SFopp_round_pos true p e).
Qed.

Lemma scale10_opp neg m e : scale10 (negb neg) m e = SFopp (scale10 neg m e).
Proof.
  unfold scale10. destruct m as [|p|p]; [done| |done]. destruct (0 <=? e); [apply scale2_opp|].
  destruct (10 ^ (- e)) as [|q|q]; [done| |done]. unfold fdiv, SFdiv. rewrite !xorb_false_r.
  destruct (SFdiv_core_binary _ _ _ _ _ _) as [[mz ez] lz]. apply SFopp_round.
Qed.

(** The exact decimal is read as the float. *)
Lemma scale10_exact m e :
  canonical m e →
  let '(d, q) := exact_decimal m e in 0 < d ∧ scale10 false d q = S754_finite false m e.
Proof.
  intros Hc. unfold exact_decimal. destruct (Z.leb_spec 0 e) as [He|He].
  - assert (0 < Zpos m * 2 ^ e) as Hd by (pose proof (Z.pow_pos_nonneg 2 e); lia). split; [done|].
    unfold scale10. destruct (Zpos m * 2 ^ e) as [|p|p] eqn:E; [lia| |lia].
    rewrite Z.leb_refl, Z.pow_0_r, Z.mul_1_r. unfold scale2, binary_normalize, binary_round.
    assert (Zpos (digits2_pos p) = Zpos (digits2_pos m) + e) as Hp.
    { change (Zpos (digits2_pos p)) with (Zdigits2 (Zpos p)). by rewrite <- E, digits2_pow. }
    change (Z.add (Z.pos (digits2_pos p)) 0) with (Z.pos (digits2_pos p) + 0).
    rewrite Z.add_0_r, Hp. destruct Hc as [Hf He']. rewrite Hf.
    assert (shl_align p 0 e = (p, 0)) as ->.
    { unfold shl_align. change (Z.sub e 0) with (e - 0). rewrite Z.sub_0_r. by destruct e; [| |lia]. }
    rewrite <- E. pose proof (round_shifted false m e e (conj Hf He') He) as Hr.
    by rewrite Z.sub_diag in Hr.
  - assert (0 < Zpos m * 5 ^ (- e)) as Hd by (pose proof (Z.pow_pos_nonneg 5 (- e)); lia). split; [done|].
    unfold scale10. destruct (Zpos m * 5 ^ (- e)) as [|p|p] eqn:E; [lia| |lia].
    destruct (Z.leb_spec 0 e); [lia|].
    assert (0 < 10 ^ (- e)) as H10 by (apply Z.pow_pos_nonneg; lia).
    destruct (10 ^ (- e)) as [|t|t] eqn:Et; [lia| |lia].
    apply fdiv_exact; [done|lia|]. rewrite <- E, <- Et.
    replace 10 with (5 * 2) by lia. rewrite Z.pow_mul_l. lia.
Qed.

(** ** Reading the text *)

Lemma read_mantissa_app dot dig m frac s z r :
  digits s m = Some z →
  read_mantissa 10 dot dig false m frac (s +:+ r) =
  read_mantissa 10 dot (dig || negb (bool_decide (s = EmptyString))) false z
    (if dot then frac + Z.of_nat (String.length s) else frac) r.
Proof.
  revert dig m frac. induction s as [|c s IH]; intros dig m frac Hd.
  - injection Hd as ->. simpl. rewrite orb_false_r. by destruct dot; rewrite ?Z.add_0_r.
  - change (String c s +:+ r) with (String c (s +:+ r)). cbn [digits] in Hd. cbn [read_mantissa].
    destruct (digit c) as [d|] eqn:Hc; [|done].
    assert (c ≠ "_"%char ∧ c ≠ "."%char) as [Hu Hp] by (split; intros ->; done).
    rewrite !bool_decide_false by done. unfold base_digit. rewrite Hc, (Z.mul_comm m).
    rewrite (IH true _ _ Hd). rewrite orb_true_r. cbn [orb String.length].
    destruct dot; [|done]. f_equal. lia.
Qed.

Lemma digits_zeros n m : digits (zeros n) m = Some (m * 10 ^ Z.of_nat n).
Proof.
  revert m. induction n as [|n IH]; intros m; [simpl; f_equal; lia|].
  cbn [zeros digits]. change (digit "0") with (Some 0). cbv iota. rewrite IH. f_equal.
  rewrite Nat2Z.inj_succ, Z.pow_succ_r by lia. lia.
Qed.

Lemma zeros_length n : String.length (zeros n) = n.
Proof. induction n as [|n IH]; [done|]. simpl. by rewrite IH. Qed.

Lemma split_at_spec n s :
  (n ≤ String.length s)%nat →
  let '(a, b) := split_at n s in s = a +:+ b ∧ String.length a = n.
Proof.
  revert s. induction n as [|n IH]; intros s Hn; [done|]. destruct s as [|c s]; [simpl in Hn; lia|].
  cbn [split_at]. simpl in Hn. specialize (IH s ltac:(lia)). destruct (split_at n s) as [a b].
  destruct IH as [-> <-]. done.
Qed.

(** No digit group is in base 16. *)
Fixpoint no_x (s : string) : Prop :=
  match s with EmptyString => True | String c s => lower c ≠ "x"%char ∧ no_x s end.

Lemma no_x_app a b : no_x a → no_x b → no_x (a +:+ b).
Proof.
  induction a as [|c a IH]; [done|]. intros [Hc Ha] Hb. change (String c a +:+ b) with (String c (a +:+ b)).
  split; [done|]. by apply IH.
Qed.

Lemma no_x_digits s : all_digits s → no_x s.
Proof.
  induction s as [|c s IH]; [done|]. intros [Hc Hs]. split; [|by apply IH].
  destruct (lower_digit c Hc) as (-> & Hx & _). done.
Qed.

Lemma parse_unsigned_point neg s z frac :
  no_x s → read_mantissa 10 false false false 0 0 s = (true, false, z, frac, EmptyString) →
  parse_unsigned neg s = (let x := scale10 neg z (- frac) in if is_finite x then Some x else None).
Proof.
  intros Hx Hm. unfold parse_unsigned.
  assert (match s with
    | String "0" (String x (String c t)) =>
        if bool_decide (lower x = "x"%char) then (true, String c t) else (false, s)
    | _ => (false, s)
    end = (false, s)) as ->; [|by rewrite Hm, <- (Z.sub_0_l frac)].
  destruct s as [|a [|b [|c t]]]; [done|by destruct a as [[] [] [] [] [] [] [] []]..|].
  destruct Hx as (_ & Hb & _). rewrite bool_decide_false by done.
  by destruct a as [[] [] [] [] [] [] [] []].
Qed.

Lemma parse_unsigned_opp s : parse_unsigned true s = SFopp <$> parse_unsigned false s.
Proof.
  unfold parse_unsigned.
  destruct (match s with String "0" _ => _ | _ => _ end) as [hex body].
  destruct (read_mantissa _ _ _ _ _ _ body) as [[[[dig und] m] frac] rest].
  destruct (negb dig); [done|].
  destruct (match rest with EmptyString => _ | _ => _ end) as [[und' e]|]; [|done].
  cbn [mbind option_bind]. destruct (und' && _); [done|]. cbv zeta.
  change true with (negb false). rewrite scale2_opp, scale10_opp.
  by destruct hex; [destruct (scale2 false m _)|destruct (scale10 false m _)].
Qed.

(** A text that starts with a digit, with a sign or without. *)
Definition starts_digit (s : string) : bool :=
  match s with String c _ => bool_decide (is_Some (digit c)) | EmptyString => false end.

Lemma ParseFloat_sign s :
  starts_digit s = true →
  ParseFloat s = parse_unsigned false s ∧ ParseFloat ("-" +:+ s) = parse_unsigned true s.
Proof.
  destruct s as [|c t]; [done|]. intros Hc%bool_decide_eq_true.
  destruct (lower_digit c Hc) as (Hl & _ & _ & Hn & Hplus & Hminus). split.
  - unfold ParseFloat.
    assert (match String c t with
      | String "+" t => (false, true, t)
      | String "-" t => (true, true, t)
      | _ => (false, false, String c t)
      end = (false, false, String c t)) as ->
      by by destruct c as [[] [] [] [] [] [] [] []].
    rewrite special_digit by done. simpl. by rewrite Hl, bool_decide_false by congruence.
  - change ("-" +:+ String c t) with (String "-" (String c t)). unfold ParseFloat.
    by rewrite special_digit by done.
Qed.

Lemma Itoa_pos d : 0 < d → Itoa d = pretty (Z.to_N d) ∧ digits (Itoa d) 0 = Some d ∧ Itoa d ≠ EmptyString.
Proof.
  intros Hd. assert (Itoa d = pretty (Z.to_N d)) as E by (unfold Itoa; by destruct d as [|p|p]; [lia| |lia]).
  rewrite E. split; [done|]. split; [|apply pretty_N_nonempty]. rewrite digits_pretty_N. f_equal. lia.
Qed.

Lemma starts_digit_app a b : starts_digit a = true → starts_digit (a +:+ b) = true.
Proof. by destruct a. Qed.

Lemma all_digits_starts s : all_digits s → s ≠ EmptyString → starts_digit s = true.
Proof. destruct s; [done|]. intros [Hc _] _. by apply bool_decide_eq_true. Qed.

Lemma all_digits_app a b : all_digits (a +:+ b) → all_digits a ∧ all_digits b.
Proof.
  induction a as [|c a IH]; [done|]. change (String c a +:+ b) with (String c (a +:+ b)).
  intros [Hc Hab]. destruct (IH Hab). done.
Qed.

Lemma digits_split a b d : digits (a +:+ b) 0 = Some d → ∃ z, digits a 0 = Some z ∧ digits b z = Some d.
Proof. rewrite digits_app. destruct (digits a 0) as [z|]; [|done]. intros Hb. by exists z. Qed.

Lemma string_nonempty s : (0 < String.length s)%nat → s ≠ EmptyString.
Proof. by destruct s; [simpl; lia|]. Qed.

Lemma decimal_text_starts expo d q : 0 < d → starts_digit (decimal_text expo d q) = true.
Proof.
  intros Hd. destruct (Itoa_pos d Hd) as (_ & Hdig & Hne). unfold decimal_text.
  pose proof (digits_all_digits _ _ _ Hdig) as Hall.
  assert (0 < String.length (Itoa d))%nat as Hl by (destruct (Itoa d); [done|simpl; lia]).
  pose proof (all_digits_starts _ Hall Hne) as Hs. destruct expo.
  - pose proof (split_at_spec 1 (Itoa d) ltac:(lia)) as Hsp. destruct (split_at 1 (Itoa d)) as [a b].
    destruct Hsp as [E Ha]. rewrite E in Hall. apply all_digits_app in Hall as [Hall _].
    apply starts_digit_app, all_digits_starts; [done|]. apply string_nonempty. lia.
  - destruct (Z.leb_spec 0 q); [by apply starts_digit_app|].
    destruct (Z.ltb_spec (- q) (Z.of_nat (String.length (Itoa d)))).
    + pose proof (split_at_spec (Z.to_nat (Z.of_nat (String.length (Itoa d)) + q)) (Itoa d) ltac:(lia)) as Hsp.
      destruct (split_at _ (Itoa d)) as [a b]. destruct Hsp as [E Ha].
      rewrite E in Hall. apply all_digits_app in Hall as [Hall _].
      apply starts_digit_app, all_digits_starts; [done|]. apply string_nonempty. lia.
    + done.
Qed.

(** A point inside the digits. *)
Lemma read_point a b z d :
  digits a 0 = Some z → a ≠ EmptyString → digits b z = Some d →
  read_mantissa 10 false false false 0 0 (a +:+ "." +:+ b) =
    (true, false, d, Z.of_nat (String.length b), EmptyString).
Proof.
  intros Ha Hne Hb. rewrite (read_mantissa_app _ _ _ _ _ _ _ Ha).
  change ("." +:+ b) with (String "." b). rewrite (bool_decide_false (a = _)) by done.
  cbn [read_mantissa]. rewrite bool_decide_false, bool_decide_true by done. cbn [negb orb].
  rewrite <- (string_app_nil_r b) at 1. rewrite (read_mantissa_app _ _ _ _ _ _ _ Hb). done.
Qed.

Lemma decimal_text_parse d q :
  0 < d →
  parse_unsigned false (decimal_text false d q) =
    (let x := scale10 false d q in if is_finite x then Some x else None).
Proof.
  intros Hd. destruct (Itoa_pos d Hd) as (_ & Hdig & Hne).
  pose proof (digits_all_digits _ _ _ Hdig) as Hall. unfold decimal_text.
  set (ds := Itoa d) in *. destruct (Z.leb_spec 0 q) as [Hq|Hq].
  - rewrite (parse_unsigned_digits false _ (d * 10 ^ q)).
    + assert (scale10 false (d * 10 ^ q) 0 = scale10 false d q) as ->; [|done].
      assert (0 < d * 10 ^ q) as Hp by (pose proof (Z.pow_pos_nonneg 10 q); lia).
      unfold scale10. rewrite (proj2 (Z.leb_le 0 q) Hq).
      destruct d as [|p|p]; [lia| |lia]. destruct (Z.pos p * 10 ^ q); [lia| |lia].
      by rewrite Z.pow_0_r, Z.mul_1_r.
    + rewrite digits_app, Hdig. simpl. rewrite digits_zeros. f_equal. f_equal. f_equal. lia.
    + by destruct ds.
  - destruct (Z.ltb_spec (- q) (Z.of_nat (String.length ds))) as [Hl|Hl].
    + pose proof (split_at_spec (Z.to_nat (Z.of_nat (String.length ds) + q)) ds ltac:(lia)) as Hsp.
      destruct (split_at _ ds) as [a b]. destruct Hsp as [E Ha]. rewrite E in Hdig, Hall, Hl, Ha.
      rewrite length_app_string in Hl, Ha. apply all_digits_app in Hall as [Hda Hdb].
      destruct (digits_split _ _ _ Hdig) as (z & Hza & Hzb).
      rewrite (parse_unsigned_point false _ d (Z.of_nat (String.length b))).
      * assert (- Z.of_nat (String.length b) = q) as -> by lia. done.
      * apply no_x_app; [by apply no_x_digits|]. split; [done|]. by apply no_x_digits.
      * apply (read_point a b z); [done| |done]. apply string_nonempty. lia.
    + set (n := Z.to_nat (- q - Z.of_nat (String.length ds))).
      assert (digits (zeros n +:+ ds) 0 = Some d) as Hz
        by (rewrite digits_app, digits_zeros; simpl; rewrite Z.mul_0_l; done).
      rewrite (parse_unsigned_point false _ d (Z.of_nat (String.length (zeros n +:+ ds)))).
      * rewrite length_app_string, zeros_length.
        assert (- Z.of_nat (n + String.length ds) = q) as -> by lia. done.
      * split; [done|]. split; [done|]. apply no_x_digits. by eapply digits_all_digits.
      * by apply (read_point "0" (zeros n +:+ ds) 0).
Qed.

(** What the search finds is read as the float. *)
Lemma search_reads expo m e k f n t :
  search expo m e k f n = Some t →
  starts_digit t = true ∧ ParseFloat t = Some (S754_finite false m e) ∧
  ∃ d q, 0 < d ∧ t = decimal_text expo d q.
Proof.
  revert n. induction f as [|f IH]; intros n; [done|].
  cbn [search]. destruct (filter _ _) as [|t' l] eqn:Hf; [apply IH|]. intros [= ->].
  assert (t ∈ t :: l) as Hin by left. rewrite <- Hf in Hin.
  apply list_elem_of_filter in Hin as [Hr Hin].
  apply list_elem_of_fmap_1 in Hin as (x & -> & Hx). unfold nearest_decimals in Hx.
  destruct (times10 _ _) as [a b]. apply list_elem_of_filter in Hx as [Hx _].
  split; [by apply decimal_text_starts|]. split; [|by exists x.1, x.2].
  unfold reads_back in Hr. destruct (ParseFloat _) as [[| | |[] m' e']|]; try done.
  by apply andb_true_iff in Hr as [->%bool_decide_eq_true ->%Z.eqb_eq].
Qed.

(** What is printed for a float is read as this float. *)
Lemma shortest_reads m e :
  canonical m e →
  starts_digit (shortest m e) = true ∧ ParseFloat (shortest m e) = Some (S754_finite false m e).
Proof.
  intros Hc. unfold shortest. set (expo := flt _ _ || _).
  destruct (search expo m e _ 17 1) as [t|] eqn:Hs.
  - by destruct (search_reads _ _ _ _ _ _ _ Hs) as (? & ? & _).
  - pose proof (scale10_exact m e Hc) as Hx. destruct (exact_decimal m e) as [d q].
    destruct Hx as [Hd Hx]. pose proof (decimal_text_starts false d q Hd) as Hst. split; [done|].
    rewrite (proj1 (ParseFloat_sign _ Hst)), decimal_text_parse, Hx by done. done.
Qed.

Lemma shortest_form m e : ∃ expo d q, 0 < d ∧ shortest m e = decimal_text expo d q.
Proof.
  unfold shortest. set (expo := flt _ _ || _). destruct (search expo m e _ 17 1) as [t|] eqn:Hs.
  - destruct (search_reads _ _ _ _ _ _ _ Hs) as (_ & _ & d & q & Hd & ->). by exists expo, d, q.
  - assert (0 < (exact_decimal m e).1) as Hd.
    { unfold exact_decimal. destruct (Z.leb_spec 0 e); simpl.
      - pose proof (Z.pow_pos_nonneg 2 e). lia.
      - pose proof (Z.pow_pos_nonneg 5 (- e)). lia. }
    destruct (exact_decimal m e) as [d q]. by exists false, d, q.
Qed.

Definition float_ok (x : float64) : Prop :=
  match x with S754_finite _ m e => canonical m e | _ => True end.

Lemma float_text_reads x t : float_ok x → float_text x = Some t → ParseFloat t = Some x.
Proof.
  destruct x as [s| | |s m e]; [|done|done|].
  - intros _ [= <-]. by destruct s.
  - intros Hc [= <-]. destruct (shortest_reads m e Hc) as [Hst Hp].
    destruct (ParseFloat_sign _ Hst) as [H1 H2]. rewrite H1 in Hp. destruct s.
    + by rewrite H2, parse_unsigned_opp, Hp.
    + by rewrite <- H1 in Hp.
Qed.
