(* ===== verification/FloatForm.v ===== *)
(** * The form of a [float64]

    The floats of the program are [spec_float]s of which only some are values of
    the type [float64]: those in the form that rounding gives them ([float_ok] of
    [GoShortest]).  Every operation of the program, and the reading of a number,
    gives such a value. *)
From Stdlib Require Import ZArith Lia Ascii SpecFloat.
From stdpp Require Import base tactics option list numbers strings.
From S2P Require Import Prelude GoFloat GoNum GoShortest.

Open Scope Z_scope.

(** ** Shifts *)

(** The exponent of a float whose value is below [2^x]. *)
Definition exp_of (x : Z) : Z := Z.max (x - 53) (- 1074).

Lemma fexp_exp_of x : fexp 53 1024 x = exp_of x.
Proof. reflexivity. Qed.

Lemma shr_1_m r : 0 <= shr_m r → shr_m (shr_1 r) = shr_m r / 2.
Proof.
  destruct r as [m r s]. simpl. intros Hm.
  destruct m as [|[p|p|]|p]; try done; try lia; simpl.
  - apply (Z.div_unique _ _ _ 1); lia.
  - apply (Z.div_unique _ _ _ 0); lia.
Qed.

Lemma iter_shr_1 p r :
  0 <= shr_m r → shr_m (SpecFloat.iter_pos shr_1 p r) = shr_m r / 2 ^ Zpos p.
Proof.
  revert r. induction p as [p IH|p IH|]; intros r Hr; cbn [SpecFloat.iter_pos].
  - assert (0 <= shr_m (shr_1 r)) as H1 by (rewrite shr_1_m by done; apply Z.div_pos; lia).
    rewrite !IH by first [done | rewrite IH by done; apply Z.div_pos; lia].
    rewrite shr_1_m, !Z.div_div by lia. f_equal.
    replace (Zpos (xI p)) with (1 + Zpos p + Zpos p) by lia. rewrite !Z.pow_add_r by lia. lia.
  - rewrite !IH by first [done | rewrite IH by done; apply Z.div_pos; lia].
    rewrite Z.div_div by lia. f_equal.
    replace (Zpos (xO p)) with (Zpos p + Zpos p) by lia. by rewrite Z.pow_add_r by lia.
  - by apply shr_1_m.
Qed.

Lemma shr_fexp_spec m e l :
  0 <= m →
  let x := Z.max e (exp_of (Zdigits2 m + e)) in
  ∃ r, shr_fexp 53 1024 m e l = (r, x) ∧ shr_m r = m / 2 ^ (x - e).
Proof.
  intros Hm x. unfold shr_fexp. set (r0 := shr_record_of_loc m l).
  assert (shr_m r0 = m) as Hr0 by by destruct l as [|[]].
  change (fexp 53 1024 (Z.add (Zdigits2 m) e)) with (exp_of (Zdigits2 m + e)) in *.
  assert (∀ k, k = exp_of (Zdigits2 m + e) - e →
    ∃ r, shr r0 e k = (r, x) ∧ shr_m r = m / 2 ^ (x - e)) as Hk.
  { intros k Hk. unfold x. destruct k as [|p|p]; cbn [shr].
    - exists r0. replace (Z.max e _) with e by lia. by rewrite Z.sub_diag, Z.div_1_r.
    - eexists. split; [f_equal; change (e + Zpos p = Z.max e (exp_of (Zdigits2 m + e))); lia|].
      rewrite iter_shr_1 by by rewrite Hr0. rewrite Hr0. do 2 f_equal. lia.
    - exists r0. replace (Z.max e _) with e by lia. by rewrite Z.sub_diag, Z.div_1_r. }
  by apply Hk.
Qed.

(** ** Rounding *)

Lemma digits2_0 m : 0 <= m → (m = 0 ∧ Zdigits2 m = 0) ∨
  (0 < m ∧ 0 < Zdigits2 m ∧ 2 ^ (Zdigits2 m - 1) <= m < 2 ^ Zdigits2 m).
Proof.
  intros Hm. destruct m as [|p|p]; [by left| |lia]. right. split; [done|]. split; [done|].
  apply digits2_bounds.
Qed.

(** The number of digits from the bounds. *)
Lemma digits2_le m n : 0 <= m → 0 <= n → m < 2 ^ n → Zdigits2 m <= n.
Proof.
  intros Hm Hn Hlt. destruct (digits2_0 m Hm) as [[_ ->]|(_ & Hd & Hb & _)]; [done|].
  destruct (Z.le_gt_cases (Zdigits2 m) n); [done|].
  pose proof (Z.pow_le_mono_r 2 n (Zdigits2 m - 1)). lia.
Qed.

Lemma digits2_ge m n : 0 <= n → 2 ^ n <= m → n + 1 <= Zdigits2 m.
Proof.
  intros Hn Hle. assert (0 < 2 ^ n) by (by apply Z.pow_pos_nonneg).
  destruct (digits2_0 m ltac:(lia)) as [[-> _]|(_ & Hd & _ & Hb)]; [lia|].
  destruct (Z.le_gt_cases (n + 1) (Zdigits2 m)); [done|].
  pose proof (Z.pow_le_mono_r 2 (Zdigits2 m) n). lia.
Qed.

Lemma round_nearest_range m l : 0 <= m → m <= round_nearest_even m l <= m + 1.
Proof.
  intros Hm. unfold round_nearest_even. change (Z.add m 1) with (m + 1).
  destruct l as [|[]]; try destruct (Z.even m); lia.
Qed.

(** What is shifted to its exponent fits in 53 bits, and fills them unless the
    exponent is the least one. *)
Lemma shifted_range m e :
  0 <= m → e <= exp_of (Zdigits2 m + e) →
  let x := exp_of (Zdigits2 m + e) in
  let m1 := m / 2 ^ (x - e) in
  0 <= m1 < 2 ^ 53 ∧ (x = - 1074 ∨ 2 ^ 52 <= m1).
Proof.
  intros Hm He x m1. assert (0 < 2 ^ (x - e)) as Hp by (apply Z.pow_pos_nonneg; lia).
  destruct (digits2_0 m Hm) as [[-> Hd]|(Hm0 & Hd & Hlo & Hhi)].
  { unfold m1, x. rewrite Hd in *. rewrite Z.div_0_l by lia. split; [lia|]. unfold exp_of in *. lia. }
  assert (Zdigits2 m <= 53 + (x - e)) as Hx by (unfold x, exp_of; lia).
  split; [split; [by apply Z.div_pos; lia|]|].
  - apply Z.div_lt_upper_bound; [done|]. rewrite <- Z.pow_add_r by lia.
    pose proof (Z.pow_le_mono_r 2 (Zdigits2 m) (x - e + 53)). lia.
  - destruct (decide (x = - 1074)) as [|Hn]; [by left|right].
    apply Z.div_le_lower_bound; [done|]. rewrite <- Z.pow_add_r by (unfold x in *; lia).
    replace (x - e + 52) with (Zdigits2 m - 1); [done|]. unfold x, exp_of in *. lia.
Qed.

Lemma binary_round_aux_ok s m e l :
  0 <= m → e <= exp_of (Zdigits2 m + e) → float_ok (binary_round_aux 53 1024 s m e l).
Proof.
  intros Hm He. unfold binary_round_aux.
  destruct (shr_fexp_spec m e l Hm) as (r & -> & Hr). cbn beta iota.
  destruct (shifted_range m e Hm He) as [Hm1 Hx]. rewrite (Z.max_r _ _ He) in *.
  set (x := exp_of (Zdigits2 m + e)) in *. assert (- 1074 <= x) as Hmin by (unfold x, exp_of; lia).
  rewrite <- Hr in Hm1, Hx.
  pose proof (round_nearest_range (shr_m r) (loc_of_shr_record r) ltac:(lia)) as Hn.
  set (m2 := round_nearest_even (shr_m r) (loc_of_shr_record r)) in *. clearbody m2.
  destruct (shr_fexp_spec m2 x loc_Exact ltac:(lia)) as (r' & -> & Hr'). cbn beta iota.
  set (y := Z.max x (exp_of (Zdigits2 m2 + x))) in *.
  destruct (shr_m r') as [|p|p] eqn:Hp; [done| |done].
  destruct (Zle_bool y (1024 - 53)) eqn:Hle; [|done]. apply Zle_bool_imp_le in Hle.
  split; [|exact Hle]. change (exp_of (Zdigits2 (Zpos p) + y) = y).
  destruct (decide (m2 < 2 ^ 53)) as [Hlt|Hge].
  - pose proof (digits2_le m2 53 ltac:(lia) ltac:(lia) Hlt) as Hd.
    assert (y = x) as Hy by (unfold y, exp_of; lia). rewrite Hy in *.
    rewrite Z.sub_diag, Z.pow_0_r, Z.div_1_r in Hr'. rewrite Hr'. unfold exp_of.
    destruct Hx as [->|Hx]; [lia|]. pose proof (digits2_ge m2 52 ltac:(lia) ltac:(lia)). lia.
  - assert (m2 = 2 ^ 53) as -> by lia. assert (y = x + 1) as Hy
      by (unfold y, exp_of; change (Zdigits2 (2 ^ 53)) with 54; lia).
    rewrite Hy in *. replace (x + 1 - x) with 1 in Hr' by lia.
    rewrite Hr'. change (Zdigits2 (2 ^ 53 / 2 ^ 1)) with 53. unfold exp_of. lia.
Qed.

(** ** The operations *)

Lemma binary_round_ok s m e : float_ok (binary_round 53 1024 s m e).
Proof.
  unfold binary_round, shl_align.
  change (fexp 53 1024 (Z.add (Zpos (digits2_pos m)) e)) with (exp_of (Zdigits2 (Zpos m) + e)).
  assert (∀ k, k = exp_of (Zdigits2 (Zpos m) + e) - e →
    float_ok (let '(mz, ez) := match k with
      | Zneg d => (Pos.iter xO m d, exp_of (Zdigits2 (Zpos m) + e)) | _ => (m, e) end in
      binary_round_aux 53 1024 s (Zpos mz) ez loc_Exact)) as Hk;
    [|by apply Hk].
  intros k Hk. destruct k as [|p|p].
  - apply binary_round_aux_ok; lia.
  - apply binary_round_aux_ok; lia.
  - apply binary_round_aux_ok; [done|].
    assert (Zdigits2 (Zpos (Pos.iter xO m p)) = Zdigits2 (Zpos m) + Zpos p) as ->
      by (unfold Zdigits2; by rewrite digits2_shift).
    unfold exp_of in *. lia.
Qed.

Lemma binary_normalize_ok m e s : float_ok (binary_normalize 53 1024 m e s).
Proof. destruct m; [done|apply binary_round_ok..]. Qed.

Lemma float_of_int_ok n : float_ok (float_of_int n).
Proof. apply binary_normalize_ok. Qed.

(** A float in form has an exponent from the range. *)
Lemma canonical_exp m e : canonical m e → exp_of (Zdigits2 (Zpos m) + e) = e.
Proof. by intros [Hc _]. Qed.

Lemma fmul_ok x y : float_ok x → float_ok y → float_ok (fmul x y).
Proof.
  destruct x as [| | |s1 m1 e1], y as [| | |s2 m2 e2]; try done.
  intros Hx%canonical_exp Hy%canonical_exp. unfold fmul, SFmul.
  change (Zpos (m1 * m2)) with (Zpos m1 * Zpos m2). change (Z.add e1 e2) with (e1 + e2).
  apply binary_round_aux_ok; [lia|].
  destruct (digits2_0 (Zpos m1) ltac:(lia)) as [[? _]|(_ & Hd1 & Hlo1 & _)]; [done|].
  destruct (digits2_0 (Zpos m2) ltac:(lia)) as [[? _]|(_ & Hd2 & Hlo2 & _)]; [done|].
  assert (2 ^ (Zdigits2 (Zpos m1) + Zdigits2 (Zpos m2) - 2) <= Zpos m1 * Zpos m2) as Hle.
  { replace (Zdigits2 (Zpos m1) + Zdigits2 (Zpos m2) - 2)
      with (Zdigits2 (Zpos m1) - 1 + (Zdigits2 (Zpos m2) - 1)) by lia.
    rewrite Z.pow_add_r by lia. apply Z.mul_le_mono_nonneg; lia. }
  apply digits2_ge in Hle as Hd; [|lia]. unfold exp_of in *.
  revert Hx Hy Hd Hd1 Hd2. clear. generalize (Zdigits2 (Zpos m1 * Zpos m2)) as d.
  generalize (Zdigits2 (Zpos m1)) as d1, (Zdigits2 (Zpos m2)) as d2. lia.
Qed.

Lemma fadd_ok x y : float_ok x → float_ok y → float_ok (fadd x y).
Proof.
  destruct x as [[]|[]| |s1 m1 e1], y as [[]|[]| |s2 m2 e2]; try done.
  intros _ _. apply binary_normalize_ok.
Qed.

(** The quotient of the mantissas has enough digits. *)
Lemma div_core_ok m1 e1 m2 e2 :
  let '(q, e, l) := SFdiv_core_binary 53 1024 (Zpos m1) e1 (Zpos m2) e2 in
  0 <= q ∧ e <= exp_of (Zdigits2 q + e).
Proof.
  unfold SFdiv_core_binary. set (d1 := Zdigits2 (Zpos m1)). set (d2 := Zdigits2 (Zpos m2)).
  change (fexp 53 1024 (Z.sub (Z.add d1 e1) (Z.add d2 e2))) with (exp_of (d1 + e1 - (d2 + e2))).
  set (e := Z.min _ _). assert (e <= e1 - e2 ∧ e <= exp_of (d1 + e1 - (d2 + e2))) as [He1 He2]
    by (unfold e; change (Z.sub e1 e2) with (e1 - e2); lia).
  change (Z.sub (Z.sub e1 e2) e) with (e1 - e2 - e). set (s := e1 - e2 - e).
  assert (match s with Z0 => Zpos m1 | Zpos _ => Z.shiftl (Zpos m1) s | Zneg _ => 0 end =
    Zpos m1 * 2 ^ s) as ->.
  { assert (0 <= s) as Hs by lia. destruct s as [|p|p]; [|by rewrite Z.shiftl_mul_pow2|lia].
    by rewrite Z.pow_0_r, Z.mul_1_r. }
  destruct (Z.div_eucl _ _) as [q r] eqn:Hq.
  assert (q = Zpos m1 * 2 ^ s / Zpos m2) as -> by (unfold Z.div; by rewrite Hq).
  assert (0 < 2 ^ s) as Hp by (apply Z.pow_pos_nonneg; lia).
  assert (0 <= Zpos m1 * 2 ^ s / Zpos m2) as Hq0 by (apply Z.div_pos; lia).
  split; [done|]. destruct (Z.le_gt_cases (d1 + s) d2) as [Hds|Hds].
  { destruct (digits2_0 _ Hq0) as [[_ ->]|(_ & Hpos & _)]; unfold exp_of in *; lia. }
  destruct (digits2_0 (Zpos m1) ltac:(lia)) as [[? _]|(_ & Hd1 & Hlo & _)]; [done|].
  destruct (digits2_0 (Zpos m2) ltac:(lia)) as [[? _]|(_ & Hd2 & _ & Hhi)]; [done|].
  fold d1 in Hd1, Hlo. fold d2 in Hd2, Hhi.
  assert (2 ^ (d1 + s - d2 - 1) <= Zpos m1 * 2 ^ s / Zpos m2) as Hle.
  { apply Z.div_le_lower_bound; [done|].
    transitivity (2 ^ d2 * 2 ^ (d1 + s - d2 - 1)).
    - apply Z.mul_le_mono_nonneg_r; [|lia]. apply Z.pow_nonneg. lia.
    - rewrite <- Z.pow_add_r by lia. replace (d2 + (d1 + s - d2 - 1)) with (d1 - 1 + s) by lia.
      rewrite Z.pow_add_r by lia. apply Z.mul_le_mono_nonneg_r; lia. }
  apply digits2_ge in Hle; [|lia]. unfold exp_of in *. lia.
Qed.

Lemma fdiv_ok x y : float_ok (fdiv x y).
Proof.
  destruct x as [| | |s1 m1 e1], y as [| | |s2 m2 e2]; try done. unfold fdiv, SFdiv.
  pose proof (div_core_ok m1 e1 m2 e2) as Hd.
  destruct (SFdiv_core_binary _ _ _ _ _ _) as [[q e] l]. destruct Hd as [Hq He].
  by apply binary_round_aux_ok.
Qed.

(** ** Reading *)

Lemma scale10_ok neg m e : float_ok (scale10 neg m e).
Proof.
  destruct m as [|p|p]; [done| |done]. unfold scale10.
  destruct (0 <=? e); [apply binary_normalize_ok|]. destruct (10 ^ _); [done|apply fdiv_ok|done].
Qed.

Lemma ParseFloat_float_ok s x : ParseFloat s = Some x → float_ok x.
Proof.
  unfold ParseFloat. set (p := match s with EmptyString => _ | String _ _ => _ end).
  destruct p as [[neg sgn] t]. unfold special.
  destruct (bool_decide (lower_string t = "inf") || _); [by intros [= <-]|].
  destruct (negb sgn && _); [by intros [= <-]|]. unfold parse_unsigned.
  destruct (match t with EmptyString => _ | String _ _ => _ end) as [hex body].
  destruct (read_mantissa _ _ _ _ _ _ _) as [[[[dig und] m] frac] rest].
  destruct (negb dig); [done|].
  destruct (match rest with EmptyString => _ | String _ _ => _ end) as [[und' e]|]; [|done].
  cbn [mbind option_bind]. destruct (und' && _); [done|].
  destruct (is_finite _); [|done]. intros [= <-].
  destruct hex; [apply binary_normalize_ok|apply scale10_ok].
Qed.
