(* ===== verification/GoJson.v ===== *)
(** * Decoding JSON: the package [encoding/json] as the program uses it

    A text is parsed into a tree first, as [json.Unmarshal] checks the whole
    text before it stores anything; the tree is then stored into a Go value
    field by field. *)
From Stdlib Require Import ZArith Lia Ascii.
From stdpp Require Import base tactics option list numbers strings.
From S2P Require Import Prelude GoStrings.

Open Scope Z_scope.

Fixpoint string_repeat (n : nat) (s : string) : string :=
  match n with O => EmptyString | S n' => s +:+ string_repeat n' s end.

(** ** Values *)

(** A number keeps its literal; the members of an object keep their order. *)
Inductive json : Type :=
  | JNull
  | JBool (b : bool)
  | JNum (literal : string)
  | JStr (s : string)
  | JArr (elems : list json)
  | JObj (members : list (string * json)).

(** ** Characters *)

Definition byte (c : ascii) : Z := Z.of_N (N_of_ascii c).
Definition chr (n : Z) : ascii := ascii_of_N (Z.to_N n).
Definition DQ : ascii := chr 34.
Definition BACKSLASH : ascii := chr 92.

Definition in_range (a b : Z) (c : ascii) : bool := (a <=? byte c) && (byte c <=? b).

(** The UTF-8 encoding of a rune. *)
Definition encode_rune (r : Z) : string :=
  if r <? 128 then String (chr r) EmptyString
  else if r <? 2048 then
    String (chr (192 + r / 64)) (String (chr (128 + r mod 64)) EmptyString)
  else if r <? 65536 then
    String (chr (224 + r / 4096)) (String (chr (128 + r / 64 mod 64))
      (String (chr (128 + r mod 64)) EmptyString))
  else
    String (chr (240 + r / 262144)) (String (chr (128 + r / 4096 mod 64))
      (String (chr (128 + r / 64 mod 64)) (String (chr (128 + r mod 64)) EmptyString))).

(** [unicode.ReplacementChar]. *)
Definition replacement : string := encode_rune 65533.

Fixpoint continuation (n : nat) (s : string) : bool :=
  match n, s with
  | O, _ => true
  | S k, String c s' => in_range 128 191 c && continuation k s'
  | S _, EmptyString => false
  end.

(** The number of bytes of the rune [s] starts with, 0 if it is not valid. *)
Definition utf8_width (s : string) : nat :=
  match s with
  | EmptyString => 0%nat
  | String c t =>
      let second a b := match t with String d _ => in_range a b d | EmptyString => false end in
      if in_range 0 127 c then 1%nat
      else if in_range 194 223 c then (if continuation 1 t then 2%nat else 0%nat)
      else if in_range 224 239 c then
        (if continuation 2 t && (negb (byte c =? 224) || second 160 191)
            && (negb (byte c =? 237) || second 128 159) then 3%nat else 0%nat)
      else if in_range 240 244 c then
        (if continuation 3 t && (negb (byte c =? 240) || second 144 191)
            && (negb (byte c =? 244) || second 128 143) then 4%nat else 0%nat)
      else 0%nat
  end.

(** ** Strings *)

Definition hex_digit (c : ascii) : option Z :=
  if in_range 48 57 c then Some (byte c - 48)
  else if in_range 97 102 c then Some (byte c - 87)
  else if in_range 65 70 c then Some (byte c - 55)
  else None.

Definition hex4 (a b c d : ascii) : option Z :=
  x ← hex_digit a; y ← hex_digit b; z ← hex_digit c; w ← hex_digit d;
  Some (((x * 16 + y) * 16 + z) * 16 + w).

(** The escapes of one letter. *)
Definition escape (c : ascii) : option ascii :=
  match c with
  | "b"%char => Some (chr 8)
  | "f"%char => Some (chr 12)
  | "n"%char => Some (chr 10)
  | "r"%char => Some (chr 13)
  | "t"%char => Some (chr 9)
  | "/"%char => Some c
  | _ => if bool_decide (c = DQ) || bool_decide (c = BACKSLASH) then Some c else None
  end.

(** The rest of a string literal behind its opening quote: the string it
    denotes and the text behind the closing quote.  [copy] bytes of the rune
    the walk is in are still to be copied; [high] is a high surrogate that has
    been read and waits for its low one. *)
Fixpoint unquote (copy : nat) (high : option Z) (s : string) : option (string * string) :=
  let flush (k : option (string * string)) :=
    match high with
    | None => k
    | Some _ => '(w, r) ← k; Some (replacement +:+ w, r)
    end in
  match s with
  | EmptyString => None
  | String c t =>
      match copy with
      | S n => '(w, r) ← unquote n None t; Some (String c w, r)
      | O =>
          if bool_decide (c = DQ) then flush (Some (EmptyString, t))
          else if bool_decide (c = BACKSLASH) then
            match t with
            | String "u" (String h1 (String h2 (String h3 (String h4 t')))) =>
                r1 ← hex4 h1 h2 h3 h4;
                if (56320 <=? r1) && (r1 <=? 57343) then
                  match high with
                  | Some hi =>
                      '(w, r) ← unquote 0 None t';
                      Some (encode_rune ((hi - 55296) * 1024 + (r1 - 56320) + 65536) +:+ w, r)
                  | None => '(w, r) ← unquote 0 None t'; Some (replacement +:+ w, r)
                  end
                else if (55296 <=? r1) && (r1 <=? 56319) then flush (unquote 0 (Some r1) t')
                else flush ('(w, r) ← unquote 0 None t'; Some (encode_rune r1 +:+ w, r))
            | String e t' =>
                x ← escape e; flush ('(w, r) ← unquote 0 None t'; Some (String x w, r))
            | EmptyString => None
            end
          else if byte c <? 32 then None
          else match utf8_width s with
               | O => flush ('(w, r) ← unquote 0 None t; Some (replacement +:+ w, r))
               | S n => flush ('(w, r) ← unquote n None t; Some (String c w, r))
               end
      end
  end.

(** ** Numbers *)

Fixpoint take_digits (s : string) : string * string :=
  match s with
  | String c t => if in_range 48 57 c then let '(d, r) := take_digits t in (String c d, r)
                  else (EmptyString, s)
  | EmptyString => (EmptyString, s)
  end.

Definition some_digits (s : string) : option (string * string) :=
  match take_digits s with (EmptyString, _) => None | p => Some p end.

(** The literal [s] starts with, and the rest. *)
Definition number (s : string) : option (string * string) :=
  let '(sgn, s1) := match s with String "-" t => ("-", t) | _ => (EmptyString, s) end in
  '(int, s2) ← match s1 with
              | String "0" t => Some ("0", t)
              | _ => some_digits s1
              end;
  '(frac, s3) ← match s2 with
               | String "." t => '(d, r) ← some_digits t; Some (String "." d, r)
               | _ => Some (EmptyString, s2)
               end;
  '(exp, s4) ← match s3 with
              | String c t =>
                  if bool_decide (c = "e"%char) || bool_decide (c = "E"%char) then
                    let '(esgn, u) := match t with
                                     | String "+" u => ("+", u)
                                     | String "-" u => ("-", u)
                                     | _ => (EmptyString, t)
                                     end in
                    '(d, r) ← some_digits u; Some (String c (esgn +:+ d), r)
                  else Some (EmptyString, s3)
              | EmptyString => Some (EmptyString, s3)
              end;
  Some (sgn +:+ int +:+ frac +:+ exp, s4).

(** ** The parser *)

Fixpoint skip_ws (s : string) : string :=
  match s with
  | String c t => if bool_decide (byte c ∈ [32; 9; 10; 13]) then skip_ws t else s
  | EmptyString => s
  end.

Fixpoint strip_prefix (pre s : string) : option string :=
  match pre, s with
  | EmptyString, _ => Some s
  | String a pre', String b s' => if bool_decide (a = b) then strip_prefix pre' s' else None
  | String _ _, EmptyString => None
  end.

(** [maxNestingDepth]. *)
Definition max_depth : Z := 10000.

(** One value, and the text behind it.  Every call consumes a byte, so the
    length of the text is enough fuel. *)
Fixpoint parse_value (fuel : nat) (depth : Z) (s : string) : option (json * string) :=
  match fuel with
  | O => None
  | S f =>
      match skip_ws s with
      | EmptyString => None
      | String c t as s' =>
          if bool_decide (c = "{"%char) then
            if max_depth <=? depth then None else
            match skip_ws t with
            | String "}" r => Some (JObj [], r)
            | _ => '(ms, r) ← parse_members f (depth + 1) t; Some (JObj ms, r)
            end
          else if bool_decide (c = "["%char) then
            if max_depth <=? depth then None else
            match skip_ws t with
            | String "]" r => Some (JArr [], r)
            | _ => '(vs, r) ← parse_elems f (depth + 1) t; Some (JArr vs, r)
            end
          else if bool_decide (c = DQ) then '(w, r) ← unquote 0 None t; Some (JStr w, r)
          else if in_range 48 57 c || bool_decide (c = "-"%char) then
            '(lit, r) ← number s'; Some (JNum lit, r)
          else match strip_prefix "true" s' with
               | Some r => Some (JBool true, r)
               | None =>
                   match strip_prefix "false" s' with
                   | Some r => Some (JBool false, r)
                   | None => r ← strip_prefix "null" s'; Some (JNull, r)
                   end
               end
      end
  end
with parse_elems (fuel : nat) (depth : Z) (s : string) : option (list json * string) :=
  match fuel with
  | O => None
  | S f =>
      '(v, r) ← parse_value f depth s;
      match skip_ws r with
      | String "]" r' => Some ([v], r')
      | String "," r' => '(vs, r'') ← parse_elems f depth r'; Some (v :: vs, r'')
      | _ => None
      end
  end
with parse_members (fuel : nat) (depth : Z) (s : string)
    : option (list (string * json) * string) :=
  match fuel with
  | O => None
  | S f =>
      match skip_ws s with
      | String q t =>
          if bool_decide (q = DQ) then
            '(k, r) ← unquote 0 None t;
            match skip_ws r with
            | String ":" r' =>
                '(v, r2) ← parse_value f depth r';
                match skip_ws r2 with
                | String "}" r3 => Some ([(k, v)], r3)
                | String "," r3 => '(ms, r4) ← parse_members f depth r3; Some ((k, v) :: ms, r4)
                | _ => None
                end
            | _ => None
            end
          else None
      | EmptyString => None
      end
  end.

Definition fuel_for (s : string) : nat := S (String.length s).

(** The text of [json.Unmarshal]: one value and white space. *)
Definition parse (s : string) : option json :=
  '(v, r) ← parse_value (fuel_for s) 0 s;
  match skip_ws r with EmptyString => Some v | _ => None end.

(** The text of [json.NewDecoder(r).Decode]: one value; what follows it is left
    in the reader. *)
Definition parse_first (s : string) : option json := fst <$> parse_value (fuel_for s) 0 s.

(** ** Storing a tree into Go values *)

(** The letter-case folding of member names: ASCII, the Kelvin sign and the long
    s. *)
Fixpoint foldName (s : string) : string :=
  match s with
  | EmptyString => EmptyString
  | String c t =>
      match t with
      | String d t' =>
          if (byte c =? 197) && (byte d =? 191) then String "S" (foldName t')
          else match t' with
               | String e t'' =>
                   if (byte c =? 226) && (byte d =? 132) && (byte e =? 170)
                   then String "K" (foldName t'')
                   else String (if in_range 97 122 c then chr (byte c - 32) else c) (foldName t)
               | EmptyString =>
                   String (if in_range 97 122 c then chr (byte c - 32) else c) (foldName t)
               end
      | EmptyString => String (if in_range 97 122 c then chr (byte c - 32) else c) (foldName t)
      end
  end.

(** A decoder stores a tree over an old value; the boolean reports a type
    error, after which decoding goes on. *)
Definition decoder (A : Type) : Type := json → A → A * bool.

Definition into_string : decoder string := λ v old,
  match v with JNull => (old, false) | JStr s => (s, false) | _ => (old, true) end.

Definition into_bool : decoder bool := λ v old,
  match v with JNull => (old, false) | JBool b => (b, false) | _ => (old, true) end.

Definition into_int : decoder Z := λ v old,
  match v with
  | JNull => (old, false)
  | JNum lit => match Atoi lit with Some z => (z, false) | None => (old, true) end
  | _ => (old, true)
  end.

(** A pointer: null makes it nil, another value is stored into what it points
    to, which is a fresh zero value if it is nil. *)
Definition into_ptr {A} (zero : A) (dec : decoder A) : decoder (option A) := λ v old,
  match v with
  | JNull => (None, false)
  | _ => let '(a, e) := dec v (default zero old) in (Some a, e)
  end.

(** A slice: null makes it nil; elements are stored over the old ones. *)
Fixpoint into_elems {A} (zero : A) (dec : decoder A) (vs : list json) (old : list A)
    : list A * bool :=
  match vs with
  | [] => ([], false)
  | v :: vs' =>
      let '(a, e) := dec v (default zero (head old)) in
      let '(l, e') := into_elems zero dec vs' (tail old) in (a :: l, e || e')
  end.

Definition into_slice {A} (zero : A) (dec : decoder A) : decoder (option (list A)) := λ v old,
  match v with
  | JNull => (None, false)
  | JArr vs => let '(l, e) := into_elems zero dec vs (default [] old) in (Some l, e)
  | _ => (old, true)
  end.

(** [json.RawMessage] keeps the tree. *)
Definition into_raw : decoder json := λ v _, (v, false).

(** The fields of a struct with their names. *)
Definition find_field {F} (fields : list (string * F)) (key : string) : option F :=
  match filter (λ f, f.1 = key) fields with
  | f :: _ => Some f.2
  | [] => match filter (λ f, foldName f.1 = foldName key) fields with
          | f :: _ => Some f.2
          | [] => None
          end
  end.

Definition into_struct {A} (fields : list (string * decoder A)) : decoder A := λ v old,
  match v with
  | JNull => (old, false)
  | JObj ms =>
      foldl (λ acc m, match find_field fields m.1 with
                      | None => acc
                      | Some dec => let '(a, e) := dec m.2 acc.1 in (a, acc.2 || e)
                      end) (old, false) ms
  | _ => (old, true)
  end.

(** A field: a decoder of its type between a getter and a setter. *)
Definition field {A B} (get : A → B) (set : B → A → A) (dec : decoder B) : decoder A :=
  λ v a, let '(b, e) := dec v (get a) in (set b a, e).

(** [json.Unmarshal(data, &v)] and [json.NewDecoder(r).Decode(&v)]: [inr v] if
    there is no error, otherwise [inl v], the value as it was left. *)
Definition store {A} (t : option json) (dec : decoder A) (old : A) : A + A :=
  match t with
  | None => inl old
  | Some v => let '(a, e) := dec v old in if e then inl a else inr a
  end.

Definition Unmarshal {A} (dec : decoder A) (data : string) (old : A) : A + A :=
  store (parse data) dec old.

Definition Decode {A} (dec : decoder A) (data : string) (old : A) : A + A :=
  store (parse_first data) dec old.

(** ** Encoding *)

(** The hexadecimal digit of [n < 16]. *)
Definition hex_char (n : Z) : ascii := if n <? 10 then chr (48 + n) else chr (87 + n).

Definition u_escape (n : Z) : string :=
  String BACKSLASH (String "u" (String (hex_char (n / 4096)) (String (hex_char (n / 256 mod 16))
    (String (hex_char (n / 16 mod 16)) (String (hex_char (n mod 16)) EmptyString))))).

Definition short_escape (c : ascii) : string := String BACKSLASH (String c EmptyString).

(** One byte below 128, with [<], [>] and [&] escaped as [json.Marshal] does. *)
Definition encode_ascii (c : ascii) : string :=
  if bool_decide (c = DQ) || bool_decide (c = BACKSLASH) then short_escape c
  else if byte c =? 8 then short_escape "b"
  else if byte c =? 12 then short_escape "f"
  else if byte c =? 10 then short_escape "n"
  else if byte c =? 13 then short_escape "r"
  else if byte c =? 9 then short_escape "t"
  else if (byte c <? 32) || bool_decide (c ∈ ["<"; ">"; "&"]%char) then u_escape (byte c)
  else String c EmptyString.

(** The inside of a string literal; [copy] as in [unquote]. *)
Fixpoint escape_go (copy : nat) (s : string) : string :=
  match s with
  | EmptyString => EmptyString
  | String c t =>
      match copy with
      | S n => String c (escape_go n t)
      | O =>
          if byte c <? 128 then encode_ascii c +:+ escape_go 0 t
          else match utf8_width s with
               | O => u_escape 65533 +:+ escape_go 0 t
               | S n =>
                   match t with
                   | String d (String e t') =>
                       if (byte c =? 226) && (byte d =? 128) && ((byte e =? 168) || (byte e =? 169))
                       then u_escape (8192 + byte e - 128) +:+ escape_go 0 t'
                       else String c (escape_go n t)
                   | _ => String c (escape_go n t)
                   end
               end
      end
  end.

Definition quote (s : string) : string :=
  String DQ (escape_go 0 s +:+ String DQ EmptyString).

Definition newline_indent (ind : option nat) : string :=
  match ind with
  | None => EmptyString
  | Some n => String (chr 10) (string_repeat (2 * n) " ")
  end.

(** [json.Marshal] ([None]) and [json.MarshalIndent] with two blanks
    ([Some n], at depth [n]). *)
Fixpoint marshal (ind : option nat) (v : json) : string :=
  let deeper := S <$> ind in
  match v with
  | JNull => "null"
  | JBool b => if b then "true" else "false"
  | JNum lit => lit
  | JStr s => quote s
  | JArr [] => "[]"
  | JArr vs =>
      "[" +:+ String.concat "," (map (λ v, newline_indent deeper +:+ marshal deeper v) vs)
      +:+ newline_indent ind +:+ "]"
  | JObj [] => "{}"
  | JObj ms =>
      "{" +:+ String.concat "," (map (λ m, newline_indent deeper +:+ quote m.1 +:+ ":"
        +:+ (match ind with None => EmptyString | Some _ => " " end) +:+ marshal deeper m.2) ms)
      +:+ newline_indent ind +:+ "}"
  end.

Definition Marshal (v : json) : string := marshal None v.
Definition MarshalIndent (v : json) : string := marshal (Some 0%nat) v.

Definition JInt (z : Z) : json := JNum (Itoa z).

(** *** Raw JSON

    [json.Marshal] writes a [json.RawMessage] without its white space and with
    the characters that are unsafe in HTML escaped.  [inS] and [esc]: inside a
    string, behind a backslash. *)
Fixpoint compact_go (inS esc : bool) (s : string) : string :=
  match s with
  | EmptyString => EmptyString
  | String c t =>
      let plain :=
        if inS then
          if esc then String c (compact_go true false t)
          else if bool_decide (c = BACKSLASH) then String c (compact_go true true t)
          else String c (compact_go (negb (bool_decide (c = DQ))) false t)
        else if bool_decide (byte c ∈ [32; 9; 10; 13]) then compact_go false false t
        else String c (compact_go (bool_decide (c = DQ)) false t) in
      if bool_decide (c ∈ ["<"; ">"; "&"]%char) then u_escape (byte c) +:+ compact_go inS false t
      else match t with
           | String d (String e t') =>
               if (byte c =? 226) && (byte d =? 128) && ((byte e =? 168) || (byte e =? 169))
               then u_escape (8192 + byte e - 128) +:+ compact_go inS false t'
               else plain
           | _ => plain
           end
  end.

Definition compact (s : string) : string := compact_go false false s.

(** ** Samples *)

(** A text with the quote written as an apostrophe. *)
Fixpoint quoted (s : string) : string :=
  match s with
  | EmptyString => EmptyString
  | String c t => String (if bool_decide (c = "'"%char) then DQ else c) (quoted t)
  end.

Example parse_ok :
  parse (quoted " { 'a' : [1, -2.5e+3, true], 'b':{'c' : null , 'd' :'x\n\u00e9\'' } } ") =
  Some (JObj [("a", JArr [JNum "1"; JNum "-2.5e+3"; JBool true]);
              ("b", JObj [("c", JNull);
                 ("d", JStr ("x" +:+ String (chr 10) (encode_rune 233 +:+ String DQ EmptyString)))])]).
Proof. vm_compute. reflexivity. Qed.

Example parse_bad :
  map (λ s, parse (quoted s)) [""; "{"; "{}x"; "[1,]"; "01"; "'a"; "{a:1}"; "{'a' 1}"; "nul"; "'\x'"]
  = replicate 10 None.
Proof. vm_compute. reflexivity. Qed.

Example parse_surrogates :
  parse (quoted "'\ud83d\ude00\ud83dx\ude00'") =
  Some (JStr (encode_rune 128512 +:+ replacement +:+ "x" +:+ replacement)).
Proof. vm_compute. reflexivity. Qed.

Example Unmarshal_fold :
  Unmarshal (into_struct [("max_model_len", field id (λ b _, b) into_int)])
    (quoted "{'MAX_Model_len': 17, 'x': {}}") 0 = inr 17.
Proof. vm_compute. reflexivity. Qed.

Example Marshal_ok :
  Marshal (JObj [("a<", JArr [JInt 1; JInt (-20); JNull]); ("b", JObj []);
                 ("c", JStr ("x" +:+ String DQ (String (chr 10) (encode_rune 8232))))])
  = quoted "{'a\u003c':[1,-20,null],'b':{},'c':'x\'\n\u2028'}".
Proof. vm_compute. reflexivity. Qed.

Example MarshalIndent_ok :
  MarshalIndent (JObj [("a", JArr [JInt 1; JInt 2])]) =
  quoted "{" +:+ String (chr 10) (quoted "  'a': [" +:+ String (chr 10) ("    1," +:+
    String (chr 10) ("    2" +:+ String (chr 10) ("  ]" +:+ String (chr 10) "}")))).
Proof. vm_compute. reflexivity. Qed.
