(* ===== verification/GoUrl.v ===== *)
(** * Percent encoding: the part of [net/url] the admin handlers use

    [url.PathUnescape], and the JavaScript function with which the admin page
    (src/web/static/app.js) writes a server URL into a path. *)
From Stdlib Require Import ZArith Lia Ascii.
From stdpp Require Import base tactics option list numbers strings.
From S2P Require Import Prelude GoJson.

Open Scope Z_scope.

(** [None] is the error for a percent sign without two hexadecimal digits. *)
Fixpoint PathUnescape (s : string) : option string :=
  match s with
  | EmptyString => Some EmptyString
  | String c t =>
      if bool_decide (c = "%"%char) then
        match t with
        | String h (String l t') =>
            x ← hex_digit h; y ← hex_digit l; r ← PathUnescape t';
            Some (String (chr (x * 16 + y)) r)
        | _ => None
        end
      else r ← PathUnescape t; Some (String c r)
  end.

(** The bytes [encodeURIComponent] leaves alone. *)
Definition unreserved (c : ascii) : bool :=
  in_range 48 57 c || in_range 65 90 c || in_range 97 122 c
  || bool_decide (byte c ∈ [45; 95; 46; 33; 126; 42; 39; 40; 41]).

Definition upper_hex (n : Z) : ascii := if n <? 10 then chr (48 + n) else chr (55 + n).

Fixpoint encodeURIComponent (s : string) : string :=
  match s with
  | EmptyString => EmptyString
  | String c t =>
      if unreserved c then String c (encodeURIComponent t)
      else String "%" (String (upper_hex (byte c / 16)) (String (upper_hex (byte c mod 16))
             (encodeURIComponent t)))
  end.

Lemma byte_range c : 0 <= byte c < 256.
Proof. unfold byte. pose proof (N_ascii_bounded c). lia. Qed.

Lemma chr_byte c : chr (byte c) = c.
Proof. unfold chr, byte. rewrite N2Z.id. apply ascii_N_embedding. Qed.

Lemma byte_chr n : 0 <= n < 256 → byte (chr n) = n.
Proof. intros Hn. unfold chr, byte. rewrite N_ascii_embedding by lia. lia. Qed.

Lemma hex_digit_upper n : 0 <= n < 16 → hex_digit (upper_hex n) = Some n.
Proof.
  intros Hn. unfold hex_digit, upper_hex, in_range.
  destruct (Z.ltb_spec n 10); rewrite byte_chr by lia.
  - rewrite (proj2 (Z.leb_le _ _)), (proj2 (Z.leb_le _ _)) by lia. simpl. f_equal. lia.
  - rewrite (proj2 (Z.leb_gt (55 + n) 57)), !andb_false_r by lia.
    rewrite (proj2 (Z.leb_gt 97 _)) by lia. simpl.
    rewrite (proj2 (Z.leb_le _ _)), (proj2 (Z.leb_le _ _)) by lia. simpl. f_equal. lia.
Qed.

(** What the page encodes, the handlers decode. *)
Lemma PathUnescape_encode s : PathUnescape (encodeURIComponent s) = Some s.
Proof.
  induction s as [|c s IH]; [done|]. cbn [encodeURIComponent].
  pose proof (byte_range c) as Hb. destruct (unreserved c) eqn:Hu.
  - cbn [PathUnescape]. rewrite bool_decide_false; [by rewrite IH|]. by intros ->.
  - cbn [PathUnescape]. rewrite bool_decide_true by done.
    rewrite !hex_digit_upper by (split; (apply Z.div_pos || apply Z.div_lt_upper_bound
      || apply Z.mod_pos_bound); lia). simpl. rewrite IH. simpl.
    rewrite (Z.mul_comm (byte c / 16)), <- Z.div_mod by done. by rewrite chr_byte.
Qed.

Lemma encodeURIComponent_nonempty s : encodeURIComponent s = EmptyString → s = EmptyString.
Proof. destruct s as [|c s]; [done|]. cbn [encodeURIComponent]. by destruct (unreserved c). Qed.

Example PathUnescape_ok :
  map PathUnescape ["http%3A%2f%2Fa%3a1"; "a+b"; "%4"; "%zz"; "%25"] =
  [Some "http://a:1"; Some "a+b"; None; None; Some "%"].
Proof. vm_compute. reflexivity. Qed.
