(* ===== verification/JsonRoundTrip.v ===== *)
(** * What is encoded is read back: the round trip of [GoJson]

    The text that [marshal] writes for a tree, compact or indented, parses: to
    that tree if its strings are UTF-8, otherwise to the tree with replacement
    characters in the place of the bytes that are not.  Its numbers have to be
    literals, and it must not be nested deeper than the decoder allows. *)
From Stdlib Require Import ZArith Lia Ascii.
From stdpp Require Import base tactics option list numbers strings pretty sets.
From S2P Require Import Prelude GoStrings GoText GoNum GoJson GoUrl.

Open Scope Z_scope.

(** ** Strings *)

(** [copy] bytes of the rune the walk is in are still to come. *)
Fixpoint utf8_go (copy : nat) (s : string) : bool :=
  match s with
  | EmptyString => true
  | String c t =>
      match copy with
      | S n => utf8_go n t
      | O => match utf8_width s with O => false | S n => utf8_go n t end
      end
  end.

(** [utf8.ValidString]. *)
Definition utf8_ok (s : string) : bool := utf8_go 0 s.

(** The string with every byte that is not part of a rune replaced. *)
Fixpoint sanitize_go (copy : nat) (s : string) : string :=
  match s with
  | EmptyString => EmptyString
  | String c t =>
      match copy with
      | S n => String c (sanitize_go n t)
      | O => match utf8_width s with
             | O => replacement +:+ sanitize_go 0 t
             | S n => String c (sanitize_go n t)
             end
      end
  end.

Definition sanitize (s : string) : string := sanitize_go 0 s.

Lemma sanitize_utf8 s : utf8_ok s = true → sanitize s = s.
Proof.
  unfold utf8_ok, sanitize. generalize 0%nat as n.
  induction s as [|c t IH]; intros n Hs; [done|]. cbn [utf8_go sanitize_go] in Hs |- *.
  destruct n as [|n]; [|by rewrite IH].
  destruct (utf8_width (String c t)) as [|n]; [done|]. by rewrite IH.
Qed.

(** The result of [unquote], with one more character in front. *)
Definition with_char (c : ascii) (r : option (string * string)) : option (string * string) :=
  '(w, rest) ← r; Some (String c w, rest).

(** An escaped ASCII character is read back. *)
Lemma unquote_ascii c rest :
  byte c < 128 → unquote 0 None (encode_ascii c +:+ rest) = with_char c (unquote 0 None rest).
Proof.
  destruct c as [[] [] [] [] [] [] [] []]; intros Hc;
    first [reflexivity | exfalso; vm_compute in Hc; discriminate Hc].
Qed.

Lemma in_range_spec a b c : in_range a b c = true ↔ a <= byte c <= b.
Proof. unfold in_range. rewrite andb_true_iff, !Z.leb_le. lia. Qed.

Lemma byte_inj c d : byte c = byte d → c = d.
Proof. intros E. by rewrite <- (chr_byte c), <- (chr_byte d), E. Qed.

(** The bytes of a rune after its first are copied, so its width stays. *)
Lemma escape_go_copy n s :
  continuation n s = true →
  ∃ a b, s = a +:+ b ∧ String.length a = n ∧
    ∀ copy_rest, escape_go n s +:+ copy_rest = a +:+ escape_go 0 b +:+ copy_rest.
Proof.
  revert s. induction n as [|n IH]; intros s Hs; [by exists EmptyString, s|].
  destruct s as [|c s]; [done|]. simpl in Hs. apply andb_true_iff in Hs as [_ Hs].
  destruct (IH s Hs) as (a & b & -> & Hl & He). exists (String c a), b.
  split_and!; [done|simpl; by rewrite Hl|]. intros r. simpl escape_go.
  change (String c (escape_go n (a +:+ b)) +:+ r) with (String c (escape_go n (a +:+ b) +:+ r)).
  by rewrite He.
Qed.

Lemma continuation_app n a s : String.length a = n → continuation n (a +:+ s) = continuation n a.
Proof.
  revert a. induction n as [|n IH]; intros [|c a] Hl; try done.
  simpl in Hl |- *. injection Hl as Hl. by rewrite IH.
Qed.

(** The width of a rune depends on its own bytes only. *)
Lemma utf8_width_prefix c a s1 s2 n :
  String.length a = n → utf8_width (String c (a +:+ s1)) = S n →
  utf8_width (String c (a +:+ s2)) = S n.
Proof.
  intros Hl. unfold utf8_width. cbv zeta.
  destruct (in_range 0 127 c); [done|].
  destruct (in_range 194 223 c).
  { destruct (continuation 1 (a +:+ s1)) eqn:E; [|done]. intros [= <-].
    rewrite (continuation_app 1 a s1 Hl) in E. by rewrite (continuation_app 1 a s2 Hl), E. }
  destruct (in_range 224 239 c).
  { destruct (continuation 2 (a +:+ s1)) eqn:E; [|done]. intros Hn.
    assert (n = 2%nat) as -> by (revert Hn; repeat case_match; congruence).
    rewrite (continuation_app 2 a s1 Hl) in E. rewrite (continuation_app 2 a s2 Hl), E.
    destruct a as [|d a]; [done|]. exact Hn. }
  destruct (in_range 240 244 c); [|done].
  destruct (continuation 3 (a +:+ s1)) eqn:E; [|done]. intros Hn.
  assert (n = 3%nat) as -> by (revert Hn; repeat case_match; congruence).
  rewrite (continuation_app 3 a s1 Hl) in E. rewrite (continuation_app 3 a s2 Hl), E.
  destruct a as [|d a]; [done|]. exact Hn.
Qed.

Lemma utf8_width_continuation c t n : utf8_width (String c t) = S n → continuation n t = true.
Proof.
  unfold utf8_width. repeat case_match; intros [= <-]; try done;
    repeat match goal with H : (_ && _)%bool = true |- _ => apply andb_true_iff in H as [? ?] end;
    done.
Qed.

Lemma sanitize_go_app n a b :
  String.length a = n → sanitize_go n (a +:+ b) = a +:+ sanitize_go 0 b.
Proof.
  revert a. induction n as [|n IH]; intros [|c a] Hl; try done.
  injection Hl as Hl. exact (f_equal (String c) (IH a Hl)).
Qed.

(** Put a whole prefix in front of the result of [unquote]. *)
Definition with_prefix (a : string) (r : option (string * string)) : option (string * string) :=
  '(w, rest) ← r; Some (a +:+ w, rest).

Lemma unquote_copy n a r :
  String.length a = n → unquote n None (a +:+ r) = with_prefix a (unquote 0 None r).
Proof.
  revert a. induction n as [|n IH]; intros [|c a] Hl; try done.
  - change (EmptyString +:+ r) with r. by destruct (unquote 0 None r) as [[]|].
  - injection Hl as Hl. change (String c a +:+ r) with (String c (a +:+ r)).
    cbn [unquote]. rewrite (IH a Hl). by destruct (unquote 0 None r) as [[]|].
Qed.

(** A rune that is written as it is. *)
Lemma unquote_rune c n a r :
  128 <= byte c → String.length a = n → utf8_width (String c (a +:+ r)) = S n →
  unquote 0 None (String c (a +:+ r)) = with_prefix (String c a) (unquote 0 None r).
Proof.
  intros Hc Hl Hw. cbn [unquote].
  rewrite (bool_decide_false (c = DQ)) by (intros ->; vm_compute in Hc; by destruct Hc).
  rewrite (bool_decide_false (c = BACKSLASH)) by (intros ->; vm_compute in Hc; by destruct Hc).
  rewrite (proj2 (Z.ltb_ge (byte c) 32)) by lia. rewrite Hw, (unquote_copy n a r Hl).
  by destruct (unquote 0 None r) as [[]|].
Qed.

(** The two separators that are written as escapes. *)
Lemma unquote_separator e r :
  byte e = 168 ∨ byte e = 169 →
  unquote 0 None (u_escape (8192 + byte e - 128) +:+ r) =
  with_prefix (String (chr 226) (String (chr 128) (String e EmptyString))) (unquote 0 None r).
Proof.
  intros [He|He]; rewrite <- (chr_byte e), He.
  - transitivity ('(w, rest) ← unquote 0 None r; Some (encode_rune 8232 +:+ w, rest));
      [reflexivity|by destruct (unquote 0 None r) as [[]|]].
  - transitivity ('(w, rest) ← unquote 0 None r; Some (encode_rune 8233 +:+ w, rest));
      [reflexivity|by destruct (unquote 0 None r) as [[]|]].
Qed.

(** Induction on the length of a string. *)
Lemma string_length_ind (P : string → Prop) :
  (∀ s, (∀ t, (String.length t < String.length s)%nat → P t) → P s) → ∀ s, P s.
Proof.
  intros Hstep s. remember (String.length s) as k eqn:Hk. revert s Hk.
  induction k as [k IH] using lt_wf_ind. intros s ->. apply Hstep. intros t Ht. by eapply IH.
Qed.

Lemma unquote_replaced r :
  unquote 0 None (u_escape 65533 +:+ r) = with_prefix replacement (unquote 0 None r).
Proof.
  transitivity ('(w, rest) ← unquote 0 None r; Some (replacement +:+ w, rest));
    [reflexivity|by destruct (unquote 0 None r) as [[]|]].
Qed.

(** A rune from 128 on, if it is not one of the separators. *)
Lemma unquote_escape_rune c n a b rest w :
  128 <= byte c → String.length a = n → utf8_width (String c (a +:+ b)) = S n →
  (∀ r, escape_go n (a +:+ b) +:+ r = a +:+ escape_go 0 b +:+ r) →
  unquote 0 None (escape_go 0 b +:+ String DQ rest) = Some (w, rest) →
  unquote 0 None (String c (escape_go n (a +:+ b)) +:+ String DQ rest) =
    Some (String c (a +:+ w), rest).
Proof.
  intros Hc Hl Hw He IH. change (String c ?x +:+ ?y) with (String c (x +:+ y)). rewrite He.
  rewrite (unquote_rune c n a) by first [done | by eapply utf8_width_prefix].
  by rewrite IH.
Qed.

(** What is behind the quote is read back, up to the closing quote. *)
Lemma unquote_escape s rest :
  unquote 0 None (escape_go 0 s +:+ String DQ rest) = Some (sanitize s, rest).
Proof.
  unfold sanitize. induction s as [[|c t] IH] using string_length_ind; [done|].
  cbn [sanitize_go escape_go]. destruct (Z.ltb_spec (byte c) 128) as [Hc|Hc].
  - assert (utf8_width (String c t) = 1%nat) as ->.
    { unfold utf8_width. rewrite (proj2 (in_range_spec 0 127 c)); [done|].
      pose proof (byte_range c). lia. }
    rewrite string_app_assoc, unquote_ascii, IH by (simpl; lia || done). done.
  - destruct (utf8_width (String c t)) as [|n] eqn:Hw.
    { rewrite string_app_assoc, unquote_replaced, IH by (simpl; lia). done. }
    destruct (escape_go_copy n t (utf8_width_continuation _ _ _ Hw)) as (a & b & -> & Hl & He).
    rewrite (sanitize_go_app n a b Hl).
    pose proof (unquote_escape_rune c n a b rest (sanitize_go 0 b) Hc Hl Hw He) as Hplain.
    rewrite IH in Hplain by (simpl; rewrite length_app_string; lia). specialize (Hplain eq_refl).
    destruct (a +:+ b) as [|d [|e t']] eqn:Hab; [exact Hplain..|].
    destruct (_ && _ && _) eqn:Hsep; [|exact Hplain].
    apply andb_true_iff in Hsep as [[Hc1%Z.eqb_eq Hd%Z.eqb_eq]%andb_true_iff He1%orb_true_iff].
    rewrite !Z.eqb_eq in He1.
    assert (n = 2%nat) as ->.
    { revert Hw. unfold utf8_width, in_range. rewrite Hc1. simpl. repeat case_match; congruence. }
    destruct a as [|a1 [|a2 [|]]]; try done.
    cbv [String.append] in Hab. injection Hab as -> -> ->.
    rewrite string_app_assoc, unquote_separator, IH by (simpl; lia || done). simpl.
    rewrite <- (chr_byte c), <- (chr_byte d), Hc1, Hd. done.
Qed.

(** ** Numbers *)

(** A character that a number literal in front of it can end before. *)
Definition ends_number (rest : string) : bool :=
  match rest with
  | EmptyString => true
  | String c _ => negb (in_range 48 57 c || bool_decide (c ∈ ["."; "e"; "E"]%char))
  end.

(** A whole literal of JSON. *)
Definition number_ok (lit : string) : bool := bool_decide (number lit = Some (lit, EmptyString)).

Lemma ends_number_spec c t :
  ends_number (String c t) = true →
  in_range 48 57 c = false ∧ c ≠ "."%char ∧ c ≠ "e"%char ∧ c ≠ "E"%char.
Proof.
  simpl. intros [Hr Hn]%negb_true_iff%orb_false_iff. apply bool_decide_eq_false in Hn. set_solver.
Qed.

Lemma take_digits_app s rest d r :
  ends_number rest = true → take_digits s = (d, r) → take_digits (s +:+ rest) = (d, r +:+ rest).
Proof.
  intros Hrest. revert d r. induction s as [|c s IH]; intros d r; cbn [take_digits].
  - intros [= <- <-]. change (EmptyString +:+ rest) with rest. destruct rest as [|c t]; [done|].
    apply ends_number_spec in Hrest as [Hr _]. cbn [take_digits]. by rewrite Hr.
  - change (String c s +:+ rest) with (String c (s +:+ rest)). cbn [take_digits].
    destruct (in_range 48 57 c); [|by intros [= <- <-]].
    destruct (take_digits s) as [d' r']. rewrite (IH d' r') by done. by intros [= <- <-].
Qed.

Lemma some_digits_app s rest d r :
  ends_number rest = true → some_digits s = Some (d, r) →
  some_digits (s +:+ rest) = Some (d, r +:+ rest).
Proof.
  intros Hrest. unfold some_digits. destruct (take_digits s) as [d' r'] eqn:E.
  rewrite (take_digits_app s rest d' r') by done. destruct d'; [done|]. by intros [= <- <-].
Qed.

Definition num_sign (s : string) : string * string :=
  match s with String "-" t => ("-", t) | _ => (EmptyString, s) end.

Definition num_int (s : string) : option (string * string) :=
  match s with String "0" t => Some ("0", t) | _ => some_digits s end.

Definition num_frac (s : string) : option (string * string) :=
  match s with
  | String "." t => '(d, r) ← some_digits t; Some (String "." d, r)
  | _ => Some (EmptyString, s)
  end.

Definition exp_sign (s : string) : string * string :=
  match s with String "+" u => ("+", u) | String "-" u => ("-", u) | _ => (EmptyString, s) end.

Definition num_exp (s : string) : option (string * string) :=
  match s with
  | String c t =>
      if bool_decide (c = "e"%char) || bool_decide (c = "E"%char) then
        let '(esgn, u) := exp_sign t in '(d, r) ← some_digits u; Some (String c (esgn +:+ d), r)
      else Some (EmptyString, s)
  | EmptyString => Some (EmptyString, s)
  end.

(** [number] in four steps. *)
Lemma number_steps s :
  number s =
    (let '(sgn, s1) := num_sign s in
     '(int, s2) ← num_int s1; '(frac, s3) ← num_frac s2; '(exp, s4) ← num_exp s3;
     Some (sgn +:+ int +:+ frac +:+ exp, s4)).
Proof. reflexivity. Qed.

Lemma num_frac_app s rest d r :
  ends_number rest = true → num_frac s = Some (d, r) → num_frac (s +:+ rest) = Some (d, r +:+ rest).
Proof.
  intros Hrest. destruct s as [|c s].
  - intros [= <- <-]. change (EmptyString +:+ rest) with rest. destruct rest as [|c t]; [done|].
    apply ends_number_spec in Hrest as (_ & Hdot & _).
    by destruct c as [[] [] [] [] [] [] [] []].
  - change (String c s +:+ rest) with (String c (s +:+ rest)).
    destruct (decide (c = "."%char)) as [->|Hc].
    + simpl. destruct (some_digits s) as [[d' r']|] eqn:E; [|done]. simpl. intros [= <- <-].
      by rewrite (some_digits_app s rest d' r').
    + assert (∀ t, num_frac (String c t) = Some (EmptyString, String c t)) as Hf
        by (intros t; by destruct c as [[] [] [] [] [] [] [] []]).
      rewrite !Hf. by intros [= <- <-].
Qed.

(** The sign of an exponent that has digits is found with a text behind it. *)
Lemma exp_sign_app s rest sg u :
  exp_sign s = (sg, u) → u ≠ EmptyString → exp_sign (s +:+ rest) = (sg, u +:+ rest).
Proof.
  destruct s as [|c s]; [by intros [= <- <-]|].
  change (String c s +:+ rest) with (String c (s +:+ rest)).
  by destruct c as [[] [] [] [] [] [] [] []]; intros [= <- <-].
Qed.

Lemma num_exp_app s rest d r :
  ends_number rest = true → num_exp s = Some (d, r) → num_exp (s +:+ rest) = Some (d, r +:+ rest).
Proof.
  intros Hrest. destruct s as [|c s].
  - intros [= <- <-]. change (EmptyString +:+ rest) with rest. destruct rest as [|c t]; [done|].
    apply ends_number_spec in Hrest as (_ & _ & He & HE).
    cbn [num_exp]. by rewrite !bool_decide_false.
  - change (String c s +:+ rest) with (String c (s +:+ rest)). cbn [num_exp].
    destruct (_ || _); [|by intros [= <- <-]].
    destruct (exp_sign s) as [sg u] eqn:Es.
    destruct (some_digits u) as [[d' r']|] eqn:E; [|done]. simpl. intros [= <- <-].
    rewrite (exp_sign_app s rest sg u) by (done || by intros ->).
    by rewrite (some_digits_app u rest d' r').
Qed.

Lemma num_int_app s rest d r :
  ends_number rest = true → num_int s = Some (d, r) → num_int (s +:+ rest) = Some (d, r +:+ rest).
Proof.
  intros Hrest. destruct s as [|c s]; [done|].
  change (String c s +:+ rest) with (String c (s +:+ rest)).
  destruct (decide (c = "0"%char)) as [->|Hc]; [by intros [= <- <-]|].
  assert (∀ t, num_int (String c t) = some_digits (String c t)) as Hf
    by (intros t; by destruct c as [[] [] [] [] [] [] [] []]).
  rewrite !Hf. change (String c (s +:+ rest)) with (String c s +:+ rest).
  by apply some_digits_app.
Qed.

Lemma num_sign_app s rest sg u :
  num_sign s = (sg, u) → s ≠ EmptyString → num_sign (s +:+ rest) = (sg, u +:+ rest).
Proof.
  destruct s as [|c s]; [done|]. change (String c s +:+ rest) with (String c (s +:+ rest)).
  by destruct c as [[] [] [] [] [] [] [] []]; intros [= <- <-].
Qed.

(** A literal is read in front of anything it cannot be continued with. *)
Lemma number_app lit rest :
  number_ok lit = true → ends_number rest = true → number (lit +:+ rest) = Some (lit, rest).
Proof.
  intros Hok%bool_decide_eq_true Hrest. rewrite number_steps in Hok |- *.
  destruct (num_sign lit) as [sg s1] eqn:E1.
  rewrite (num_sign_app lit rest sg s1) by (done || intros ->; by injection E1 as <- <-).
  destruct (num_int s1) as [[i s2]|] eqn:E2; [|done].
  rewrite (num_int_app s1 rest i s2) by done. simpl in Hok |- *.
  destruct (num_frac s2) as [[f s3]|] eqn:E3; [|done].
  rewrite (num_frac_app s2 rest f s3) by done. simpl in Hok |- *.
  destruct (num_exp s3) as [[e s4]|] eqn:E4; [|done].
  rewrite (num_exp_app s3 rest e s4) by done. simpl in Hok |- *. by injection Hok as -> ->.
Qed.

(** The characters of a literal. *)
Definition num_char (c : ascii) : bool :=
  in_range 48 57 c || bool_decide (c ∈ ["+"; "-"; "."; "e"; "E"]%char).

Fixpoint num_chars (s : string) : bool :=
  match s with EmptyString => true | String c t => num_char c && num_chars t end.

Lemma num_chars_app a b : num_chars (a +:+ b) = num_chars a && num_chars b.
Proof.
  induction a as [|c a IH]; [done|]. change (String c a +:+ b) with (String c (a +:+ b)).
  cbn [num_chars]. by rewrite IH, andb_assoc.
Qed.

Lemma take_digits_chars s : num_chars (take_digits s).1 = true.
Proof.
  induction s as [|c s IH]; [done|]. cbn [take_digits].
  destruct (in_range 48 57 c) eqn:Hc; [|done]. destruct (take_digits s) as [d r].
  cbn [fst num_chars] in *. unfold num_char. by rewrite Hc, IH.
Qed.

Lemma some_digits_chars s d r : some_digits s = Some (d, r) → num_chars d = true.
Proof.
  unfold some_digits. pose proof (take_digits_chars s) as Hd.
  destruct (take_digits s) as [[|c d'] r']; [done|]. by intros [= <- <-].
Qed.

Lemma number_ok_chars lit : number_ok lit = true → num_chars lit = true.
Proof.
  intros Hok%bool_decide_eq_true. rewrite number_steps in Hok.
  destruct (num_sign lit) as [sg s1] eqn:E1.
  assert (num_chars sg = true) as Hsg.
  { destruct lit as [|c t]; [by injection E1 as <- <-|].
    by destruct c as [[] [] [] [] [] [] [] []]; injection E1 as <- <-. }
  destruct (num_int s1) as [[i s2]|] eqn:E2; [|done].
  assert (num_chars i = true) as Hi.
  { unfold num_int in E2. repeat case_match; simplify_eq; try by eapply some_digits_chars. done. }
  simpl in Hok. destruct (num_frac s2) as [[f s3]|] eqn:E3; [|done].
  assert (num_chars f = true) as Hf.
  { unfold num_frac in E3. repeat case_match; simplify_eq; try done.
    destruct (some_digits _) as [[d r]|] eqn:E; simplify_eq/=. by eapply some_digits_chars. }
  simpl in Hok. destruct (num_exp s3) as [[e s4]|] eqn:E4; [|done].
  simpl in Hok. injection Hok as Hl _. rewrite <- Hl, !num_chars_app, Hsg, Hi, Hf. simpl.
  unfold num_exp in E4. destruct s3 as [|c t]; [by injection E4 as <- <-|].
  destruct (bool_decide (c = "e"%char) || bool_decide (c = "E"%char)) eqn:Hc;
    [|by injection E4 as <- <-].
  destruct (exp_sign t) as [sg' u] eqn:Es.
  destruct (some_digits u) as [[d r]|] eqn:E; [|done]. simpl in E4. injection E4 as <- <-.
  cbn [num_chars]. rewrite num_chars_app, (some_digits_chars _ _ _ E), andb_true_r.
  apply andb_true_iff. split.
  - by apply orb_true_iff in Hc as [Hc|Hc]; apply bool_decide_eq_true in Hc; subst c.
  - destruct t as [|c' t]; [by injection Es as <- <-|].
    by destruct c' as [[] [] [] [] [] [] [] []]; injection Es as <- <-.
Qed.

(** A printed number does not start with the digit 0. *)
Lemma pretty_N_go_head (x : N) s :
  (0 < x)%N → ∃ c t, pretty_N_go x s = String c t ∧ c ≠ "0"%char.
Proof.
  revert s. induction (N.lt_wf_0 x) as [x _ IH]. intros s Hx.
  rewrite pretty_N_go_step by done. destruct (decide (x < 10)%N) as [Hs|Hs].
  - rewrite N.div_small, pretty_N_go_0 by done. eexists _, _. split; [done|].
    rewrite N.mod_small by done.
    assert (x = 1 ∨ x = 2 ∨ x = 3 ∨ x = 4 ∨ x = 5 ∨ x = 6 ∨ x = 7 ∨ x = 8 ∨ x = 9)%N as Hc by lia.
    by repeat (destruct Hc as [->|Hc]; [done|]); subst.
  - apply IH; [by apply N.div_lt|]. apply N.div_str_pos. lia.
Qed.

Lemma take_all_digits s : all_digits s → take_digits s = (s, EmptyString).
Proof.
  induction s as [|c s IH]; [done|]. intros [Hc Hs]. cbn [take_digits]. rewrite (IH Hs).
  assert (in_range 48 57 c = true) as ->; [|done].
  pattern c. apply digit_ind; [done|]. repeat constructor.
Qed.

Lemma number_pretty_N (x : N) :
  num_sign (pretty x) = (EmptyString, pretty x) ∧ num_int (pretty x) = Some (pretty x, EmptyString).
Proof.
  pose proof (digits_all_digits _ _ _ (digits_pretty_N x)) as Hall.
  pose proof (take_all_digits _ Hall) as Ht.
  destruct (decide (x = 0)%N) as [->|Hx]; [done|].
  destruct (pretty_N_go_head x EmptyString ltac:(lia)) as (c & t & E & Hc).
  assert (pretty x = String c t) as Ep by (unfold pretty, pretty_N; by rewrite decide_False).
  rewrite Ep in *. destruct Hall as [Hd _]. split.
  - assert (c ≠ "-"%char) by (by destruct (lower_digit c Hd) as (_ & _ & _ & _ & _ & ?)).
    by destruct c as [[] [] [] [] [] [] [] []].
  - assert (num_int (String c t) = some_digits (String c t)) as ->
      by (by destruct c as [[] [] [] [] [] [] [] []]).
    unfold some_digits. by rewrite Ht.
Qed.

(** The integers the program writes are literals. *)
Lemma number_ok_Itoa z : number_ok (Itoa z) = true.
Proof.
  assert (∀ x : N, number (pretty x) = Some (pretty x, EmptyString)) as Hnat.
  { intros x. destruct (number_pretty_N x) as [Hs Hi]. rewrite number_steps, Hs, Hi. simpl.
    by rewrite string_app_nil_r. }
  apply bool_decide_eq_true. destruct z as [|p|p]; [done|exact (Hnat (Npos p))|].
  change (Itoa (Z.neg p)) with (String "-" (pretty (Npos p))).
  destruct (number_pretty_N (Npos p)) as [_ Hi]. rewrite number_steps. cbn [num_sign].
  rewrite Hi. simpl. by rewrite string_app_nil_r.
Qed.

(** ** Trees *)

(** Induction with a hypothesis for every child. *)
Section json_ind.
Variable P : json → Prop.
Hypothesis HNull : P JNull.
Hypothesis HBool : ∀ b, P (JBool b).
Hypothesis HNum : ∀ lit, P (JNum lit).
Hypothesis HStr : ∀ s, P (JStr s).
Hypothesis HArr : ∀ vs, Forall P vs → P (JArr vs).
Hypothesis HObj : ∀ ms, Forall (λ m, P m.2) ms → P (JObj ms).

Fixpoint json_tree_ind (v : json) : P v :=
  match v with
  | JNull => HNull
  | JBool b => HBool b
  | JNum lit => HNum lit
  | JStr s => HStr s
  | JArr vs => HArr vs
      ((fix go l : Forall P l := match l with
        | [] => Forall_nil_2 _
        | v :: l' => Forall_cons_2 _ v l' (json_tree_ind v) (go l')
        end) vs)
  | JObj ms => HObj ms
      ((fix go l : Forall (λ m : string * json, P m.2) l := match l with
        | [] => Forall_nil_2 _
        | m :: l' => Forall_cons_2 _ m l' (json_tree_ind m.2) (go l')
        end) ms)
  end.
End json_ind.

(** The numbers of a tree are literals. *)
Fixpoint json_ok (v : json) : bool :=
  match v with
  | JNull | JBool _ | JStr _ => true
  | JNum lit => number_ok lit
  | JArr vs => forallb json_ok vs
  | JObj ms => forallb (λ m, json_ok m.2) ms
  end.

(** The tree as the decoder sees it. *)
Fixpoint clean (v : json) : json :=
  match v with
  | JNull | JBool _ | JNum _ => v
  | JStr s => JStr (sanitize s)
  | JArr vs => JArr (map clean vs)
  | JObj ms => JObj (map (λ m, (sanitize m.1, clean m.2)) ms)
  end.

(** All strings of a tree are UTF-8. *)
Fixpoint strings_ok (v : json) : bool :=
  match v with
  | JNull | JBool _ | JNum _ => true
  | JStr s => utf8_ok s
  | JArr vs => forallb strings_ok vs
  | JObj ms => forallb (λ m, utf8_ok m.1 && strings_ok m.2) ms
  end.

Lemma forallb_elem {A} (f : A → bool) l x : forallb f l = true → x ∈ l → f x = true.
Proof. intros Hf Hx. by eapply forallb_forall, list_elem_of_In. Qed.

Lemma map_id_elem {A} (f : A → A) l : (∀ x, x ∈ l → f x = x) → map f l = l.
Proof.
  induction l as [|x l IH]; intros Hf; [done|]. simpl.
  rewrite Hf, IH; [done| |by left]. intros y Hy. apply Hf. by right.
Qed.

Lemma clean_id v : strings_ok v = true → clean v = v.
Proof.
  induction v as [| | |s|vs IH|ms IH] using json_tree_ind; intros Hok; try done; cbn [clean];
    f_equal; try rewrite Forall_forall in IH; cbn [strings_ok] in Hok.
  - by apply sanitize_utf8.
  - apply map_id_elem. intros x Hx. apply IH; [done|]. by eapply forallb_elem.
  - apply map_id_elem. intros [k x] Hx.
    pose proof (forallb_elem _ _ _ Hok Hx) as [Hk Hv]%andb_true_iff.
    pose proof (IH _ Hx Hv) as E. cbn [fst snd] in *. by rewrite E, sanitize_utf8.
Qed.

(** How deep the brackets are nested. *)
Fixpoint height (v : json) : nat :=
  match v with
  | JArr vs => S (max_list_with height vs)
  | JObj ms => S (max_list_with (λ m, height m.2) ms)
  | _ => 0
  end.

(** The calls of the parser a tree takes. *)
Fixpoint calls (v : json) : nat :=
  match v with
  | JArr vs => S (sum_list_with (λ v, S (calls v)) vs)
  | JObj ms => S (sum_list_with (λ m, S (calls m.2)) ms)
  | _ => 1
  end.

(** *** White space *)

Lemma skip_ws_indent ind s : skip_ws (newline_indent ind +:+ s) = skip_ws s.
Proof.
  assert (∀ n, skip_ws (string_repeat n " " +:+ s) = skip_ws s) as Hr.
  { intros n. induction n as [|n IH]; [done|]. cbn [string_repeat]. exact IH. }
  destruct ind as [n|]; [exact (Hr (2 * n)%nat)|done].
Qed.

Lemma skip_ws_blank (ind : option nat) s :
  skip_ws ((match ind with None => EmptyString | Some _ => " " end) +:+ s) = skip_ws s.
Proof. by destruct ind. Qed.

(** A text that a value may start with. *)
Definition starts_value (s : string) : bool :=
  match s with
  | EmptyString => false
  | String c _ => negb (bool_decide (byte c ∈ [32; 9; 10; 13])) && negb (bool_decide (c = "]"%char))
                  && negb (bool_decide (c = "}"%char))
  end.

Lemma skip_ws_value s : starts_value s = true → skip_ws s = s.
Proof.
  destruct s as [|c s]; [done|]. simpl. intros [[Hw _]%andb_true_iff _]%andb_true_iff.
  apply negb_true_iff in Hw. by rewrite Hw.
Qed.

Lemma starts_value_app s r : starts_value s = true → starts_value (s +:+ r) = true.
Proof. by destruct s. Qed.

Lemma number_ok_head lit :
  number_ok lit = true → ∃ c t, lit = String c t ∧ (in_range 48 57 c || bool_decide (c = "-"%char)) = true.
Proof.
  intros Hok%bool_decide_eq_true. destruct lit as [|c t]; [done|]. exists c, t. split; [done|].
  destruct (decide (c = "-"%char)) as [->|Hc]; [done|].
  destruct (in_range 48 57 c) eqn:Hr; [done|]. exfalso. revert Hok. rewrite number_steps.
  assert (num_sign (String c t) = (EmptyString, String c t)) as ->
    by (by destruct c as [[] [] [] [] [] [] [] []]).
  assert (num_int (String c t) = some_digits (String c t)) as ->
    by (by destruct c as [[] [] [] [] [] [] [] []]).
  unfold some_digits. cbn [take_digits]. by rewrite Hr.
Qed.

Lemma starts_value_marshal ind v : json_ok v = true → starts_value (marshal ind v) = true.
Proof.
  destruct v as [|[]|lit|s|[]|[]]; try done. cbn [json_ok marshal].
  intros (c & t & -> & Hc)%number_ok_head. revert Hc.
  by destruct c as [[] [] [] [] [] [] [] []].
Qed.

(** *** Reading what is written *)

(** One element, and one member, with the white space in front of it. *)
Definition elem_text (deeper : option nat) (v : json) : string :=
  newline_indent deeper +:+ marshal deeper v.

Definition member_text (ind deeper : option nat) (m : string * json) : string :=
  newline_indent deeper +:+ quote m.1 +:+ ":"
  +:+ (match ind with None => EmptyString | Some _ => " " end) +:+ marshal deeper m.2.

Lemma concat_cons2 x y l : String.concat "," (x :: y :: l) = x +:+ "," +:+ String.concat "," (y :: l).
Proof. done. Qed.

Lemma parse_value_ws f d s s' : skip_ws s = skip_ws s' → parse_value f d s = parse_value f d s'.
Proof. intros E. destruct f; [done|]. cbn [parse_value]. by rewrite E. Qed.

(** The statement that is proved by induction on the tree. *)
Definition read_back (v : json) : Prop := ∀ ind fuel depth rest,
  json_ok v = true → (calls v ≤ fuel)%nat → depth + Z.of_nat (height v) <= max_depth →
  ends_number rest = true → parse_value fuel depth (marshal ind v +:+ rest) = Some (clean v, rest).

(** The end of an array or object: white space and the bracket. *)
Lemma ends_number_close ind c r :
  c = "]"%char ∨ c = "}"%char → ends_number (newline_indent ind +:+ String c r) = true.
Proof. destruct ind as [n|]; [done|]. by intros [->| ->]. Qed.

Lemma parse_elems_back ind deeper fuel depth vs rest :
  Forall read_back vs → vs ≠ [] → forallb json_ok vs = true →
  (sum_list_with (λ v, S (calls v)) vs ≤ fuel)%nat →
  depth + Z.of_nat (max_list_with height vs) <= max_depth →
  parse_elems fuel depth
    (String.concat "," (map (elem_text deeper) vs) +:+ newline_indent ind +:+ String "]" rest)
  = Some (map clean vs, rest).
Proof.
  intros Hall. revert fuel. induction Hall as [|v vs Hv Hvs IH]; [done|].
  intros fuel _ [Hok Hoks]%andb_true_iff Hfuel Hdepth. simpl in Hfuel, Hdepth.
  destruct fuel as [|f]; [lia|]. cbn [parse_elems].
  assert (∀ r, ends_number r = true →
    parse_value f depth (elem_text deeper v +:+ r) = Some (clean v, r)) as Hread.
  { intros r Hr. unfold elem_text. rewrite string_app_assoc.
    rewrite (parse_value_ws _ _ _ _ (skip_ws_indent deeper _)). apply Hv; [done|lia|lia|done]. }
  destruct vs as [|v' vs'].
  - cbn [map String.concat]. rewrite Hread by (apply ends_number_close; auto).
    simpl. rewrite skip_ws_indent. done.
  - cbn [map]. rewrite concat_cons2, !string_app_assoc, Hread by done. simpl.
    change (skip_ws ("," +:+ ?r)) with (String "," r). cbv iota beta.
    change (elem_text deeper v' :: map (elem_text deeper) vs')
      with (map (elem_text deeper) (v' :: vs')).
    rewrite IH; [done|done|done|lia|lia].
Qed.

(** A member up to its value. *)
Lemma member_text_app ind deeper m r :
  member_text ind deeper m +:+ r =
  newline_indent deeper +:+ String DQ (escape_go 0 m.1 +:+ String DQ
    (String ":" ((match ind with None => EmptyString | Some _ => " " end)
      +:+ marshal deeper m.2 +:+ r))).
Proof.
  unfold member_text, quote. rewrite !string_app_assoc.
  change (String DQ ?x +:+ ?y) with (String DQ (x +:+ y)). by rewrite !string_app_assoc.
Qed.

Lemma parse_members_back ind deeper fuel depth ms rest :
  Forall (λ m, read_back m.2) ms → ms ≠ [] →
  forallb (λ m, json_ok m.2) ms = true →
  (sum_list_with (λ m, S (calls m.2)) ms ≤ fuel)%nat →
  depth + Z.of_nat (max_list_with (λ m, height m.2) ms) <= max_depth →
  parse_members fuel depth
    (String.concat "," (map (member_text ind deeper) ms) +:+ newline_indent ind +:+ String "}" rest)
  = Some (map (λ m, (sanitize m.1, clean m.2)) ms, rest).
Proof.
  intros Hall. revert fuel. induction Hall as [|[k v] ms Hv Hms IH]; [done|].
  intros fuel _ [Hok Hoks]%andb_true_iff Hfuel Hdepth.
  simpl in Hok, Hv, Hfuel, Hdepth. destruct fuel as [|f]; [lia|].
  assert (∀ r, ends_number r = true →
    parse_value f depth ((match ind with None => EmptyString | Some _ => " " end)
      +:+ marshal deeper v +:+ r) = Some (clean v, r)) as Hread.
  { intros r Hr. rewrite (parse_value_ws _ _ _ _ (skip_ws_blank ind _)).
    apply Hv; [done|lia|lia|done]. }
  destruct ms as [|m' ms'].
  - cbn [map String.concat]. rewrite member_text_app. cbn [parse_members].
    rewrite skip_ws_indent, (skip_ws_value (String DQ _)) by done.
    rewrite bool_decide_true by done. cbn [fst snd]. rewrite unquote_escape. simpl.
    rewrite Hread by (apply ends_number_close; auto). simpl. by rewrite skip_ws_indent.
  - cbn [map]. rewrite concat_cons2, !string_app_assoc, member_text_app. cbn [parse_members].
    rewrite skip_ws_indent, (skip_ws_value (String DQ _)) by done.
    rewrite bool_decide_true by done. cbn [fst snd]. rewrite unquote_escape. simpl.
    rewrite Hread by done. simpl.
    change (skip_ws ("," +:+ ?r)) with (String "," r). cbv iota beta.
    change (member_text ind deeper m' :: map (member_text ind deeper) ms')
      with (map (member_text ind deeper) (m' :: ms')).
    rewrite IH; [done|done|done|lia|lia].
Qed.

(** A value that starts with a digit or a minus sign is a number. *)
Lemma parse_value_number f d c t :
  (in_range 48 57 c || bool_decide (c = "-"%char)) = true →
  parse_value (S f) d (String c t) = ('(lit, r) ← number (String c t); Some (JNum lit, r)).
Proof.
  intros Hc. cbn [parse_value]. rewrite skip_ws_value
    by (revert Hc; by destruct c as [[] [] [] [] [] [] [] []]).
  rewrite !(bool_decide_false (c = _)) by (by intros ->). by rewrite Hc.
Qed.

(** What follows an opening bracket is not the closing one. *)
Lemma not_closing {A} s (f : string → A) (b : A) :
  starts_value s = true →
  match s with String "]" r => f r | _ => b end = b ∧
  match s with String "}" r => f r | _ => b end = b.
Proof. destruct s as [|c s]; [done|]. by destruct c as [[] [] [] [] [] [] [] []]. Qed.

Lemma marshal_arr ind v vs :
  marshal ind (JArr (v :: vs)) =
  "[" +:+ String.concat "," (map (elem_text (S <$> ind)) (v :: vs)) +:+ newline_indent ind +:+ "]".
Proof. reflexivity. Qed.

Lemma marshal_obj ind m ms :
  marshal ind (JObj (m :: ms)) =
  "{" +:+ String.concat "," (map (member_text ind (S <$> ind)) (m :: ms))
  +:+ newline_indent ind +:+ "}".
Proof. reflexivity. Qed.

(** The first element, or the first quote, is found behind the white space. *)
Lemma skip_ws_elems deeper v vs r :
  json_ok v = true →
  starts_value (skip_ws (String.concat "," (map (elem_text deeper) (v :: vs)) +:+ r)) = true.
Proof.
  intros Hok. assert (∀ x, starts_value (skip_ws (elem_text deeper v +:+ x)) = true) as H1.
  { intros x. unfold elem_text. rewrite string_app_assoc, skip_ws_indent.
    pose proof (starts_value_app _ x (starts_value_marshal deeper v Hok)) as Hs.
    by rewrite skip_ws_value. }
  destruct vs; [apply H1|]. cbn [map]. rewrite concat_cons2, string_app_assoc. apply H1.
Qed.

Lemma skip_ws_members ind deeper m ms r :
  starts_value (skip_ws (String.concat "," (map (member_text ind deeper) (m :: ms)) +:+ r)) = true.
Proof.
  assert (∀ x, starts_value (skip_ws (member_text ind deeper m +:+ x)) = true) as H1
    by (intros x; by rewrite member_text_app, skip_ws_indent).
  destruct ms; [apply H1|]. cbn [map]. rewrite concat_cons2, string_app_assoc. apply H1.
Qed.

Lemma read_back_arr vs : Forall read_back vs → read_back (JArr vs).
Proof.
  intros Hall ind fuel depth rest Hok Hfuel Hdepth Hrest.
  destruct fuel as [|f]; [by inversion Hfuel|]. cbn [calls height] in Hfuel, Hdepth.
  cbn [json_ok] in Hok. destruct vs as [|v vs].
  { cbn [marshal]. simpl. destruct (Z.leb_spec max_depth depth); [simpl in Hdepth; lia|done]. }
  rewrite marshal_arr, !string_app_assoc.
  change ("[" +:+ ?r) with (String "[" r).
  cbn [parse_value]. change (skip_ws (String "[" ?r)) with (String "[" r). cbv iota.
  rewrite (bool_decide_false ("["%char = "{"%char)), bool_decide_true by done.
  destruct (Z.leb_spec max_depth depth); [lia|].
  pose proof Hok as [Hv _]%andb_true_iff.
  rewrite (proj1 (not_closing _ _ _ (skip_ws_elems _ v vs _ Hv))).
  change ("]" +:+ rest) with (String "]" rest).
  rewrite (parse_elems_back ind (S <$> ind) f (depth + 1) (v :: vs) rest)
    by (done || lia). done.
Qed.

Lemma read_back_obj ms : Forall (λ m, read_back m.2) ms → read_back (JObj ms).
Proof.
  intros Hall ind fuel depth rest Hok Hfuel Hdepth Hrest.
  destruct fuel as [|f]; [by inversion Hfuel|]. cbn [calls height] in Hfuel, Hdepth.
  cbn [json_ok] in Hok. destruct ms as [|m ms].
  { cbn [marshal]. simpl. destruct (Z.leb_spec max_depth depth); [simpl in Hdepth; lia|done]. }
  rewrite marshal_obj, !string_app_assoc.
  change ("{" +:+ ?r) with (String "{" r).
  cbn [parse_value]. change (skip_ws (String "{" ?r)) with (String "{" r). cbv iota.
  rewrite bool_decide_true by done.
  destruct (Z.leb_spec max_depth depth); [lia|].
  rewrite (proj2 (not_closing _ _ _ (skip_ws_members _ _ m ms _))).
  change ("}" +:+ rest) with (String "}" rest).
  rewrite (parse_members_back ind (S <$> ind) f (depth + 1) (m :: ms) rest)
    by (done || lia). done.
Qed.

Lemma marshal_read_back v : read_back v.
Proof.
  induction v as [|[]|lit|s|vs IH|ms IH] using json_tree_ind;
    [| | | | |by apply read_back_arr|by apply read_back_obj];
    intros ind fuel depth rest Hok Hfuel _ Hrest; (destruct fuel as [|f]; [by inversion Hfuel|]);
    try done.
  - cbn [marshal]. destruct (number_ok_head lit Hok) as (c & t & E & Hc).
    pose proof (number_app lit rest Hok Hrest) as Hn. rewrite E in Hn |- *.
    change (String c t +:+ rest) with (String c (t +:+ rest)) in Hn |- *.
    rewrite parse_value_number by done. by rewrite Hn.
  - cbn [marshal]. unfold quote.
    change (String DQ ?x +:+ ?y) with (String DQ (x +:+ y)). rewrite string_app_assoc.
    change (String DQ EmptyString +:+ rest) with (String DQ rest).
    cbn [parse_value]. rewrite skip_ws_value by done. cbv iota.
    rewrite !(bool_decide_false (DQ = _)), bool_decide_true by done.
    by rewrite unquote_escape.
Qed.

(** *** Enough fuel *)

Lemma concat_length l :
  l ≠ [] → S (String.length (String.concat "," l)) = sum_list_with (λ s, S (String.length s)) l.
Proof.
  induction l as [|s l IH]; intros Hne; [done|]. destruct l as [|s' l]; [simpl; lia|].
  rewrite concat_cons2, !length_app_string. cbn [sum_list_with] in IH |- *.
  specialize (IH ltac:(done)). change (String.length ",") with 1%nat. lia.
Qed.

Lemma sum_list_with_le {A B} (f : A → nat) (g : B → nat) (h : A → B) l :
  Forall (λ x, f x ≤ g (h x))%nat l → (sum_list_with f l ≤ sum_list_with g (map h l))%nat.
Proof. induction 1; simpl; lia. Qed.

Lemma calls_length v : ∀ ind, json_ok v = true → (calls v ≤ String.length (marshal ind v))%nat.
Proof.
  induction v as [|[]|lit|s|vs IH|ms IH] using json_tree_ind; intros ind Hok;
    try (simpl; lia); try rewrite Forall_forall in IH.
  - destruct (number_ok_head lit Hok) as (c & t & E & _). cbn [marshal]. rewrite E. simpl. lia.
  - destruct vs as [|v vs]; [simpl; lia|]. rewrite marshal_arr, !length_app_string.
    cbn [calls]. change (String.length "[") with 1%nat. change (String.length "]") with 1%nat.
    pose proof (concat_length (map (elem_text (S <$> ind)) (v :: vs)) ltac:(done)) as Hl.
    assert (sum_list_with (λ v, S (calls v)) (v :: vs) ≤ sum_list_with (λ s, S (String.length s))
      (map (elem_text (S <$> ind)) (v :: vs)))%nat as Hle; [|lia].
    apply sum_list_with_le, Forall_forall. intros x Hx.
    unfold elem_text. rewrite length_app_string.
    specialize (IH x Hx (S <$> ind) (forallb_elem _ _ _ Hok Hx)). lia.
  - destruct ms as [|m ms]; [simpl; lia|]. rewrite marshal_obj, !length_app_string.
    cbn [calls]. change (String.length "{") with 1%nat. change (String.length "}") with 1%nat.
    pose proof (concat_length (map (member_text ind (S <$> ind)) (m :: ms)) ltac:(done)) as Hl.
    assert (sum_list_with (λ m, S (calls m.2)) (m :: ms) ≤ sum_list_with (λ s, S (String.length s))
      (map (member_text ind (S <$> ind)) (m :: ms)))%nat as Hle; [|lia].
    apply sum_list_with_le, Forall_forall. intros x Hx.
    unfold member_text. rewrite !length_app_string.
    specialize (IH x Hx (S <$> ind) (forallb_elem _ _ _ Hok Hx)). lia.
Qed.

(** ** The round trip *)

(** A tree the decoder takes. *)
Definition decodable (v : json) : bool := json_ok v && bool_decide (Z.of_nat (height v) <= max_depth).

Lemma number_ok_JInt z : json_ok (JInt z) = true.
Proof. apply number_ok_Itoa. Qed.

(** A tree it takes and leaves as it is. *)
Definition encodable (v : json) : bool := decodable v && strings_ok v.

Lemma parse_value_marshal ind v rest :
  decodable v = true → ends_number rest = true →
  parse_value (fuel_for (marshal ind v +:+ rest)) 0 (marshal ind v +:+ rest) = Some (clean v, rest).
Proof.
  intros [Hok Hh%bool_decide_eq_true]%andb_true_iff Hrest.
  apply marshal_read_back; [done| |lia|done]. unfold fuel_for. rewrite length_app_string.
  pose proof (calls_length v ind Hok). lia.
Qed.

(** The encoded text, with white space behind it, is decoded. *)
Lemma parse_marshal ind v rest :
  decodable v = true → ends_number rest = true → skip_ws rest = EmptyString →
  parse (marshal ind v +:+ rest) = Some (clean v).
Proof.
  intros Hv Hrest Hws. unfold parse. rewrite parse_value_marshal by done. simpl. by rewrite Hws.
Qed.

Lemma parse_marshal_end ind v : decodable v = true → parse (marshal ind v) = Some (clean v).
Proof.
  intros Hv. rewrite <- (string_app_nil_r (marshal ind v)). by apply parse_marshal.
Qed.

(** A stream decoder takes the value off the front of a body. *)
Lemma parse_first_marshal ind v rest :
  decodable v = true → ends_number rest = true →
  parse_first (marshal ind v +:+ rest) = Some (clean v).
Proof. intros Hv Hrest. unfold parse_first. by rewrite parse_value_marshal. Qed.

Lemma parse_marshal_same ind v : encodable v = true → parse (marshal ind v) = Some v.
Proof. intros [Hd Hs]%andb_true_iff. by rewrite parse_marshal_end, (clean_id v Hs). Qed.

(** A byte that is not UTF-8 comes back as the replacement character. *)
Example not_utf8 :
  parse (Marshal (JStr (String (chr 255) EmptyString))) = Some (JStr replacement).
Proof. vm_compute. reflexivity. Qed.
