(* ===== verification/JsonFloat.v ===== *)
(** * Floats in JSON

    What the encoder prints for a finite float is a number literal of JSON, so
    that it passes the decoder's scanner and is read back as the same float. *)
From Stdlib Require Import ZArith Lia Ascii SpecFloat.
From stdpp Require Import base tactics option list numbers strings pretty.
From S2P Require Import Prelude GoStrings GoText GoFloat GoNum GoShortest GoJson JsonRoundTrip.

Open Scope Z_scope.

(** ** The parts of a literal *)

(** Digits that a number can begin with. *)
Definition leads (s : string) : Prop :=
  match s with EmptyString => False | String c _ => c ≠ "0"%char end.

(** A text that does not go on with a digit. *)
Definition stops (s : string) : Prop :=
  match s with EmptyString => True | String c _ => in_range 48 57 c = false end.

(** A fraction or an exponent, or nothing. *)
Definition fraction_part (s : string) : Prop :=
  s = EmptyString ∨ ∃ d, s = String "." d ∧ all_digits d ∧ d ≠ EmptyString.

Definition exponent_part (s : string) : Prop :=
  s = EmptyString ∨
  ∃ g d, s = String "e" (String g d) ∧ (g = "+" ∨ g = "-")%char ∧ all_digits d ∧ d ≠ EmptyString.

Lemma digit_in_range c : is_Some (digit c) → in_range 48 57 c = true.
Proof. intros Hc. pattern c. apply digit_ind; [done|]. repeat constructor. Qed.

Lemma take_digits_stop s rest :
  all_digits s → stops rest → take_digits (s +:+ rest) = (s, rest).
Proof.
  intros Hs Hr. induction s as [|c s IH].
  - change (EmptyString +:+ rest) with rest. destruct rest as [|c t]; [done|].
    cbn [take_digits]. simpl in Hr. by rewrite Hr.
  - destruct Hs as [Hc Hs]. change (String c s +:+ rest) with (String c (s +:+ rest)).
    cbn [take_digits]. by rewrite (IH Hs), digit_in_range.
Qed.

Lemma some_digits_stop s rest :
  all_digits s → s ≠ EmptyString → stops rest → some_digits (s +:+ rest) = Some (s, rest).
Proof.
  intros Hs Hne Hr. unfold some_digits. rewrite take_digits_stop by done. by destruct s.
Qed.

Lemma exponent_part_stops x : exponent_part x → stops x.
Proof. by intros [->|(g & d & -> & _)]. Qed.

Lemma fraction_part_stops f x : fraction_part f → exponent_part x → stops (f +:+ x).
Proof. intros [->|(d & -> & _)]; [apply exponent_part_stops|done]. Qed.

Lemma num_int_stop a rest :
  all_digits a → leads a → stops rest → num_int (a +:+ rest) = Some (a, rest).
Proof.
  intros Ha Hl Hr. rewrite <- (some_digits_stop a rest) by (done || by intros ->).
  destruct a as [|c a]; [done|]. change (String c a +:+ rest) with (String c (a +:+ rest)).
  simpl in Hl. by destruct c as [[] [] [] [] [] [] [] []].
Qed.

Lemma num_exp_part x : exponent_part x → num_exp x = Some (x, EmptyString).
Proof.
  intros [->|(g & d & -> & Hg & Hd & Hne)]; [done|]. cbn [num_exp].
  rewrite bool_decide_true by done. simpl orb. cbv iota.
  pose proof (some_digits_stop d EmptyString Hd Hne I) as Hs. rewrite string_app_nil_r in Hs.
  destruct Hg as [-> | ->]; cbn [exp_sign]; by rewrite Hs.
Qed.

Lemma num_frac_part f x :
  fraction_part f → exponent_part x → num_frac (f +:+ x) = Some (f, x).
Proof.
  intros [->|(d & -> & Hd & Hne)] Hx.
  - by destruct Hx as [->|(g & d & -> & _)].
  - change (String "." d +:+ x) with (String "." (d +:+ x)). cbn [num_frac].
    rewrite some_digits_stop by (done || by apply exponent_part_stops). done.
Qed.

(** ** Literals *)

Lemma number_ok_parts a f x :
  a = "0" ∨ (all_digits a ∧ leads a) → fraction_part f → exponent_part x →
  number_ok (a +:+ f +:+ x) = true ∧ number_ok ("-" +:+ a +:+ f +:+ x) = true.
Proof.
  intros Ha Hf Hx. assert (num_int (a +:+ f +:+ x) = Some (a, f +:+ x)) as Hi.
  { destruct Ha as [->|[Ha Hl]]; [done|]. apply num_int_stop; [done..|].
    by apply fraction_part_stops. }
  assert (num_sign (a +:+ f +:+ x) = (EmptyString, a +:+ f +:+ x)) as Hs.
  { destruct a as [|c a]; [by destruct Ha as [|[]]|].
    change (String c a +:+ f +:+ x) with (String c (a +:+ f +:+ x)).
    assert (is_Some (digit c)) as Hc by (destruct Ha as [[= -> _]|[[Hc _] _]]; [by eexists|done]).
    assert (c ≠ "-"%char) by (by destruct (lower_digit c Hc) as (_ & _ & _ & _ & _ & ?)).
    by destruct c as [[] [] [] [] [] [] [] []]. }
  split; apply bool_decide_eq_true; rewrite number_steps.
  - rewrite Hs, Hi. simpl. rewrite num_frac_part by done. simpl. by rewrite num_exp_part.
  - change (num_sign ("-" +:+ a +:+ f +:+ x)) with ("-", a +:+ f +:+ x). cbv iota. rewrite Hi. simpl. rewrite num_frac_part by done. simpl.
    by rewrite num_exp_part.
Qed.

Lemma all_digits_join a b : all_digits a → all_digits b → all_digits (a +:+ b).
Proof. induction a as [|c a IH]; [done|]. intros [Hc Ha] Hb. split; [done|]. by apply IH. Qed.

Lemma leads_app a b : leads a → leads (a +:+ b).
Proof. by destruct a. Qed.

Lemma leads_prefix a b : leads (a +:+ b) → a ≠ EmptyString → leads a.
Proof. by destruct a. Qed.

Lemma Itoa_leads d : 0 < d → leads (Itoa d).
Proof.
  intros Hd. destruct (Itoa_pos d Hd) as (-> & _ & _). unfold pretty, pretty_N.
  rewrite decide_False by lia.
  destruct (pretty_N_go_head (Z.to_N d) EmptyString ltac:(lia)) as (c & t & -> & Hc). done.
Qed.

Lemma zeros_digits n : all_digits (zeros n).
Proof. by eapply digits_all_digits, (digits_zeros n 0). Qed.

Lemma Itoa_all_digits d : 0 <= d → all_digits (Itoa d) ∧ Itoa d ≠ EmptyString.
Proof.
  intros Hd. destruct (decide (d = 0)) as [->|Hn].
  - split; [|done]. split; [by eexists|done].
  - destruct (Itoa_pos d ltac:(lia)) as (_ & Hdig & Hne). split; [|done]. by eapply digits_all_digits.
Qed.

Lemma exponent_text x :
  exponent_part ("e" +:+ (if x <? 0 then Itoa x else "+" +:+ Itoa x)).
Proof.
  right. destruct (Z.ltb_spec x 0) as [Hx|Hx].
  - destruct (Itoa_all_digits (- x) ltac:(lia)) as [Ha Hne]. exists "-"%char, (Itoa (- x)).
    split; [|by split; [right|]]. by destruct x.
  - destruct (Itoa_all_digits x ltac:(lia)) as [Ha Hne]. exists "+"%char, (Itoa x).
    split; [done|]. by split; [left|].
Qed.

(** Every decimal text is a literal, with a minus sign or without. *)
Lemma decimal_text_number_ok expo d q :
  0 < d →
  number_ok (decimal_text expo d q) = true ∧ number_ok ("-" +:+ decimal_text expo d q) = true.
Proof.
  intros Hd. destruct (Itoa_all_digits d ltac:(lia)) as [Hall Hne].
  pose proof (Itoa_leads d Hd) as Hlead. unfold decimal_text. set (ds := Itoa d) in *.
  assert (fraction_part EmptyString) as Hf0 by by left.
  assert (exponent_part EmptyString) as Hx0 by by left.
  assert (0 < String.length ds)%nat as Hlen by (destruct ds; [done|simpl; lia]).
  destruct expo; [|destruct (Z.leb_spec 0 q) as [Hq|Hq];
    [|destruct (Z.ltb_spec (- q) (Z.of_nat (String.length ds))) as [Hl|Hl]]].
  - pose proof (split_at_spec 1 ds ltac:(lia)) as Hsp. destruct (split_at 1 ds) as [a b].
    destruct Hsp as [E Ha]. rewrite E in Hall, Hlead. apply all_digits_app in Hall as [Hda Hdb].
    apply number_ok_parts; [|by case_bool_decide; [left|right; exists b]|apply exponent_text].
    right. split; [done|]. eapply leads_prefix; [done|]. apply string_nonempty. lia.
  - rewrite <- (string_app_nil_r (ds +:+ _)), <- (string_app_nil_r EmptyString).
    apply number_ok_parts; [|done..]. right. split; [|by apply leads_app].
    apply all_digits_join; [done|apply zeros_digits].
  - pose proof (split_at_spec (Z.to_nat (Z.of_nat (String.length ds) + q)) ds ltac:(lia)) as Hsp.
    destruct (split_at _ ds) as [a b]. destruct Hsp as [E Ha]. rewrite E in Hall, Hlead, Hl, Ha.
    rewrite length_app_string in Hl, Ha. apply all_digits_app in Hall as [Hda Hdb].
    rewrite <- (string_app_nil_r ("." +:+ b)). apply number_ok_parts; [| |done].
    + right. split; [done|]. eapply leads_prefix; [done|]. apply string_nonempty. lia.
    + right. exists b. split; [done|]. split; [done|]. apply string_nonempty. lia.
  - rewrite <- (string_app_nil_r (zeros _ +:+ ds)).
    apply (number_ok_parts "0" (String "." (zeros _ +:+ ds))); [by left| |done].
    right. eexists. split; [done|]. split; [apply all_digits_join; [apply zeros_digits|done]|].
    apply string_nonempty. rewrite length_app_string. lia.
Qed.

(** What a float is printed as is a literal, and is read as that float. *)
Lemma float_text_number_ok x t : float_text x = Some t → number_ok t = true.
Proof.
  destruct x as [s| | |s m e]; [|done|done|].
  - intros [= <-]. by destruct s.
  - intros [= <-]. destruct (shortest_form m e) as (expo & d & q & Hd & ->).
    by destruct s; apply decimal_text_number_ok.
Qed.

Lemma float_text_None x : float_text x = None ↔ is_finite x = false.
Proof. by destruct x as [s| | |s m e]. Qed.
