(* ===== verification/JsonLocal.v ===== *)
(** * The parser looks no further than its value

    What [parse_value] takes off the front of a text is a text of its own: it
    parses to the same value in front of anything else, and alone.  So the
    bytes of a value inside a larger text can be kept and parsed later, as
    [json.RawMessage] does. *)
From Stdlib Require Import ZArith Lia Ascii.
From stdpp Require Import base tactics option list numbers strings sets.
From S2P Require Import Prelude GoStrings GoNum GoJson GoUrl JsonRoundTrip.

Open Scope Z_scope.

(** ** Strings *)

(** The width of a rune is decided before a quote. *)
Lemma utf8_width_stop c a r1 r2 :
  utf8_width (String c (a +:+ String DQ r1)) = utf8_width (String c (a +:+ String DQ r2)).
Proof.
  unfold utf8_width. cbv zeta.
  destruct a as [|a1 [|a2 [|a3 a]]]; cbv beta iota fix delta [String.append]; cbn [continuation];
    rewrite ?(_ : in_range 128 191 DQ = false) by done;
    rewrite ?andb_false_r, ?andb_false_l; done.
Qed.

Definition unicode_escape (t : string) : option (Z * string) :=
  match t with
  | String h1 (String h2 (String h3 (String h4 t'))) => r1 ← hex4 h1 h2 h3 h4; Some (r1, t')
  | _ => None
  end.

(** What follows the code unit [r1]. *)
Definition after_unit (high : option Z) (r1 : Z) (t' : string) : option (string * string) :=
  let flush (k : option (string * string)) :=
    match high with
    | None => k
    | Some _ => '(w, r) ← k; Some (replacement +:+ w, r)
    end in
  if (56320 <=? r1) && (r1 <=? 57343) then
    match high with
    | Some hi =>
        '(w, r) ← unquote 0 None t';
        Some (encode_rune ((hi - 55296) * 1024 + (r1 - 56320) + 65536) +:+ w, r)
    | None => '(w, r) ← unquote 0 None t'; Some (replacement +:+ w, r)
    end
  else if (55296 <=? r1) && (r1 <=? 56319) then flush (unquote 0 (Some r1) t')
  else flush ('(w, r) ← unquote 0 None t'; Some (encode_rune r1 +:+ w, r)).

Lemma unquote_u4 high h1 h2 h3 h4 t :
  unquote 0 high (String BACKSLASH (String "u" (String h1 (String h2 (String h3 (String h4 t)))))) =
  (r1 ← hex4 h1 h2 h3 h4; after_unit high r1 t).
Proof. reflexivity. Qed.

Lemma unquote_u high t :
  unquote 0 high (String BACKSLASH (String "u" t)) =
  ('(r1, t') ← unicode_escape t; after_unit high r1 t').
Proof.
  destruct t as [|h1 [|h2 [|h3 [|h4 t]]]]; [destruct high; reflexivity..|].
  rewrite unquote_u4. cbn [unicode_escape]. by destruct (hex4 h1 h2 h3 h4).
Qed.

Lemma unquote_letter high c t :
  c ≠ "u"%char →
  unquote 0 high (String BACKSLASH (String c t)) =
  (x ← escape c;
   let k := '(w, r) ← unquote 0 None t; Some (String x w, r) in
   match high with
     | None => k
     | Some _ => '(w, r) ← k; Some (replacement +:+ w, r)
   end).
Proof.
  intros Hc. cbn [unquote]. rewrite bool_decide_false, bool_decide_true by done.
  destruct c as [[] [] [] [] [] [] [] []]; first [done | reflexivity].
Qed.

Lemma unicode_escape_app t r1 t' :
  unicode_escape t = Some (r1, t') →
  ∃ h, t = h +:+ t' ∧ (String.length t' < String.length t)%nat ∧
    ∀ z, unicode_escape (h +:+ z) = Some (r1, z).
Proof.
  destruct t as [|h1 [|h2 [|h3 [|h4 t]]]]; try done. cbn [unicode_escape].
  destruct (hex4 h1 h2 h3 h4) as [x|] eqn:Hx; [|done]. intros [= -> ->].
  exists (String h1 (String h2 (String h3 (String h4 EmptyString)))).
  split_and!; [done|simpl; lia|]. intros z.
  change (_ +:+ z) with (String h1 (String h2 (String h3 (String h4 z)))). simpl. by rewrite Hx.
Qed.

(** A literal ends at its quote, and what is behind that does not matter. *)
Lemma unquote_local s : ∀ copy high x r,
  unquote copy high s = Some (x, r) →
  ∃ w, s = w +:+ String DQ r ∧ ∀ r', unquote copy high (w +:+ String DQ r') = Some (x, r').
Proof.
  induction s as [[|c t] IH] using string_length_ind; intros copy high x r Hu; [by destruct copy|].
  destruct copy as [|n].
  2: { cbn [unquote] in Hu. destruct (unquote n None t) as [[x0 r0]|] eqn:E; [|done].
       simpl in Hu. injection Hu as <- ->.
       destruct (IH t ltac:(simpl; lia) _ _ _ _ E) as (w & -> & Hw). exists (String c w).
       split; [done|]. intros r'. change (String c w +:+ ?z) with (String c (w +:+ z)).
       cbn [unquote]. by rewrite Hw. }
  destruct (decide (c = DQ)) as [->|Hq].
  { cbn [unquote] in Hu. rewrite bool_decide_true in Hu by done. exists EmptyString.
    destruct high; simpl in Hu; injection Hu as <- ->; (split; [done|]); intros r';
      by change (EmptyString +:+ ?z) with z. }
  destruct (decide (c = BACKSLASH)) as [->|Hb].
  { destruct t as [|e t]; [done|]. destruct (decide (e = "u"%char)) as [->|He].
    - rewrite unquote_u in Hu. destruct (unicode_escape t) as [[r1 t']|] eqn:Ht; [|done].
      destruct (unicode_escape_app _ _ _ Ht) as (h & -> & Hlen & Hh).
      assert (∀ hi x0, unquote 0 hi t' = Some (x0, r) → ∃ w, t' = w +:+ String DQ r ∧
        ∀ r', unquote 0 hi (w +:+ String DQ r') = Some (x0, r')) as IH'
        by (intros hi x0; apply IH; simpl; lia).
      assert (∃ hi x0, unquote 0 hi t' = Some (x0, r) ∧
        ∀ r' z, unquote 0 hi z = Some (x0, r') →
          unquote 0 high (String BACKSLASH (String "u" (h +:+ z))) = Some (x, r'))
        as (hi & x0 & E & Hback).
      { simpl in Hu. unfold after_unit in Hu.
        destruct ((56320 <=? r1) && (r1 <=? 57343)) eqn:H1;
          [|destruct ((55296 <=? r1) && (r1 <=? 56319)) eqn:H2]; destruct high as [hi|];
          match type of Hu with
          | context [unquote 0 ?k t'] => destruct (unquote 0 k t') as [[x0 r0]|] eqn:E; [|done];
              exists k, x0
          end; simpl in Hu; injection Hu as <- ->; (split; [done|]); intros r' z Hz;
          rewrite unquote_u, Hh; simpl; unfold after_unit; by rewrite H1, ?H2, Hz. }
      destruct (IH' hi x0 E) as (w & -> & Hw).
      exists (String BACKSLASH (String "u" (h +:+ w))). split.
      { by rewrite <- string_app_assoc. }
      intros r'. change (String ?a (String ?b ?z) +:+ ?y) with (String a (String b (z +:+ y))).
      rewrite string_app_assoc. by apply Hback.
    - rewrite unquote_letter in Hu by done. destruct (escape e) as [y|] eqn:Ey; [|done].
      destruct (unquote 0 None t) as [[x0 r0]|] eqn:E; [|by destruct high].
      assert (r0 = r) as -> by (destruct high; simpl in Hu; congruence).
      destruct (IH t ltac:(simpl; lia) _ _ _ _ E) as (w & -> & Hw).
      exists (String BACKSLASH (String e w)). split; [done|]. intros r'.
      change (String ?a (String ?b ?z) +:+ ?y) with (String a (String b (z +:+ y))).
      rewrite unquote_letter, Ey by done. simpl. rewrite Hw.
      destruct high; simpl in Hu |- *; by injection Hu as <-. }
  cbn [unquote] in Hu. rewrite !bool_decide_false in Hu by done.
  destruct (byte c <? 32) eqn:Hc; [done|].
  assert (∃ n x0, unquote n None t = Some (x0, r) ∧ n = pred (utf8_width (String c t)))
    as (n & x0 & E & Hn).
  { destruct (utf8_width (String c t)) as [|n]; destruct high;
      match type of Hu with
      | context [unquote ?k None t] => exists k; destruct (unquote k None t) as [[x0 r0]|]; [|done]
      end; exists x0; simpl in Hu; by injection Hu as _ ->. }
  destruct (IH t ltac:(simpl; lia) _ _ _ _ E) as (w & -> & Hw). exists (String c w).
  split; [done|]. intros r'. change (String c w +:+ ?z) with (String c (w +:+ z)).
  cbn [unquote]. rewrite !bool_decide_false by done. rewrite Hc.
  rewrite (utf8_width_stop c w r' r).
  destruct (utf8_width (String c (w +:+ String DQ r))) as [|n']; simpl in Hn; subst n;
    rewrite E in Hu; rewrite Hw; destruct high; simpl in Hu |- *; by injection Hu as <-.
Qed.

(** ** Numbers *)

Definition no_digit (s : string) : bool :=
  match s with EmptyString => true | String c _ => negb (in_range 48 57 c) end.

(** Digits up to a character that is none. *)
Lemma take_digits_spec s d r :
  take_digits s = (d, r) →
  s = d +:+ r ∧ ∀ r', no_digit r' = true → take_digits (d +:+ r') = (d, r').
Proof.
  assert (∀ r', no_digit r' = true → take_digits r' = (EmptyString, r')) as Hnil.
  { intros [|c r'] Hr; [done|]. cbn [no_digit] in Hr. apply negb_true_iff in Hr.
    cbn [take_digits]. by rewrite Hr. }
  revert d r. induction s as [|c s IH]; intros d r; cbn [take_digits].
  - intros [= <- <-]. done.
  - destruct (in_range 48 57 c) eqn:Hc; [|by intros [= <- <-]].
    destruct (take_digits s) as [d' r0] eqn:E. intros [= <- <-].
    destruct (IH d' r0 eq_refl) as [-> Hd]. split; [done|]. intros r' Hr.
    change (String c d' +:+ r') with (String c (d' +:+ r')). cbn [take_digits].
    by rewrite Hc, Hd.
Qed.

Lemma some_digits_spec s d r :
  some_digits s = Some (d, r) →
  s = d +:+ r ∧ (∃ c t, d = String c t ∧ in_range 48 57 c = true) ∧
  ∀ r', no_digit r' = true → some_digits (d +:+ r') = Some (d, r').
Proof.
  unfold some_digits. destruct (take_digits s) as [d' r0] eqn:E.
  destruct (take_digits_spec s d' r0 E) as [-> Hd]. destruct d' as [|c t]; [done|].
  intros [= <- <-]. split_and!; [done| |intros r' Hr; by rewrite Hd].
  exists c, t. split; [done|]. change (String c t +:+ r0) with (String c (t +:+ r0)) in E.
  cbn [take_digits] in E. by destruct (in_range 48 57 c).
Qed.

Lemma num_int_spec s i r :
  num_int s = Some (i, r) →
  s = i +:+ r ∧ (∃ c t, i = String c t ∧ in_range 48 57 c = true) ∧
  ∀ r', no_digit r' = true → num_int (i +:+ r') = Some (i, r').
Proof.
  destruct s as [|c s]; [done|]. destruct (decide (c = "0"%char)) as [->|Hc].
  - intros [= <- <-]. split_and!; [done|by eexists _, _|done].
  - assert (∀ t, num_int (String c t) = some_digits (String c t)) as Hf
      by (intros t; by destruct c as [[] [] [] [] [] [] [] []]).
    rewrite Hf. intros Hs. destruct (some_digits_spec _ _ _ Hs) as (E & Hi & Hd).
    split_and!; [done|done|]. intros r' Hr. rewrite <- Hd by done.
    destruct Hi as (c' & t & -> & _). change (String c' t +:+ ?x) with (String c' (t +:+ x)) in E |- *.
    injection E as -> _. apply Hf.
Qed.

(** The characters an optional part can start with. *)
Definition starts_with (l : list ascii) (s : string) : Prop :=
  match s with EmptyString => True | String c _ => c ∈ l end.

Lemma starts_no_digit l s :
  forallb (λ c, negb (in_range 48 57 c)) l = true → starts_with l s → no_digit s = true.
Proof. destruct s as [|c s]; [done|]. intros Hl Hc. exact (forallb_elem _ _ _ Hl Hc). Qed.

Lemma num_frac_none c t : c ≠ "."%char → num_frac (String c t) = Some (EmptyString, String c t).
Proof. intros Hc. by destruct c as [[] [] [] [] [] [] [] []]. Qed.

Lemma num_frac_spec s f r :
  num_frac s = Some (f, r) →
  s = f +:+ r ∧ starts_with ["."%char] f ∧
  ∀ r', no_digit r' = true → ¬ (f = EmptyString ∧ ∃ t, r' = String "." t) →
    num_frac (f +:+ r') = Some (f, r').
Proof.
  intros Hs.
  assert ((f = EmptyString ∧ s = r) ∨ ∃ t d, s = String "." t ∧ some_digits t = Some (d, r) ∧
    f = String "." d) as [[-> ->]|(t & d & -> & Ht & ->)].
  { destruct s as [|c s]; [injection Hs as <- <-; by left|].
    destruct (decide (c = "."%char)) as [->|Hc];
      [|rewrite num_frac_none in Hs by done; injection Hs as <- <-; by left].
    right. cbn [num_frac] in Hs. destruct (some_digits s) as [[d r0]|] eqn:E; [|done].
    simpl in Hs. injection Hs as <- <-. by exists s, d. }
  - split_and!; [done|done|]. intros r' _ Hdot. change (EmptyString +:+ r') with r'.
    destruct r' as [|c r']; [done|]. apply num_frac_none. intros ->. apply Hdot. eauto.
  - destruct (some_digits_spec _ _ _ Ht) as (-> & _ & Hd). split_and!; [done|by left|].
    intros r' Hr _. change (String "." d +:+ r') with (String "." (d +:+ r')). cbn [num_frac].
    by rewrite Hd.
Qed.

Lemma exp_sign_digits sg d :
  sg ∈ ["+"; "-"; EmptyString] → (∃ c t, d = String c t ∧ in_range 48 57 c = true) →
  exp_sign (sg +:+ d) = (sg, d).
Proof.
  intros Hsg (c & t & -> & Hc).
  rewrite !elem_of_cons in Hsg. destruct Hsg as [->|[->|[->|Hsg]]]; [done|done| |].
  2: { by apply not_elem_of_nil in Hsg. }
  change (EmptyString +:+ ?x) with x. revert Hc. by destruct c as [[] [] [] [] [] [] [] []].
Qed.

Lemma num_exp_spec s e r :
  num_exp s = Some (e, r) →
  s = e +:+ r ∧ starts_with ["e"; "E"]%char e ∧ num_exp e = Some (e, EmptyString).
Proof.
  intros Hs. destruct s as [|c t]; [by injection Hs as <- <-|]. cbn [num_exp] in Hs.
  destruct (bool_decide (c = "e"%char) || bool_decide (c = "E"%char)) eqn:Hc;
    [|by injection Hs as <- <-].
  assert (c ∈ ["e"; "E"]%char) as Hin.
  { apply orb_true_iff in Hc as [Hc|Hc]; apply bool_decide_eq_true in Hc; subst; [left|right; left]. }
  destruct (exp_sign t) as [sg u] eqn:Es.
  assert (t = sg +:+ u ∧ sg ∈ ["+"; "-"; EmptyString]) as [-> Hsg].
  { destruct t as [|c' t]; [injection Es as <- <-; by split; [|right; right; left]|].
    by destruct c' as [[] [] [] [] [] [] [] []]; injection Es as <- <-;
      (split; [done|]); (left + (right; left) + (right; right; left)). }
  destruct (some_digits u) as [[d r0]|] eqn:E; [|done]. simpl in Hs. injection Hs as <- <-.
  destruct (some_digits_spec _ _ _ E) as (-> & Hd & Hdig). split_and!; [|done|].
  - by rewrite <- string_app_assoc.
  - cbn [num_exp]. rewrite Hc, (exp_sign_digits sg d Hsg Hd).
    rewrite <- (string_app_nil_r d) at 1. by rewrite Hdig.
Qed.

Lemma num_sign_spec s sg s1 :
  num_sign s = (sg, s1) →
  s = sg +:+ s1 ∧ ∀ c t, in_range 48 57 c = true →
    num_sign (sg +:+ String c t) = (sg, String c t).
Proof.
  assert (∀ c t, in_range 48 57 c = true → num_sign (String c t) = (EmptyString, String c t)) as Hd.
  { intros c t Hc. revert Hc. by destruct c as [[] [] [] [] [] [] [] []]. }
  destruct s as [|c s]; [by intros [= <- <-]|].
  destruct (decide (c = "-"%char)) as [->|Hc]; [by intros [= <- <-]|].
  assert (num_sign (String c s) = (EmptyString, String c s)) as ->
    by (by destruct c as [[] [] [] [] [] [] [] []]).
  by intros [= <- <-].
Qed.

Lemma starts_with_app l1 l2 a b :
  starts_with l1 a → starts_with l2 b → starts_with (l1 ++ l2) (a +:+ b).
Proof.
  destruct a as [|c a]; [change (EmptyString +:+ b) with b|]; intros Ha Hb;
    [destruct b; [done|]; apply elem_of_app; by right|apply elem_of_app; by left].
Qed.

(** What [number] takes off a text is a literal. *)
Lemma number_local s lit r :
  number s = Some (lit, r) → s = lit +:+ r ∧ number_ok lit = true.
Proof.
  rewrite number_steps. destruct (num_sign s) as [sg s1] eqn:E1.
  destruct (num_sign_spec _ _ _ E1) as [-> H1].
  destruct (num_int s1) as [[i s2]|] eqn:E2; [|done]. simpl.
  destruct (num_int_spec _ _ _ E2) as (-> & (c & t & -> & Hc) & H2).
  destruct (num_frac s2) as [[f s3]|] eqn:E3; [|done]. simpl.
  destruct (num_frac_spec _ _ _ E3) as (-> & Hf & H3).
  destruct (num_exp s3) as [[e s4]|] eqn:E4; [|done]. simpl.
  destruct (num_exp_spec _ _ _ E4) as (-> & He & H4).
  intros [= <- <-]. split; [by rewrite !string_app_assoc|]. apply bool_decide_eq_true.
  rewrite number_steps. change (String c t +:+ ?x) with (String c (t +:+ x)).
  rewrite H1 by done. change (String c (t +:+ ?x)) with (String c t +:+ x).
  rewrite (H2 (f +:+ e)) by (exact (starts_no_digit ["."; "e"; "E"]%char _ eq_refl (starts_with_app _ _ _ _ Hf He))).
  simpl.
  rewrite (H3 e); [simpl; by rewrite H4|exact (starts_no_digit ["e"; "E"]%char _ eq_refl He)|].
  intros (_ & t' & ->). cbn [starts_with] in He. by repeat (apply elem_of_cons in He as [He|He]; [done|]).
Qed.

(** ** White space *)

Lemma skip_ws_idem s : skip_ws (skip_ws s) = skip_ws s.
Proof.
  induction s as [|c s IH]; [done|]. cbn [skip_ws].
  destruct (bool_decide (byte c ∈ [32; 9; 10; 13])) eqn:Hc; [done|]. cbn [skip_ws]. by rewrite Hc.
Qed.

Lemma parse_value_skip f d s : parse_value f d (skip_ws s) = parse_value f d s.
Proof. destruct f; [done|]. cbn [parse_value]. by rewrite skip_ws_idem. Qed.

(** ** Trees *)

Lemma starts_value_skip s c t :
  skip_ws s = String c t → c ≠ "]"%char → c ≠ "}"%char → starts_value (String c t) = true.
Proof.
  intros Hs H1 H2. assert (bool_decide (byte c ∈ [32; 9; 10; 13]) = false) as Hw.
  { pose proof (skip_ws_idem s) as Hi. rewrite Hs in Hi. cbn [skip_ws] in Hi.
    destruct (bool_decide _) eqn:E; [|done]. exfalso.
    assert (∀ x, (String.length (skip_ws x) ≤ String.length x)%nat) as Hl.
    { intros x. induction x as [|a x IH]; [done|]. cbn [skip_ws]. case_match; simpl in *; lia. }
    pose proof (Hl t) as Hlt. rewrite Hi in Hlt. simpl in Hlt. lia. }
  cbn [starts_value]. rewrite Hw. by rewrite !bool_decide_false by done.
Qed.

(** White space. *)
Fixpoint blank (s : string) : bool :=
  match s with
  | EmptyString => true
  | String c t => bool_decide (byte c ∈ [32; 9; 10; 13]) && blank t
  end.

Lemma blank_skip ws z : blank ws = true → skip_ws (ws +:+ z) = skip_ws z.
Proof.
  induction ws as [|c ws IH]; [done|]. cbn [blank]. intros [Hc Hw]%andb_true_iff.
  change (String c ws +:+ z) with (String c (ws +:+ z)). cbn [skip_ws]. rewrite Hc. by apply IH.
Qed.

Lemma skip_ws_split s : ∃ ws, blank ws = true ∧ s = ws +:+ skip_ws s.
Proof.
  induction s as [|c s (ws & H & E)]; [by exists EmptyString|]. cbn [skip_ws].
  destruct (bool_decide (byte c ∈ [32; 9; 10; 13])) eqn:Hc; [|by exists EmptyString].
  exists (String c ws). split; [|exact (f_equal (String c) E)]. cbn [blank]. by rewrite Hc.
Qed.

Lemma blank_ends ws c r :
  blank ws = true → c ∈ [","; "]"; "}"; ":"]%char → ends_number (ws +:+ String c r) = true.
Proof.
  intros Hw Hc. destruct ws as [|a ws].
  - rewrite !elem_of_cons in Hc. change (EmptyString +:+ ?x) with x.
    destruct Hc as [->|[->|[->|[->|Hc]]]]; [done..|]. by apply not_elem_of_nil in Hc.
  - cbn [blank] in Hw. apply andb_true_iff in Hw as [Ha _].
    revert Ha. by destruct a as [[] [] [] [] [] [] [] []].
Qed.

(** There is room for [h] more levels of brackets. *)
Definition fits (d : Z) (h : nat) : Prop := d + Z.of_nat h <= max_depth.

(** [w] is a value's text: it parses to [v] in front of anything, with its
    length as fuel, at any depth at which the value fits. *)
Definition value_text (w : string) (v : json) : Prop :=
  starts_value w = true ∧ ∀ f d r, (String.length w ≤ f)%nat → fits d (height v) →
    ends_number r = true → parse_value f d (w +:+ r) = Some (v, r).

(** The same for what stands inside brackets, the closing one included. *)
Definition inner_text {A} (parser : nat → Z → string → option (A * string)) (h : nat) (w : string)
    (x : A) : Prop :=
  ∀ r, starts_value (skip_ws (w +:+ r)) = true ∧ ∀ f d, (String.length w ≤ f)%nat → fits d h →
    parser f d (w +:+ r) = Some (x, r).

Definition elems_height (vs : list json) : nat := max_list_with height vs.
Definition members_height (ms : list (string * json)) : nat := max_list_with (λ m, height m.2) ms.

Lemma strip_prefix_spec p s r : strip_prefix p s = Some r → s = p +:+ r.
Proof.
  revert s. induction p as [|a p IH]; intros s; [by intros [= ->]|]. destruct s as [|b s]; [done|].
  cbn [strip_prefix]. case_bool_decide as E; [subst b|done]. intros Hs%IH. subst s. done.
Qed.

Lemma value_text_word w v :
  w = "true" ∧ v = JBool true ∨ w = "false" ∧ v = JBool false ∨ w = "null" ∧ v = JNull →
  value_text w v.
Proof.
  intros [[-> ->]|[[-> ->]|[-> ->]]]; (split; [done|]); intros [|f] d r Hf _ _;
    simpl in Hf; try lia; reflexivity.
Qed.

Lemma value_text_number lit : number_ok lit = true → value_text lit (JNum lit).
Proof.
  intros Hok. destruct (number_ok_head lit Hok) as (c & t & E & Hc). split.
  { rewrite E. revert Hc. by destruct c as [[] [] [] [] [] [] [] []]. }
  intros f d r Hf _ Hr. pose proof (number_app lit r Hok Hr) as Hn. rewrite E in Hn, Hf |- *.
  destruct f as [|f]; [simpl in Hf; lia|].
  change (String c t +:+ r) with (String c (t +:+ r)) in Hn |- *.
  rewrite parse_value_number by done. by rewrite Hn.
Qed.

Lemma value_text_string w x :
  (∀ r, unquote 0 None (w +:+ String DQ r) = Some (x, r)) →
  value_text (String DQ (w +:+ String DQ EmptyString)) (JStr x).
Proof.
  intros Hu. split; [done|]. intros [|f] d r Hf _ _; [simpl in Hf; lia|].
  change (String DQ ?x +:+ r) with (String DQ (x +:+ r)). rewrite string_app_assoc.
  cbn [parse_value]. rewrite skip_ws_value by done. cbv iota.
  rewrite !(bool_decide_false (DQ = _)), bool_decide_true by done.
  change (String DQ EmptyString +:+ r) with (String DQ r). by rewrite Hu.
Qed.

Lemma value_text_array w vs :
  inner_text parse_elems (elems_height vs) w vs → value_text (String "[" w) (JArr vs).
Proof.
  intros Hw. split; [done|]. intros [|f] d r Hf Hd _; [simpl in Hf; lia|].
  unfold fits in Hd. cbn [height] in Hd.
  destruct (Hw r) as [Hs Hp]. simpl in Hf.
  change (String "[" w +:+ r) with (String "[" (w +:+ r)). cbn [parse_value].
  rewrite skip_ws_value by done. cbv iota.
  rewrite (bool_decide_false ("["%char = "{"%char)), bool_decide_true by done.
  destruct (Z.leb_spec max_depth d); [lia|].
  rewrite (proj1 (not_closing _ _ _ Hs)), Hp by (unfold fits, elems_height; lia). done.
Qed.

Lemma value_text_object w ms :
  inner_text parse_members (members_height ms) w ms → value_text (String "{" w) (JObj ms).
Proof.
  intros Hw. split; [done|]. intros [|f] d r Hf Hd _; [simpl in Hf; lia|].
  unfold fits in Hd. cbn [height] in Hd.
  destruct (Hw r) as [Hs Hp]. simpl in Hf.
  change (String "{" w +:+ r) with (String "{" (w +:+ r)). cbn [parse_value].
  rewrite skip_ws_value by done. cbv iota. rewrite bool_decide_true by done.
  destruct (Z.leb_spec max_depth d); [lia|].
  rewrite (proj2 (not_closing _ _ _ Hs)), Hp by (unfold fits, members_height; lia). done.
Qed.

(** An empty array or object. *)
Lemma value_text_empty ws :
  blank ws = true →
  value_text (String "[" (ws +:+ "]")) (JArr []) ∧ value_text (String "{" (ws +:+ "}")) (JObj []).
Proof.
  intros Hws. split; (split; [done|]); intros [|f] d r Hf Hd _; try (simpl in Hf; lia);
    unfold fits in Hd; simpl in Hd.
  - change (String "[" ?w +:+ r) with (String "[" (w +:+ r)). rewrite string_app_assoc.
    cbn [parse_value]. rewrite skip_ws_value by done. cbv iota.
    rewrite (bool_decide_false ("["%char = "{"%char)), bool_decide_true by done.
    destruct (Z.leb_spec max_depth d); [lia|]. by rewrite blank_skip.
  - change (String "{" ?w +:+ r) with (String "{" (w +:+ r)). rewrite string_app_assoc.
    cbn [parse_value]. rewrite skip_ws_value by done. cbv iota. rewrite bool_decide_true by done.
    destruct (Z.leb_spec max_depth d); [lia|]. by rewrite blank_skip.
Qed.

(** Elements and members, one in front of the other. *)
Section pieces.
Variables (w ws1 ws2 : string) (v : json).
Hypothesis Hw : value_text w v.
Hypothesis Hws1 : blank ws1 = true.
Hypothesis Hws2 : blank ws2 = true.

Lemma piece_value f d c r :
  c ∈ [","; "]"; "}"]%char → (String.length w ≤ f)%nat → fits d (height v) →
  parse_value f d (ws1 +:+ w +:+ ws2 +:+ String c r) = Some (v, ws2 +:+ String c r).
Proof.
  intros Hc Hf Hd. rewrite (parse_value_ws _ _ _ _ (blank_skip ws1 _ Hws1)).
  apply Hw; [done|done|]. apply blank_ends; [done|].
  set_solver.
Qed.

Lemma piece_starts z : starts_value (skip_ws (ws1 +:+ w +:+ z)) = true.
Proof.
  rewrite blank_skip by done. pose proof (starts_value_app w z (proj1 Hw)) as Hs.
  by rewrite skip_ws_value.
Qed.

Lemma inner_elems_one : inner_text parse_elems (elems_height [v]) (ws1 +:+ w +:+ ws2 +:+ "]") [v].
Proof.
  intros r. rewrite !string_app_assoc. change ("]" +:+ r) with (String "]" r).
  split; [apply piece_starts|]. rewrite !length_app_string. intros [|f] d Hf Hd; [simpl in Hf; lia|].
  unfold fits, elems_height in Hd. simpl in Hd. cbn [parse_elems].
  rewrite piece_value; [|right; left|simpl in Hf; lia|unfold fits; lia]. simpl.
  by rewrite blank_skip.
Qed.

Lemma inner_elems_cons w2 vs :
  inner_text parse_elems (elems_height vs) w2 vs →
  inner_text parse_elems (elems_height (v :: vs)) (ws1 +:+ w +:+ ws2 +:+ String "," w2) (v :: vs).
Proof.
  intros H2 r. rewrite !string_app_assoc. change (String "," w2 +:+ r) with (String "," (w2 +:+ r)).
  split; [apply piece_starts|]. rewrite !length_app_string. intros [|f] d Hf Hd; [simpl in Hf; lia|].
  unfold fits, elems_height in Hd. simpl in Hf, Hd. cbn [parse_elems].
  rewrite piece_value; [|left|lia|unfold fits; lia]. simpl.
  rewrite blank_skip by done. change (skip_ws (String "," ?x)) with (String "," x). cbv iota.
  by rewrite (proj2 (H2 r)) by (unfold fits, elems_height, members_height; lia).
Qed.

(** The quoted key, and what is around it. *)
Variables (q k ws0 ws3 : string).
Hypothesis Hq : ∀ r, unquote 0 None (q +:+ String DQ r) = Some (k, r).
Hypothesis Hws0 : blank ws0 = true.
Hypothesis Hws3 : blank ws3 = true.

Definition key_text (z : string) : string :=
  ws0 +:+ String DQ (q +:+ String DQ (ws3 +:+ String ":" (ws1 +:+ w +:+ ws2 +:+ z))).

Lemma key_text_app z r : key_text z +:+ r = key_text (z +:+ r).
Proof.
  unfold key_text. rewrite string_app_assoc. change (String ?c ?x +:+ r) with (String c (x +:+ r)).
  rewrite string_app_assoc. change (String ?c ?x +:+ r) with (String c (x +:+ r)).
  rewrite string_app_assoc. change (String ?c ?x +:+ r) with (String c (x +:+ r)).
  by rewrite !string_app_assoc.
Qed.

Lemma key_text_length z : (S (String.length w) + String.length z ≤ String.length (key_text z))%nat.
Proof.
  unfold key_text. rewrite length_app_string. cbn [String.length].
  rewrite length_app_string. cbn [String.length]. rewrite length_app_string. cbn [String.length].
  rewrite !length_app_string. lia.
Qed.

Lemma key_starts z : starts_value (skip_ws (key_text z)) = true.
Proof. unfold key_text. by rewrite blank_skip. Qed.

(** A member is read up to what follows its value. *)
Lemma key_text_read f d c r :
  c ∈ [","; "]"; "}"]%char → (String.length w ≤ f)%nat → fits d (height v) →
  parse_members (S f) d (key_text (String c r)) =
  match skip_ws (String c r) with
  | String "}" r3 => Some ([(k, v)], r3)
  | String "," r3 => '(ms, r4) ← parse_members f d r3; Some ((k, v) :: ms, r4)
  | _ => None
  end.
Proof.
  intros Hc Hf Hd. cbn [parse_members]. unfold key_text. rewrite blank_skip by done.
  rewrite (skip_ws_value (String DQ _)) by done. rewrite bool_decide_true by done.
  rewrite Hq. cbn [mbind option_bind]. rewrite blank_skip by done.
  change (skip_ws (String ":" ?x)) with (String ":" x). cbv iota.
  rewrite piece_value by done. cbn [mbind option_bind]. by rewrite blank_skip.
Qed.

Lemma inner_members_one : inner_text parse_members (members_height [(k, v)]) (key_text "}") [(k, v)].
Proof.
  intros r. rewrite key_text_app. change ("}" +:+ r) with (String "}" r).
  split; [apply key_starts|]. pose proof (key_text_length "}") as Hl.
  intros [|f] d Hf Hd; [simpl in Hl; lia|].
  unfold fits, members_height in Hd. simpl in Hd.
  by rewrite key_text_read by (set_solver || (unfold fits; lia)).
Qed.

Lemma inner_members_cons w2 ms :
  inner_text parse_members (members_height ms) w2 ms →
  inner_text parse_members (members_height ((k, v) :: ms)) (key_text (String "," w2)) ((k, v) :: ms).
Proof.
  intros H2 r. rewrite key_text_app. change (String "," w2 +:+ r) with (String "," (w2 +:+ r)).
  split; [apply key_starts|]. pose proof (key_text_length (String "," w2)) as Hl. simpl in Hl.
  intros [|f] d Hf Hd; [lia|].
  unfold fits, members_height in Hd. simpl in Hd.
  rewrite key_text_read by (set_solver || (unfold fits; lia)).
  change (skip_ws (String "," ?x)) with (String "," x). cbv iota.
  by rewrite (proj2 (H2 r)) by (unfold fits, elems_height, members_height; lia).
Qed.
End pieces.

(** What the parser takes off a text is a text of that value. *)
Definition value_local (f : nat) : Prop := ∀ d s v r,
  fits d 0 → parse_value f d s = Some (v, r) →
  ∃ w, skip_ws s = w +:+ r ∧ value_text w v ∧ fits d (height v).

Definition elems_local (f : nat) : Prop := ∀ d s vs r,
  fits d 0 → parse_elems f d s = Some (vs, r) →
  ∃ w, s = w +:+ r ∧ inner_text parse_elems (elems_height vs) w vs ∧ fits d (elems_height vs).

Definition members_local (f : nat) : Prop := ∀ d s ms r,
  fits d 0 → parse_members f d s = Some (ms, r) →
  ∃ w, s = w +:+ r ∧ inner_text parse_members (members_height ms) w ms ∧
    fits d (members_height ms).

(** A text behind white space, cut into the white space and the rest. *)
Lemma behind_blank s c t :
  skip_ws s = String c t → ∃ ws, blank ws = true ∧ s = ws +:+ String c t.
Proof. intros E. destruct (skip_ws_split s) as (ws & Hw & Hs). rewrite E in Hs. eauto. Qed.

(** The two ways on from behind an element. *)
Lemma comma_or_bracket {A} (x : string) (e : ascii) (a b : string → option A) y :
  e = "]"%char ∨ e = "}"%char →
  match x with
  | String c r => if decide (c = e) then a r else if decide (c = ","%char) then b r else None
  | EmptyString => None
  end = Some y →
  (∃ r, x = String e r ∧ a r = Some y) ∨ (∃ r, x = String "," r ∧ b r = Some y).
Proof.
  intros He. destruct x as [|c r]; [done|].
  destruct (decide (c = e)) as [->|]; [eauto|]. destruct (decide (c = ","%char)) as [->|]; [eauto|done].
Qed.

Lemma elems_next {A} (x : string) (a b : string → option A) :
  match x with String "]" r => a r | String "," r => b r | _ => None end =
  match x with
  | String c r => if decide (c = "]"%char) then a r else if decide (c = ","%char) then b r else None
  | EmptyString => None
  end.
Proof. destruct x as [|c r]; [done|]. by destruct c as [[] [] [] [] [] [] [] []]. Qed.

Lemma members_next {A} (x : string) (a b : string → option A) :
  match x with String "}" r => a r | String "," r => b r | _ => None end =
  match x with
  | String c r => if decide (c = "}"%char) then a r else if decide (c = ","%char) then b r else None
  | EmptyString => None
  end.
Proof. destruct x as [|c r]; [done|]. by destruct c as [[] [] [] [] [] [] [] []]. Qed.

Lemma elems_step f : value_local f → elems_local f → elems_local (S f).
Proof.
  intros Hv He d s vs r Hd. cbn [parse_elems].
  destruct (parse_value f d s) as [[v r1]|] eqn:E; [|done]. cbn [mbind option_bind].
  destruct (Hv _ _ _ _ Hd E) as (w & Hs & Hw & Hfit).
  destruct (skip_ws_split s) as (ws1 & Hws1 & Es). rewrite Hs in Es.
  rewrite elems_next. intros [(r' & Hr & Ha)|(r' & Hr & Ha)]%comma_or_bracket; [| |by left];
    destruct (behind_blank _ _ _ Hr) as (ws2 & Hws2 & ->).
  - injection Ha as <- <-. exists (ws1 +:+ w +:+ ws2 +:+ "]"). split.
    + by rewrite Es, !string_app_assoc.
    + split; [by apply inner_elems_one|]. unfold fits, elems_height in *. simpl. lia.
  - destruct (parse_elems f d r') as [[vs' r2]|] eqn:E2; [|done]. cbn [mbind option_bind] in Ha.
    injection Ha as <- <-. destruct (He _ _ _ _ Hd E2) as (w2 & -> & Hw2 & Hfit2).
    exists (ws1 +:+ w +:+ ws2 +:+ String "," w2). split.
    + by rewrite Es, !string_app_assoc.
    + split; [by apply inner_elems_cons|]. unfold fits, elems_height in *. simpl. lia.
Qed.

Lemma members_step f : value_local f → members_local f → members_local (S f).
Proof.
  intros Hv Hm d s ms r Hd. cbn [parse_members].
  destruct (skip_ws s) as [|q t] eqn:Hs; [done|].
  destruct (bool_decide (q = DQ)) eqn:Hq; [apply bool_decide_eq_true in Hq as ->|done].
  destruct (behind_blank _ _ _ Hs) as (ws0 & Hws0 & ->).
  destruct (unquote 0 None t) as [[k r1]|] eqn:Hu; [|done]. cbn [mbind option_bind].
  destruct (unquote_local _ _ _ _ _ Hu) as (q & -> & Hq).
  assert (∀ {A} x (a : string → option A), match x with String ":" r => a r | _ => None end =
    match x with String c r => if decide (c = ":"%char) then a r else None | _ => None end) as ->
    by (intros A [|c x] a; [done|]; by destruct c as [[] [] [] [] [] [] [] []]).
  destruct (skip_ws r1) as [|c r2] eqn:Hr1; [done|].
  destruct (decide (c = ":"%char)) as [->|]; [|done].
  destruct (behind_blank _ _ _ Hr1) as (ws3 & Hws3 & ->).
  destruct (parse_value f d r2) as [[v r3]|] eqn:E; [|done]. cbn [mbind option_bind].
  destruct (Hv _ _ _ _ Hd E) as (w & Hs2 & Hw & Hfit).
  destruct (skip_ws_split r2) as (ws1 & Hws1 & Es). rewrite Hs2 in Es.
  rewrite members_next. intros [(r' & Hr & Ha)|(r' & Hr & Ha)]%comma_or_bracket; [| |by right];
    destruct (behind_blank _ _ _ Hr) as (ws2 & Hws2 & ->).
  - injection Ha as <- <-. exists (key_text w ws1 ws2 q ws0 ws3 "}"). split.
    + rewrite key_text_app, Es. done.
    + split; [by apply inner_members_one|]. unfold fits, members_height in *. simpl. lia.
  - destruct (parse_members f d r') as [[ms' r4]|] eqn:E2; [|done]. cbn [mbind option_bind] in Ha.
    injection Ha as <- <-. destruct (Hm _ _ _ _ Hd E2) as (w2 & -> & Hw2 & Hfit2).
    exists (key_text w ws1 ws2 q ws0 ws3 (String "," w2)). split.
    + rewrite key_text_app, Es. done.
    + split; [by apply inner_members_cons|]. unfold fits, members_height in *. simpl. lia.
Qed.

Lemma closing_or {A} (x : string) (e : ascii) (a : string → A) (b : A) :
  e = "]"%char ∨ e = "}"%char →
  (∃ r, x = String e r ∧ (if decide (e = "]"%char)
     then match x with String "]" r => a r | _ => b end
     else match x with String "}" r => a r | _ => b end) = a r) ∨
  (if decide (e = "]"%char)
   then match x with String "]" r => a r | _ => b end
   else match x with String "}" r => a r | _ => b end) = b.
Proof.
  intros [->| ->]; simpl; (destruct x as [|c x]; [by right|]).
  - destruct (decide (c = "]"%char)) as [->|]; [left; eauto|right].
    by destruct c as [[] [] [] [] [] [] [] []].
  - destruct (decide (c = "}"%char)) as [->|]; [left; eauto|right].
    by destruct c as [[] [] [] [] [] [] [] []].
Qed.

Lemma value_step f : elems_local f → members_local f → value_local (S f).
Proof.
  intros He Hm d s v r H0. cbn [parse_value]. destruct (skip_ws s) as [|c t] eqn:Hs; [done|].
  destruct (bool_decide (c = "{"%char)) eqn:H1.
  { apply bool_decide_eq_true in H1 as ->. destruct (Z.leb_spec max_depth d) as [|Hd]; [done|].
    destruct (closing_or (skip_ws t) "}" (λ r, Some (JObj [], r))
      ('(ms, r) ← parse_members f (d + 1) t; Some (JObj ms, r)) ltac:(by right))
      as [(r' & Hr & E)|E]; simpl in E; rewrite E; clear E.
    - intros [= <- <-]. destruct (behind_blank _ _ _ Hr) as (ws & Hws & ->).
      exists (String "{" (ws +:+ "}")).
      split; [|split; [by apply value_text_empty|unfold fits; simpl; lia]].
      change (String "{" ?x +:+ r') with (String "{" (x +:+ r')). by rewrite string_app_assoc.
    - destruct (parse_members f (d + 1) t) as [[ms r']|] eqn:E; [|done]. intros [= <- <-].
      assert (fits (d + 1) 0) as Hd1 by (unfold fits; lia).
      destruct (Hm _ _ _ _ Hd1 E) as (w & -> & Hw & Hfit). exists (String "{" w).
      split_and!; [done|by apply value_text_object|].
      unfold fits, members_height in *. cbn [height]. lia. }
  destruct (bool_decide (c = "["%char)) eqn:H2.
  { apply bool_decide_eq_true in H2 as ->. destruct (Z.leb_spec max_depth d) as [|Hd]; [done|].
    destruct (closing_or (skip_ws t) "]" (λ r, Some (JArr [], r))
      ('(vs, r) ← parse_elems f (d + 1) t; Some (JArr vs, r)) ltac:(by left))
      as [(r' & Hr & E)|E]; simpl in E; rewrite E; clear E.
    - intros [= <- <-]. destruct (behind_blank _ _ _ Hr) as (ws & Hws & ->).
      exists (String "[" (ws +:+ "]")).
      split; [|split; [by apply value_text_empty|unfold fits; simpl; lia]].
      change (String "[" ?x +:+ r') with (String "[" (x +:+ r')). by rewrite string_app_assoc.
    - destruct (parse_elems f (d + 1) t) as [[vs r']|] eqn:E; [|done]. intros [= <- <-].
      assert (fits (d + 1) 0) as Hd1 by (unfold fits; lia).
      destruct (He _ _ _ _ Hd1 E) as (w & -> & Hw & Hfit). exists (String "[" w).
      split_and!; [done|by apply value_text_array|].
      unfold fits, elems_height in *. cbn [height]. lia. }
  destruct (bool_decide (c = DQ)) eqn:H3.
  { apply bool_decide_eq_true in H3 as ->.
    destruct (unquote 0 None t) as [[x r']|] eqn:E; [|done]. intros [= <- <-].
    destruct (unquote_local _ _ _ _ _ E) as (w & -> & Hw).
    exists (String DQ (w +:+ String DQ EmptyString)). split; [|by split; [apply value_text_string|]].
    change (String DQ ?x +:+ r') with (String DQ (x +:+ r')). by rewrite string_app_assoc. }
  destruct (in_range 48 57 c || bool_decide (c = "-"%char)) eqn:H4.
  { destruct (number (String c t)) as [[lit r']|] eqn:E; [|done]. intros [= <- <-].
    destruct (number_local _ _ _ E) as [-> Hok]. exists lit.
    split_and!; [done|by apply value_text_number|done]. }
  destruct (strip_prefix "true" (String c t)) as [r'|] eqn:E1.
  { intros [= <- <-]. exists "true". split_and!; [by apply strip_prefix_spec| |done].
    apply value_text_word. auto. }
  destruct (strip_prefix "false" (String c t)) as [r'|] eqn:E2.
  { intros [= <- <-]. exists "false". split_and!; [by apply strip_prefix_spec| |done].
    apply value_text_word. auto. }
  destruct (strip_prefix "null" (String c t)) as [r'|] eqn:E3; [|done].
  intros [= <- <-]. exists "null". split_and!; [by apply strip_prefix_spec| |done].
  apply value_text_word. auto.
Qed.

Lemma parse_local f : value_local f ∧ elems_local f ∧ members_local f.
Proof.
  induction f as [|f (Hv & He & Hm)]; [by repeat split|].
  split; [by apply value_step|split; [by apply elems_step|by apply members_step]].
Qed.

(** The text of a value parses to it on its own. *)
Lemma value_text_parse w v : value_text w v → fits 0 (height v) → parse w = Some v.
Proof.
  intros [_ Hw] Hd. unfold parse.
  assert (parse_value (fuel_for w) 0 w = Some (v, EmptyString)) as ->; [|done].
  rewrite <- (string_app_nil_r w) at 2. apply Hw; [unfold fuel_for; lia|done|done].
Qed.
