(* ===== verification/GoRaw.v ===== *)
(** * Raw JSON: [json.RawMessage] inside a decoded value

    A field of type [json.RawMessage] gets the bytes of a value as they stand
    in the text.  These functions walk over a text like the parser of [GoJson]
    and keep the bytes. *)
From Stdlib Require Import ZArith Lia Ascii.
From stdpp Require Import base tactics option list numbers strings.
From S2P Require Import Prelude GoStrings GoJson JsonRoundTrip JsonLocal.

Open Scope Z_scope.

(** The bytes of the value [s] starts with, and the text behind it. *)
Definition raw_value (fuel : nat) (depth : Z) (s : string) : option (string * string) :=
  let s' := skip_ws s in
  '(_, r) ← parse_value fuel depth s';
  Some (String.substring 0 (String.length s' - String.length r) s', r).

(** The elements of an array, from behind its bracket. *)
Fixpoint raw_elems (fuel : nat) (depth : Z) (s : string) : option (list string * string) :=
  match fuel with
  | O => None
  | S f =>
      '(w, r) ← raw_value f depth s;
      match skip_ws r with
      | String "]" r' => Some ([w], r')
      | String "," r' => '(ws, r'') ← raw_elems f depth r'; Some (w :: ws, r'')
      | _ => None
      end
  end.

(** The members of an object, from behind its brace. *)
Fixpoint raw_members (fuel : nat) (depth : Z) (s : string)
    : option (list (string * string) * string) :=
  match fuel with
  | O => None
  | S f =>
      match skip_ws s with
      | String q t =>
          if bool_decide (q = DQ) then
            '(k, r) ← unquote 0 None t;
            match skip_ws r with
            | String ":" r' =>
                '(w, r2) ← raw_value f depth r';
                match skip_ws r2 with
                | String "}" r3 => Some ([(k, w)], r3)
                | String "," r3 => '(ms, r4) ← raw_members f depth r3; Some ((k, w) :: ms, r4)
                | _ => None
                end
            | _ => None
            end
          else None
      | EmptyString => None
      end
  end.

(** The elements of a text that is an array. *)
Definition raw_array (s : string) : option (list string) :=
  match skip_ws s with
  | String "[" t =>
      match skip_ws t with
      | String "]" _ => Some []
      | _ => fst <$> raw_elems (String.length s) 1 t
      end
  | _ => None
  end.

(** The members of a text that is an object. *)
Definition raw_object (s : string) : option (list (string * string)) :=
  match skip_ws s with
  | String "{" t =>
      match skip_ws t with
      | String "}" _ => Some []
      | _ => fst <$> raw_members (String.length s) 1 t
      end
  | _ => None
  end.

(** A field of type [[]json.RawMessage], from the bytes of its value; the
    boolean reports a type error. *)
Definition into_raws (raw : string) (old : list string) : list string * bool :=
  match parse raw with
  | Some JNull => ([], false)
  | Some (JArr _) => (default [] (raw_array raw), false)
  | _ => (old, true)
  end.

Example raw_array_ok :
  raw_array (quoted " [ {'a' : [1 , 2]} ,'x', 7]") = Some [quoted "{'a' : [1 , 2]}"; quoted "'x'"; "7"].
Proof. vm_compute. reflexivity. Qed.

Example raw_object_ok :
  raw_object (quoted "{ 'a':[ ] , 'b' : null}") = Some [("a", "[ ]"); ("b", "null")].
Proof. vm_compute. reflexivity. Qed.

(** ** The bytes belong to the tree *)

Lemma substring_prefix w r :
  String.substring 0 (String.length (w +:+ r) - String.length r) (w +:+ r) = w.
Proof.
  rewrite length_app_string, Nat.add_sub. induction w as [|c w IH]; [by destruct r|].
  exact (f_equal (String c) IH).
Qed.

(** [raw_value] gives the bytes of the value the parser finds. *)
Lemma raw_value_spec f d s w r :
  fits d 0 → raw_value f d s = Some (w, r) →
  ∃ v, parse_value f d s = Some (v, r) ∧ skip_ws s = w +:+ r ∧ value_text w v ∧ fits d (height v).
Proof.
  intros Hd. unfold raw_value. rewrite parse_value_skip.
  destruct (parse_value f d s) as [[v r']|] eqn:E; [|done]. intros [= <- <-].
  destruct (proj1 (parse_local f) _ _ _ _ Hd E) as (w & Hs & Hw). rewrite Hs, substring_prefix.
  by exists v.
Qed.

(** The bytes parse to the value. *)
Definition raw_of (w : string) (v : json) : Prop := parse w = Some v.

Lemma raw_value_of f d s v r :
  0 <= d → fits d 0 → parse_value f d s = Some (v, r) → ∃ w, raw_value f d s = Some (w, r) ∧ raw_of w v.
Proof.
  intros Hd H0 Hp. assert (∃ w, raw_value f d s = Some (w, r)) as [w Hw]
    by (unfold raw_value; rewrite parse_value_skip, Hp; by eexists).
  exists w. split; [done|]. destruct (raw_value_spec _ _ _ _ _ H0 Hw) as (v' & Hp' & _ & Hv & Hf).
  rewrite Hp in Hp'. injection Hp' as <-. apply value_text_parse; [done|]. unfold fits in *. lia.
Qed.

Lemma raw_elems_spec f d s vs r :
  0 <= d → fits d 0 → parse_elems f d s = Some (vs, r) →
  ∃ ws, raw_elems f d s = Some (ws, r) ∧ Forall2 raw_of ws vs.
Proof.
  intros Hd H0. revert s vs r. induction f as [|f IH]; intros s vs r; [done|].
  cbn [parse_elems raw_elems]. destruct (parse_value f d s) as [[v r1]|] eqn:Hv; [|done].
  destruct (raw_value_of _ _ _ _ _ Hd H0 Hv) as (w & -> & Hw). cbn [mbind option_bind].
  rewrite !elems_next. intros [(r' & -> & Ha)|(r' & -> & Ha)]%comma_or_bracket; [| |by left].
  - injection Ha as <- <-. exists [w]. repeat constructor. done.
  - destruct (parse_elems f d r') as [[vs' r2]|] eqn:E; [|done]. cbn [mbind option_bind] in Ha.
    injection Ha as <- <-. destruct (IH _ _ _ E) as (ws & Hws & Hall). exists (w :: ws).
    split; [|by constructor]. simpl. by rewrite Hws.
Qed.

(** A member's key and bytes, and the member of the tree. *)
Definition raw_member (m : string * string) (n : string * json) : Prop :=
  m.1 = n.1 ∧ raw_of m.2 n.2.

Lemma raw_members_spec f d s ms r :
  0 <= d → fits d 0 → parse_members f d s = Some (ms, r) →
  ∃ ws, raw_members f d s = Some (ws, r) ∧ Forall2 raw_member ws ms.
Proof.
  intros Hd H0. revert s ms r. induction f as [|f IH]; intros s ms r; [done|].
  cbn [parse_members raw_members]. destruct (skip_ws s) as [|q t]; [done|].
  destruct (bool_decide (q = DQ)); [|done].
  destruct (unquote 0 None t) as [[k r1]|]; [|done]. cbn [mbind option_bind].
  destruct (skip_ws r1) as [|c r2]; [done|].
  destruct (decide (c = ":"%char)) as [->|Hc]; [|by destruct c as [[] [] [] [] [] [] [] []]].
  destruct (parse_value f d r2) as [[v r3]|] eqn:Hv; [|done].
  destruct (raw_value_of _ _ _ _ _ Hd H0 Hv) as (w & -> & Hw). cbn [mbind option_bind].
  rewrite !members_next. intros [(r' & -> & Ha)|(r' & -> & Ha)]%comma_or_bracket; [| |by right].
  - injection Ha as <- <-. exists [(k, w)]. repeat constructor. done.
  - destruct (parse_members f d r') as [[ms' r4]|] eqn:E; [|done]. cbn [mbind option_bind] in Ha.
    injection Ha as <- <-. destruct (IH _ _ _ E) as (ws & Hws & Hall). exists ((k, w) :: ws).
    split; [|by constructor]. simpl. by rewrite Hws.
Qed.

(** What a value that is an array, or an object, starts with. *)
Lemma parse_array_inv f d s vs r :
  parse_value (S f) d s = Some (JArr vs, r) →
  ∃ t, skip_ws s = String "[" t ∧
    ((vs = [] ∧ skip_ws t = String "]" r) ∨
     (∀ z, skip_ws t ≠ String "]" z) ∧ parse_elems f (d + 1) t = Some (vs, r)).
Proof.
  cbn [parse_value]. destruct (skip_ws s) as [|c t]; [done|].
  destruct (bool_decide (c = "{"%char)).
  { destruct (max_depth <=? d); [done|].
    destruct (closing_or (skip_ws t) "}" (λ r, Some (JObj [], r))
      ('(ms, r) ← parse_members f (d + 1) t; Some (JObj ms, r)) ltac:(by right))
      as [(r' & Hr & E)|E]; simpl in E; rewrite E; [done|]. by destruct (parse_members _ _ _) as [[]|]. }
  destruct (bool_decide (c = "["%char)) eqn:H2.
  { apply bool_decide_eq_true in H2 as ->. destruct (max_depth <=? d); [done|].
    intros Hp. exists t. split; [done|]. destruct (skip_ws t) as [|c t'].
    - right. split; [done|]. destruct (parse_elems _ _ _) as [[]|]; [|done]. by injection Hp as -> ->.
    - destruct (decide (c = "]"%char)) as [->|Hc]; [left; by injection Hp as <- ->|right].
      split; [congruence|]. assert (('(vs0, r0) ← parse_elems f (d + 1) t; Some (JArr vs0, r0)) =
        Some (JArr vs, r)) as Hp'.
      { revert Hp. by destruct c as [[] [] [] [] [] [] [] []]. }
      destruct (parse_elems _ _ _) as [[]|]; [|done]. by injection Hp' as -> ->. }
  destruct (bool_decide (c = DQ)); [by destruct (unquote _ _ _) as [[]|]|].
  destruct (in_range 48 57 c || _); [by destruct (number _) as [[]|]|].
  by destruct (strip_prefix "true" (String c t)), (strip_prefix "false" (String c t)),
    (strip_prefix "null" (String c t)).
Qed.

Lemma parse_object_inv f d s ms r :
  parse_value (S f) d s = Some (JObj ms, r) →
  ∃ t, skip_ws s = String "{" t ∧
    ((ms = [] ∧ skip_ws t = String "}" r) ∨
     (∀ z, skip_ws t ≠ String "}" z) ∧ parse_members f (d + 1) t = Some (ms, r)).
Proof.
  cbn [parse_value]. destruct (skip_ws s) as [|c t]; [done|].
  destruct (bool_decide (c = "{"%char)) eqn:H1.
  { apply bool_decide_eq_true in H1 as ->. destruct (max_depth <=? d); [done|].
    intros Hp. exists t. split; [done|]. destruct (skip_ws t) as [|c t'].
    - right. split; [done|]. destruct (parse_members _ _ _) as [[]|]; [|done]. by injection Hp as -> ->.
    - destruct (decide (c = "}"%char)) as [->|Hc]; [left; by injection Hp as <- ->|right].
      split; [congruence|]. assert (('(vs0, r0) ← parse_members f (d + 1) t; Some (JObj vs0, r0)) =
        Some (JObj ms, r)) as Hp'.
      { revert Hp. by destruct c as [[] [] [] [] [] [] [] []]. }
      destruct (parse_members _ _ _) as [[]|]; [|done]. by injection Hp' as -> ->. }
  destruct (bool_decide (c = "["%char)).
  { destruct (max_depth <=? d); [done|].
    destruct (closing_or (skip_ws t) "]" (λ r, Some (JArr [], r))
      ('(ms, r) ← parse_elems f (d + 1) t; Some (JArr ms, r)) ltac:(by left))
      as [(r' & Hr & E)|E]; simpl in E; rewrite E; [done|]. by destruct (parse_elems _ _ _) as [[]|]. }
  destruct (bool_decide (c = DQ)); [by destruct (unquote _ _ _) as [[]|]|].
  destruct (in_range 48 57 c || _); [by destruct (number _) as [[]|]|].
  by destruct (strip_prefix "true" (String c t)), (strip_prefix "false" (String c t)),
    (strip_prefix "null" (String c t)).
Qed.

Lemma parse_inv s v : parse s = Some v → ∃ r, parse_value (S (String.length s)) 0 s = Some (v, r).
Proof.
  unfold parse, fuel_for. destruct (parse_value _ 0 s) as [[v' r]|]; [|done]. simpl.
  destruct (skip_ws r); [|done]. intros [= ->]. by exists r.
Qed.

(** The pieces of an array parse to its elements, in their order. *)
Lemma raw_array_spec s vs :
  parse s = Some (JArr vs) → ∃ ws, raw_array s = Some ws ∧ Forall2 raw_of ws vs.
Proof.
  intros (r & Hp)%parse_inv. apply parse_array_inv in Hp as (t & Ht & Hc).
  unfold raw_array. rewrite Ht. destruct Hc as [[-> Hr]|[Hne Hp]].
  - rewrite Hr. by exists [].
  - destruct (raw_elems_spec _ 1 _ _ _ ltac:(done) ltac:(done) Hp) as (ws & Hws & Hall). exists ws.
    split; [|done]. rewrite Hws. destruct (skip_ws t) as [|c t']; [done|].
    destruct (decide (c = "]"%char)) as [->|]; [by destruct (Hne t')|].
    by destruct c as [[] [] [] [] [] [] [] []].
Qed.

Lemma raw_object_spec s ms :
  parse s = Some (JObj ms) → ∃ ws, raw_object s = Some ws ∧ Forall2 raw_member ws ms.
Proof.
  intros (r & Hp)%parse_inv. apply parse_object_inv in Hp as (t & Ht & Hc).
  unfold raw_object. rewrite Ht. destruct Hc as [[-> Hr]|[Hne Hp]].
  - rewrite Hr. by exists [].
  - destruct (raw_members_spec _ 1 _ _ _ ltac:(done) ltac:(done) Hp) as (ws & Hws & Hall). exists ws.
    split; [|done]. rewrite Hws. destruct (skip_ws t) as [|c t']; [done|].
    destruct (decide (c = "}"%char)) as [->|]; [by destruct (Hne t')|].
    by destruct c as [[] [] [] [] [] [] [] []].
Qed.
