(* ===== verification/JsonCompact.v ===== *)
(** * Compaction keeps the value (json.Compact, json.Marshal of raw JSON)

    [compact] of [GoJson] is what [json.Marshal] does to a [json.RawMessage]:
    it drops the white space between the tokens and escapes what is unsafe
    inside strings.  Here it is shown to keep the value of every text that
    parses: to work piece by piece, a string literal to one that reads back the
    same, white space to nothing, everything else to itself. *)
From Stdlib Require Import ZArith Lia Ascii.
From stdpp Require Import base tactics option list numbers strings sets.
From S2P Require Import Prelude GoStrings GoText GoNum GoJson GoUrl JsonRoundTrip JsonLocal.
Open Scope Z_scope.

(** ** One character at a time *)

(** A character that compaction looks at: the unsafe ones and the first byte of
    the two separators. *)
Definition special_char (c : ascii) : bool :=
  bool_decide (c ∈ ["<"; ">"; "&"]%char) || (byte c =? 226).

(** What becomes of any other character. *)
Definition compact_plain (inS esc : bool) (c : ascii) (t : string) : string :=
  if inS then
    if esc then String c (compact_go true false t)
    else if bool_decide (c = BACKSLASH) then String c (compact_go true true t)
    else String c (compact_go (negb (bool_decide (c = DQ))) false t)
  else if bool_decide (byte c ∈ [32; 9; 10; 13]) then compact_go false false t
  else String c (compact_go (bool_decide (c = DQ)) false t).

Lemma compact_cons inS esc c t :
  special_char c = false → compact_go inS esc (String c t) = compact_plain inS esc c t.
Proof.
  unfold special_char. intros [Hu H226]%orb_false_iff. cbn [compact_go]. rewrite Hu, H226.
  by destruct t as [|d [|e t]].
Qed.

(** A separator, or not. *)
Definition is_separator (c d e : ascii) : bool :=
  (byte c =? 226) && (byte d =? 128) && ((byte e =? 168) || (byte e =? 169)).

Lemma compact_226 c t :
  byte c = 226 →
  (∃ d e t', t = String d (String e t') ∧ is_separator c d e = true ∧
    compact_go true false (String c t) = u_escape (8192 + byte e - 128) +:+ compact_go true false t') ∨
  compact_go true false (String c t) = String c (compact_go true false t).
Proof.
  intros Hc. assert (c = chr 226) as -> by (by rewrite <- Hc, chr_byte).
  destruct t as [|d [|e t]]; [by right..|]. destruct (is_separator (chr 226) d e) eqn:Hs.
  - left. exists d, e, t. split_and!; [done|done|]. cbn [compact_go].
    unfold is_separator in Hs. rewrite Hs. reflexivity.
  - right. cbn [compact_go]. unfold is_separator in Hs. rewrite Hs. reflexivity.
Qed.

(** The continuation bytes at the front of a text, three at most. *)
Fixpoint front (k : nat) (s : string) : string :=
  match k, s with
  | S k', String c t => if in_range 128 191 c then String c (front k' t) else EmptyString
  | _, _ => EmptyString
  end.

Lemma continuation_front n s1 s2 :
  (n ≤ 3)%nat → front 3 s1 = front 3 s2 → continuation n s1 = continuation n s2.
Proof.
  assert (∀ k n s1 s2, (n ≤ k)%nat → front k s1 = front k s2 →
    continuation n s1 = continuation n s2) as Hgen; [|by apply Hgen].
  clear. induction k as [|k IH]; intros n s1 s2 Hn Hf; (destruct n as [|n]; [done|]); [lia|].
  destruct s1 as [|c1 s1], s2 as [|c2 s2]; cbn [front continuation] in *; try done.
  - by destruct (in_range 128 191 c2).
  - by destruct (in_range 128 191 c1).
  - destruct (in_range 128 191 c1), (in_range 128 191 c2); try done. simplify_eq.
    simpl. apply IH; [lia|done].
Qed.

(** The width of a rune depends on those bytes only. *)
Lemma utf8_width_front c s1 s2 :
  front 3 s1 = front 3 s2 → utf8_width (String c s1) = utf8_width (String c s2).
Proof.
  intros Hf. unfold utf8_width. cbv zeta.
  rewrite <- !(continuation_front _ s1 s2) by (done || lia).
  destruct (in_range 0 127 c); [done|]. destruct (in_range 194 223 c); [done|].
  assert (∀ n (b1 b2 : ascii → bool), (∀ d, in_range 128 191 d = true → b1 d = b2 d) →
    continuation (S n) s1 = true →
    match s1 with String d _ => b1 d | EmptyString => false end =
    match s2 with String d _ => b2 d | EmptyString => false end) as Hsec.
  { intros n b1 b2 Hb Hc. destruct s1 as [|d1 s1]; [done|]. cbn [continuation front] in *.
    apply andb_true_iff in Hc as [Hd _]. rewrite Hd in Hf. destruct s2 as [|d2 s2]; [done|].
    cbn [front] in Hf. destruct (in_range 128 191 d2); [|done]. injection Hf as <- _. by apply Hb. }
  destruct (in_range 224 239 c).
  { destruct (continuation 2 s1) eqn:Hc; [|done].
    by rewrite (Hsec 1%nat (in_range 160 191) (in_range 160 191)),
      (Hsec 1%nat (in_range 128 159) (in_range 128 159)). }
  destruct (in_range 240 244 c); [|done]. destruct (continuation 3 s1) eqn:Hc; [|done].
  by rewrite (Hsec 2%nat (in_range 144 191) (in_range 144 191)),
    (Hsec 2%nat (in_range 128 143) (in_range 128 143)).
Qed.

(** Compaction inside a string leaves them. *)
Lemma front_compact k s : front k (compact_go true false s) = front k s.
Proof.
  revert s. induction k as [|k IH]; intros s; [done|]. destruct s as [|c t]; [done|].
  destruct (special_char c) eqn:Hs.
  - assert (in_range 128 191 c = false) as Hr.
    { revert Hs. by destruct c as [[] [] [] [] [] [] [] []]. }
    cbn [front]. rewrite Hr. unfold special_char in Hs.
    destruct (bool_decide (c ∈ ["<"; ">"; "&"]%char)) eqn:Hu.
    + cbn [compact_go]. rewrite Hu. done.
    + simpl in Hs. apply Z.eqb_eq in Hs.
      destruct (compact_226 c t Hs) as [(d & e & t' & -> & _ & ->)| ->]; [done|].
      cbn [front]. by rewrite Hr.
  - rewrite compact_cons by done. unfold compact_plain. cbn [front].
    destruct (in_range 128 191 c) eqn:Hr.
    + assert (c ≠ BACKSLASH ∧ c ≠ DQ) as [Hb Hq] by (by split; intros ->).
      rewrite !bool_decide_false by done. cbn [front negb]. by rewrite Hr, IH.
    + destruct (bool_decide (c = BACKSLASH)); cbn [front]; by rewrite Hr.
Qed.

Lemma front_quote k w r1 r2 : front k (w +:+ String DQ r1) = front k (w +:+ String DQ r2).
Proof.
  revert w. induction k as [|k IH]; intros [|c w]; try done.
  change (String c w +:+ ?x) with (String c (w +:+ x)). cbn [front].
  destruct (in_range 128 191 c); [|done]. by rewrite IH.
Qed.

(** ** Strings *)

Definition flush (high : option Z) (k : option (string * string)) : option (string * string) :=
  match high with
  | None => k
  | Some _ => with_prefix replacement k
  end.

(** The rest behind a literal does not matter. *)
Lemma flush_rest high a x0 x r r' :
  flush high (with_prefix a (Some (x0, r))) = Some (x, r) →
  flush high (with_prefix a (Some (x0, r'))) = Some (x, r').
Proof. destruct high; simpl; by intros [= <-]. Qed.

Lemma flush_inv high a k x r :
  flush high (with_prefix a k) = Some (x, r) → ∃ x0, k = Some (x0, r).
Proof. destruct k as [[x0 r0]|], high; try done; simpl; intros [= _ ->]; eauto. Qed.

(** One step of [unquote] on a character that is neither a quote, a backslash nor
    a control character. *)
Lemma unquote_char high c t :
  c ≠ DQ → c ≠ BACKSLASH → (byte c <? 32) = false →
  unquote 0 high (String c t) =
  flush high (match utf8_width (String c t) with
              | O => with_prefix replacement (unquote 0 None t)
              | S n => with_prefix (String c EmptyString) (unquote n None t)
              end).
Proof.
  intros Hq Hb Hc. cbn [unquote]. rewrite !bool_decide_false, Hc by done.
  by destruct (utf8_width (String c t)); destruct high.
Qed.

Lemma unquote_unsafe c high z :
  c ∈ ["<"; ">"; "&"]%char → unquote 0 high (u_escape (byte c) +:+ z) = unquote 0 high (String c z).
Proof.
  rewrite !elem_of_cons. intros [->|[->|[->|Hc]]]; [..|by apply not_elem_of_nil in Hc];
    destruct high; reflexivity.
Qed.

Lemma is_separator_spec c d e :
  is_separator c d e = true → c = chr 226 ∧ d = chr 128 ∧ (e = chr 168 ∨ e = chr 169).
Proof.
  unfold is_separator. intros [[Hc%Z.eqb_eq Hd%Z.eqb_eq]%andb_true_iff He%orb_true_iff]%andb_true_iff.
  rewrite !Z.eqb_eq in He. rewrite <- (chr_byte c), <- (chr_byte d), <- (chr_byte e), Hc, Hd.
  destruct He as [-> | ->]; auto.
Qed.

Lemma unquote_sep c d e high z :
  is_separator c d e = true →
  unquote 0 high (String c (String d (String e z))) =
    flush high (with_prefix (String c (String d (String e EmptyString))) (unquote 0 None z)) ∧
  unquote 0 high (u_escape (8192 + byte e - 128) +:+ z) =
    unquote 0 high (String c (String d (String e z))).
Proof.
  intros (-> & -> & He)%is_separator_spec.
  assert (unquote 0 high (String (chr 226) (String (chr 128) (String e z))) =
    flush high (with_prefix (String (chr 226) (String (chr 128) (String e EmptyString)))
      (unquote 0 None z))) as ->.
  { rewrite unquote_char by done.
    assert (utf8_width (String (chr 226) (String (chr 128) (String e z))) = 3%nat) as ->
      by (destruct He as [-> | ->]; reflexivity).
    f_equal. change (String (chr 128) (String e z))
      with (String (chr 128) (String e EmptyString) +:+ z).
    rewrite (unquote_copy 2) by done. by destruct (unquote 0 None z) as [[]|]. }
  split; [done|].
  assert (∀ n, n = 8232 ∨ n = 8233 → unquote 0 high (u_escape n +:+ z) =
    flush high (with_prefix (encode_rune n) (unquote 0 None z))) as Hn
    by (intros n [-> | ->]; by destruct high).
  destruct He as [-> | ->]; by rewrite Hn by auto.
Qed.

Lemma hex_digit_plain c x : hex_digit c = Some x → special_char c = false ∧ c ≠ BACKSLASH ∧ c ≠ DQ.
Proof. by destruct c as [[] [] [] [] [] [] [] []]. Qed.

Lemma compact_in_string c t :
  special_char c = false → c ≠ BACKSLASH → c ≠ DQ →
  compact_go true false (String c t) = String c (compact_go true false t).
Proof.
  intros Hs Hb Hq. rewrite compact_cons by done. unfold compact_plain.
  by rewrite !bool_decide_false.
Qed.

Lemma unicode_escape_compact t r1 t' :
  unicode_escape t = Some (r1, t') →
  ∃ h, t = h +:+ t' ∧ (∀ z, unicode_escape (h +:+ z) = Some (r1, z)) ∧
    (∀ z, compact_go true false (h +:+ z) = h +:+ compact_go true false z).
Proof.
  destruct t as [|h1 [|h2 [|h3 [|h4 t]]]]; try done. cbn [unicode_escape]. unfold hex4.
  destruct (hex_digit h1) as [x1|] eqn:E1; [|done].
  destruct (hex_digit h2) as [x2|] eqn:E2; [|done].
  destruct (hex_digit h3) as [x3|] eqn:E3; [|done].
  destruct (hex_digit h4) as [x4|] eqn:E4; [|done]. simpl. intros [= <- ->].
  exists (String h1 (String h2 (String h3 (String h4 EmptyString)))). split_and!; [done| |]; intros z;
    change (_ +:+ z) with (String h1 (String h2 (String h3 (String h4 z)))).
  - cbn [unicode_escape]. unfold hex4. by rewrite E1, E2, E3, E4.
  - apply hex_digit_plain in E1 as (? & ? & ?), E2 as (? & ? & ?), E3 as (? & ? & ?), E4 as (? & ? & ?).
    by rewrite !compact_in_string.
Qed.

Lemma compact_letter e y z :
  escape e = Some y →
  compact_go true false (String BACKSLASH (String e z)) =
  String BACKSLASH (String e (compact_go true false z)).
Proof.
  intros He. rewrite compact_cons by done. unfold compact_plain.
  rewrite bool_decide_true by done. f_equal.
  assert (special_char e = false) as Hs.
  { revert He. by destruct e as [[] [] [] [] [] [] [] []]. }
  by rewrite compact_cons.
Qed.

Lemma compact_u z :
  compact_go true false (String BACKSLASH (String "u" z)) =
  String BACKSLASH (String "u" (compact_go true false z)).
Proof. by rewrite compact_cons; [unfold compact_plain; rewrite bool_decide_true by done; by rewrite compact_cons|]. Qed.

(** [q] is the inside of a literal for [x], and [q'] what compaction makes of it. *)
Definition literal_texts (copy : nat) (high : option Z) (x q q' : string) : Prop :=
  (∀ z, compact_go true false (q +:+ String DQ z) = q' +:+ String DQ (compact_go false false z)) ∧
  ∀ r, unquote copy high (q' +:+ String DQ r) = Some (x, r).

Definition literal_local (t : string) : Prop := ∀ copy high x r,
  continuation copy t = true → unquote copy high t = Some (x, r) →
  ∃ q q', t = q +:+ String DQ r ∧ literal_texts copy high x q q'.

Lemma literal_copy c t n high x r :
  literal_local t → continuation (S n) (String c t) = true →
  unquote (S n) high (String c t) = Some (x, r) →
  ∃ q q', String c t = q +:+ String DQ r ∧ literal_texts (S n) high x q q'.
Proof.
  intros IH [Hc Hn]%andb_true_iff Hu. cbn [unquote] in Hu.
  destruct (unquote n None t) as [[x0 r0]|] eqn:E; [|done]. simpl in Hu. injection Hu as <- ->.
  destruct (IH _ _ _ _ Hn E) as (q & q' & -> & Hcomp & Hq). exists (String c q), (String c q').
  split; [done|]. split.
  - intros z. change (String c q +:+ ?y) with (String c (q +:+ y)).
    assert (special_char c = false ∧ c ≠ BACKSLASH ∧ c ≠ DQ) as (? & ? & ?)
      by (revert Hc; by destruct c as [[] [] [] [] [] [] [] []]).
    rewrite compact_in_string by done. by rewrite Hcomp.
  - intros r'. change (String c q' +:+ ?y) with (String c (q' +:+ y)). cbn [unquote]. by rewrite Hq.
Qed.

Lemma literal_unit t high x r :
  (∀ t', (String.length t' < String.length t)%nat → literal_local t') →
  unquote 0 high (String BACKSLASH (String "u" t)) = Some (x, r) →
  ∃ q q', String BACKSLASH (String "u" t) = q +:+ String DQ r ∧ literal_texts 0 high x q q'.
Proof.
  intros IH Hu. rewrite unquote_u in Hu. destruct (unicode_escape t) as [[r1 t']|] eqn:Ht; [|done].
  destruct (unicode_escape_app _ _ _ Ht) as (h0 & -> & Hlen & _).
  destruct (unicode_escape_compact _ _ _ Ht) as (h & Heq & Hh & Hcomp).
  rewrite Heq in *. clear h0 Heq. cbn [mbind option_bind] in Hu.
  assert (∃ hi x0, unquote 0 hi t' = Some (x0, r) ∧
    ∀ r' z, unquote 0 hi z = Some (x0, r') → after_unit high r1 z = Some (x, r'))
    as (hi & x0 & E & Hback).
  { unfold after_unit in Hu |- *.
    destruct ((56320 <=? r1) && (r1 <=? 57343)) eqn:H1;
      [|destruct ((55296 <=? r1) && (r1 <=? 56319)) eqn:H2]; destruct high as [hi|];
      match type of Hu with
      | context [unquote 0 ?k t'] => destruct (unquote 0 k t') as [[x0 r0]|] eqn:E; [|done];
          exists k, x0
      end; simpl in Hu; injection Hu as <- ->; (split; [done|]); intros r' z ->; done. }
  destruct (IH t' Hlen 0%nat hi x0 r eq_refl E) as (q & q' & -> & Hcq & Hq).
  exists (String BACKSLASH (String "u" (h +:+ q))), (String BACKSLASH (String "u" (h +:+ q'))).
  split; [by rewrite <- string_app_assoc|]. split.
  - intros z. change (String ?a (String ?b ?y) +:+ ?y') with (String a (String b (y +:+ y'))).
    rewrite compact_u, string_app_assoc, Hcomp, Hcq. by rewrite <- string_app_assoc.
  - intros r'. change (String ?a (String ?b ?y) +:+ ?y') with (String a (String b (y +:+ y'))).
    rewrite string_app_assoc, unquote_u, Hh. simpl. by apply Hback.
Qed.

Lemma literal_letter e t high x r :
  literal_local t → e ≠ "u"%char →
  unquote 0 high (String BACKSLASH (String e t)) = Some (x, r) →
  ∃ q q', String BACKSLASH (String e t) = q +:+ String DQ r ∧ literal_texts 0 high x q q'.
Proof.
  intros IH He Hu. rewrite unquote_letter in Hu by done. destruct (escape e) as [y|] eqn:Ey; [|done].
  assert (∃ x0, unquote 0 None t = Some (x0, r)) as [x0 E].
  { destruct (unquote 0 None t) as [[x0 r0]|]; [|by destruct high].
    exists x0. destruct high; simpl in Hu; by injection Hu as _ ->. }
  destruct (IH 0%nat None x0 r eq_refl E) as (q & q' & -> & Hcq & Hq).
  exists (String BACKSLASH (String e q)), (String BACKSLASH (String e q')). split; [done|]. split.
  - intros z. change (String ?a (String ?b ?w) +:+ ?w') with (String a (String b (w +:+ w'))).
    rewrite (compact_letter _ _ _ Ey), Hcq. done.
  - intros r'. change (String ?a (String ?b ?w) +:+ ?w') with (String a (String b (w +:+ w'))).
    rewrite unquote_letter, Ey by done. simpl. rewrite Hq. rewrite E in Hu.
    destruct high; simpl in Hu |- *; by injection Hu as <-.
Qed.

(** A character that compaction leaves as it is. *)
Lemma literal_plain c t high x r :
  literal_local t → c ≠ DQ → c ≠ BACKSLASH →
  (∀ q r', t = q +:+ String DQ r' →
    ∀ z, compact_go true false (String c (q +:+ String DQ z)) =
      String c (compact_go true false (q +:+ String DQ z))) →
  unquote 0 high (String c t) = Some (x, r) →
  ∃ q q', String c t = q +:+ String DQ r ∧ literal_texts 0 high x q q'.
Proof.
  intros IH Hq Hb Hcomp Hu.
  destruct (byte c <? 32) eqn:Hc.
  { exfalso. cbn [unquote] in Hu. by rewrite !bool_decide_false, Hc in Hu. }
  rewrite unquote_char in Hu by done.
  set (n := pred (utf8_width (String c t))).
  set (a := match utf8_width (String c t) with O => replacement | S _ => String c EmptyString end).
  assert (Hu' : flush high (with_prefix a (unquote n None t)) = Some (x, r))
    by (unfold a, n; by destruct (utf8_width (String c t))).
  assert (continuation n t = true) as Hn.
  { unfold n. destruct (utf8_width (String c t)) eqn:E; [done|].
    by apply utf8_width_continuation in E. }
  destruct (flush_inv _ _ _ _ _ Hu') as [x0 E]. rewrite E in Hu'.
  destruct (IH n None x0 r Hn E) as (q & q' & Ht & Hcq & Hqq).
  exists (String c q), (String c q'). rewrite Ht. split; [done|]. split.
  - intros z. change (String c q +:+ ?y) with (String c (q +:+ y)).
    by rewrite (Hcomp q r Ht), Hcq.
  - intros r'. change (String c q' +:+ ?y) with (String c (q' +:+ y)). rewrite unquote_char by done.
    assert (utf8_width (String c (q' +:+ String DQ r')) = utf8_width (String c t)) as ->.
    { apply utf8_width_front. rewrite Ht, <- (front_compact 3 (q +:+ String DQ r)), Hcq.
      apply front_quote. }
    assert (flush high (with_prefix a (unquote n None (q' +:+ String DQ r'))) = Some (x, r'))
      as Hres by (rewrite Hqq; by eapply flush_rest).
    unfold a, n in Hres. by destruct (utf8_width (String c t)).
Qed.

Lemma compact_226_other c t :
  byte c = 226 → (∀ d e t', t = String d (String e t') → is_separator c d e = false) →
  compact_go true false (String c t) = String c (compact_go true false t).
Proof.
  intros Hc Hn. destruct (compact_226 c t Hc) as [(d & e & t' & -> & Hs & _)|H]; [|done].
  by rewrite (Hn d e t' eq_refl) in Hs.
Qed.

(** One that is escaped. *)
Lemma literal_unsafe c t high x r :
  literal_local t → c ∈ ["<"; ">"; "&"]%char → unquote 0 high (String c t) = Some (x, r) →
  ∃ q q', String c t = q +:+ String DQ r ∧ literal_texts 0 high x q q'.
Proof.
  intros IH Hin Hu.
  assert (c ≠ DQ ∧ c ≠ BACKSLASH ∧ (byte c <? 32) = false ∧ ∀ z, utf8_width (String c z) = 1%nat)
    as (Hq & Hb & Hc & Hw).
  { rewrite !elem_of_cons in Hin.
    by destruct Hin as [->|[->|[->|Hin]]]; [..|apply not_elem_of_nil in Hin]. }
  rewrite unquote_char, Hw in Hu by done. destruct (flush_inv _ _ _ _ _ Hu) as [x0 E].
  rewrite E in Hu. destruct (IH 0%nat None x0 r eq_refl E) as (q & q' & -> & Hcq & Hqq).
  exists (String c q), (u_escape (byte c) +:+ q'). split; [done|]. split.
  - intros z. change (String c q +:+ ?y) with (String c (q +:+ y)). rewrite string_app_assoc, <- Hcq.
    cbn [compact_go]. by rewrite bool_decide_true.
  - intros r'. rewrite string_app_assoc, unquote_unsafe, unquote_char, Hw, Hqq by done.
    by eapply flush_rest.
Qed.

Lemma literal_separator c d e t high x r :
  literal_local t → is_separator c d e = true →
  unquote 0 high (String c (String d (String e t))) = Some (x, r) →
  ∃ q q', String c (String d (String e t)) = q +:+ String DQ r ∧ literal_texts 0 high x q q'.
Proof.
  intros IH Hs Hu. rewrite (proj1 (unquote_sep _ _ _ high t Hs)) in Hu.
  destruct (flush_inv _ _ _ _ _ Hu) as [x0 E]. rewrite E in Hu.
  destruct (IH 0%nat None x0 r eq_refl E) as (q & q' & -> & Hcq & Hqq).
  exists (String c (String d (String e q))), (u_escape (8192 + byte e - 128) +:+ q').
  split; [done|]. split.
  - intros z. rewrite string_app_assoc, <- Hcq.
    change (String ?a (String ?b (String ?g q)) +:+ ?y) with (String a (String b (String g (q +:+ y)))).
    pose proof Hs as (Hc & _)%is_separator_spec.
    destruct (compact_226 c (String d (String e (q +:+ String DQ z))) ltac:(by rewrite Hc))
      as [(d' & e' & t' & Heq & _ & Hcomp)|Hcomp].
    + by injection Heq as <- <- <-.
    + exfalso. revert Hcomp. cbn [compact_go]. unfold is_separator in Hs. rewrite Hs, Hc. done.
  - intros r'. rewrite string_app_assoc, (proj2 (unquote_sep _ _ _ high _ Hs)),
      (proj1 (unquote_sep _ _ _ high _ Hs)), Hqq. by eapply flush_rest.
Qed.

Lemma literal_all t : literal_local t.
Proof.
  induction t as [[|c t] IH] using string_length_ind; intros copy high x r Hcopy Hu;
    [by destruct copy|].
  assert (literal_local t) as IHt by (apply IH; simpl; lia).
  destruct copy as [|n]; [|by apply literal_copy].
  destruct (decide (c = DQ)) as [->|Hq].
  { exists EmptyString, EmptyString. cbn [unquote] in Hu. rewrite bool_decide_true in Hu by done.
    change (EmptyString +:+ ?z) with z.
    split; [destruct high; simpl in Hu; by injection Hu as _ ->|]. split.
    - intros z. change (EmptyString +:+ ?y) with y. by rewrite compact_cons.
    - intros r'. change (EmptyString +:+ ?y) with y. cbn [unquote]. rewrite bool_decide_true by done.
      destruct high; simpl in Hu |- *; by injection Hu as <- _. }
  destruct (decide (c = BACKSLASH)) as [->|Hb].
  { destruct t as [|e t]; [done|]. destruct (decide (e = "u"%char)) as [->|He].
    - apply literal_unit; [|done]. intros t' Ht. apply IH. simpl. lia.
    - apply literal_letter; [apply IH; simpl; lia|done|done]. }
  destruct (bool_decide (c ∈ ["<"; ">"; "&"]%char)) eqn:Hs.
  { apply bool_decide_eq_true in Hs. by apply literal_unsafe. }
  destruct (byte c =? 226) eqn:H226.
  - apply Z.eqb_eq in H226.
    destruct (compact_226 c t H226) as [(d & e & t' & -> & Hsep & _)|Hcomp].
    { apply literal_separator; [apply IH; simpl; lia|done|done]. }
    apply literal_plain; [done|done|done| |done]. intros q r' Ht z. apply compact_226_other; [done|].
    intros d e t' Heq. destruct (is_separator c d e) eqn:Hsep; [|done]. exfalso.
    pose proof Hsep as (Hc & Hd & He)%is_separator_spec. subst c d.
    destruct q as [|d1 [|e1 q]].
    + change (EmptyString +:+ ?y) with y in Heq. discriminate Heq.
    + change (String d1 EmptyString +:+ ?y) with (String d1 y) in Heq. injection Heq as -> Heq _.
      rewrite <- Heq in He. by destruct He.
    + change (String ?a (String ?b ?y) +:+ ?y') with (String a (String b (y +:+ y'))) in Heq, Ht.
      injection Heq as -> -> _. revert Hcomp. rewrite Ht. cbn [compact_go].
      unfold is_separator in Hsep. by rewrite Hsep.
  - apply literal_plain; [done|done|done| |done]. intros q r' _ z.
    apply compact_in_string; [|done|done]. unfold special_char. by rewrite Hs, H226.
Qed.

(** ** Trees *)

(** Outside strings, [w] becomes [w']. *)
Definition block (w w' : string) : Prop :=
  ∀ z, compact_go false false (w +:+ z) = w' +:+ compact_go false false z.

Lemma block_nil : block EmptyString EmptyString.
Proof. done. Qed.

Lemma block_app a a' b b' : block a a' → block b b' → block (a +:+ b) (a' +:+ b').
Proof. intros Ha Hb z. by rewrite !string_app_assoc, Ha, Hb. Qed.

(** A character that is neither white space nor a quote. *)
Definition outside (c : ascii) : bool :=
  negb (special_char c) && negb (bool_decide (byte c ∈ [32; 9; 10; 13])) && negb (bool_decide (c = DQ)).

Lemma block_cons c w w' : outside c = true → block w w' → block (String c w) (String c w').
Proof.
  unfold outside. rewrite !andb_true_iff, !negb_true_iff. intros [[Hs Hb] Hq] Hw z.
  change (String c ?x +:+ ?y) with (String c (x +:+ y)). rewrite compact_cons by done.
  unfold compact_plain. by rewrite Hb, Hq, Hw.
Qed.

Lemma block_blank ws : blank ws = true → block ws EmptyString.
Proof.
  induction ws as [|c ws IH]; [done|]. cbn [blank]. intros [Hc Hw]%andb_true_iff z.
  change (String c ws +:+ z) with (String c (ws +:+ z)). rewrite compact_cons.
  - unfold compact_plain. rewrite Hc. by apply IH.
  - revert Hc. by destruct c as [[] [] [] [] [] [] [] []].
Qed.

Lemma block_num lit : num_chars lit = true → block lit lit.
Proof.
  induction lit as [|c lit IH]; [done|]. cbn [num_chars]. intros [Hc Hl]%andb_true_iff.
  apply block_cons; [|by apply IH]. revert Hc. by destruct c as [[] [] [] [] [] [] [] []].
Qed.

Lemma block_word w : w ∈ ["true"; "false"; "null"] → block w w.
Proof.
  rewrite !elem_of_cons. intros [->|[->|[->|Hw]]]; [..|by apply not_elem_of_nil in Hw];
    repeat (apply block_cons; [done|]); apply block_nil.
Qed.

Lemma block_quote copy x q q' :
  literal_texts copy None x q q' →
  block (String DQ (q +:+ String DQ EmptyString)) (String DQ (q' +:+ String DQ EmptyString)).
Proof.
  intros [Hc _] z. change (String DQ ?x +:+ ?y) with (String DQ (x +:+ y)).
  rewrite !string_app_assoc. change (String DQ EmptyString +:+ ?y) with (String DQ y).
  rewrite compact_cons by done. unfold compact_plain.
  change (bool_decide (byte DQ ∈ [32; 9; 10; 13])) with false. rewrite bool_decide_true by done.
  cbv iota. by rewrite Hc.
Qed.

Definition value_compact (f : nat) : Prop := ∀ d s v r,
  fits d 0 → parse_value f d s = Some (v, r) →
  ∃ w w', skip_ws s = w +:+ r ∧ block w w' ∧ value_text w' v.

Definition elems_compact (f : nat) : Prop := ∀ d s vs r,
  fits d 0 → parse_elems f d s = Some (vs, r) →
  ∃ w w', s = w +:+ r ∧ block w w' ∧ inner_text parse_elems (elems_height vs) w' vs.

Definition members_compact (f : nat) : Prop := ∀ d s ms r,
  fits d 0 → parse_members f d s = Some (ms, r) →
  ∃ w w', s = w +:+ r ∧ block w w' ∧ inner_text parse_members (members_height ms) w' ms.

(** A value between white space, and what follows it. *)
Lemma block_piece ws1 w w' ws2 c t t' :
  blank ws1 = true → blank ws2 = true → block w w' → outside c = true → block t t' →
  block (ws1 +:+ w +:+ ws2 +:+ String c t) (EmptyString +:+ w' +:+ EmptyString +:+ String c t').
Proof.
  intros H1 H2 Hw Hc Ht. apply block_app; [by apply block_blank|].
  apply block_app; [done|]. apply block_app; [by apply block_blank|]. by apply block_cons.
Qed.

Lemma elems_compact_step f : value_compact f → elems_compact f → elems_compact (S f).
Proof.
  intros Hv He d s vs r Hd. cbn [parse_elems].
  destruct (parse_value f d s) as [[v r1]|] eqn:E; [|done]. cbn [mbind option_bind].
  destruct (Hv _ _ _ _ Hd E) as (w & w' & Hs & Hb & Hw).
  destruct (skip_ws_split s) as (ws1 & Hws1 & Es). rewrite Hs in Es.
  rewrite elems_next. intros [(r' & Hr & Ha)|(r' & Hr & Ha)]%comma_or_bracket; [| |by left];
    destruct (behind_blank _ _ _ Hr) as (ws2 & Hws2 & ->).
  - injection Ha as <- <-. exists (ws1 +:+ w +:+ ws2 +:+ "]"), (EmptyString +:+ w' +:+ EmptyString +:+ "]").
    split_and!; [by rewrite Es, !string_app_assoc| |by apply inner_elems_one].
    by apply block_piece.
  - destruct (parse_elems f d r') as [[vs' r2]|] eqn:E2; [|done]. cbn [mbind option_bind] in Ha.
    injection Ha as <- <-. destruct (He _ _ _ _ Hd E2) as (w2 & w2' & -> & Hb2 & Hw2).
    exists (ws1 +:+ w +:+ ws2 +:+ String "," w2), (EmptyString +:+ w' +:+ EmptyString +:+ String "," w2').
    split_and!; [by rewrite Es, !string_app_assoc| |by apply inner_elems_cons].
    by apply block_piece.
Qed.

Lemma block_key w w' ws1 ws2 x q q' ws0 ws3 c t t' :
  literal_texts 0 None x q q' → blank ws0 = true → blank ws3 = true →
  blank ws1 = true → blank ws2 = true → block w w' → outside c = true → block t t' →
  block (key_text w ws1 ws2 q ws0 ws3 (String c t))
    (key_text w' EmptyString EmptyString q' EmptyString EmptyString (String c t')).
Proof.
  intros Hq H0 H3 H1 H2 Hw Hc Ht. unfold key_text. apply block_app; [by apply block_blank|].
  assert (∀ q y, String DQ (q +:+ String DQ y) = String DQ (q +:+ String DQ EmptyString) +:+ y) as Hsplit.
  { intros q0 y. change (String DQ ?a +:+ y) with (String DQ (a +:+ y)). by rewrite string_app_assoc. }
  rewrite (Hsplit q), (Hsplit q'). apply block_app; [by eapply block_quote|].
  apply block_app; [by apply block_blank|]. apply block_cons; [done|]. by apply block_piece.
Qed.

Lemma members_compact_step f : value_compact f → members_compact f → members_compact (S f).
Proof.
  intros Hv Hm d s ms r Hd. cbn [parse_members].
  destruct (skip_ws s) as [|q t] eqn:Hs; [done|].
  destruct (bool_decide (q = DQ)) eqn:Hq; [apply bool_decide_eq_true in Hq as ->|done].
  destruct (behind_blank _ _ _ Hs) as (ws0 & Hws0 & ->).
  destruct (unquote 0 None t) as [[k r1]|] eqn:Hu; [|done]. cbn [mbind option_bind].
  destruct (literal_all t 0%nat None k r1 eq_refl Hu) as (q & q' & -> & Hlit).
  destruct (skip_ws r1) as [|c r2] eqn:Hr1; [done|].
  destruct (decide (c = ":"%char)) as [->|Hc]; [|by destruct c as [[] [] [] [] [] [] [] []]].
  destruct (behind_blank _ _ _ Hr1) as (ws3 & Hws3 & ->).
  destruct (parse_value f d r2) as [[v r3]|] eqn:E; [|done]. cbn [mbind option_bind].
  destruct (Hv _ _ _ _ Hd E) as (w & w' & Hs2 & Hb & Hw).
  destruct (skip_ws_split r2) as (ws1 & Hws1 & Es). rewrite Hs2 in Es.
  rewrite members_next. intros [(r' & Hr & Ha)|(r' & Hr & Ha)]%comma_or_bracket; [| |by right];
    destruct (behind_blank _ _ _ Hr) as (ws2 & Hws2 & ->).
  - injection Ha as <- <-. exists (key_text w ws1 ws2 q ws0 ws3 "}"),
      (key_text w' EmptyString EmptyString q' EmptyString EmptyString "}").
    split_and!; [by rewrite key_text_app, Es| |apply inner_members_one; first [done|apply Hlit]].
    by eapply block_key.
  - destruct (parse_members f d r') as [[ms' r4]|] eqn:E2; [|done]. cbn [mbind option_bind] in Ha.
    injection Ha as <- <-. destruct (Hm _ _ _ _ Hd E2) as (w2 & w2' & -> & Hb2 & Hw2).
    exists (key_text w ws1 ws2 q ws0 ws3 (String "," w2)),
      (key_text w' EmptyString EmptyString q' EmptyString EmptyString (String "," w2')).
    split_and!; [by rewrite key_text_app, Es| |apply inner_members_cons; first [done|apply Hlit]].
    by eapply block_key.
Qed.

Lemma value_compact_step f : elems_compact f → members_compact f → value_compact (S f).
Proof.
  intros He Hm d s v r H0. cbn [parse_value]. destruct (skip_ws s) as [|c t] eqn:Hs; [done|].
  assert (∀ ws c, blank ws = true → outside c = true →
    block (ws +:+ String c EmptyString) (EmptyString +:+ String c EmptyString)) as Hempty.
  { intros ws c0 Hws Hc. apply block_app; [by apply block_blank|]. apply block_cons; [done|].
    apply block_nil. }
  destruct (bool_decide (c = "{"%char)) eqn:H1.
  { apply bool_decide_eq_true in H1 as ->. destruct (Z.leb_spec max_depth d) as [|Hd]; [done|].
    destruct (closing_or (skip_ws t) "}" (λ r, Some (JObj [], r))
      ('(ms, r) ← parse_members f (d + 1) t; Some (JObj ms, r)) ltac:(by right))
      as [(r' & Hr & E)|E]; simpl in E; rewrite E; clear E.
    - intros [= <- <-]. destruct (behind_blank _ _ _ Hr) as (ws & Hws & ->).
      exists (String "{" (ws +:+ "}")), (String "{" (EmptyString +:+ "}")).
      split_and!; [|apply block_cons; [done|by apply Hempty]|by apply value_text_empty].
      change (String "{" ?x +:+ r') with (String "{" (x +:+ r')). by rewrite string_app_assoc.
    - destruct (parse_members f (d + 1) t) as [[ms r']|] eqn:E; [|done]. intros [= <- <-].
      assert (fits (d + 1) 0) as Hd1 by (unfold fits; lia).
      destruct (Hm _ _ _ _ Hd1 E) as (w & w' & -> & Hb & Hw).
      exists (String "{" w), (String "{" w').
      split_and!; [done|by apply block_cons|by apply value_text_object]. }
  destruct (bool_decide (c = "["%char)) eqn:H2.
  { apply bool_decide_eq_true in H2 as ->. destruct (Z.leb_spec max_depth d) as [|Hd]; [done|].
    destruct (closing_or (skip_ws t) "]" (λ r, Some (JArr [], r))
      ('(vs, r) ← parse_elems f (d + 1) t; Some (JArr vs, r)) ltac:(by left))
      as [(r' & Hr & E)|E]; simpl in E; rewrite E; clear E.
    - intros [= <- <-]. destruct (behind_blank _ _ _ Hr) as (ws & Hws & ->).
      exists (String "[" (ws +:+ "]")), (String "[" (EmptyString +:+ "]")).
      split_and!; [|apply block_cons; [done|by apply Hempty]|by apply value_text_empty].
      change (String "[" ?x +:+ r') with (String "[" (x +:+ r')). by rewrite string_app_assoc.
    - destruct (parse_elems f (d + 1) t) as [[vs r']|] eqn:E; [|done]. intros [= <- <-].
      assert (fits (d + 1) 0) as Hd1 by (unfold fits; lia).
      destruct (He _ _ _ _ Hd1 E) as (w & w' & -> & Hb & Hw).
      exists (String "[" w), (String "[" w').
      split_and!; [done|by apply block_cons|by apply value_text_array]. }
  destruct (bool_decide (c = DQ)) eqn:H3.
  { apply bool_decide_eq_true in H3 as ->.
    destruct (unquote 0 None t) as [[x r']|] eqn:E; [|done]. intros [= <- <-].
    destruct (literal_all t 0%nat None x r' eq_refl E) as (q & q' & -> & Hlit).
    exists (String DQ (q +:+ String DQ EmptyString)), (String DQ (q' +:+ String DQ EmptyString)).
    split_and!; [|by eapply block_quote|apply value_text_string, Hlit].
    change (String DQ ?x +:+ r') with (String DQ (x +:+ r')). by rewrite string_app_assoc. }
  destruct (in_range 48 57 c || bool_decide (c = "-"%char)) eqn:H4.
  { destruct (number (String c t)) as [[lit r']|] eqn:E; [|done]. intros [= <- <-].
    destruct (number_local _ _ _ E) as [-> Hok]. exists lit, lit.
    split_and!; [done|by apply block_num, number_ok_chars|by apply value_text_number]. }
  assert (∀ w v0 r', strip_prefix w (String c t) = Some r' → w ∈ ["true"; "false"; "null"] →
    value_text w v0 → Some (v0, r') = Some (v, r) →
    ∃ w w', String c t = w +:+ r ∧ block w w' ∧ value_text w' v) as Hword.
  { intros w v0 r' Hp Hin Hw [= <- <-]. exists w, w.
    split_and!; [by apply strip_prefix_spec|by apply block_word|done]. }
  destruct (strip_prefix "true" (String c t)) as [r'|] eqn:E1.
  { apply (Hword "true" (JBool true) r' E1); [left|apply value_text_word; auto]. }
  destruct (strip_prefix "false" (String c t)) as [r'|] eqn:E2.
  { apply (Hword "false" (JBool false) r' E2); [right; left|apply value_text_word; auto]. }
  destruct (strip_prefix "null" (String c t)) as [r'|] eqn:E3; [|done].
  apply (Hword "null" JNull r' E3); [right; right; left|apply value_text_word; auto].
Qed.

Lemma parse_compact f : value_compact f ∧ elems_compact f ∧ members_compact f.
Proof.
  induction f as [|f (Hv & He & Hm)]; [by repeat split|].
  split; [by apply value_compact_step|split; [by apply elems_compact_step|by apply members_compact_step]].
Qed.

(** A compacted text is a text of the same value, at every depth at which the
    value fits. *)
Lemma compact_value_text raw v :
  parse raw = Some v → value_text (compact raw) v ∧ fits 0 (height v).
Proof.
  unfold parse. destruct (parse_value (fuel_for raw) 0 raw) as [[v' r]|] eqn:E; [|done]. simpl.
  destruct (skip_ws r) eqn:Hr; [|done]. intros [= ->].
  assert (fits 0 0) as H0 by done.
  destruct (proj1 (parse_compact _) _ _ _ _ H0 E) as (w & w' & Hs & Hb & Hw).
  destruct (proj1 (parse_local _) _ _ _ _ H0 E) as (_ & _ & _ & Hf). split; [|done].
  destruct (skip_ws_split raw) as (ws & Hws & Eraw). rewrite Hs in Eraw.
  destruct (skip_ws_split r) as (ws2 & Hws2 & Er). rewrite Hr, string_app_nil_r in Er. subst r.
  assert (compact raw = w') as ->; [|done]. unfold compact.
  rewrite Eraw, (block_blank ws Hws), Hb.
  rewrite <- (string_app_nil_r ws2), (block_blank ws2 Hws2). apply string_app_nil_r.
Qed.
