(* ===== verification/Config.v ===== *)
(** * Package [config] (src/config/config.go)

    The configuration record, its validation, the environment overrides, and
    the [Store] that keeps the current configuration in memory and in a YAML
    file.  The YAML library and the operating system are parameters:
    [Yaml] is gopkg.in/yaml.v3, [OS] is what the process sees of its
    environment variables and files. *)
From Stdlib Require Import ZArith Lia.
From stdpp Require Import base tactics option list numbers strings gmap.
From S2P Require Import Prelude GoSlice GoStrings.

Open Scope Z_scope.

(** ** Data *)

(** [type FallbackStrategy string]. *)
Definition FallbackError : string := "error".
Definition FallbackBestEffort : string := "best_effort".
Definition FallbackQueue : string := "queue".

Definition Valid (s : string) : bool :=
  bool_decide (s = FallbackError) || bool_decide (s = FallbackBestEffort)
  || bool_decide (s = FallbackQueue).

Record ServerConfig : Type := mkServerConfig {
  URL : string;
  Distance : Z;
  MaxConcurrentRequests : Z
}.

Record GlobalConfig : Type := mkGlobalConfig {
  FallbackStrategy : string;
  DiscoveryIntervalSec : Z;
  RequestTimeoutSec : Z;
  QueueTimeoutSec : Z;
  DrainTimeoutSec : Z;
  ShutdownTimeoutSec : Z;
  OpenCodeBaseURL : string;
  OpenCodeContextOutput : Z;
  OpenCodeContextBuffer : Z;
  OpenCodeContextInput : Z
}.

(** A [Config] value: the slice is a header, its elements are in the heap. *)
Record Config : Type := mkConfig {
  Global : GlobalConfig;
  Servers : Slice
}.

(** A configuration as a document: what the decoders produce and the encoders
    consume.  [None] is a nil [Servers] slice. *)
Record ConfigData : Type := mkConfigData {
  d_Global : GlobalConfig;
  d_Servers : option (list ServerConfig)
}.

Instance ServerConfig_eq_dec : EqDecision ServerConfig.
Proof. solve_decision. Defined.
Instance GlobalConfig_eq_dec : EqDecision GlobalConfig.
Proof. solve_decision. Defined.
Instance ConfigData_eq_dec : EqDecision ConfigData.
Proof. solve_decision. Defined.

Instance ServerConfig_zero : GoZero ServerConfig := mkServerConfig "" 0 0.

Definition zero_GlobalConfig : GlobalConfig := mkGlobalConfig "" 0 0 0 0 0 "" 0 0 0.
Definition zero_ConfigData : ConfigData := mkConfigData zero_GlobalConfig None.

(** ** The outside world *)

(** gopkg.in/yaml.v3.  [yaml_Unmarshal data v] decodes [data] over the value
    [v] and reports an error, if any, with the value as it was left. *)
Class Yaml : Type := {
  yaml_Marshal : ConfigData → Result string;
  yaml_Unmarshal : string → ConfigData → option error * ConfigData
}.

(** [net/url] as the program uses it: an abstract parsed URL. *)
Class NetURL : Type := {
  ParsedURL : Type;
  url_Parse : string → Result ParsedURL;
  ResolveReference : ParsedURL → ParsedURL → ParsedURL;
  URL_String : ParsedURL → string
}.

(** Environment variables and files.  A read may fail with
    [read_error] for other reasons than a missing file; a write may fail with [write_error], and then leaves what
    the second component says. *)
Record OS : Type := mkOS {
  env : gmap string string;
  files : gmap string string;
  read_error : string → option error;
  write_error : string → string → option (error * option string)
}.

Definition Getenv (os : OS) (key : string) : string := default "" (env os !! key).

(** [os.ReadFile]: [inr None] is the error [os.IsNotExist] recognises. *)
Definition ReadFile (os : OS) (path : string) : string + option error :=
  match read_error os path with
  | Some e => inr (Some e)
  | None => match files os !! path with
            | None => inr None
            | Some data => inl data
            end
  end.

Definition set_file (os : OS) (path : string) (c : option string) : OS :=
  mkOS (env os)
    (match c with Some d => <[path := d]> (files os) | None => delete path (files os) end)
    (read_error os) (write_error os).

Definition WriteFile (os : OS) (path data : string) : option error * OS :=
  match write_error os path data with
  | Some (e, remains) => (Some e, set_file os path remains)
  | None => (None, set_file os path (Some data))
  end.

(** ** Environment overrides *)

Definition envInt (os : OS) (key : string) (defaultVal : Z) : Z :=
  let v := Getenv os key in
  if bool_decide (v = "") then defaultVal
  else match Atoi v with
       | None => defaultVal
       | Some val => val
       end.

Definition envString (os : OS) (key : string) (defaultVal : string) : string :=
  let v := Getenv os key in
  if bool_decide (v = "") then defaultVal else v.

(** [if x <= 0 { x = d }]. *)
Definition defaulted (d x : Z) : Z := if x <=? 0 then d else x.

Definition applyEnvOverrides (os : OS) (cfg : GlobalConfig) : GlobalConfig :=
  let fs := envString os "FALLBACK_STRATEGY" (FallbackStrategy cfg) in
  {| FallbackStrategy := if Valid fs then fs else FallbackError;
     DiscoveryIntervalSec :=
       defaulted 15 (envInt os "DISCOVERY_INTERVAL_SEC" (DiscoveryIntervalSec cfg));
     RequestTimeoutSec :=
       defaulted 60 (envInt os "REQUEST_TIMEOUT_SEC" (RequestTimeoutSec cfg));
     QueueTimeoutSec :=
       defaulted 30 (envInt os "QUEUE_TIMEOUT_SEC" (QueueTimeoutSec cfg));
     DrainTimeoutSec :=
       defaulted 30 (envInt os "DRAIN_TIMEOUT_SEC" (DrainTimeoutSec cfg));
     ShutdownTimeoutSec :=
       defaulted 10 (envInt os "SHUTDOWN_TIMEOUT_SEC" (ShutdownTimeoutSec cfg));
     OpenCodeBaseURL :=
       let v := Getenv os "OPENCODE_BASE_URL" in
       if bool_decide (v = "") then OpenCodeBaseURL cfg else v;
     OpenCodeContextOutput :=
       defaulted 8192 (envInt os "OPENCODE_CONTEXT_OUTPUT" (OpenCodeContextOutput cfg));
     OpenCodeContextBuffer :=
       defaulted 1024 (envInt os "OPENCODE_CONTEXT_BUFFER" (OpenCodeContextBuffer cfg));
     OpenCodeContextInput :=
       let x := envInt os "OPENCODE_CONTEXT_INPUT" (OpenCodeContextInput cfg) in
       if x <? 0 then 0 else x |}.

(** The defaults [Load] fills in before the environment is consulted. *)
Definition load_defaults (g : GlobalConfig) : GlobalConfig :=
  {| FallbackStrategy :=
       if Valid (FallbackStrategy g) then FallbackStrategy g else FallbackError;
     DiscoveryIntervalSec := defaulted 15 (DiscoveryIntervalSec g);
     RequestTimeoutSec := defaulted 60 (RequestTimeoutSec g);
     QueueTimeoutSec := defaulted 30 (QueueTimeoutSec g);
     DrainTimeoutSec := defaulted 30 (DrainTimeoutSec g);
     ShutdownTimeoutSec := defaulted 10 (ShutdownTimeoutSec g);
     OpenCodeBaseURL := OpenCodeBaseURL g;
     OpenCodeContextOutput := defaulted 8192 (OpenCodeContextOutput g);
     OpenCodeContextBuffer := defaulted 1024 (OpenCodeContextBuffer g);
     OpenCodeContextInput := OpenCodeContextInput g |}.

Definition DefaultConfig : ConfigData :=
  {| d_Global :=
       {| FallbackStrategy := FallbackError;
          DiscoveryIntervalSec := 15;
          RequestTimeoutSec := 60;
          QueueTimeoutSec := 30;
          DrainTimeoutSec := 30;
          ShutdownTimeoutSec := 10;
          OpenCodeBaseURL := "";
          OpenCodeContextOutput := 8192;
          OpenCodeContextBuffer := 1024;
          OpenCodeContextInput := 0 |};
     d_Servers := Some [] |}.

(** ** The store *)

(** The [Store] with the heap its slices live in and the world it does I/O in. *)
Record Store : Type := mkStore {
  config : Config;
  filePath : string;
  heap : Heap ServerConfig;
  os : OS
}.

Definition with_config (s : Store) (c : Config) : Store :=
  mkStore c (filePath s) (heap s) (os s).
Definition with_heap (s : Store) (h : Heap ServerConfig) : Store :=
  mkStore (config s) (filePath s) h (os s).
Definition with_os (s : Store) (o : OS) : Store :=
  mkStore (config s) (filePath s) (heap s) o.

(** A [Config] value read out of the heap. *)
Definition view (h : Heap ServerConfig) (c : Config) : ConfigData :=
  mkConfigData (Global c)
    (match ptr (Servers c) with None => None | Some _ => Some (elems h (Servers c)) end).

#[global] Arguments view : simpl never.

(** [cfg.Servers] as a list: what [range cfg.Servers] visits. *)
Definition servers_of (s : Store) (c : Config) : list ServerConfig :=
  elems (heap s) (Servers c).

Section store.
Context `{!GrowPolicy, !Yaml, !NetURL}.

(** A composite literal or a decoder's result, allocated in the heap. *)
Definition materialise (h : Heap ServerConfig) (d : ConfigData)
    : Heap ServerConfig * Config :=
  match d_Servers d with
  | None => (h, mkConfig (d_Global d) nil_slice)
  | Some svs =>
      let '(h', sl) := alloc h svs (grow 0 (length svs)) in
      (h', mkConfig (d_Global d) sl)
  end.

Definition NewStore (o : OS) (path : string) : Store :=
  let '(h, c) := materialise empty_heap DefaultConfig in mkStore c path h o.

Definition saveLocked (s : Store) : option error * Store :=
  match yaml_Marshal (view (heap s) (config s)) with
  | Err e => (Some (Wrapf "marshal config: " e), s)
  | Ok data =>
      let '(err, o) := WriteFile (os s) (filePath s) data in
      match err with
      | Some e => (Some (Wrapf "write config: " e), with_os s o)
      | None => (None, with_os s o)
      end
  end.

Definition Save (s : Store) : option error * Store := saveLocked s.

Definition Load (s : Store) : option error * Store :=
  match ReadFile (os s) (filePath s) with
  | inr None =>
      let '(h, c) := materialise (heap s) DefaultConfig in
      saveLocked (with_config (with_heap s h) c)
  | inr (Some e) => (Some (Wrapf "read config: " e), s)
  | inl data =>
      match yaml_Unmarshal data zero_ConfigData with
      | (Some e, _) => (Some (Wrapf "parse config: " e), s)
      | (None, d) =>
          let g := applyEnvOverrides (os s) (load_defaults (d_Global d)) in
          let '(h, c) := materialise (heap s) (mkConfigData g (d_Servers d)) in
          (None, with_config (with_heap s h) c)
      end
  end.

Definition Get (s : Store) : Config := config s.

Definition GetCopy (s : Store) : Config := config s.

(** The validation loop of [Set], from index [i] on. *)
Fixpoint validate_servers (i : nat) (svs : list ServerConfig) : option error :=
  match svs with
  | [] => None
  | sv :: svs' =>
      let fail msg := Some (Errorf ("server " +:+ Itoa (Z.of_nat i) +:+ ": " +:+ msg)) in
      if bool_decide (URL sv = "") then fail "url is required"
      else match url_Parse (URL sv) with
      | Err e =>
          Some (Wrapf ("server " +:+ Itoa (Z.of_nat i) +:+ ": invalid url: ") e)
      | Ok _ =>
          if (Distance sv <? 1) || (10 <? Distance sv) then
            fail "distance must be 1-10"
          else if MaxConcurrentRequests sv <=? 0 then
            fail "max_concurrent_requests must be > 0"
          else validate_servers (S i) svs'
      end
  end.

(** The two OpenCode fields: zero means default, negative is an error. *)
Definition check_opencode (g : GlobalConfig) : Result GlobalConfig :=
  let out := if OpenCodeContextOutput g =? 0 then 8192 else OpenCodeContextOutput g in
  if out <? 0 then Err (Errorf "opencode_context_output must be > 0") else
  let buf := if OpenCodeContextBuffer g =? 0 then 1024 else OpenCodeContextBuffer g in
  if buf <? 0 then Err (Errorf "opencode_context_buffer must be > 0") else
  Ok {| FallbackStrategy := FallbackStrategy g;
        DiscoveryIntervalSec := DiscoveryIntervalSec g;
        RequestTimeoutSec := RequestTimeoutSec g;
        QueueTimeoutSec := QueueTimeoutSec g;
        DrainTimeoutSec := DrainTimeoutSec g;
        ShutdownTimeoutSec := ShutdownTimeoutSec g;
        OpenCodeBaseURL := OpenCodeBaseURL g;
        OpenCodeContextOutput := out;
        OpenCodeContextBuffer := buf;
        OpenCodeContextInput := OpenCodeContextInput g |}.

(** [Store.Set]. *)
Definition Set_ (cfg : Config) (s : Store) : option error * Store :=
  if negb (Valid (FallbackStrategy (Global cfg))) then
    (Some (Errorf ("invalid fallback strategy: " +:+ FallbackStrategy (Global cfg))), s)
  else match validate_servers 0 (servers_of s cfg) with
  | Some e => (Some e, s)
  | None =>
      match check_opencode (Global cfg) with
      | Err e => (Some e, s)
      | Ok g => saveLocked (with_config s (mkConfig g (Servers cfg)))
      end
  end.
End store.

(** ** Well-formed configurations *)

(** What a loaded global section satisfies. *)
Definition global_ok (g : GlobalConfig) : Prop :=
  Valid (FallbackStrategy g) = true ∧
  0 < DiscoveryIntervalSec g ∧ 0 < RequestTimeoutSec g ∧ 0 < QueueTimeoutSec g ∧
  0 < DrainTimeoutSec g ∧ 0 < ShutdownTimeoutSec g ∧
  0 < OpenCodeContextOutput g ∧ 0 < OpenCodeContextBuffer g ∧
  0 <= OpenCodeContextInput g.

(** The integer settings: environment variable, field, default. *)
Definition int_settings : list (string * (GlobalConfig → Z) * Z) :=
  [("DISCOVERY_INTERVAL_SEC", DiscoveryIntervalSec, 15);
   ("REQUEST_TIMEOUT_SEC", RequestTimeoutSec, 60);
   ("QUEUE_TIMEOUT_SEC", QueueTimeoutSec, 30);
   ("DRAIN_TIMEOUT_SEC", DrainTimeoutSec, 30);
   ("SHUTDOWN_TIMEOUT_SEC", ShutdownTimeoutSec, 10);
   ("OPENCODE_CONTEXT_OUTPUT", OpenCodeContextOutput, 8192);
   ("OPENCODE_CONTEXT_BUFFER", OpenCodeContextBuffer, 1024)].

Section store_wf.
Context `{!GrowPolicy, !Yaml, !NetURL}.

Definition server_ok (sv : ServerConfig) : Prop :=
  URL sv ≠ "" ∧ is_ok (url_Parse (URL sv)) = true ∧
  1 <= Distance sv <= 10 ∧ 0 < MaxConcurrentRequests sv.

(** What [Set] accepts. *)
Definition config_ok (d : Config) (svs : list ServerConfig) : Prop :=
  Valid (FallbackStrategy (Global d)) = true ∧ Forall server_ok svs ∧
  0 <= OpenCodeContextOutput (Global d) ∧ 0 <= OpenCodeContextBuffer (Global d).

Definition store_wf (s : Store) : Prop :=
  heap_wf (heap s) ∧ slice_wf (heap s) (Servers (config s)).

Lemma materialise_spec h d :
  heap_wf h →
  let '(h', c) := materialise h d in
  heap_wf h' ∧ slice_wf h' (Servers c) ∧ view h' c = d.
Proof.
  intros Hh. unfold materialise. destruct d as [g [svs|]]; simpl.
  - pose proof (alloc_wf h svs (grow 0 (length svs)) Hh) as Hw.
    pose proof (alloc_elems h svs (grow 0 (length svs))) as He.
    simpl in *. destruct Hw as [? ?]. split_and!; [done..|].
    unfold view. simpl. by rewrite He.
  - done.
Qed.

Lemma saveLocked_mem s :
  let '(_, s') := saveLocked s in
  config s' = config s ∧ heap s' = heap s ∧ filePath s' = filePath s.
Proof.
  unfold saveLocked. destruct (yaml_Marshal _) as [data|]; [|done].
  destruct (WriteFile _ _ _) as [[e|] o]; done.
Qed.

Lemma NewStore_wf o path : store_wf (NewStore o path).
Proof.
  unfold NewStore. pose proof (materialise_spec empty_heap DefaultConfig) as Hm.
  destruct (materialise _ _) as [h c]. by destruct Hm as (? & ? & _); [intros ? ?|].
Qed.

(** [Load] leaves a well-formed store, whether it fails or not. *)
Lemma Load_store_wf s : store_wf s → store_wf (snd (Load s)).
Proof.
  intros Hs. unfold Load. destruct (ReadFile _ _) as [data|[e|]]; [|done|].
  - destruct (yaml_Unmarshal _ _) as [[e|] d]; [done|].
    pose proof (materialise_spec (heap s) (mkConfigData
      (applyEnvOverrides (os s) (load_defaults (d_Global d))) (d_Servers d)) (proj1 Hs)) as Hm.
    destruct (materialise _ _) as [h c]. by destruct Hm as (? & ? & _).
  - pose proof (materialise_spec (heap s) DefaultConfig (proj1 Hs)) as Hm.
    destruct (materialise _ _) as [h c]. destruct Hm as (? & ? & _).
    pose proof (saveLocked_mem (with_config (with_heap s h) c)) as Hm.
    destruct (saveLocked _) as [err s1]. destruct Hm as (Hc & Hh & _). unfold store_wf. simpl.
    by rewrite Hc, Hh.
Qed.

Lemma validate_servers_None i svs :
  validate_servers i svs = None ↔ Forall server_ok svs.
Proof.
  revert i. induction svs as [|sv svs IH]; intros i; simpl; [done|].
  rewrite Forall_cons, <- (IH (S i)). unfold server_ok.
  case_bool_decide as Hu; [split; [done|tauto]|].
  destruct (url_Parse (URL sv)) as [u|e]; simpl; [|by split; [|intros [(_ & [=] & _) _]]].
  destruct (Z.ltb_spec (Distance sv) 1), (Z.ltb_spec 10 (Distance sv)); simpl;
    try (split; [done|lia]).
  destruct (Z.leb_spec (MaxConcurrentRequests sv) 0); [split; [done|lia]|].
  split; [intros ?; split_and!; done || lia|tauto].
Qed.

(** The error names the first server that is not acceptable. *)
Lemma validate_servers_Some i svs e :
  validate_servers i svs = Some e →
  ∃ k sv msg, svs !! k = Some sv ∧ ¬ server_ok sv ∧ Forall server_ok (take k svs) ∧
    Error e = "server " +:+ Itoa (Z.of_nat (i + k)) +:+ ": " +:+ msg.
Proof.
  revert i. induction svs as [|sv svs IH]; intros i; simpl; [done|].
  assert (∀ msg, ¬ server_ok sv →
    Error e = "server " +:+ Itoa (Z.of_nat i) +:+ ": " +:+ msg →
    ∃ k sv' msg, (sv :: svs) !! k = Some sv' ∧ ¬ server_ok sv' ∧
      Forall server_ok (take k (sv :: svs)) ∧
      Error e = "server " +:+ Itoa (Z.of_nat (i + k)) +:+ ": " +:+ msg) as Hhere.
  { intros msg Hn He. exists 0%nat, sv, msg. rewrite Nat.add_0_r.
    split_and!; [done|done|constructor|done]. }
  unfold server_ok in Hhere at 1.
  case_bool_decide as Hu; [intros [= <-]; eapply Hhere; [tauto|done]|].
  destruct (url_Parse (URL sv)) as [u|e'] eqn:Hp; simpl in *.
  2:{ intros [= <-]. eapply (Hhere ("invalid url: " +:+ Error e')).
      - by intros (_ & [=] & _).
      - simpl. by rewrite !string_app_assoc. }
  destruct (Z.ltb_spec (Distance sv) 1), (Z.ltb_spec 10 (Distance sv)); simpl;
    try (intros [= <-]; eapply Hhere; [lia|done]).
  destruct (Z.leb_spec (MaxConcurrentRequests sv) 0);
    [intros [= <-]; eapply Hhere; [lia|done]|].
  intros (k & sv' & msg & ? & ? & ? & He)%IH.
  exists (S k), sv', msg. rewrite He. split_and!; [done..| |].
  - constructor; [|done]. unfold server_ok. rewrite Hp. done.
  - do 3 f_equal. lia.
Qed.

Lemma check_opencode_Ok g g' :
  check_opencode g = Ok g' →
  0 < OpenCodeContextOutput g' ∧ 0 < OpenCodeContextBuffer g' ∧
  FallbackStrategy g' = FallbackStrategy g.
Proof.
  unfold check_opencode. intros Hc. split_cases; split_and!; done || lia.
Qed.

Lemma check_opencode_total g :
  is_ok (check_opencode g) = true ↔
  0 <= OpenCodeContextOutput g ∧ 0 <= OpenCodeContextBuffer g.
Proof.
  unfold check_opencode. split_cases; split; intros; done || lia.
Qed.

(** Acceptance, step by step: [Set] reaches the save exactly on the
    configurations [config_ok] describes. *)
Lemma Set_cases cfg s :
  (¬ config_ok cfg (servers_of s cfg) ∧ ∃ e, Set_ cfg s = (Some e, s)) ∨
  (config_ok cfg (servers_of s cfg) ∧
   ∃ g, check_opencode (Global cfg) = Ok g ∧
     Set_ cfg s = saveLocked (with_config s (mkConfig g (Servers cfg)))).
Proof.
  unfold Set_, config_ok. rewrite <- (validate_servers_None 0).
  rewrite <- check_opencode_total.
  destruct (Valid _); simpl; [|by left; split; [intros (? & _)|eauto]].
  destruct (validate_servers _ _); [by left; split; [intros (_ & ? & _)|eauto]|].
  destruct (check_opencode _); simpl;
    [right; eauto 10|by left; split; [intros (_ & _ & ?)|eauto]].
Qed.

Lemma Set_save cfg s g :
  config_ok cfg (servers_of s cfg) → check_opencode (Global cfg) = Ok g →
  Set_ cfg s = saveLocked (with_config s (mkConfig g (Servers cfg))).
Proof.
  intros Hok Hg. destruct (Set_cases cfg s) as [[? _]|(_ & g' & Hg' & ->)]; [done|].
  rewrite Hg in Hg'. by injection Hg' as <-.
Qed.

Lemma applyEnvOverrides_ok o g : global_ok (applyEnvOverrides o g).
Proof.
  unfold global_ok, applyEnvOverrides. cbn beta iota delta [FallbackStrategy
    DiscoveryIntervalSec RequestTimeoutSec QueueTimeoutSec DrainTimeoutSec
    ShutdownTimeoutSec OpenCodeContextOutput OpenCodeContextBuffer
    OpenCodeContextInput].
  assert (∀ d x, 0 < d → 0 < defaulted d x) as Hd.
  { intros d x. unfold defaulted. destruct (Z.leb_spec x 0); lia. }
  split_and!; try (apply Hd; lia).
  - by destruct (Valid (envString o _ _)) eqn:?.
  - destruct (Z.ltb_spec (envInt o "OPENCODE_CONTEXT_INPUT" (OpenCodeContextInput g)) 0); lia.
Qed.
End store_wf.

(** ** A sample world

    Concrete parameters, at which the hypotheses of the theorems are shown to
    hold: a YAML library that knows one document, a URL parser that refuses
    one string, and a runtime that allocates no spare capacity. *)

Definition sample_server : ServerConfig := mkServerConfig "http://a:1" 1 2.

Definition sample_global : GlobalConfig := d_Global DefaultConfig.

Definition sample_data : ConfigData := mkConfigData sample_global (Some [sample_server]).

Definition sample_grow : GrowPolicy := λ _ _, 0%nat.

Definition sample_yaml : Yaml :=
  {| yaml_Marshal := λ _, Ok "doc";
     yaml_Unmarshal := λ _ _, (None, sample_data) |}.

Definition sample_url : NetURL :=
  {| ParsedURL := string;
     url_Parse := λ s, if bool_decide (s = "http://[bad") then Err (Errorf "missing ]") else Ok s;
     ResolveReference := λ base ref, base +:+ ref;
     URL_String := λ s, s |}.

Definition sample_os (w : option (error * option string)) : OS :=
  mkOS ∅ ∅ (λ _, None) (λ _ _, w).

Definition sample_store (w : option (error * option string)) : Store :=
  let '(h, c) := @materialise sample_grow empty_heap sample_data in
  mkStore c "config.yaml" h (sample_os w).

(** ** Theorems *)

Section theorems.
Context `{!GrowPolicy, !Yaml, !NetURL}.

(** [Set] refuses every configuration that is not well formed, with an
    error, and then changes neither the stored configuration nor the file. *)
Theorem Set_rejects cfg s :
  ¬ config_ok cfg (servers_of s cfg) → ∃ e, Set_ cfg s = (Some e, s).
Proof. by destruct (Set_cases cfg s) as [[_ ?]|[? _]]. Qed.

(** [Set] on a well-formed configuration whose write succeeds: no error,
    the configuration becomes the stored one with its zero OpenCode limits
    replaced by positive defaults, the servers are kept, and the file holds
    the encoding of exactly what is in memory. *)
Theorem Set_accepts cfg s g data :
  config_ok cfg (servers_of s cfg) →
  check_opencode (Global cfg) = Ok g →
  yaml_Marshal (view (heap s) (mkConfig g (Servers cfg))) = Ok data →
  write_error (os s) (filePath s) data = None →
  let '(err, s') := Set_ cfg s in
  err = None ∧ Get s' = mkConfig g (Servers cfg) ∧
  servers_of s' (Get s') = servers_of s cfg ∧
  0 < OpenCodeContextOutput g ∧ 0 < OpenCodeContextBuffer g ∧
  ReadFile (os s') (filePath s') =
    match read_error (os s) (filePath s) with Some e => inr (Some e) | None => inl data end.
Proof.
  intros Hok Hg Hm Hw. rewrite (Set_save _ _ _ Hok Hg).
  apply check_opencode_Ok in Hg as (? & ? & _).
  unfold saveLocked. simpl. rewrite Hm. unfold WriteFile. rewrite Hw. simpl.
  unfold ReadFile. simpl. by rewrite lookup_insert_eq.
Qed.

(** When the write fails, [Set] reports an error although the
    configuration it was given is already the one the store returns. *)
Theorem Set_write_failure cfg s g data e remains :
  config_ok cfg (servers_of s cfg) →
  check_opencode (Global cfg) = Ok g →
  yaml_Marshal (view (heap s) (mkConfig g (Servers cfg))) = Ok data →
  write_error (os s) (filePath s) data = Some (e, remains) →
  let '(err, s') := Set_ cfg s in
  err = Some (Wrapf "write config: " e) ∧ Get s' = mkConfig g (Servers cfg).
Proof.
  intros Hok Hg Hm Hw. rewrite (Set_save _ _ _ Hok Hg).
  unfold saveLocked. simpl. rewrite Hm. unfold WriteFile.
  by rewrite Hw.
Qed.

(** Whatever the file and the environment hold, a [Load] that reports
    no error leaves a global section that is well formed: a known strategy,
    positive intervals, timeouts and OpenCode limits. *)
Theorem Load_global_ok s s' :
  store_wf s → Load s = (None, s') → global_ok (Global (Get s')) ∧ store_wf s'.
Proof.
  intros [Hh _]. unfold Load, store_wf, Get.
  destruct (ReadFile _ _) as [data|[e|]]; [|done|].
  - destruct (yaml_Unmarshal _ _) as [[e|] d]; [done|].
    pose proof (materialise_spec (heap s) (mkConfigData
      (applyEnvOverrides (os s) (load_defaults (d_Global d))) (d_Servers d)) Hh) as Hm.
    destruct (materialise _ _) as [h c]. destruct Hm as (? & ? & Hv).
    intros [= <-]. simpl. split; [|done].
    assert (Global c = d_Global (view h c)) as -> by done.
    rewrite Hv. apply applyEnvOverrides_ok.
  - pose proof (materialise_spec (heap s) DefaultConfig Hh) as Hm.
    destruct (materialise _ _) as [h c]. destruct Hm as (? & ? & Hv).
    pose proof (saveLocked_mem (with_config (with_heap s h) c)) as Hs.
    destruct (saveLocked _) as [err s1]. intros [= -> <-].
    destruct Hs as (-> & -> & _). simpl. split; [|done].
    assert (Global c = d_Global (view h c)) as -> by done.
    rewrite Hv. vm_compute. by intuition.
Qed.

(** On a first run (no file yet) [Load] installs the built-in defaults
    and never looks at the environment: two processes that differ only in
    their environment variables start with the same configuration. *)
Theorem Load_first_run_ignores_env s env' :
  store_wf s → files (os s) !! filePath s = None →
  read_error (os s) (filePath s) = None →
  let s2 := with_os s (mkOS env' (files (os s)) (read_error (os s)) (write_error (os s))) in
  let '(err, s') := Load s in
  let '(err2, s2') := Load s2 in
  view (heap s') (Get s') = DefaultConfig ∧
  view (heap s2') (Get s2') = DefaultConfig ∧ err2 = err.
Proof.
  intros [Hh _] Hf Hr. unfold Load, ReadFile. simpl. rewrite Hr, Hf.
  pose proof (materialise_spec (heap s) DefaultConfig Hh) as Hm.
  destruct (materialise _ _) as [h c]. destruct Hm as (_ & _ & Hv).
  unfold saveLocked, WriteFile. simpl.
  destruct (yaml_Marshal _) as [data|e]; [|done].
  destruct (write_error _ _ _) as [[e left]|]; done.
Qed.

Lemma defaulted_pos d x : 0 < x → defaulted d x = x.
Proof. unfold defaulted. destruct (Z.leb_spec x 0); lia. Qed.

Lemma envInt_unset o key x : Getenv o key = "" → envInt o key x = x.
Proof. unfold envInt. intros ->. done. Qed.

(** A positive setting survives the two defaulting passes when the
    environment is silent. *)
Lemma overrides_id o g :
  global_ok g → (∀ key, Getenv o key = "") →
  applyEnvOverrides o (load_defaults g) = g.
Proof.
  intros (Hv & ? & ? & ? & ? & ? & ? & ? & ?) He.
  unfold applyEnvOverrides, load_defaults, envString. rewrite Hv, !He.
  destruct g. simpl in *. rewrite !envInt_unset by done. rewrite Hv.
  rewrite !defaulted_pos by (rewrite ?defaulted_pos by lia; lia).
  destruct (Z.ltb_spec OpenCodeContextInput0 0); [lia|done].
Qed.

(** A document whose global section is well formed is loaded as it is. *)
Lemma Load_decoded s data d :
  heap_wf (heap s) → ReadFile (os s) (filePath s) = inl data →
  yaml_Unmarshal data zero_ConfigData = (None, d) → global_ok (d_Global d) →
  (∀ key, Getenv (os s) key = "") →
  let '(err, s') := Load s in err = None ∧ view (heap s') (Get s') = d.
Proof.
  intros Hh Hr Hu Hg He. unfold Load. rewrite Hr, Hu, overrides_id by done.
  destruct d as [g svs]. simpl.
  pose proof (materialise_spec (heap s) (mkConfigData g svs) Hh) as Hm.
  destruct (materialise _ _) as [h c]. by destruct Hm as (_ & _ & Hv).
Qed.

(** [C17] Saving and loading round-trips: after a successful [Set] of a well
    formed configuration, a fresh store that loads the same file, with no
    overriding environment variables, holds the same document, provided the
    YAML library decodes what it encoded for this document. *)
Theorem Set_Load_roundtrip cfg s g data :
  let c := mkConfig g (Servers cfg) in
  config_ok cfg (servers_of s cfg) → check_opencode (Global cfg) = Ok g →
  global_ok g →
  yaml_Marshal (view (heap s) c) = Ok data →
  yaml_Unmarshal data zero_ConfigData = (None, view (heap s) c) →
  write_error (os s) (filePath s) data = None →
  read_error (os s) (filePath s) = None →
  (∀ key, Getenv (os s) key = "") →
  let '(err, s1) := Set_ cfg s in
  let '(err2, s2) := Load (NewStore (os s1) (filePath s1)) in
  err = None ∧ err2 = None ∧
  view (heap s2) (Get s2) = view (heap s1) (Get s1).
Proof.
  intros c Hok Hg Hgo Hm Hu Hw Hr He. rewrite (Set_save _ _ _ Hok Hg).
  unfold saveLocked. simpl. fold c. rewrite Hm. unfold WriteFile. rewrite Hw. simpl.
  set (s0 := NewStore _ _).
  assert (heap_wf (heap s0)) as Hh by (apply (alloc_wf empty_heap); done).
  pose proof (Load_decoded s0 data (view (heap s) c) Hh) as Hl.
  destruct (Load s0) as [err2 s2]. destruct Hl as [-> ->]; try done.
  unfold s0, ReadFile. simpl. by rewrite Hr, lookup_insert_eq.
Qed.

(** The precedence of the integer settings, for each of them: a number
    in the environment that is positive wins; without a number there, a
    positive YAML value is kept; and a number that is not positive yields the
    built-in default, whatever the YAML file says. *)
Theorem env_precedence key field d o g :
  (key, field, d) ∈ int_settings →
  (∀ v, Getenv o key = Itoa v → int64 v →
     field (applyEnvOverrides o g) = if 0 <? v then v else d) ∧
  (Atoi (Getenv o key) = None → 0 < field g →
     field (applyEnvOverrides o g) = field g).
Proof.
  intros Hin.
  assert (field (applyEnvOverrides o g) = defaulted d (envInt o key (field g))) as ->.
  { unfold int_settings in Hin.
    repeat (apply elem_of_cons in Hin as [[= -> -> ->]|Hin]; [done|]).
    by apply elem_of_nil in Hin. }
  unfold envInt. split.
  - intros v -> Hv. rewrite Atoi_Itoa by done.
    assert (Itoa v ≠ "") as Hne.
    { intros E. pose proof (Atoi_Itoa v Hv) as Ha. by rewrite E in Ha. }
    rewrite bool_decide_eq_false_2 by done.
    unfold defaulted. destruct (Z.leb_spec v 0), (Z.ltb_spec 0 v); lia.
  - intros Ha Hp. case_bool_decide; rewrite ?Ha; by apply defaulted_pos.
Qed.

(** Applying the overrides again changes nothing. *)
Theorem applyEnvOverrides_idem o g :
  applyEnvOverrides o (applyEnvOverrides o g) = applyEnvOverrides o g.
Proof.
  assert (∀ key d x, 0 < d → defaulted d (envInt o key (defaulted d (envInt o key x)))
    = defaulted d (envInt o key x)) as Hi.
  { intros key d x Hd. unfold envInt, defaulted. split_cases; done || lia. }
  unfold applyEnvOverrides. simpl. f_equal; try (apply Hi; lia).
  - unfold envString. case_bool_decide; [|done].
    by destruct (Valid (FallbackStrategy g)) eqn:E; rewrite ?E.
  - by case_bool_decide.
  - unfold envInt. split_cases; done || lia.
Qed.

(** [GetCopy] is a copy of the struct only: a write through the
    [Servers] slice it returns shows in the configuration the store holds. *)
Theorem GetCopy_aliases s i sv h' :
  store_wf s → set_index (heap s) (Servers (GetCopy s)) i sv = Some h' →
  servers_of (with_heap s h') (Get (with_heap s h')) =
    <[i := sv]> (servers_of s (Get s)).
Proof. intros [Hh Hs] Hw. by apply (set_index_spec (heap s)). Qed.
End theorems.

(** ** Witnesses *)

Section witnesses.
#[local] Existing Instances sample_grow sample_yaml sample_url.

Let s0 : Store := sample_store None.

Lemma sample_store_wf w : store_wf (sample_store w).
Proof.
  split.
  - intros l Hl. simpl in *. apply lookup_insert_None. split; [done|lia].
  - split; [done|]. by eexists.
Qed.

Lemma sample_config_ok : config_ok (config s0) (servers_of s0 (config s0)).
Proof.
  split_and!; [done| |done|done].
  vm_compute. constructor; [|constructor].
  repeat split; intros; discriminate.
Qed.

Lemma Set_rejects_witness :
  let bad := mkConfig zero_GlobalConfig nil_slice in
  ∃ e, Set_ bad s0 = (Some e, s0).
Proof. apply Set_rejects. intros (Hv & _). discriminate Hv. Defined.

Lemma Set_accepts_witness :
  let '(err, s') := Set_ (config s0) s0 in
  err = None ∧ Get s' = mkConfig sample_global (Servers (config s0)) ∧
  servers_of s' (Get s') = servers_of s0 (config s0) ∧
  0 < 8192 ∧ 0 < 1024 ∧ ReadFile (os s') (filePath s') = inl "doc".
Proof.
  apply (Set_accepts (config s0) s0 sample_global "doc");
    [apply sample_config_ok|done|done|done].
Defined.

Lemma Set_write_failure_witness :
  let s1 := sample_store (Some (Errorf "disk full", None)) in
  let '(err, s') := Set_ (config s1) s1 in
  err = Some (Wrapf "write config: " (Errorf "disk full")) ∧
  Get s' = mkConfig sample_global (Servers (config s1)).
Proof.
  apply (Set_write_failure _ _ sample_global "doc" (Errorf "disk full") None);
    [apply sample_config_ok|done|done|done].
Defined.

Lemma Load_global_ok_witness :
  let s' := snd (Load s0) in global_ok (Global (Get s')) ∧ store_wf s'.
Proof. apply (Load_global_ok s0); [apply sample_store_wf|done]. Defined.

Lemma Load_first_run_ignores_env_witness :
  let s2 := with_os s0 (mkOS {["FALLBACK_STRATEGY" := "queue"]} ∅ (λ _, None) (λ _ _, None)) in
  let '(err, s') := Load s0 in
  let '(err2, s2') := Load s2 in
  view (heap s') (Get s') = DefaultConfig ∧
  view (heap s2') (Get s2') = DefaultConfig ∧ err2 = err.
Proof.
  apply (Load_first_run_ignores_env s0); [apply sample_store_wf|done|done].
Defined.

Lemma Set_Load_roundtrip_witness :
  let '(err, s1) := Set_ (config s0) s0 in
  let '(err2, s2) := Load (NewStore (os s1) (filePath s1)) in
  err = None ∧ err2 = None ∧ view (heap s2) (Get s2) = view (heap s1) (Get s1).
Proof.
  apply (Set_Load_roundtrip (config s0) s0 sample_global "doc");
    [apply sample_config_ok|done| |done|done|done|done|done].
  repeat split; discriminate.
Defined.

Lemma env_precedence_witness :
  let o := mkOS {["QUEUE_TIMEOUT_SEC" := "7"]} ∅ (λ _, None) (λ _ _, None) in
  QueueTimeoutSec (applyEnvOverrides o sample_global) = 7.
Proof.
  intros o.
  destruct (env_precedence "QUEUE_TIMEOUT_SEC" QueueTimeoutSec 30 o sample_global)
    as [Hv _]; [by do 2 right; left|].
  by apply (Hv 7).
Defined.

Lemma GetCopy_aliases_witness :
  ∃ h', servers_of (with_heap s0 h') (Get (with_heap s0 h')) =
    <[0%nat := mkServerConfig "http://b:2" 3 4]> (servers_of s0 (Get s0)).
Proof.
  eexists. apply (GetCopy_aliases s0); [apply sample_store_wf|reflexivity].
Defined.
End witnesses.
