(* ===== verification/Interfaces.v ===== *)
(** * What the components promise each other

    The router works on a pool of backend servers and on the model index that
    discovery maintains.  Its theorems are proved against the two classes
    below; [Backend] and [Discovery] provide the instances. *)
From Stdlib Require Import ZArith Lia.
From stdpp Require Import base tactics option list numbers strings.
From S2P Require Import Prelude Config.

Open Scope Z_scope.

(** [backend.Conn]: a slot on a server.  The field [Pool] of the source is the
    one pool of the process. *)
Record Conn : Type := mkConn { ServerID : string }.

Instance Conn_eq_dec : EqDecision Conn.
Proof. solve_decision. Defined.

(** ** The pool *)

Class PoolOps (P : Type) : Type := {
  pool_GetServer : P → string → option ServerConfig;
  pool_Inflight : P → string → Z;
  pool_Acquire : Context → string → P → Result Conn * P;
  pool_Release : Conn → P → P
}.

(** Two pools a client cannot tell apart. *)
Definition pool_equiv {P} `{!PoolOps P} (p q : P) : Prop :=
  ∀ id, pool_GetServer p id = pool_GetServer q id ∧
        pool_Inflight p id = pool_Inflight q id.

Declare Scope bridge_scope.
Infix "≈" := pool_equiv (at level 70) : bridge_scope.
Delimit Scope bridge_scope with bridge.
Open Scope bridge_scope.

(** [q] is [p] with the counter of [id] changed by [d]. *)
Definition counted {P} `{!PoolOps P} (id : string) (d : Z) (p q : P) : Prop :=
  ∀ id', pool_GetServer q id' = pool_GetServer p id' ∧
         pool_Inflight q id' =
           if decide (id' = id) then wrap64 (pool_Inflight p id + d)
           else pool_Inflight p id'.

Class PoolLaws (P : Type) `{!PoolOps P} (ok : P → Prop) : Prop := {
  inflight_int64 p id : ok p → int64 (pool_Inflight p id);
  acquire_unknown ctx id p :
    ok p → pool_GetServer p id = None → pool_Acquire ctx id p = (Err ErrServerUnhealthy, p);
  acquire_live ctx id p :
    ok p → is_Some (pool_GetServer p id) → ctx_Err ctx = None →
    ∃ q, pool_Acquire ctx id p = (Ok (mkConn id), q) ∧ ok q ∧ counted id 1 p q;
  acquire_done ctx id p e :
    ok p → is_Some (pool_GetServer p id) → ctx_Err ctx = Some e →
    ∃ q, pool_Acquire ctx id p = (Err e, q) ∧ ok q ∧ p ≈ q;
  release_known c p :
    ok p → is_Some (pool_GetServer p (ServerID c)) →
    ok (pool_Release c p) ∧ counted (ServerID c) (-1) p (pool_Release c p)
}.

(** ** The model index *)

Class IndexOps (D : Type) : Type := {
  index_ServersForModel : D → string → list string
}.

Section pool_facts.
Context {P : Type} `{!PoolOps P}.

#[export] Instance pool_equiv_equivalence : Equivalence (pool_equiv (P := P)).
Proof.
  split.
  - by intros p id.
  - intros p q H id. destruct (H id). done.
  - intros p q r H1 H2 id. destruct (H1 id), (H2 id). split; congruence.
Qed.

#[export] Instance counted_proper id d :
  Proper (pool_equiv (P := P) ==> pool_equiv ==> iff) (counted id d).
Proof.
  assert (∀ p p' q q' : P, p ≈ p' → q ≈ q' → counted id d p q → counted id d p' q') as H.
  { intros p p' q q' Hp Hq Hc id'.
    destruct (Hp id') as [<- <-], (Hp id) as [_ <-], (Hq id') as [<- <-]. apply Hc. }
  intros p p' Hp q q' Hq. split; apply H; done.
Qed.

(** Taking a slot and giving it back is invisible. *)
Lemma counted_cancel id (p q r : P) :
  int64 (pool_Inflight p id) → counted id 1 p q → counted id (-1) q r → p ≈ r.
Proof.
  intros Hi H1 H2 id'. destruct (H1 id') as [Hg1 Hi1], (H2 id') as [Hg2 Hi2].
  split; [congruence|]. rewrite Hi2.
  destruct (decide (id' = id)) as [->|]; [|done].
  destruct (H1 id) as [_ ->]. rewrite decide_True by done.
  rewrite wrap64_add_l. replace (pool_Inflight p id + 1 + -1) with (pool_Inflight p id) by lia.
  symmetry. by apply wrap64_id.
Qed.

Lemma counted_ok_domain id d (p q : P) id' :
  counted id d p q → is_Some (pool_GetServer q id') ↔ is_Some (pool_GetServer p id').
Proof. intros H. by destruct (H id') as [-> _]. Qed.
End pool_facts.
