(* ===== verification/Backend.v ===== *)
(** * Package [backend] (src/backend/backend.go)

    The pool of backend servers with its in-flight counters.  The map
    [clients] holds pointers, and a replaced client lives on for those who
    still hold its pointer, so clients are objects in a store. *)
From Stdlib Require Import ZArith Lia Ascii.
From stdpp Require Import base tactics option list numbers strings gmap relations.
From S2P Require Import Prelude Config Interfaces.

Open Scope Z_scope.

(** ** Data *)

(** The [http.Transport] fields [AddServer] sets; the timeout in nanoseconds. *)
Record Transport : Type := mkTransport {
  MaxIdleConns : Z;
  MaxIdleConnsPerHost : Z;
  IdleConnTimeout : Z
}.

Record backendClient : Type := mkClient {
  server : ServerConfig;
  client : Transport;
  inflight : Z
}.

Record Pool : Type := mkPool {
  clients : gmap string nat;
  objs : gmap nat backendClient;
  next_obj : nat
}.

(** ** Operations *)

Definition NewPool : Pool := mkPool ∅ ∅ 0%nat.

(** [bc, ok := p.clients[serverID]], under the read lock. *)
Definition lookup_client (p : Pool) (serverID : string) : option nat :=
  clients p !! serverID.

Definition add_int64 (d : Z) (bc : backendClient) : backendClient :=
  mkClient (server bc) (client bc) (wrap64 (inflight bc + d)).

(** [bc.inflight.Add(d)]: one atomic step on the object. *)
Definition inflight_Add (bc : nat) (d : Z) (p : Pool) : Pool :=
  mkPool (clients p) (alter (add_int64 d) bc (objs p)) (next_obj p).

Definition Acquire (ctx : Context) (serverID : string) (p : Pool) : Result Conn * Pool :=
  match lookup_client p serverID with
  | None => (Err ErrServerUnhealthy, p)
  | Some bc =>
      let p1 := inflight_Add bc 1 p in
      match ctx_Err ctx with
      | Some e => (Err e, inflight_Add bc (-1) p1)
      | None => (Ok (mkConn serverID), p1)
      end
  end.

Definition Release (conn : Conn) (p : Pool) : Pool :=
  match lookup_client p (ServerID conn) with
  | None => p
  | Some bc => inflight_Add bc (-1) p
  end.

Definition Inflight (p : Pool) (serverID : string) : Z :=
  match lookup_client p serverID with
  | None => 0
  | Some bc => match objs p !! bc with Some o => inflight o | None => 0 end
  end.

Definition AddServer (cfg : ServerConfig) (p : Pool) : Pool :=
  let transport := mkTransport 100 10 (90 * 10 ^ 9) in
  mkPool (<[URL cfg := next_obj p]> (clients p))
    (<[next_obj p := mkClient cfg transport 0]> (objs p)) (S (next_obj p)).

Definition RemoveServer (serverID : string) (p : Pool) : Pool :=
  mkPool (delete serverID (clients p)) (objs p) (next_obj p).

Definition ServerCount (p : Pool) : nat := size (clients p).

Definition GetServer (p : Pool) (serverID : string) : option ServerConfig :=
  match lookup_client p serverID with
  | None => None
  | Some bc => server <$> (objs p !! bc)
  end.

(** ** Proxying *)

(** [http.Header]. *)
Abbreviation Header := (gmap string (list string)).

(** A byte of a header field name (RFC 7230 token). *)
Definition token_byte (c : ascii) : bool :=
  let n := nat_of_ascii c in
  ((48 <=? n) && (n <=? 57) || (65 <=? n) && (n <=? 90) || (97 <=? n) && (n <=? 122)
   || existsb (Nat.eqb n) [33; 35; 36; 37; 38; 39; 42; 43; 45; 46; 94; 95; 96; 124; 126])%nat.

Definition to_upper (c : ascii) : ascii :=
  let n := nat_of_ascii c in
  if ((97 <=? n) && (n <=? 122))%nat then ascii_of_nat (n - 32) else c.
Definition to_lower (c : ascii) : ascii :=
  let n := nat_of_ascii c in
  if ((65 <=? n) && (n <=? 90))%nat then ascii_of_nat (n + 32) else c.

Fixpoint all_token (s : string) : bool :=
  match s with
  | EmptyString => true
  | String c s' => token_byte c && all_token s'
  end.

Fixpoint canonical_go (upper : bool) (s : string) : string :=
  match s with
  | EmptyString => EmptyString
  | String c s' =>
      String (if upper then to_upper c else to_lower c)
        (canonical_go (bool_decide (c = "-"%char)) s')
  end.

(** [textproto.CanonicalMIMEHeaderKey]. *)
Definition CanonicalHeaderKey (s : string) : string :=
  if all_token s then canonical_go true s else s.

Definition Header_Add (h : Header) (key v : string) : Header :=
  let k := CanonicalHeaderKey key in
  <[k := default [] (h !! k) ++ [v]]> h.

(** [for key, vals := range headers { for _, v := range vals { h.Add(key, v) } }],
    with the keys visited in the order [order]. *)
Definition copy_headers (order : list string) (headers h : Header) : Header :=
  foldl (λ h key, foldl (λ h v, Header_Add h key v) h (default [] (headers !! key))) h order.

Record Request : Type := mkRequest {
  req_Method : string;
  req_URL : string;
  req_Body : string;
  req_Header : Header
}.

Record Response : Type := mkResponse {
  StatusCode : Z;
  resp_Header : Header;
  resp_Body : string
}.

(** The network: the checks of [http.NewRequest], and what the backend behind
    [client.Do] answers. *)
Class HttpClient : Type := {
  NewRequest_error : string → string → option error;
  client_Do : Context → Request → Result Response
}.

Section proxy.
Context `{!NetURL, !HttpClient}.

Definition ProxyRequest (p : Pool) (ctx : Context) (conn : Conn)
    (method path body : string) (headers : Header) (order : list string)
    : Result Response :=
  match lookup_client p (ServerID conn) with
  | None => Err ErrServerUnhealthy
  | Some _ =>
      match url_Parse (ServerID conn) with
      | Err e => Err (Wrapf "parse server url: " e)
      | Ok base =>
          match url_Parse path with
          | Err e => Err (Wrapf "parse request path: " e)
          | Ok ref =>
              let fullURL := URL_String (ResolveReference base ref) in
              match NewRequest_error method fullURL with
              | Some e => Err (Wrapf "create request: " e)
              | None =>
                  let req := mkRequest method fullURL body (copy_headers order headers ∅) in
                  match client_Do ctx req with
                  | Err e => Err (Wrapf "proxy request: " e)
                  | Ok resp => Ok resp
                  end
              end
          end
      end
  end.
End proxy.

(** ** Well-formed pools *)

(** Every pointer of the map leads to a client for that URL, nothing is
    allocated beyond [next_obj], and the counters are 64-bit. *)
Record pool_wf (p : Pool) : Prop := {
  wf_clients id bc :
    clients p !! id = Some bc → ∃ o, objs p !! bc = Some o ∧ URL (server o) = id;
  wf_fresh bc : (next_obj p ≤ bc)%nat → objs p !! bc = None;
  wf_int64 bc o : objs p !! bc = Some o → int64 (inflight o)
}.

#[export] Instance Pool_ops : PoolOps Pool := {
  pool_GetServer := GetServer;
  pool_Inflight := Inflight;
  pool_Acquire := Acquire;
  pool_Release := Release
}.

(** ** The accounting of slots

    [pool_step] runs the pool together with the list of the connections handed
    out and not yet released.  A server is added only while none of its
    connections is out. *)
Inductive pool_step : Pool * list Conn → Pool * list Conn → Prop :=
  | step_acquire ctx id p held r p' :
      Acquire ctx id p = (r, p') →
      pool_step (p, held) (p', match r with Ok c => c :: held | Err _ => held end)
  | step_release c p held1 held2 :
      pool_step (p, held1 ++ c :: held2) (Release c p, held1 ++ held2)
  | step_add cfg p held :
      Forall (λ c, ServerID c ≠ URL cfg) held →
      pool_step (p, held) (AddServer cfg p, held)
  | step_remove id p held :
      pool_step (p, held) (RemoveServer id p, held).

(** The slots of server [id] that are out. *)
Definition outstanding (held : list Conn) (id : string) : Z :=
  Z.of_nat (length (filter (λ c, ServerID c = id) held)).

Lemma inflight_Add_wf bc d p : pool_wf p → pool_wf (inflight_Add bc d p).
Proof.
  intros [Hc Hf Hi]. split; simpl.
  - intros id bc' Hid. destruct (Hc id bc' Hid) as (o & Ho & <-).
    rewrite lookup_alter. case_decide; subst; rewrite Ho; simpl; eauto.
  - intros bc' ?. rewrite lookup_alter. case_decide; subst; rewrite Hf by done; done.
  - intros bc' o. rewrite lookup_alter. case_decide; [|apply Hi].
    intros (o' & ? & ->)%fmap_Some. apply wrap64_range.
Qed.

Lemma AddServer_wf cfg p : pool_wf p → pool_wf (AddServer cfg p).
Proof.
  intros [Hc Hf Hi]. split; simpl.
  - intros id bc. rewrite lookup_insert. case_decide as Hid.
    + intros [= <-]. rewrite lookup_insert_eq. subst. eauto.
    + intros (o & Ho & ?)%Hc. exists o. rewrite lookup_insert_ne; [done|].
      intros <-. by rewrite Hf in Ho.
  - intros bc ?. rewrite lookup_insert_ne by lia. apply Hf. lia.
  - intros bc o. rewrite lookup_insert. case_decide; [|apply Hi].
    by intros [= <-].
Qed.

Lemma RemoveServer_wf id p : pool_wf p → pool_wf (RemoveServer id p).
Proof.
  intros [Hc Hf Hi]. split; simpl; [|done..].
  intros id' bc [_ ?]%lookup_delete_Some. eauto.
Qed.

Lemma NewPool_wf : pool_wf NewPool.
Proof. by split. Qed.

(** What an [Add] on the counter of [id] shows through the map. *)
Lemma inflight_Add_counted id bc d p :
  pool_wf p → lookup_client p id = Some bc → counted id d p (inflight_Add bc d p).
Proof.
  intros Hwf Hid id'. unfold lookup_client in Hid. simpl.
  unfold GetServer, Inflight, lookup_client. simpl.
  destruct (clients p !! id') as [bc'|] eqn:Hid'; [|case_decide; by simplify_eq].
  rewrite lookup_alter.
  destruct (wf_clients p Hwf _ _ Hid) as (o & Ho & Hu).
  destruct (wf_clients p Hwf _ _ Hid') as (o' & Ho' & Hu').
  destruct (decide (bc = bc')) as [<-|Hne].
  - simplify_eq. rewrite decide_True by done. by rewrite ?Hid, ?Hid', Ho.
  - rewrite (decide_False (P := (id' = id))) by congruence. done.
Qed.

Lemma lookup_client_Some p id :
  pool_wf p → is_Some (GetServer p id) ↔ ∃ bc, lookup_client p id = Some bc.
Proof.
  intros Hwf. unfold GetServer. destruct (lookup_client p id) as [bc|] eqn:H.
  - destruct (wf_clients p Hwf _ _ H) as (o & -> & _). split; eauto.
  - split; [by intros [? ?]|by intros [? ?]].
Qed.

Lemma Inflight_int64 p id : pool_wf p → int64 (Inflight p id).
Proof.
  intros Hwf. unfold Inflight. destruct (lookup_client p id) as [bc|]; [|done].
  destruct (objs p !! bc) as [o|] eqn:Ho; [|done]. by eapply wf_int64.
Qed.

Lemma Acquire_unknown ctx id p :
  pool_wf p → GetServer p id = None → Acquire ctx id p = (Err ErrServerUnhealthy, p).
Proof.
  intros Hwf Hid. unfold Acquire.
  destruct (lookup_client p id) as [bc|] eqn:Hbc; [|done].
  assert (is_Some (GetServer p id)) as [? ?]
    by (apply lookup_client_Some; eauto). congruence.
Qed.

Lemma Acquire_live ctx id p :
  pool_wf p → is_Some (GetServer p id) → ctx_Err ctx = None →
  ∃ q, Acquire ctx id p = (Ok (mkConn id), q) ∧ pool_wf q ∧ counted id 1 p q.
Proof.
  intros Hwf [bc Hbc]%lookup_client_Some Hctx; [|done].
  unfold Acquire. rewrite Hbc, Hctx. eexists.
  split_and!; [done|by apply inflight_Add_wf|by apply inflight_Add_counted].
Qed.

Lemma Acquire_done ctx id p e :
  pool_wf p → is_Some (GetServer p id) → ctx_Err ctx = Some e →
  ∃ q, Acquire ctx id p = (Err e, q) ∧ pool_wf q ∧ p ≈ q.
Proof.
  intros Hwf [bc Hbc]%lookup_client_Some Hctx; [|done].
  unfold Acquire. rewrite Hbc, Hctx. eexists. split; [done|].
  split; [eauto using inflight_Add_wf|].
  apply (counted_cancel id _ (inflight_Add bc 1 p)); [by apply Inflight_int64| |];
    apply inflight_Add_counted; eauto using inflight_Add_wf.
Qed.

Lemma Release_known c p :
  pool_wf p → is_Some (GetServer p (ServerID c)) →
  pool_wf (Release c p) ∧ counted (ServerID c) (-1) p (Release c p).
Proof.
  intros Hwf [bc Hbc]%lookup_client_Some; [|done].
  unfold Release. rewrite Hbc.
  split; [by apply inflight_Add_wf|by apply inflight_Add_counted].
Qed.

#[export] Instance Pool_laws : PoolLaws Pool pool_wf.
Proof.
  split; simpl; eauto using Inflight_int64, Acquire_unknown, Acquire_live,
    Acquire_done, Release_known.
Qed.

Lemma Acquire_wf ctx id p : pool_wf p → pool_wf (snd (Acquire ctx id p)).
Proof.
  intros Hwf. unfold Acquire. destruct (lookup_client p id); [|done].
  destruct (ctx_Err ctx); simpl; eauto using inflight_Add_wf.
Qed.

Lemma Release_wf c p : pool_wf p → pool_wf (Release c p).
Proof.
  intros Hwf. unfold Release. destruct (lookup_client p _); eauto using inflight_Add_wf.
Qed.

(** Releasing a connection of a removed server does nothing. *)
Lemma Release_unknown c p :
  pool_wf p → GetServer p (ServerID c) = None → Release c p = p.
Proof.
  intros Hwf H. unfold Release. destruct (lookup_client p _) as [bc|] eqn:Hbc; [|done].
  assert (is_Some (GetServer p (ServerID c))) as [? ?]
    by (apply lookup_client_Some; eauto). congruence.
Qed.

Lemma AddServer_view cfg p id :
  pool_wf p →
  GetServer (AddServer cfg p) id = (if decide (id = URL cfg) then Some cfg else GetServer p id) ∧
  Inflight (AddServer cfg p) id = (if decide (id = URL cfg) then 0 else Inflight p id).
Proof.
  intros Hwf. unfold GetServer, Inflight, lookup_client, AddServer. simpl.
  rewrite lookup_insert. destruct (decide (URL cfg = id)) as [<-|].
  - rewrite !decide_True, lookup_insert_eq by done. done.
  - rewrite !decide_False by done. destruct (clients p !! id) as [bc|] eqn:Hbc; [|done].
    destruct (wf_clients p Hwf _ _ Hbc) as (o & Ho & _).
    rewrite lookup_insert_ne; [done|].
    intros <-. by rewrite (wf_fresh p Hwf) in Ho.
Qed.

Lemma RemoveServer_view id p id' :
  GetServer (RemoveServer id p) id' = (if decide (id' = id) then None else GetServer p id') ∧
  Inflight (RemoveServer id p) id' = (if decide (id' = id) then 0 else Inflight p id').
Proof.
  unfold GetServer, Inflight, lookup_client. simpl. rewrite lookup_delete.
  destruct (decide (id = id')), (decide (id' = id)); done.
Qed.

Lemma outstanding_cons c held id :
  outstanding (c :: held) id = outstanding held id + if decide (ServerID c = id) then 1 else 0.
Proof. unfold outstanding. rewrite filter_cons. case_decide; simpl; lia. Qed.

Lemma outstanding_mid c held1 held2 id :
  outstanding (held1 ++ c :: held2) id =
  outstanding (held1 ++ held2) id + if decide (ServerID c = id) then 1 else 0.
Proof.
  rewrite <- outstanding_cons. unfold outstanding.
  by rewrite (Permutation_middle held1 held2 c).
Qed.

Lemma outstanding_none held id :
  Forall (λ c, ServerID c ≠ id) held → outstanding held id = 0.
Proof.
  intros H. unfold outstanding. induction H as [|c held Hc _ IH]; [done|].
  rewrite filter_cons, decide_False by done. done.
Qed.

(** The counters of the servers of the pool are the numbers of their
    outstanding connections, as 64-bit integers. *)
Definition accounted (s : Pool * list Conn) : Prop :=
  pool_wf s.1 ∧
  ∀ id, is_Some (GetServer s.1 id) → Inflight s.1 id = wrap64 (outstanding s.2 id).

Lemma pool_step_accounted s s' : pool_step s s' → accounted s → accounted s'.
Proof.
  intros Hstep [Hwf Ha]. destruct Hstep as
    [ctx id p held r p' Hr|c p h1 h2|cfg p held Hno|id p held]; simpl in *.
  - destruct (decide (is_Some (GetServer p id))) as [Hg|Hg%eq_None_not_Some].
    2:{ rewrite Acquire_unknown in Hr by done. by simplify_eq. }
    destruct (ctx_Err ctx) as [e|] eqn:Hctx.
    + destruct (Acquire_done ctx id p e Hwf Hg Hctx) as (q & Hq & Hok & He).
      rewrite Hq in Hr. simplify_eq. split; [done|]. simpl. intros id' Hs.
      destruct (He id') as [Hg' Hi']. simpl in *. rewrite <- Hi'. apply Ha. by rewrite Hg'.
    + destruct (Acquire_live ctx id p Hwf Hg Hctx) as (q & Hq & Hok & He).
      rewrite Hq in Hr. simplify_eq. split; [done|]. simpl. intros id' Hs.
      destruct (He id') as [Hg' Hi']. simpl in *.
      rewrite Hg' in Hs. rewrite Hi', outstanding_cons. simpl.
      destruct (decide (id' = id)) as [->|Hne].
      * rewrite decide_True, Ha by done. autorewrite with bridge. f_equal.
      * rewrite decide_False, Ha by congruence. f_equal. lia.
  - split; [by apply Release_wf|]. simpl. intros id Hs.
    destruct (decide (is_Some (GetServer p (ServerID c)))) as [Hk|Hk%eq_None_not_Some].
    + destruct (Release_known c p Hwf Hk) as [_ He].
      destruct (He id) as [Hg Hi]. simpl in *. rewrite Hg in Hs. rewrite Hi.
      destruct (decide (id = _)) as [->|]; rewrite Ha, outstanding_mid by done.
      * rewrite decide_True by done. autorewrite with bridge. f_equal. lia.
      * rewrite decide_False by congruence. f_equal. lia.
    + rewrite Release_unknown in * by done. rewrite Ha by done.
      rewrite outstanding_mid, decide_False; [f_equal; lia|].
      intros <-. rewrite Hk in Hs. by destruct Hs.
  - split; [by apply AddServer_wf|]. simpl. intros id Hs.
    destruct (AddServer_view cfg p id Hwf) as [Hg Hi]. rewrite Hg in Hs. rewrite Hi.
    case_decide; [|by apply Ha]. subst. by rewrite outstanding_none.
  - split; [by apply RemoveServer_wf|]. simpl. intros id' Hs.
    destruct (RemoveServer_view id p id') as [Hg Hi]. rewrite Hg in Hs. rewrite Hi.
    case_decide; [by destruct Hs|by apply Ha].
Qed.

(** Canonical header keys are fixed points of the canonicalisation. *)
Lemma to_lower_upper c :
  to_lower (to_upper c) = to_lower c ∧ to_upper (to_lower c) = to_upper c ∧
  to_upper (to_upper c) = to_upper c ∧ to_lower (to_lower c) = to_lower c ∧
  token_byte (to_upper c) = token_byte c ∧ token_byte (to_lower c) = token_byte c ∧
  (to_upper c = "-"%char ↔ c = "-"%char) ∧ (to_lower c = "-"%char ↔ c = "-"%char).
Proof. by destruct c as [[] [] [] [] [] [] [] []]. Qed.

Lemma canonical_go_idem b s : canonical_go b (canonical_go b s) = canonical_go b s.
Proof.
  revert b. induction s as [|c s IH]; intros b; [done|]. simpl.
  pose proof (to_lower_upper c) as (? & ? & Hu & Hl & _ & _ & Hud & Hld).
  destruct b; rewrite ?Hu, ?Hl; f_equal;
    [rewrite (bool_decide_ext _ _ Hud)|rewrite (bool_decide_ext _ _ Hld)]; apply IH.
Qed.

Lemma all_token_canonical b s : all_token (canonical_go b s) = all_token s.
Proof.
  revert b. induction s as [|c s IH]; intros b; [done|]. simpl. rewrite IH.
  pose proof (to_lower_upper c) as (_ & _ & _ & _ & ? & ? & _).
  f_equal. by destruct b.
Qed.

Lemma CanonicalHeaderKey_idem s :
  CanonicalHeaderKey (CanonicalHeaderKey s) = CanonicalHeaderKey s.
Proof.
  unfold CanonicalHeaderKey. destruct (all_token s) eqn:H; [|by rewrite H].
  rewrite all_token_canonical, H. apply canonical_go_idem.
Qed.

Lemma Header_Add_vals h key k vals :
  foldl (λ h v, Header_Add h key v) h vals !! k =
    if decide (k = CanonicalHeaderKey key ∧ vals ≠ []) then Some (default [] (h !! k) ++ vals)
    else h !! k.
Proof.
  revert h. induction vals as [|v vals IH]; intros h; simpl.
  { by rewrite decide_False by by intros []. }
  rewrite IH. unfold Header_Add. rewrite lookup_insert.
  destruct (decide (CanonicalHeaderKey key = k)) as [<-|Hne].
  - rewrite (decide_True (P := (_ ∧ v :: vals ≠ []))) by done. simpl.
    case_decide as Hd; [by rewrite <- app_assoc|].
    destruct vals; [done|]. by destruct Hd.
  - by rewrite !decide_False by by intros [].
Qed.

Lemma copy_headers_lookup order headers h k :
  NoDup order → Forall (λ key, CanonicalHeaderKey key = key) order →
  default [] (copy_headers order headers h !! k) =
    default [] (h !! k) ++ if decide (k ∈ order) then default [] (headers !! k) else [].
Proof.
  unfold copy_headers. intros Hnd Hc. revert h.
  induction order as [|key order IH]; intros h; simpl.
  { by rewrite app_nil_r. }
  apply NoDup_cons in Hnd as [Hni Hnd]. apply Forall_cons in Hc as [Hk Hc].
  rewrite IH by done. rewrite Header_Add_vals, Hk.
  destruct (decide (k = key)) as [->|Hne].
  - rewrite (decide_False (P := key ∈ order)), app_nil_r by done.
    rewrite (decide_True (P := key ∈ key :: order)) by left.
    destruct (default [] (headers !! key)) as [|v vs] eqn:E.
    + rewrite decide_False by by intros []. by rewrite app_nil_r.
    + by rewrite decide_True by done.
  - rewrite decide_False by by intros []. f_equal.
    apply decide_ext. rewrite elem_of_cons. tauto.
Qed.

(** ** Theorems *)

(** [C10] In every run of the pool in which no server is re-added while its
    connections are out, the counter of each server of the pool is the number
    of its connections acquired and not released (as a 64-bit integer): no slot
    is lost on any path of [Acquire], including a cancelled context. *)
Theorem Inflight_counts_outstanding p held id :
  rtc pool_step (NewPool, []) (p, held) → is_Some (GetServer p id) →
  Inflight p id = wrap64 (outstanding held id).
Proof.
  intros Hr. cut (accounted (p, held)); [intros [_ Ha]; apply Ha|].
  assert (accounted (NewPool, [])) as H0 by (split; [apply NewPool_wf|by intros ? [? ?]]).
  revert H0. induction Hr; eauto using pool_step_accounted.
Qed.

(** [AddServer] on a URL that is already in the pool starts a new counter:
    the connections that are out are forgotten, and releasing one of them
    makes the counter negative. *)
Theorem AddServer_forgets_inflight cfg p c :
  pool_wf p → ServerID c = URL cfg →
  let p1 := AddServer cfg p in
  Inflight p1 (URL cfg) = 0 ∧ Inflight (Release c p1) (URL cfg) = -1.
Proof.
  intros Hwf Hc p1. destruct (AddServer_view cfg p (URL cfg) Hwf) as [Hg Hi].
  rewrite decide_True in Hg by done. rewrite decide_True in Hi by done. split; [done|].
  destruct (Release_known c p1) as [_ Hd];
    [by apply AddServer_wf|rewrite Hc; unfold p1; by rewrite Hg|].
  rewrite Hc in Hd. destruct (Hd (URL cfg)) as [_ Hd']. simpl in Hd'. fold p1 in Hi.
  by rewrite Hd', decide_True, Hi by done.
Qed.

Section proxy_theorems.
Context `{!NetURL, !HttpClient}.

(** A proxied request carries the method and the body it was given, goes
    to the request path resolved against the URL of the server of the
    connection, and has every value of every header, in order, whatever
    order the header map is walked in (its keys being canonical, as those of
    a received request are). *)
Theorem ProxyRequest_faithful p ctx conn method path body headers order resp :
  order ≡ₚ elements (dom headers) →
  (∀ key, key ∈ dom headers → CanonicalHeaderKey key = key) →
  ProxyRequest p ctx conn method path body headers order = Ok resp →
  ∃ base ref req,
    url_Parse (ServerID conn) = Ok base ∧ url_Parse path = Ok ref ∧
    client_Do ctx req = Ok resp ∧
    req_Method req = method ∧ req_Body req = body ∧
    req_URL req = URL_String (ResolveReference base ref) ∧
    ∀ k, default [] (req_Header req !! k) = default [] (headers !! k).
Proof.
  intros Horder Hcan. unfold ProxyRequest.
  destruct (lookup_client _ _); [|done].
  destruct (url_Parse (ServerID conn)) as [base|]; [|done].
  destruct (url_Parse path) as [ref|]; [|done].
  destruct (NewRequest_error _ _); [done|].
  destruct (client_Do ctx _) as [r|] eqn:Hdo; [|done]. intros [= <-].
  eexists base, ref, _. split_and!; [done|done|exact Hdo|done..|].
  intros k. simpl. rewrite copy_headers_lookup; simpl.
  - rewrite lookup_empty. simpl. case_decide as Hk; [done|].
    rewrite Horder, elem_of_elements, not_elem_of_dom in Hk. by rewrite Hk.
  - rewrite Horder. apply NoDup_elements.
  - apply Forall_forall. intros key Hk. apply Hcan.
    by rewrite Horder, elem_of_elements in Hk.
Qed.
End proxy_theorems.

(** ** Witnesses *)

Definition sample_pool : Pool := AddServer sample_server NewPool.

Lemma sample_pool_wf : pool_wf sample_pool.
Proof. apply AddServer_wf, NewPool_wf. Qed.

Lemma Inflight_counts_outstanding_witness :
  let '(_, p) := Acquire Background "http://a:1" sample_pool in
  Inflight p "http://a:1" = 1.
Proof.
  apply (Inflight_counts_outstanding _ [mkConn "http://a:1"]); [|by eexists].
  apply (rtc_l _ _ (sample_pool, [])); [by constructor|].
  apply rtc_once. by apply (step_acquire Background "http://a:1" _ [] (Ok (mkConn "http://a:1"))).
Defined.

Lemma AddServer_forgets_inflight_witness :
  let '(_, p) := Acquire Background "http://a:1" sample_pool in
  let p1 := AddServer sample_server p in
  Inflight p1 "http://a:1" = 0 ∧ Inflight (Release (mkConn "http://a:1") p1) "http://a:1" = -1.
Proof.
  apply (AddServer_forgets_inflight sample_server); [|done].
  apply inflight_Add_wf, sample_pool_wf.
Defined.

(** A backend that answers every request with its own headers. *)
Definition sample_http : HttpClient :=
  {| NewRequest_error := λ _ _, None;
     client_Do := λ _ req, Ok (mkResponse 200 (req_Header req) (req_URL req)) |}.

Lemma ProxyRequest_faithful_witness :
  ∃ base ref req,
    @url_Parse sample_url "http://a:1" = Ok base ∧
    @url_Parse sample_url "/v1/completions" = Ok ref ∧
    @client_Do sample_http Background req =
      Ok (mkResponse 200 {["X-Test" := ["1"; "2"]]} "http://a:1/v1/completions") ∧
    req_Method req = "POST" ∧ req_Body req = "{}" ∧
    req_URL req = @URL_String sample_url (@ResolveReference sample_url base ref) ∧
    ∀ k, default [] (req_Header req !! k) =
         default [] (({["X-Test" := ["1"; "2"]]} : Header) !! k).
Proof.
  apply (@ProxyRequest_faithful sample_url sample_http sample_pool Background
    (mkConn "http://a:1") "POST" "/v1/completions" "{}" {["X-Test" := ["1"; "2"]]} ["X-Test"]).
  - by rewrite dom_singleton_L, elements_singleton.
  - intros key Hk. rewrite dom_singleton_L, elem_of_singleton in Hk. by subst.
  - vm_compute. reflexivity.
Defined.
