(* ===== verification/Discovery.v ===== *)
(** * Package [discovery] (src/discovery/discovery.go)

    The model index: which servers serve which model, the metadata of each
    model, and the health of each server, as maintained by polling
    [GET /v1/models].  Iteration over a Go map visits the keys in an arbitrary
    order, which is a parameter here. *)
From Stdlib Require Import ZArith Lia.
From stdpp Require Import base tactics option list numbers strings gmap.
From S2P Require Import Prelude GoJson JsonRoundTrip JsonLocal GoRaw Config Interfaces.

Open Scope Z_scope.

(** ** Data *)

(** [json.RawMessage]. *)
Abbreviation RawMessage := string (only parsing).

Record Discovery : Type := mkDiscovery {
  servers : list string;
  models : gmap string (list string);
  modelDetails : gmap string RawMessage;
  healthy : gmap string bool;
  interval : Z;
  cancel : bool;   (* a cancel function is stored *)
  started : bool
}.

(** What a poll of one server yields: the request could not be made, it
    failed, the body was not a models response, or its [data] entries. *)
Inductive PollResult : Type :=
  | NewRequestFailed
  | RequestFailed
  | DecodeFailed
  | Decoded (data : list RawMessage).

(** The order in which [range] visits the keys of a map. *)
Class MapRange : Type := range_keys : gset string → list string.
Class MapRangeLaw `{!MapRange} : Prop :=
  range_keys_perm X : range_keys X ≡ₚ elements X.

(** What comes of a GET request: it could not be made, it failed, or there is
    an answer, of which the poller looks at the body only. *)
Inductive GetResult : Type :=
  | NewRequestError
  | DoError
  | Answered (body : string).

(** The servers as the poller sees them. *)
Class Backends : Type := {
  http_get : string → GetResult
}.

(** [modelsResponse]. *)
Record modelsResponse : Type := mkModelsResponse {
  Object : string;
  Data : list RawMessage
}.

(** One member of the answer, its value in bytes; the boolean reports a type
    error. *)
Definition models_member (acc : modelsResponse * bool) (m : string * string)
    : modelsResponse * bool :=
  let '(b, e) := acc in
  match find_field [("object", true); ("data", false)] m.1 with
  | None => acc
  | Some true =>
      match parse m.2 with
      | Some v => let '(x, e') := into_string v (Object b) in
                  (mkModelsResponse x (Data b), e || e')
      | None => (b, true)
      end
  | Some false => let '(x, e') := into_raws m.2 (Data b) in
                  (mkModelsResponse (Object b) x, e || e')
  end.

(** [json.NewDecoder(resp.Body).Decode(&body)] with its error. *)
Definition decode_models (text : string) : PollResult :=
  match raw_value (fuel_for text) 0 text with
  | None => DecodeFailed
  | Some (w, _) =>
      match parse w with
      | Some JNull => Decoded []
      | Some (JObj _) =>
          let '(b, e) := foldl models_member (mkModelsResponse EmptyString [], false)
                           (default [] (raw_object w)) in
          if e then DecodeFailed else Decoded (Data b)
      | _ => DecodeFailed
      end
  end.

(** The request of one poll, up to the decoded body. *)
Definition probe `{!Backends} (url : string) : PollResult :=
  match http_get url with
  | NewRequestError => NewRequestFailed
  | DoError => RequestFailed
  | Answered body => decode_models body
  end.

(** The [id] of an entry: [None] when it does not decode into the struct. *)
Definition entry_id (raw : RawMessage) : option string :=
  match Unmarshal (into_struct [("id", into_string)]) raw EmptyString with
  | inr id => Some id
  | inl _ => None
  end.

(** ** Operations *)

Definition New (ival : Z) : Discovery := mkDiscovery [] ∅ ∅ ∅ ival false false.

Definition with_models (d : Discovery) m det : Discovery :=
  mkDiscovery (servers d) m det (healthy d) (interval d) (cancel d) (started d).

Definition SetServers (urls : list string) (d : Discovery) : Discovery :=
  mkDiscovery urls (models d) (modelDetails d) (healthy d) (interval d) (cancel d) (started d).

Definition set_running (c s : bool) (d : Discovery) : Discovery :=
  mkDiscovery (servers d) (models d) (modelDetails d) (healthy d) (interval d) c s.

(** [Start]; the boolean says whether a polling goroutine is spawned. *)
Definition Start (d : Discovery) : bool * Discovery :=
  if started d then (false, d) else (true, set_running true true d).

(** [Stop] up to its [wg.Wait], which is the step [Whole.world_wait_discovery] of
    [main]; the boolean says whether the stored cancel function is called. *)
Definition Stop (d : Discovery) : bool * Discovery :=
  (cancel d, set_running false false d).

Definition Models (d : Discovery) : gmap string (list string) := models d.
Definition ModelDetails (d : Discovery) : gmap string RawMessage := modelDetails d.
Definition Healthy (d : Discovery) : gmap string bool := healthy d.
Definition IsHealthy (d : Discovery) (url : string) : bool := default false (healthy d !! url).

Definition ServersForModel (d : Discovery) (model : string) : list string :=
  match models d !! model with
  | None => []
  | Some svs => filter (λ url, IsHealthy d url = true) svs
  end.

Definition setHealthy (url : string) (h : bool) (d : Discovery) : Discovery :=
  mkDiscovery (servers d) (models d) (modelDetails d) (<[url := h]> (healthy d))
    (interval d) (cancel d) (started d).

(** The maps [updateModels] works on. *)
Record UpdateState : Type := mkUpdate {
  u_models : gmap string (list string);
  u_details : gmap string RawMessage;
  u_advertised : gset string
}.

(** One iteration of the first loop of [updateModels]. *)
Definition update_model (url : string) (u : UpdateState) (model : string) : UpdateState :=
  match u_models u !! model with
  | None => u
  | Some svs =>
      let filtered := filter (λ s, s ≠ url) svs in
      let filtered := if decide (model ∈ u_advertised u) then filtered ++ [url] else filtered in
      let adv := u_advertised u ∖ {[model]} in
      if bool_decide (filtered = []) then
        mkUpdate (delete model (u_models u)) (delete model (u_details u)) adv
      else mkUpdate (<[model := filtered]> (u_models u)) (u_details u) adv
  end.

Section poll.
Context `{!MapRange, !Backends}.

Definition updateModels (url : string) (modelIDs : list string) (d : Discovery) : Discovery :=
  let u0 := mkUpdate (models d) (modelDetails d) (list_to_set modelIDs) in
  let u := foldl (update_model url) u0 (range_keys (dom (models d))) in
  with_models d
    (foldl (λ m id, <[id := [url]]> m) (u_models u) (range_keys (u_advertised u)))
    (u_details u).

(** The loop over [body.Data]: the ids, and the metadata of new models. *)
Fixpoint collect (data : list RawMessage) (det : gmap string RawMessage)
    : list string * gmap string RawMessage :=
  match data with
  | [] => ([], det)
  | raw :: data' =>
      match entry_id raw with
      | None => collect data' det
      | Some id =>
          if bool_decide (id = "") then collect data' det
          else
            let det' := match det !! id with Some _ => det | None => <[id := raw]> det end in
            let '(ids, det'') := collect data' det' in (id :: ids, det'')
      end
  end.

(** What [Discover] does with the outcome of one poll. *)
Definition poll (url : string) (d : Discovery) : Discovery :=
  match probe (url +:+ "/v1/models") with
  | NewRequestFailed | RequestFailed | DecodeFailed => setHealthy url false d
  | Decoded data =>
      let '(ids, det) := collect data (modelDetails d) in
      setHealthy url true (updateModels url ids (with_models d (models d) det))
  end.

(** The loop of [Discover].  [ctx n] is what the [n]-th look at the context
    shows. *)
Fixpoint discover_loop (ctx : nat → option error) (n : nat) (urls : list string)
    (d : Discovery) : option error * Discovery :=
  match urls with
  | [] => (None, d)
  | url :: urls' =>
      match ctx n with
      | Some e => (Some e, d)
      | None =>
          let d' := poll url d in
          match probe (url +:+ "/v1/models"), ctx (S n) with
          | RequestFailed, Some e => (Some e, d')
          | RequestFailed, None => discover_loop ctx (S (S n)) urls' d'
          | _, _ => discover_loop ctx (S n) urls' d'
          end
      end
  end.

Definition Discover (ctx : nat → option error) (d : Discovery) : option error * Discovery :=
  match ctx 0%nat with
  | Some e => (Some e, d)
  | None => discover_loop ctx 1 (servers d) d
  end.
End poll.

#[export] Instance Discovery_index : IndexOps Discovery := {
  index_ServersForModel := ServersForModel
}.

(** ** The effect of [updateModels], key by key *)

(** The servers of a model after [url] advertised it ([adv]) or not. *)
Definition served (url : string) (adv : bool) (old : list string) : list string :=
  filter (λ s, s ≠ url) old ++ (if adv then [url] else []).

Definition nonempty (l : list string) : option (list string) :=
  if bool_decide (l = []) then None else Some l.

Lemma update_model_other url u model m :
  m ≠ model →
  let u' := update_model url u model in
  u_models u' !! m = u_models u !! m ∧ u_details u' !! m = u_details u !! m ∧
  (m ∈ u_advertised u' ↔ m ∈ u_advertised u).
Proof.
  intros Hm. unfold update_model. simpl. destruct (u_models u !! model); [|done].
  case_bool_decide; simpl; rewrite ?lookup_delete_ne, ?lookup_insert_ne by done;
    (split_and!; [done|done|set_solver]).
Qed.

Lemma update_model_same url u m old :
  u_models u !! m = Some old →
  let u' := update_model url u m in
  let l := served url (bool_decide (m ∈ u_advertised u)) old in
  u_models u' !! m = nonempty l ∧
  u_details u' !! m = (if bool_decide (l = []) then None else u_details u !! m) ∧
  m ∉ u_advertised u'.
Proof.
  intros Hm. unfold update_model, served, nonempty. rewrite Hm. simpl.
  replace (if decide (m ∈ u_advertised u) then filter (λ s, s ≠ url) old ++ [url]
           else filter (λ s, s ≠ url) old)
    with (filter (λ s, s ≠ url) old ++
          (if bool_decide (m ∈ u_advertised u) then [url] else []))
    by (case_decide; [by rewrite bool_decide_eq_true_2|
                      by rewrite bool_decide_eq_false_2, app_nil_r]).
  case_bool_decide; simpl; rewrite ?lookup_delete_eq, ?lookup_insert_eq;
    (split_and!; [done|done|set_solver]).
Qed.

Lemma update_models_lookup url order u m :
  NoDup order →
  let u' := foldl (update_model url) u order in
  if decide (m ∈ order ∧ is_Some (u_models u !! m)) then
    let l := served url (bool_decide (m ∈ u_advertised u)) (default [] (u_models u !! m)) in
    u_models u' !! m = nonempty l ∧
    u_details u' !! m = (if bool_decide (l = []) then None else u_details u !! m) ∧
    m ∉ u_advertised u'
  else
    u_models u' !! m = u_models u !! m ∧ u_details u' !! m = u_details u !! m ∧
    (m ∈ u_advertised u' ↔ m ∈ u_advertised u).
Proof.
  revert u. induction order as [|k order IH]; intros u Hnd; simpl.
  { done. }
  apply NoDup_cons in Hnd as [Hk Hnd]. specialize (IH (update_model url u k) Hnd).
  simpl in IH. destruct (decide (m = k)) as [->|Hne].
  - rewrite decide_False in IH by (intros [? _]; done). destruct IH as (-> & -> & Ha).
    destruct (u_models u !! k) as [old|] eqn:Hold.
    + rewrite decide_True by (split; [by left|by eexists]). simpl.
      destruct (update_model_same url u k old Hold) as (? & ? & ?).
      split_and!; [done|done|]. by rewrite Ha.
    + rewrite decide_False by (intros [_ [? ?]]; done).
      unfold update_model in *. rewrite Hold in *. done.
  - destruct (update_model_other url u k m Hne) as (Hm & Hd & Ha).
    rewrite Hm, Hd in IH. rewrite (bool_decide_ext _ _ Ha) in IH.
    destruct (decide (m ∈ order ∧ is_Some (u_models u !! m))) as [[? ?]|Hno].
    + rewrite decide_True by (split; [by right|done]). done.
    + rewrite decide_False by (intros [[->|?]%elem_of_cons ?]; tauto).
      destruct IH as (-> & -> & IH). rewrite IH. done.
Qed.

Section poll_facts.
Context `{!MapRange, !MapRangeLaw, !Backends}.

Lemma elem_of_range_keys X m : m ∈ range_keys X ↔ m ∈ X.
Proof. by rewrite range_keys_perm, elem_of_elements. Qed.

Lemma NoDup_range_keys X : NoDup (range_keys X).
Proof. rewrite range_keys_perm. apply NoDup_elements. Qed.

Lemma insert_keys_lookup (url : string) (keys : list string) (ms : gmap string (list string)) m :
  foldl (λ m id, <[id := [url]]> m) ms keys !! m =
    if decide (m ∈ keys) then Some [url] else ms !! m.
Proof.
  revert ms. induction keys as [|k keys IH]; intros ms; simpl.
  { done. }
  rewrite IH, lookup_insert.
  destruct (decide (m ∈ keys)).
  - by rewrite decide_True by by right.
  - destruct (decide (k = m)) as [->|].
    + by rewrite decide_True by by left.
    + by rewrite decide_False by (intros [->|?]%elem_of_cons; done).
Qed.

(** The whole of [updateModels], at one model. *)
Lemma updateModels_lookup url ids d m :
  let l := served url (bool_decide (m ∈ ids)) (default [] (models d !! m)) in
  models (updateModels url ids d) !! m = nonempty l ∧
  modelDetails (updateModels url ids d) !! m =
    (if bool_decide (is_Some (models d !! m) ∧ l = []) then None else modelDetails d !! m).
Proof.
  unfold updateModels. simpl. rewrite insert_keys_lookup.
  pose proof (update_models_lookup url (range_keys (dom (models d)))
    (mkUpdate (models d) (modelDetails d) (list_to_set ids)) m
    (NoDup_range_keys _)) as Hl. simpl in Hl.
  set (u' := foldl _ _ _) in *.
  rewrite (bool_decide_ext (m ∈ list_to_set ids) (m ∈ ids)) in Hl
    by apply elem_of_list_to_set.
  destruct (models d !! m) as [old|] eqn:Hold; simpl.
  - rewrite decide_True in Hl by
      (rewrite elem_of_range_keys, elem_of_dom, Hold; split; by eexists).
    simpl in Hl. destruct Hl as (-> & -> & Hn).
    rewrite decide_False by by rewrite elem_of_range_keys. split; [done|].
    assert (is_Some (Some old)) by by eexists.
    repeat case_bool_decide; done || tauto.
  - rewrite decide_False in Hl by (intros [_ [? ?]]; done). destruct Hl as (-> & -> & Hn).
    split; [|done]. rewrite elem_of_list_to_set in Hn.
    unfold nonempty, served. simpl. destruct (decide (m ∈ ids)).
    + by rewrite decide_True, (bool_decide_eq_true_2 (m ∈ ids)) by
        (rewrite ?elem_of_range_keys; tauto).
    + by rewrite decide_False, (bool_decide_eq_false_2 (m ∈ ids)) by
        (rewrite ?elem_of_range_keys; tauto).
Qed.

Lemma models_setHealthy url h d : models (setHealthy url h d) = models d.
Proof. done. Qed.

Lemma details_setHealthy url h d : modelDetails (setHealthy url h d) = modelDetails d.
Proof. done. Qed.

Lemma healthy_updateModels url ids d : healthy (updateModels url ids d) = healthy d.
Proof. done. Qed.

(** The ids a models response advertises. *)
Definition advertised_id (raw : RawMessage) : option string :=
  match entry_id raw with
  | Some id => if bool_decide (id = "") then None else Some id
  | None => None
  end.
Definition entry_ids (data : list RawMessage) : list string := omap advertised_id data.

(** The entry of model [m] that comes first. *)
Definition first_entry (m : string) (data : list RawMessage) : option RawMessage :=
  head (filter (λ raw, advertised_id raw = Some m) data).

Lemma first_entry_cons m raw data :
  first_entry m (raw :: data) =
    if decide (advertised_id raw = Some m) then Some raw else first_entry m data.
Proof. unfold first_entry. rewrite filter_cons. by case_decide. Qed.

Lemma collect_cons raw data det :
  collect (raw :: data) det =
    match advertised_id raw with
    | None => collect data det
    | Some id =>
        let '(ids, det') := collect data
          (match det !! id with Some _ => det | None => <[id := raw]> det end) in
        (id :: ids, det')
    end.
Proof.
  simpl. unfold advertised_id. destruct (entry_id raw) as [id|]; [|done].
  by case_bool_decide.
Qed.

Lemma collect_spec data det :
  let '(ids, det') := collect data det in
  ids = entry_ids data ∧
  ∀ m, det' !! m = match det !! m with Some r => Some r | None => first_entry m data end.
Proof.
  revert det. induction data as [|raw data IH]; intros det.
  { split; [done|]. intros m. simpl. by destruct (det !! m). }
  rewrite collect_cons. simpl.
  destruct (advertised_id raw) as [id|] eqn:Hraw.
  2:{ specialize (IH det). destruct (collect data det) as [ids det'].
      destruct IH as [-> IH]. split; [done|]. intros m.
      by rewrite IH, first_entry_cons, Hraw, decide_False. }
  specialize (IH (match det !! id with Some _ => det | None => <[id:=raw]> det end)).
  destruct (collect data _) as [ids det']. destruct IH as [-> IH].
  split; [done|]. intros m. rewrite IH, first_entry_cons, Hraw.
  destruct (decide (m = id)) as [->|Hne].
  - rewrite decide_True by done.
    destruct (det !! id) eqn:E; [by rewrite E|by rewrite lookup_insert_eq].
  - rewrite decide_False by (intros [= ?]; congruence).
    destruct (det !! id); [done|]. by rewrite lookup_insert_ne by congruence.
Qed.

(** What a poll does to the three maps. *)
Lemma poll_decoded url d data :
  probe (url +:+ "/v1/models") = Decoded data →
  ∃ det, (∀ m, det !! m = match modelDetails d !! m with
                          | Some r => Some r | None => first_entry m data end) ∧
  poll url d = setHealthy url true
    (updateModels url (entry_ids data) (with_models d (models d) det)).
Proof.
  intros Hp. unfold poll. rewrite Hp. pose proof (collect_spec data (modelDetails d)) as Hc.
  destruct (collect _ _) as [ids det]. destruct Hc as [-> Hc]. eauto.
Qed.

Lemma elem_of_served s url (adv : bool) old :
  s ∈ served url adv old ↔ s ≠ url ∧ s ∈ old ∨ adv = true ∧ s = url.
Proof.
  unfold served. rewrite elem_of_app, list_elem_of_filter.
  destruct adv; set_solver.
Qed.

Lemma elem_of_nonempty (s : string) l : s ∈ default [] (nonempty l) ↔ s ∈ l.
Proof. unfold nonempty. by case_bool_decide; subst. Qed.

(** The server [url] is a candidate for model [m]. *)
Definition routed (d : Discovery) (url m : string) : Prop := url ∈ ServersForModel d m.

Lemma routed_alt d url m :
  routed d url m ↔ IsHealthy d url = true ∧ url ∈ default [] (models d !! m).
Proof.
  unfold routed, ServersForModel. destruct (models d !! m) as [l|]; simpl.
  - by rewrite list_elem_of_filter.
  - split; [by intros ?%elem_of_nil|by intros [_ ?%elem_of_nil]].
Qed.

Lemma IsHealthy_setHealthy url h d url' :
  IsHealthy (setHealthy url h d) url' =
    if decide (url' = url) then h else IsHealthy d url'.
Proof.
  unfold IsHealthy. simpl. rewrite lookup_insert.
  destruct (decide (url = url')), (decide (url' = url)); congruence || done.
Qed.

Lemma poll_self url d m :
  routed (poll url d) url m ↔
  ∃ data, probe (url +:+ "/v1/models") = Decoded data ∧ m ∈ entry_ids data.
Proof.
  rewrite routed_alt.
  destruct (probe (url +:+ "/v1/models")) as [| | |data] eqn:Hp.
  4:{ destruct (poll_decoded url d data Hp) as (det & _ & ->).
      rewrite IsHealthy_setHealthy, decide_True, models_setHealthy by done.
      destruct (updateModels_lookup url (entry_ids data) (with_models d (models d) det) m)
        as [-> _].
      rewrite elem_of_nonempty, elem_of_served, bool_decide_eq_true.
      split; [intros [_ [[? _]|[? _]]]; eauto; done|].
      intros (data' & [= <-] & ?). auto. }
  all: unfold poll; rewrite Hp, IsHealthy_setHealthy, decide_True by done;
    split; [by intros [? _]|by intros (? & ? & _)].
Qed.

Lemma poll_other url url' d m :
  url' ≠ url → routed (poll url d) url' m ↔ routed d url' m.
Proof.
  intros Hne. rewrite !routed_alt.
  destruct (probe (url +:+ "/v1/models")) as [| | |data] eqn:Hp.
  4:{ destruct (poll_decoded url d data Hp) as (det & _ & ->).
      rewrite IsHealthy_setHealthy, decide_False, models_setHealthy by done.
      destruct (updateModels_lookup url (entry_ids data) (with_models d (models d) det) m)
        as [-> _].
      rewrite elem_of_nonempty, elem_of_served. simpl.
      assert (IsHealthy (updateModels url (entry_ids data) (with_models d (models d) det)) url'
        = IsHealthy d url') as -> by done. naive_solver. }
  all: unfold poll; rewrite Hp, IsHealthy_setHealthy, decide_False by done; done.
Qed.

Lemma poll_servers url d : servers (poll url d) = servers d.
Proof. unfold poll. destruct (probe _); [done..|]. by destruct (collect _ _). Qed.

(** ** Well-formed indexes *)

(** No model without a server, no server twice, metadata for exactly the
    models that are served. *)
Definition disc_wf (d : Discovery) : Prop :=
  (∀ m l, models d !! m = Some l → l ≠ [] ∧ NoDup l) ∧
  dom (modelDetails d) = dom (models d).

Lemma served_NoDup url adv old : NoDup old → NoDup (served url adv old).
Proof.
  intros Hnd. unfold served. apply NoDup_app. split_and!.
  - by apply NoDup_filter.
  - intros x [Hx _]%list_elem_of_filter Hin. destruct adv; set_solver.
  - destruct adv; [apply NoDup_singleton|constructor].
Qed.

Lemma first_entry_None m data :
  m ∉ entry_ids data → first_entry m data = None.
Proof.
  induction data as [|raw data IH]; [done|].
  rewrite first_entry_cons. unfold entry_ids in *. simpl.
  destruct (advertised_id raw) as [id|]; intros Hm.
  - rewrite not_elem_of_cons in Hm. rewrite decide_False by (intros [= ->]; tauto). tauto.
  - by rewrite decide_False, IH by done.
Qed.

Lemma first_entry_Some m data :
  m ∈ entry_ids data → is_Some (first_entry m data).
Proof.
  induction data as [|raw data IH]; [by intros ?%elem_of_nil|].
  rewrite first_entry_cons. unfold entry_ids in *. simpl.
  destruct (advertised_id raw) as [id|]; [|by rewrite decide_False].
  intros [->|?]%elem_of_cons; [by rewrite decide_True|].
  case_decide; [done|by apply IH].
Qed.

Lemma served_nil url (adv : bool) old :
  served url adv old = [] ↔ adv = false ∧ ∀ s, s ∈ old → s = url.
Proof.
  split.
  - intros Hnil. split.
    + destruct adv; [|done]. unfold served in Hnil. by destruct (filter _ old).
    + intros s Hs. destruct (decide (s = url)) as [|Hne]; [done|].
      assert (s ∈ served url adv old) as Hin by (apply elem_of_served; auto).
      rewrite Hnil in Hin. by apply elem_of_nil in Hin.
  - intros [-> Hall]. destruct (served url false old) as [|s l] eqn:E; [done|].
    assert (s ∈ served url false old) as [[Hne Hin]|[? ?]]%elem_of_served
      by (rewrite E; left); [|done].
    exfalso. apply Hne. by apply Hall.
Qed.

Lemma poll_wf url d : disc_wf d → disc_wf (poll url d).
Proof.
  intros [Hl Hd]. destruct (probe (url +:+ "/v1/models")) as [| | |data] eqn:Hp;
    [unfold poll; by rewrite Hp..|].
  destruct (poll_decoded url d data Hp) as (det & Hdet & ->).
  pose proof (updateModels_lookup url (entry_ids data) (with_models d (models d) det)) as Hu.
  split.
  - intros m l. rewrite models_setHealthy. destruct (Hu m) as [-> _].
    unfold nonempty. case_bool_decide; [done|]. intros [= <-]. split; [done|].
    apply served_NoDup. simpl. destruct (models d !! m) as [old|] eqn:E; simpl;
      [by apply (Hl m)|constructor].
  - apply set_eq. intros m. rewrite !elem_of_dom, models_setHealthy, details_setHealthy.
    destruct (Hu m) as [-> ->]. simpl. rewrite Hdet.
    assert (is_Some (modelDetails d !! m) ↔ is_Some (models d !! m)) as Hdm
      by (rewrite <- !elem_of_dom, Hd; done).
    set (l := served url (bool_decide (m ∈ entry_ids data)) (default [] (models d !! m))).
    unfold nonempty. case_bool_decide as Hd0; case_bool_decide as Hl0.
    + done.
    + tauto.
    + split; [|done]. intros Hs. exfalso. apply Hd0. split; [|done].
      apply served_nil in Hl0 as [Hm _]. apply bool_decide_eq_false in Hm.
      rewrite (first_entry_None _ _ Hm) in Hs. apply Hdm.
      by destruct (modelDetails d !! m).
    + split; [by eexists|]. intros _. destruct (modelDetails d !! m) eqn:E; [by eexists|].
      apply first_entry_Some. destruct (decide (m ∈ entry_ids data)) as [|Hm]; [done|].
      exfalso. apply Hl0. unfold l. rewrite bool_decide_eq_false_2 by done.
      destruct (models d !! m) eqn:E2; [|done].
      destruct (proj2 Hdm) as [? ?]; [by eexists|done].
Qed.

Lemma discover_loop_ind (Q : Discovery → Prop) ctx n urls d :
  (∀ url d, url ∈ urls → Q d → Q (poll url d)) → Q d → Q (snd (discover_loop ctx n urls d)).
Proof.
  revert n d. induction urls as [|url urls IH]; intros n d Hq Hd; simpl; [done|].
  assert (Q (poll url d)) as Hp by (apply Hq; [left|done]).
  assert (∀ url d, url ∈ urls → Q d → Q (poll url d)) as Hq' by (intros; apply Hq; [by right|done]).
  destruct (ctx n); [done|].
  destruct (probe _); try (by apply IH). destruct (ctx (S n)); [done|by apply IH].
Qed.

Lemma discover_loop_live n urls d :
  discover_loop (λ _, None) n urls d = (None, foldl (λ d url, poll url d) d urls).
Proof.
  revert n d. induction urls as [|url urls IH]; intros n d; simpl; [done|].
  destruct (probe _); apply IH.
Qed.
End poll_facts.

(** ** Theorems *)

Section theorems.
Context `{!MapRange, !MapRangeLaw, !Backends}.

(** [C13] After a complete poll, and for every server that is polled, the
    router's view is exactly what the servers answered: a server is a
    candidate for a model if and only if it answered, and its answer listed
    the model.  This holds from any state, so nothing an earlier poll
    recorded about these servers survives. *)
Theorem Discover_reflects_answers d url m :
  url ∈ servers d →
  let '(err, d') := Discover (λ _, None) d in
  err = None ∧
  (url ∈ ServersForModel d' m ↔
   ∃ data, probe (url +:+ "/v1/models") = Decoded data ∧ m ∈ entry_ids data).
Proof.
  intros Hin. unfold Discover. rewrite discover_loop_live. split; [done|].
  fold (routed (foldl (λ d url, poll url d) d (servers d)) url m).
  revert Hin. generalize d at 2 as d0. generalize (servers d) as urls.
  intros urls d0 Hin.
  assert (∀ urls d1, routed d1 url m ↔
      (∃ data, probe (url +:+ "/v1/models") = Decoded data ∧ m ∈ entry_ids data) →
    routed (foldl (λ d url, poll url d) d1 urls) url m ↔
      ∃ data, probe (url +:+ "/v1/models") = Decoded data ∧ m ∈ entry_ids data) as Hstable.
  { clear Hin. intros us. induction us as [|u us IH]; intros d1 Hd1; simpl; [done|].
    apply IH. destruct (decide (url = u)) as [->|]; [apply poll_self|].
    by rewrite poll_other. }
  revert d0. induction urls as [|u urls IH]; [by apply elem_of_nil in Hin|].
  intros d0. simpl. apply elem_of_cons in Hin as [->|Hin]; [|by apply IH].
  apply Hstable, poll_self.
Qed.

(** Polling never touches a server that is not on the list: a server
    that was removed from the configuration stays a candidate for the models
    it last advertised, poll after poll. *)
Theorem Discover_keeps_unlisted ctx d url m :
  url ∉ servers d →
  url ∈ ServersForModel (snd (Discover ctx d)) m ↔ url ∈ ServersForModel d m.
Proof.
  intros Hni. unfold Discover. destruct (ctx 0%nat); [done|].
  apply (discover_loop_ind (λ d', url ∈ ServersForModel d' m ↔ url ∈ ServersForModel d m));
    [|done].
  intros u d' Hu <-. apply poll_other. by intros ->.
Qed.

(** The index stays well formed whatever the servers answer and wherever
    the context is cancelled: every model has a server, no server is listed
    twice for a model, and there is metadata for exactly the models that are
    served. *)
Theorem Discover_wf ctx d : disc_wf d → disc_wf (snd (Discover ctx d)).
Proof.
  intros Hd. unfold Discover. destruct (ctx 0%nat); [done|].
  apply discover_loop_ind; [|done]. intros u d' _. apply poll_wf.
Qed.

(** The first server to advertise a model provides its metadata: as long
    as the model is served, a later poll does not replace it, and a model
    that gets served by this poll takes the first entry of the answer. *)
Theorem poll_first_entry_wins url d m :
  disc_wf d → is_Some (models (poll url d) !! m) →
  modelDetails (poll url d) !! m =
    match modelDetails d !! m with
    | Some raw => Some raw
    | None => match probe (url +:+ "/v1/models") with
              | Decoded data => first_entry m data
              | _ => None
              end
    end.
Proof.
  intros Hwf Hs. destruct (probe (url +:+ "/v1/models")) as [| | |data] eqn:Hp;
    [unfold poll; rewrite Hp; simpl; by destruct (modelDetails d !! m)..|].
  destruct (poll_decoded url d data Hp) as (det & Hdet & Heq). rewrite Heq in *.
  rewrite models_setHealthy in Hs. rewrite details_setHealthy.
  destruct (updateModels_lookup url (entry_ids data) (with_models d (models d) det) m)
    as [Hm ->]. rewrite Hm in Hs. simpl in *. rewrite Hdet.
  rewrite bool_decide_eq_false_2; [done|]. intros [_ Hnil].
  rewrite Hnil in Hs. by destruct Hs.
Qed.
End theorems.

(** The order in which Go walks its maps does not matter to
    [updateModels]: any two orders give the same index. *)
Theorem updateModels_order_irrelevant (r1 r2 : MapRange) (l1 : @MapRangeLaw r1)
    (l2 : @MapRangeLaw r2) url ids d :
  @updateModels r1 url ids d = @updateModels r2 url ids d.
Proof.
  pose proof (@updateModels_lookup r1 l1 url ids d) as H1.
  pose proof (@updateModels_lookup r2 l2 url ids d) as H2.
  unfold updateModels, with_models in *. simpl in *. f_equal; apply map_eq; intros m;
    destruct (H1 m) as [Hm1 Hd1], (H2 m) as [Hm2 Hd2]; congruence.
Qed.

(** ** Witnesses *)

Definition sample_range : MapRange := λ X, elements X.
Definition sample_range_rev : MapRange := λ X, reverse (elements X).

(** An entry of a models response. *)
Definition sample_entry (id : string) : RawMessage := quoted ("{'id':'" +:+ id +:+ "','object':'model'}").

(** Two servers: [http://a] serves [m1], [http://b] is down. *)
Definition sample_backends : Backends :=
  {| http_get := λ url,
       if bool_decide (url = "http://a/v1/models")
       then Answered (quoted "{'object': 'list', 'data': [" +:+ sample_entry "m1"
                      +:+ quoted " , {'id':7}]}")
       else DoError |}.

Definition sample_discovery : Discovery := SetServers ["http://a"; "http://b"] (New 15).

Lemma New_wf ival : disc_wf (New ival).
Proof. split; [done|]. simpl. by rewrite !dom_empty_L. Qed.

Section witnesses.
#[local] Existing Instances sample_range sample_backends.
#[local] Instance sample_range_law : MapRangeLaw.
Proof. by intros X. Qed.

Lemma Discover_reflects_answers_witness :
  let '(err, d') := Discover (λ _, None) sample_discovery in
  err = None ∧
  ("http://a" ∈ ServersForModel d' "m1" ↔
   ∃ data, probe "http://a/v1/models" = Decoded data ∧ "m1" ∈ entry_ids data).
Proof. apply (Discover_reflects_answers sample_discovery "http://a" "m1"). left. Defined.

Lemma Discover_keeps_unlisted_witness :
  let d1 := SetServers [] (snd (Discover (λ _, None) sample_discovery)) in
  "http://a" ∈ ServersForModel (snd (Discover (λ _, None) d1)) "m1" ↔
  "http://a" ∈ ServersForModel d1 "m1".
Proof.
  intros d1. apply (Discover_keeps_unlisted (λ _, None) d1). by intros ?%elem_of_nil.
Defined.

Lemma Discover_wf_witness : disc_wf (snd (Discover (λ _, None) sample_discovery)).
Proof. apply Discover_wf. apply (New_wf 15). Defined.

Lemma poll_first_entry_wins_witness :
  modelDetails (poll "http://a" sample_discovery) !! "m1" = Some (sample_entry "m1").
Proof.
  rewrite (poll_first_entry_wins "http://a" sample_discovery "m1" (New_wf 15));
    [vm_compute; reflexivity|by eexists].
Defined.
End witnesses.

Lemma updateModels_order_irrelevant_witness :
  @updateModels sample_range "http://a" ["m1"; "m2"] sample_discovery =
  @updateModels sample_range_rev "http://a" ["m1"; "m2"] sample_discovery.
Proof.
  apply updateModels_order_irrelevant.
  - by intros X.
  - intros X. apply reverse_Permutation.
Defined.
