(* ===== verification/Metrics.v ===== *)
(** * Package [metrics] (src/metrics/metrics.go)

    The collector of the backends' Prometheus metrics, and its parser.  What a
    backend answers at each request is a parameter of the polling loop. *)
From Stdlib Require Import ZArith Lia Ascii SpecFloat.
From stdpp Require Import base tactics option list numbers strings gmap pretty.
From S2P Require Import Prelude GoStrings GoText GoFloat GoNum GoShortest FloatForm.

Open Scope Z_scope.

(** ** Data *)

(** [time.Time] in nanoseconds since 1970; its zero value is the year 1. *)
Definition zero_time : Z := - 62135596800 * 10 ^ 9.

Record ServerMetrics : Type := mkMetrics {
  RequestsRunning : Z;
  RequestsWaiting : Z;
  KVCacheUsagePerc : float64;
  PromptTokensTotal : Z;
  GenTokensTotal : Z;
  PrefillThroughput : float64;
  DecodeThroughput : float64;
  AvgPrefillTimeMS : float64;
  AvgDecodeTimeMS : float64;
  UpdatedAt : Z
}.

Definition f0 : float64 := S754_zero false.

Definition zero_metrics : ServerMetrics := mkMetrics 0 0 f0 0 0 f0 f0 f0 f0 zero_time.

Definition IsZero (m : ServerMetrics) : bool := UpdatedAt m =? zero_time.

Record prevCounters : Type := mkPrev {
  promptTokens : Z;
  genTokens : Z
}.

Record Collector : Type := mkCollector {
  data : gmap string ServerMetrics;
  prev : gmap string prevCounters;
  interval : Z;
  stopCh_closed : bool
}.

(** What a request for [/metrics] meets: an error on the way, a status other
    than 200, or a body that has been read at time [now]. *)
Inductive Scrape : Type :=
  | ScrapeFailed
  | NotOK
  | Scraped (body : string) (now : Z).

(** ** The parser *)

Section parser.
Context `{!IntConversion}.

Definition stripLabels (name : string) : string := cut_at "{" name.

Definition f100 : float64 := float_of_int 100.

(** The [switch] on the name of a metric. *)
Definition set_metric (name raw : string) (m : ServerMetrics) : ServerMetrics :=
  let '(mkMetrics rr rw kv pt gt pth dth ap ad up) := m in
  match ParseFloat raw with
  | None => m
  | Some v =>
      if bool_decide (name = "vllm:num_requests_running") then
        mkMetrics (round_to_int v) rw kv pt gt pth dth ap ad up
      else if bool_decide (name = "vllm:num_requests_waiting") then
        mkMetrics rr (round_to_int v) kv pt gt pth dth ap ad up
      else if bool_decide (name = "vllm:kv_cache_usage_perc") then
        mkMetrics rr rw (fmul v f100) pt gt pth dth ap ad up
      else if bool_decide (name = "vllm:prompt_tokens_total") then
        mkMetrics rr rw kv (round_to_int v) gt pth dth ap ad up
      else if bool_decide (name = "vllm:generation_tokens_total") then
        mkMetrics rr rw kv pt (round_to_int v) pth dth ap ad up
      else m
  end.

(** One line of the body. *)
Definition parse_line (m : ServerMetrics) (line : string) : ServerMetrics :=
  let line := TrimSpace line in
  if bool_decide (line = "") || HasPrefix line "#" then m else
  match Fields line with
  | name :: w :: ws => set_metric (stripLabels name) (List.last ws w) m
  | _ => m
  end.

Definition parsePrometheus (body : string) : ServerMetrics :=
  foldl parse_line zero_metrics (split_byte NL body).
End parser.

(** ** The collector *)

Definition New (ival : Z) : Collector := mkCollector ∅ ∅ ival false.

Definition with_data (c : Collector) d : Collector :=
  mkCollector d (prev c) (interval c) (stopCh_closed c).

(** [if _, ok := c.data[u]; !ok { c.data[u] = &ServerMetrics{} }] for each [u]. *)
Definition add_entries (urls : list string) (d : gmap string ServerMetrics)
    : gmap string ServerMetrics :=
  foldl (λ d u, match d !! u with Some _ => d | None => <[u := zero_metrics]> d end) d urls.

Definition SetServers (urls : list string) (c : Collector) : Collector :=
  with_data c (filter (λ kv, kv.1 ∈ urls) (add_entries urls (data c))).

(** [close(c.stopCh)].  A second call closes a closed channel: [None] is the panic.
    The [wg.Wait] behind it is the step [Whole.world_wait_metrics] of [main]. *)
Definition Stop (c : Collector) : option Collector :=
  if stopCh_closed c then None
  else Some (mkCollector (data c) (prev c) (interval c) true).

Definition Get (c : Collector) (serverURL : string) : option ServerMetrics := data c !! serverURL.

Definition GetAll (c : Collector) : gmap string ServerMetrics := data c.

Definition Remove (serverURL : string) (c : Collector) : Collector :=
  with_data c (delete serverURL (data c)).

(** [t.Sub(u).Seconds()]: a saturating [int64] of nanoseconds, as a float. *)
Definition Sub (t u : Z) : Z := Z.max (- 2 ^ 63) (Z.min (2 ^ 63 - 1) (t - u)).
Definition Seconds (d : Z) : float64 :=
  fadd (float_of_int (Z.quot d (10 ^ 9)))
    (fdiv (float_of_int (Z.rem d (10 ^ 9))) (float_of_int (10 ^ 9))).

Section collect.
Context `{!IntConversion}.

Definition fetchOne (s : Scrape) : option ServerMetrics :=
  match s with
  | ScrapeFailed => None
  | NotOK => Some zero_metrics
  | Scraped body now =>
      let '(mkMetrics rr rw kv pt gt pth dth ap ad _) := parsePrometheus body in
      Some (mkMetrics rr rw kv pt gt pth dth ap ad now)
  end.

(** The rates of [m] against the previous counters and the time [old] of the
    previous poll. *)
Definition set_rates (p : prevCounters) (old : Z) (m : ServerMetrics) : ServerMetrics :=
  let '(mkMetrics rr rw kv pt gt pth dth ap ad up) := m in
  let dt := Seconds (Sub up old) in
  let rate now before := fdiv (float_of_int (wrap64 (now - before))) dt in
  mkMetrics rr rw kv pt gt
    (if flt f0 dt && (0 <? promptTokens p) then rate pt (promptTokens p) else pth)
    (if flt f0 dt && (0 <? genTokens p) then rate gt (genTokens p) else dth)
    ap ad up.

(** One iteration of [fetchAll].  [None] is the panic of [c.data[u].UpdatedAt]
    when [c.data] has no entry for [u]. *)
Definition fetch_one (u : string) (s : Scrape) (c : Collector) : option Collector :=
  match fetchOne s with
  | None => Some c
  | Some m =>
      m' ← match prev c !! u with
           | Some p => old ← data c !! u; Some (set_rates p (UpdatedAt old) m)
           | None => Some m
           end;
      Some (mkCollector (<[u := m']> (data c))
             (<[u := mkPrev (PromptTokensTotal m') (GenTokensTotal m')]> (prev c))
             (interval c) (stopCh_closed c))
  end.

(** [fetchAll]: the [n]-th iteration sees the context error [ctx n] and meets
    [scrape n]. *)
Fixpoint fetchAll (ctx : nat → option error) (scrape : nat → string → Scrape) (n : nat)
    (urls : list string) (c : Collector) : option Collector :=
  match urls with
  | [] => Some c
  | u :: urls' =>
      match ctx n with
      | Some _ => Some c
      | None => c' ← fetch_one u (scrape n u) c; fetchAll ctx scrape (S n) urls' c'
      end
  end.

(** [Start], up to the spawning of the goroutine that repeats [fetchAll]. *)
Definition Start (ctx : nat → option error) (scrape : nat → string → Scrape)
    (urls : list string) (c : Collector) : option Collector :=
  fetchAll ctx scrape 0 urls (with_data c (add_entries urls (data c))).
End collect.

(** ** The samples of a body *)

Lemma Itoa_plain n : 0 <= n → all_plain (Itoa n) = true ∧ Itoa n ≠ "".
Proof.
  intros Hn. assert (Itoa n = pretty (Z.to_N n)) as -> by (unfold Itoa; by destruct n as [|p|p]).
  split; [|apply pretty_N_nonempty].
  pose proof (digits_all_digits _ _ _ (digits_pretty_N (Z.to_N n))) as Hd. revert Hd.
  generalize (pretty (Z.to_N n)) as s. induction s as [|c s IH]; [done|]. simpl.
  intros [Hc Hs]. rewrite IH by done. rewrite andb_true_r. pattern c.
  apply digit_ind; [done|]. repeat constructor.
Qed.

(** The name (labels stripped) and the value token of a line that is neither
    empty nor a comment and has two fields at least. *)
Definition sample_of (line : string) : option (string * string) :=
  let line := TrimSpace line in
  if bool_decide (line = "") || HasPrefix line "#" then None else
  match Fields line with
  | name :: w :: ws => Some (stripLabels name, List.last ws w)
  | _ => None
  end.

Definition samples (body : string) : list (string * string) := omap sample_of (split_byte NL body).

(** The values the samples of metric [name] have, those that do not parse left
    out. *)
Definition values {A} (name : string) (conv : float64 → A) (body : string) : list A :=
  omap (λ s, if bool_decide (s.1 = name) then conv <$> ParseFloat s.2 else None) (samples body).

Section parser_facts.
Context `{!IntConversion}.

Lemma parse_line_sample m line :
  parse_line m line =
    match sample_of line with Some (name, raw) => set_metric name raw m | None => m end.
Proof.
  unfold parse_line, sample_of. destruct (_ || _); [done|].
  by destruct (Fields (TrimSpace line)) as [|name [|w ws]].
Qed.

Lemma parsePrometheus_samples body :
  parsePrometheus body = foldl (λ m s, set_metric s.1 s.2 m) zero_metrics (samples body).
Proof.
  unfold parsePrometheus, samples. generalize zero_metrics as m.
  induction (split_byte NL body) as [|line lines IH]; intros m; [done|]. simpl.
  rewrite parse_line_sample. destruct (sample_of line) as [[name raw]|]; simpl; apply IH.
Qed.

(** A field that [set_metric] sets from the samples of one metric. *)
Definition field_of {A} (get : ServerMetrics → A) (name : string) (conv : float64 → A) : Prop :=
  ∀ n raw m, get (set_metric n raw m) =
    if bool_decide (n = name) then default (get m) (conv <$> ParseFloat raw) else get m.

Lemma field_last {A} (get : ServerMetrics → A) name conv body :
  field_of get name conv →
  get (parsePrometheus body) = default (get zero_metrics) (last (values name conv body)).
Proof.
  intros Hf. rewrite parsePrometheus_samples. unfold values.
  induction (samples body) as [|[n raw] l IH] using rev_ind; [done|].
  rewrite foldl_app, omap_app. simpl. rewrite Hf, IH.
  case_bool_decide; [|by rewrite app_nil_r].
  destruct (ParseFloat raw); simpl; [by rewrite last_snoc|by rewrite app_nil_r].
Qed.

(** A field that no metric of the body sets. *)
Lemma field_const {A} (get : ServerMetrics → A) body :
  (∀ n raw m, get (set_metric n raw m) = get m) →
  get (parsePrometheus body) = get zero_metrics.
Proof.
  intros Hf. rewrite parsePrometheus_samples.
  induction (samples body) as [|[n raw] l IH] using rev_ind; [done|].
  by rewrite foldl_app, <- IH; simpl; rewrite Hf.
Qed.

Ltac set_metric_cases :=
  intros ? ? []; unfold set_metric; simpl;
  destruct (ParseFloat _); [|by repeat case_match];
  repeat (case_bool_decide; simplify_eq/=); done.

Lemma field_running : field_of RequestsRunning "vllm:num_requests_running" round_to_int.
Proof. set_metric_cases. Qed.
Lemma field_waiting : field_of RequestsWaiting "vllm:num_requests_waiting" round_to_int.
Proof. set_metric_cases. Qed.
Lemma field_kv : field_of KVCacheUsagePerc "vllm:kv_cache_usage_perc" (λ v, fmul v f100).
Proof. set_metric_cases. Qed.
Lemma field_prompt : field_of PromptTokensTotal "vllm:prompt_tokens_total" round_to_int.
Proof. set_metric_cases. Qed.
Lemma field_gen : field_of GenTokensTotal "vllm:generation_tokens_total" round_to_int.
Proof. set_metric_cases. Qed.

Lemma rates_const body : PrefillThroughput (parsePrometheus body) = f0 ∧
                         DecodeThroughput (parsePrometheus body) = f0.
Proof.
  split; [apply (field_const PrefillThroughput)|apply (field_const DecodeThroughput)];
    set_metric_cases.
Qed.

(** The line [name{labels} value]. *)
Lemma sample_of_line name labels value :
  all_plain name = true → all_plain labels = true → all_plain value = true →
  value ≠ "" → name ≠ "" → HasPrefix name "#" = false → no_byte "{" name →
  sample_of (name +:+ "{" +:+ labels +:+ "} " +:+ value) = Some (name, value).
Proof.
  intros Hn Hl Hv Hv0 Hn0 Hh Hb.
  assert (name +:+ "{" +:+ labels +:+ "} " +:+ value =
    (name +:+ "{" +:+ labels +:+ "}") +:+ " " +:+ value) as ->
    by (by rewrite !string_app_assoc).
  set (w := name +:+ "{" +:+ labels +:+ "}").
  assert (all_plain w = true) as Hw by (unfold w; by rewrite !all_plain_app, Hn, Hl).
  assert (w ≠ "") as Hw0 by (unfold w; by destruct name).
  destruct (two_words w value Hw Hv Hw0 Hv0) as [Ht Hf]. unfold sample_of. rewrite Ht, Hf.
  rewrite bool_decide_false by (by destruct w).
  assert (HasPrefix (w +:+ " " +:+ value) "#" = false) as ->.
  { unfold w. destruct name as [|c name]; [done|]. rewrite HasPrefix_byte in Hh.
    change ((String c name +:+ "{" +:+ labels +:+ "}") +:+ " " +:+ value)
      with (String c ((name +:+ "{" +:+ labels +:+ "}") +:+ " " +:+ value)).
    by rewrite HasPrefix_byte. }
  simpl. unfold stripLabels, w. do 2 f_equal. clear -Hb.
  induction name as [|c name IH]; [done|]. destruct Hb as [Hc Hb].
  change (String c name +:+ "{" +:+ labels +:+ "}")
    with (String c (name +:+ "{" +:+ labels +:+ "}")).
  simpl. by rewrite bool_decide_false, IH.
Qed.
End parser_facts.

(** ** The collector's maps *)

Lemma add_entries_lookup urls d u :
  add_entries urls d !! u =
    match d !! u with
    | Some m => Some m
    | None => if decide (u ∈ urls) then Some zero_metrics else None
    end.
Proof.
  unfold add_entries. revert d. induction urls as [|v urls IH]; intros d; simpl.
  { by destruct (d !! u). }
  rewrite IH. destruct (d !! v) as [m|] eqn:Hv.
  - destruct (d !! u) as [m'|] eqn:Hu; [done|]. assert (u ≠ v) by congruence.
    destruct (decide (u ∈ urls)), (decide (u ∈ v :: urls)); set_solver.
  - rewrite lookup_insert. destruct (decide (v = u)) as [->|].
    + rewrite Hv. by rewrite decide_True by left.
    + destruct (d !! u); [done|].
      destruct (decide (u ∈ urls)), (decide (u ∈ v :: urls)); set_solver.
Qed.

Lemma SetServers_lookup urls c u :
  data (SetServers urls c) !! u =
    if decide (u ∈ urls) then Some (default zero_metrics (data c !! u)) else None.
Proof.
  unfold SetServers. simpl. destruct (decide (u ∈ urls)) as [Hu|Hu].
  - apply map_lookup_filter_Some. split; [|done]. rewrite add_entries_lookup.
    destruct (data c !! u); [done|]. by rewrite decide_True.
  - apply map_lookup_filter_None. right. by intros m _.
Qed.

(** *** The values kept are floats *)

(** The floats of a scrape are values of the type [float64]. *)
Definition metrics_ok (m : ServerMetrics) : Prop :=
  float_ok (KVCacheUsagePerc m) ∧ float_ok (PrefillThroughput m) ∧
  float_ok (DecodeThroughput m) ∧ float_ok (AvgPrefillTimeMS m) ∧ float_ok (AvgDecodeTimeMS m).

Definition collector_ok (c : Collector) : Prop := map_Forall (λ _ m, metrics_ok m) (data c).

Lemma add_entries_ok urls d :
  map_Forall (λ _ m, metrics_ok m) d → map_Forall (λ _ m, metrics_ok m) (add_entries urls d).
Proof.
  intros Hd u m. rewrite add_entries_lookup. destruct (d !! u) eqn:Hu.
  - intros [= <-]. by apply (Hd u).
  - case_decide; [|done]. by intros [= <-].
Qed.

Lemma SetServers_ok urls c : collector_ok c → collector_ok (SetServers urls c).
Proof.
  intros Hc u m. rewrite SetServers_lookup. case_decide; [|done]. intros [= <-].
  destruct (data c !! u) eqn:Hu; [by apply (Hc u)|done].
Qed.

Lemma New_ok ival : collector_ok (New ival).
Proof. by intros ? ?. Qed.

Section collect_ok.
Context `{!IntConversion}.

Lemma set_metric_ok name raw m : metrics_ok m → metrics_ok (set_metric name raw m).
Proof.
  destruct m as [rr rw kv pt gt pth dth ap ad up]. intros (? & ? & ? & ? & ?). unfold set_metric.
  destruct (ParseFloat raw) as [v|] eqn:Hv; [|done].
  assert (float_ok (fmul v f100)) by (apply fmul_ok; [by eapply ParseFloat_float_ok|done]).
  by repeat case_bool_decide.
Qed.

Lemma parsePrometheus_ok body : metrics_ok (parsePrometheus body).
Proof.
  rewrite parsePrometheus_samples.
  induction (samples body) as [|x l IH] using rev_ind; [done|].
  rewrite foldl_app. by apply set_metric_ok.
Qed.

Lemma fetchOne_ok s m : fetchOne s = Some m → metrics_ok m.
Proof.
  destruct s as [| |body now]; [done|by intros [= <-]|]. pose proof (parsePrometheus_ok body) as Hp.
  unfold fetchOne. destruct (parsePrometheus body). by intros [= <-].
Qed.

Lemma set_rates_ok p old m : metrics_ok m → metrics_ok (set_rates p old m).
Proof.
  destruct m. intros (? & ? & ? & ? & ?). unfold set_rates.
  split_and!; simpl; try done; case_match; done || apply fdiv_ok.
Qed.

Lemma fetch_one_ok u s c c' : fetch_one u s c = Some c' → collector_ok c → collector_ok c'.
Proof.
  unfold fetch_one. destruct (fetchOne s) as [m|] eqn:Hm; [|by intros [= <-]].
  apply fetchOne_ok in Hm.
  destruct (match prev c !! u with Some _ => _ | None => _ end) as [m'|] eqn:Hm'; [|done].
  intros [= <-] Hc. apply map_Forall_insert_2; [|done].
  destruct (prev c !! u) as [p|]; [|by injection Hm' as <-].
  destruct (data c !! u); [|done]. injection Hm' as <-. by apply set_rates_ok.
Qed.

Lemma fetchAll_ok ctx scrape n urls c c' :
  fetchAll ctx scrape n urls c = Some c' → collector_ok c → collector_ok c'.
Proof.
  revert n c. induction urls as [|u urls IH]; intros n c; simpl; [by intros [= <-]|].
  destruct (ctx n); [by intros [= <-]|].
  destruct (fetch_one u (scrape n u) c) as [c1|] eqn:Hf; [|done].
  intros Hr Hc. eapply IH; [exact Hr|]. by eapply fetch_one_ok.
Qed.

Lemma Start_ok ctx scrape urls c c' :
  Start ctx scrape urls c = Some c' → collector_ok c → collector_ok c'.
Proof. intros Hs Hc. eapply fetchAll_ok; [exact Hs|]. by apply add_entries_ok. Qed.
End collect_ok.

(** No counters are kept for a server whose entry is gone. *)
Definition collector_wf (c : Collector) : Prop := dom (prev c) ⊆ dom (data c).

Section collect_facts.
Context `{!IntConversion}.

Lemma fetch_one_wf u s c :
  collector_wf c → ∃ c', fetch_one u s c = Some c' ∧ collector_wf c'.
Proof.
  intros Hwf. unfold fetch_one. destruct (fetchOne s) as [m|]; [|by exists c].
  assert (∃ m', (match prev c !! u with
    | Some p => old ← data c !! u; Some (set_rates p (UpdatedAt old) m)
    | None => Some m end) = Some m') as [m' ->].
  { destruct (prev c !! u) as [p|] eqn:Hp; [|by eexists].
    destruct (data c !! u) as [old|] eqn:Hd; [by eexists|]. exfalso.
    assert (u ∈ dom (data c)) as [? ?]%elem_of_dom by (apply Hwf, elem_of_dom; by eexists).
    congruence. }
  eexists. split; [done|]. unfold collector_wf in *. simpl. set_solver.
Qed.

Lemma fetchAll_wf ctx scrape n urls c :
  collector_wf c → ∃ c', fetchAll ctx scrape n urls c = Some c' ∧ collector_wf c'.
Proof.
  revert n c. induction urls as [|u urls IH]; intros n c Hwf; simpl; [by exists c|].
  destruct (ctx n); [by exists c|].
  destruct (fetch_one_wf u (scrape n u) c Hwf) as (c' & -> & Hwf'). by apply IH.
Qed.

(** ** Theorems *)

(** [C39] The parser reports, for each of the five metrics it knows, the value of
    the last sample of that name that parses, rounded or scaled, and zero
    when there is none; labels, comments, blank lines, and metrics of other
    names make no difference, and the rates are left at zero. *)
Theorem parsePrometheus_last_sample body :
  let m := parsePrometheus body in
  RequestsRunning m = default 0 (last (values "vllm:num_requests_running" round_to_int body)) ∧
  RequestsWaiting m = default 0 (last (values "vllm:num_requests_waiting" round_to_int body)) ∧
  KVCacheUsagePerc m =
    default f0 (last (values "vllm:kv_cache_usage_perc" (λ v, fmul v f100) body)) ∧
  PromptTokensTotal m = default 0 (last (values "vllm:prompt_tokens_total" round_to_int body)) ∧
  GenTokensTotal m = default 0 (last (values "vllm:generation_tokens_total" round_to_int body)) ∧
  PrefillThroughput m = f0 ∧ DecodeThroughput m = f0.
Proof.
  cbn zeta. rewrite (field_last _ _ _ _ field_running), (field_last _ _ _ _ field_waiting),
    (field_last _ _ _ _ field_kv), (field_last _ _ _ _ field_prompt),
    (field_last _ _ _ _ field_gen).
  destruct (rates_const body) as [-> ->]. done.
Qed.

(** A token counter below 2^53 that a backend prints as an integer is read
    back exactly, whatever its labels (without white space). *)
Theorem parsePrometheus_counter_exact labels n :
  all_plain labels = true → 0 <= n < 2 ^ 53 →
  PromptTokensTotal
    (parsePrometheus ("vllm:prompt_tokens_total{" +:+ labels +:+ "} " +:+ Itoa n)) = n.
Proof.
  intros Hl Hn. rewrite (field_last _ _ _ _ field_prompt).
  destruct (ParseFloat_Itoa n Hn) as (x & Hx & Hr).
  pose proof (Itoa_plain n ltac:(lia)) as [Hp Hne].
  unfold values, samples. rewrite split_byte_single.
  - assert ("vllm:prompt_tokens_total{" +:+ labels +:+ "} " +:+ Itoa n =
      "vllm:prompt_tokens_total" +:+ "{" +:+ labels +:+ "} " +:+ Itoa n) as -> by done.
    cbn [omap list_omap]. rewrite sample_of_line by (done || by repeat split).
    cbn [omap list_omap fst snd]. rewrite bool_decide_true, Hx by done. simpl. unfold round_to_int. rewrite Hr, decide_True; [done|].
    unfold int64. lia.
  - rewrite !no_byte_app. split_and!; try by repeat split.
    + by apply plain_no_byte.
    + by apply plain_no_byte.
Qed.

(** From a state without orphaned counters the polling loop runs without a
    panic to such a state, whatever the servers answer and wherever the
    context is cancelled; this includes [Start] on a new collector. *)
Theorem fetchAll_safe ctx scrape n urls c :
  collector_wf c → ∃ c', fetchAll ctx scrape n urls c = Some c' ∧ collector_wf c'.
Proof. apply fetchAll_wf. Qed.

(** Removing a server that is being polled crashes the collector: after one
    answered poll of [u], [SetServers] without [u] (or [Remove]) leaves its
    previous counters behind, and the next answered poll of [u] dereferences
    the missing entry. *)
Theorem removed_server_panics u s1 s2 urls c c1 :
  fetch_one u s1 c = Some c1 → is_Some (fetchOne s1) → is_Some (fetchOne s2) → u ∉ urls →
  fetch_one u s2 (SetServers urls c1) = None ∧ fetch_one u s2 (Remove u c1) = None.
Proof.
  intros H1 [m1 Hm1] [m2 Hm2] Hu. unfold fetch_one in H1. rewrite Hm1 in H1.
  assert (is_Some (prev c1 !! u)) as [p Hp].
  { destruct (match prev c !! u with Some _ => _ | None => _ end) as [m|]; [|done].
    simpl in H1. injection H1 as <-. simpl. rewrite lookup_insert_eq. by eexists. }
  unfold fetch_one. rewrite Hm2.
  assert (prev (SetServers urls c1) !! u = Some p ∧ prev (Remove u c1) !! u = Some p)
    as [-> ->] by done.
  rewrite SetServers_lookup, decide_False by done. simpl. by rewrite lookup_delete_eq.
Qed.

(** After [SetServers] the collector has an entry for exactly the servers
    given; the metrics of those it knew are kept, the others start at zero. *)
Theorem SetServers_entries urls c u :
  Get (SetServers urls c) u =
    if decide (u ∈ urls) then Some (default zero_metrics (Get c u)) else None.
Proof. apply SetServers_lookup. Qed.

(** The rates: no rate is reported on the first answered poll of a server,
    nor after a poll that was answered with another status than 200. *)
Theorem no_rate_without_history u body now c c' :
  fetch_one u (Scraped body now) c = Some c' →
  prev c !! u = None ∨ prev c !! u = Some (mkPrev 0 0) →
  ∃ m, data c' !! u = Some m ∧ PrefillThroughput m = f0 ∧ DecodeThroughput m = f0 ∧
    UpdatedAt m = now.
Proof.
  destruct (rates_const body) as [Hp Hd]. unfold fetch_one, fetchOne.
  destruct (parsePrometheus body) as [rr rw kv pt gt pth dth ap ad up]. simpl in Hp, Hd. subst.
  intros Hf [Hn|Hn]; rewrite Hn in Hf; simpl in Hf.
  - injection Hf as <-. simpl. rewrite lookup_insert_eq. by eexists.
  - destruct (data c !! u); [|done]. simpl in Hf. injection Hf as <-. simpl.
    rewrite lookup_insert_eq, !andb_false_r. by eexists.
Qed.
End collect_facts.

(** ** Witnesses *)

(** The conversion of amd64: the smallest [int64]. *)
Definition amd64 : IntConversion := λ _, - 2 ^ 63.

Definition sample_body : string :=
  "# TYPE vllm:num_requests_running gauge" +:+ String NL
  ("vllm:num_requests_running{engine=0,model_name=smart} 3.0" +:+ String NL
  "vllm:prompt_tokens_total 120").

Section witnesses.
#[local] Existing Instance amd64.

Example parsePrometheus_sample :
  RequestsRunning (parsePrometheus sample_body) = 3 ∧
  PromptTokensTotal (parsePrometheus sample_body) = 120.
Proof. vm_compute. auto. Qed.

(** Above 2^53 a counter is rounded. *)
Example counter_rounded :
  PromptTokensTotal (parsePrometheus "vllm:prompt_tokens_total 9007199254740993") =
    9007199254740992.
Proof. vm_compute. reflexivity. Qed.

Let polled : option Collector := fetch_one "http://a" (Scraped sample_body 5) (New 15).

Lemma parsePrometheus_counter_exact_witness :
  PromptTokensTotal
    (parsePrometheus ("vllm:prompt_tokens_total{" +:+ "engine=0" +:+ "} " +:+ Itoa 77)) = 77.
Proof. apply (parsePrometheus_counter_exact "engine=0" 77); [reflexivity|lia]. Defined.

Lemma fetchAll_safe_witness :
  ∃ c', fetchAll (λ _, None) (λ _ _, Scraped sample_body 5) 0 ["http://a"; "http://a"] (New 15)
          = Some c' ∧ collector_wf c'.
Proof. apply fetchAll_safe. unfold collector_wf. simpl. set_solver. Defined.

Lemma removed_server_panics_witness :
  ∃ c1, polled = Some c1 ∧
    fetch_one "http://a" (Scraped sample_body 9) (SetServers ["http://b"] c1) = None ∧
    fetch_one "http://a" (Scraped sample_body 9) (Remove "http://a" c1) = None.
Proof.
  assert (is_Some polled) as [c1 Hc1] by (vm_compute; eexists; reflexivity).
  exists c1. split; [exact Hc1|]. unfold polled in Hc1.
  apply (removed_server_panics "http://a" (Scraped sample_body 5) (Scraped sample_body 9)
    ["http://b"] (New 15) c1 Hc1).
  - unfold fetchOne. by destruct (parsePrometheus sample_body); eexists.
  - unfold fetchOne. by destruct (parsePrometheus sample_body); eexists.
  - intros Hin%list_elem_of_singleton. discriminate.
Defined.

Lemma no_rate_without_history_witness :
  ∃ c1, polled = Some c1 ∧ ∃ m, data c1 !! "http://a" = Some m ∧ PrefillThroughput m = f0 ∧
    DecodeThroughput m = f0 ∧ UpdatedAt m = 5.
Proof.
  assert (is_Some polled) as [c1 Hc1] by (vm_compute; eexists; reflexivity).
  exists c1. split; [exact Hc1|]. unfold polled in Hc1.
  apply (no_rate_without_history "http://a" sample_body 5 (New 15) c1 Hc1).
  left. apply lookup_empty.
Defined.
End witnesses.
