(* ===== verification/Router.v ===== *)
(** * Package [router], server selection (src/router/router.go)

    [Router.route]: candidates from the model index, sorted by distance,
    grouped, tried round-robin within each group, then the fallback strategy.
    The pool and the index are used through the classes of [Interfaces]. *)
From Stdlib Require Import ZArith Lia.
From stdpp Require Import base tactics option list numbers strings gmap sorting.
From S2P Require Import Prelude GoFloat Config Interfaces.

Open Scope Z_scope.

(** ** Data *)

Record serverInfo : Type := mkInfo {
  url : string;
  distance : Z;
  maxConn : Z;
  inflight : Z
}.

Instance serverInfo_eq_dec : EqDecision serverInfo.
Proof. solve_decision. Defined.

(** [sort.Slice]: not stable, but it sees the elements only through [less]. *)
Class SortSlice : Type := sort_slice : ∀ A : Type, (A → A → bool) → list A → list A.
Arguments sort_slice {_} {A} less l.

Class SortSliceLaws `{!SortSlice} : Prop := {
  sort_slice_perm A (less : A → A → bool) l : sort_slice less l ≡ₚ l;
  sort_slice_sorted A (key : A → Z) l :
    StronglySorted (λ x y, key x <= key y) (sort_slice (λ x y, key x <? key y) l);
  sort_slice_map A B (f : A → B) lessA lessB l :
    (∀ x y, lessB (f x) (f y) = lessA x y) →
    sort_slice lessB (map f l) = map f (sort_slice lessA l)
}.

(** The mutable state of a request: the round-robin counters and the pool. *)
Record RouterState (P : Type) : Type := mkRouter {
  rrIndex : gmap string Z;
  pool : P
}.
Arguments mkRouter {P} _ _.
Arguments rrIndex {P} _.
Arguments pool {P} _.

(** How a call of [route] ends: with a connection, an error, a call of
    [queueMgr.enqueue], or a run-time panic. *)
Inductive RouteOutcome : Type :=
  | Routed (c : Conn)
  | RouteErr (e : error)
  | Enqueue
  | RoutePanic.

Instance RouteOutcome_eq_dec : EqDecision RouteOutcome.
Proof. solve_decision. Defined.

(** How the scan of one group ends. *)
Inductive ScanOutcome : Type :=
  | Found (c : Conn)
  | NotFound
  | ScanPanic.

(** [l[i]] for an [int] index: [None] is the index out of range panic. *)
Definition go_index {A} (l : list A) (i : Z) : option A :=
  if i <? 0 then None else l !! Z.to_nat i.

(** ** Candidates *)

Section candidates.
Context {P : Type} `{!PoolOps P}.

Definition info_of (p : P) (u : string) : option serverInfo :=
  match pool_GetServer p u with
  | None => None
  | Some sc => Some (mkInfo u (Distance sc) (MaxConcurrentRequests sc) (pool_Inflight p u))
  end.

Definition candidates (p : P) (servers : list string) : list serverInfo :=
  omap (info_of p) servers.
End candidates.

Definition less_distance (x y : serverInfo) : bool := distance x <? distance y.

(** [infos[i:j]] from the head on, as long as the distance is [d]. *)
Fixpoint span_distance (d : Z) (infos : list serverInfo)
    : list serverInfo * list serverInfo :=
  match infos with
  | x :: infos' =>
      if distance x =? d then
        let '(g, rest) := span_distance d infos' in (x :: g, rest)
      else ([], infos)
  | [] => ([], [])
  end.

(** The grouping loop; [fuel] bounds the number of groups. *)
Fixpoint groups_loop (fuel : nat) (infos : list serverInfo) : list (list serverInfo) :=
  match fuel, infos with
  | S fuel', x :: _ =>
      let '(g, rest) := span_distance (distance x) infos in
      g :: groups_loop fuel' rest
  | _, _ => []
  end.

Definition groups (infos : list serverInfo) : list (list serverInfo) :=
  groups_loop (length infos) infos.

(** [si.inflight < int64(si.maxConn)]. *)
Definition available (si : serverInfo) : bool := inflight si <? maxConn si.

(** ** Selection *)

(** [float64(si.inflight) / float64(si.maxConn)]. *)
Definition ratio (si : serverInfo) : float64 :=
  fdiv (float_of_int (inflight si)) (float_of_int (maxConn si)).

(** The best-effort loop: the first server with the least ratio. *)
Definition best_step (best : option (serverInfo * float64)) (si : serverInfo)
    : option (serverInfo * float64) :=
  match best with
  | None => Some (si, ratio si)
  | Some (b, bestRatio) => if flt (ratio si) bestRatio then Some (si, ratio si) else best
  end.

Definition best_of (infos : list serverInfo) : option serverInfo :=
  fst <$> foldl best_step None infos.

Section route.
Context {P : Type} `{!PoolOps P} `{!SortSlice}.

(** The loop over [k] in one group, for the remaining values [ks] of [k]. *)
Fixpoint scan_group (ctx : Context) (group : list serverInfo) (idx : Z) (ks : list nat)
    (p : P) : ScanOutcome * P :=
  match ks with
  | [] => (NotFound, p)
  | k :: ks' =>
      match go_index group (Z.rem (idx + Z.of_nat k) (Z.of_nat (length group))) with
      | None => (ScanPanic, p)
      | Some si =>
          if available si then
            match pool_Acquire ctx (url si) p with
            | (Ok conn, p') => (Found conn, p')
            | (Err _, p') => scan_group ctx group idx ks' p'
            end
          else scan_group ctx group idx ks' p
      end
  end.

(** The loop over the groups.  [%] by the length of an empty group would be a
    division by zero. *)
Fixpoint scan_groups (ctx : Context) (model : string) (gs : list (list serverInfo))
    (st : RouterState P) : ScanOutcome * RouterState P :=
  match gs with
  | [] => (NotFound, st)
  | group :: gs' =>
      if bool_decide (group = []) then (ScanPanic, st) else
      let idx := Z.rem (default 0 (rrIndex st !! model)) (Z.of_nat (length group)) in
      let rr := <[model := idx + 1]> (rrIndex st) in
      match scan_group ctx group idx (seq 0 (length group)) (pool st) with
      | (NotFound, p) => scan_groups ctx model gs' (mkRouter rr p)
      | (r, p) => (r, mkRouter rr p)
      end
  end.

(** After the groups: [best_effort], then [queue], then the error. *)
Definition fallback (ctx : Context) (strategy : string) (allowQueue : bool)
    (infos : list serverInfo) (st : RouterState P) : RouteOutcome * RouterState P :=
  let '(r, st1) :=
    if bool_decide (strategy = FallbackBestEffort) then
      match best_of infos with
      | Some best =>
          match pool_Acquire ctx (url best) (pool st) with
          | (Ok conn, p) => (Some conn, mkRouter (rrIndex st) p)
          | (Err _, p) => (None, mkRouter (rrIndex st) p)
          end
      | None => (None, st)
      end
    else (None, st) in
  match r with
  | Some conn => (Routed conn, st1)
  | None =>
      if bool_decide (strategy = FallbackQueue) && allowQueue then (Enqueue, st1)
      else (RouteErr ErrAllBusy, st1)
  end.

(** [route], given the strategy of the current configuration and the servers
    discovery returns for the model. *)
Definition route_servers (ctx : Context) (strategy : string) (servers : list string)
    (model : string) (allowQueue : bool) (st : RouterState P)
    : RouteOutcome * RouterState P :=
  if bool_decide (servers = []) then (RouteErr ErrNoServers, st) else
  let infos := candidates (pool st) servers in
  if bool_decide (infos = []) then (RouteErr ErrNoServers, st) else
  let infos := sort_slice less_distance infos in
  match scan_groups ctx model (groups infos) st with
  | (Found conn, st') => (Routed conn, st')
  | (ScanPanic, st') => (RoutePanic, st')
  | (NotFound, st') => fallback ctx strategy allowQueue infos st'
  end.

Context {D : Type} `{!IndexOps D}.

Definition route (ctx : Context) (cfg : GlobalConfig) (disc : D) (model : string)
    (allowQueue : bool) (st : RouterState P) : RouteOutcome * RouterState P :=
  route_servers ctx (FallbackStrategy cfg) (index_ServersForModel disc model) model
    allowQueue st.

Definition Route (ctx : Context) (cfg : GlobalConfig) (disc : D) (model : string)
    (st : RouterState P) : RouteOutcome * RouterState P :=
  route ctx cfg disc model true st.
End route.

(** [New]. *)
Definition New {P} (p : P) : RouterState P := mkRouter ∅ p.

(** ** Specification of the selection

    [pick i gs]: the groups in order, each rotated by the round-robin counter
    modulo its length, the first server with a free slot; a group that is
    passed over hands its own index, plus one, to the next. *)
Definition first_available (l : list serverInfo) : option serverInfo :=
  head (filter (λ si, available si = true) l).

Fixpoint pick (i : Z) (gs : list (list serverInfo)) : option serverInfo :=
  match gs with
  | [] => None
  | g :: gs' =>
      let idx := i mod Z.of_nat (length g) in
      match first_available (rotate (Z.to_nat idx) g) with
      | Some si => Some si
      | None => pick (idx + 1) gs'
      end
  end.

(** The elements [scan_group] visits. *)
Definition visit (group : list serverInfo) (idx : Z) (ks : list nat) : list serverInfo :=
  omap (λ k, group !! ((Z.to_nat idx + k) mod length group)%nat) ks.

Lemma visit_seq group idx :
  0 <= idx < Z.of_nat (length group) →
  visit group idx (seq 0 (length group)) = rotate (Z.to_nat idx) group.
Proof.
  intros Hi. unfold visit. set (i := Z.to_nat idx).
  assert (∀ n, (n ≤ length group)%nat →
    omap (λ k, group !! ((i + k) mod length group)%nat) (seq 0 n) =
    take n (rotate i group)) as Hn.
  { induction n as [|n IH]; intros Hle; [done|].
    rewrite seq_S, omap_app, IH by lia. simpl.
    assert (rotate i group !! n = group !! ((i + n) mod length group)%nat) as Hr.
    { unfold rotate. rewrite (Nat.mod_small i) by lia.
      destruct (decide (n < length group - i)%nat).
      - rewrite lookup_app_l, lookup_drop by (rewrite length_drop; lia).
        by rewrite Nat.mod_small by lia.
      - rewrite lookup_app_r, lookup_take, length_drop by (rewrite length_drop; lia).
        rewrite decide_True by lia.
        replace (i + n)%nat with ((n - (length group - i)) + 1 * length group)%nat by lia.
        by rewrite Nat.Div0.mod_add, Nat.mod_small by lia. }
    assert (is_Some (rotate i group !! n)) as [x Hx].
    { apply lookup_lt_is_Some. rewrite length_rotate. lia. }
    rewrite <- Hr, Hx. by rewrite (take_S_r _ _ x). }
  rewrite Hn by done. rewrite take_ge; [done|]. by rewrite length_rotate.
Qed.

Lemma go_index_rem (group : list serverInfo) idx k :
  0 <= idx → group ≠ [] →
  ∃ si, go_index group (Z.rem (idx + Z.of_nat k) (Z.of_nat (length group))) = Some si ∧
        group !! ((Z.to_nat idx + k) mod length group)%nat = Some si ∧ si ∈ group.
Proof.
  intros Hi Hne. assert (0 < length group)%nat by (destruct group; simpl; [done|lia]).
  rewrite Z.rem_mod_nonneg by lia. unfold go_index.
  pose proof (Z.mod_pos_bound (idx + Z.of_nat k) (Z.of_nat (length group)) ltac:(lia)).
  destruct (Z.ltb_spec ((idx + Z.of_nat k) mod Z.of_nat (length group)) 0); [lia|].
  assert (Z.to_nat ((idx + Z.of_nat k) mod Z.of_nat (length group)) =
    (Z.to_nat idx + k) mod length group)%nat as ->.
  { rewrite Z2Nat.inj_mod by lia. rewrite Nat2Z.id, Z2Nat.inj_add, Nat2Z.id by lia. done. }
  assert (is_Some (group !! ((Z.to_nat idx + k) mod length group)%nat)) as [si Hsi].
  { apply lookup_lt_is_Some. apply Nat.mod_upper_bound. lia. }
  exists si. split_and!; [done|done|]. by eapply list_elem_of_lookup_2.
Qed.

(** ** Grouping *)

Lemma span_distance_spec d infos :
  let '(g, rest) := span_distance d infos in
  infos = g ++ rest ∧ Forall (λ x, distance x = d) g ∧
  (∀ y, head rest = Some y → distance y ≠ d).
Proof.
  induction infos as [|x infos IH]; simpl; [done|].
  destruct (Z.eqb_spec (distance x) d).
  - destruct (span_distance d infos) as [g rest]. destruct IH as (-> & ? & ?).
    split_and!; [done|by constructor|done].
  - split_and!; [done|done|]. by intros y [= <-].
Qed.

(** The fuel of [groups] is enough: nothing is lost. *)
Lemma groups_loop_concat fuel infos :
  (length infos ≤ fuel)%nat → concat (groups_loop fuel infos) = infos.
Proof.
  revert infos. induction fuel as [|fuel IH]; intros [|x infos] Hf; simpl in *; try lia; try done.
  rewrite Z.eqb_refl.
  pose proof (span_distance_spec (distance x) infos) as Hs.
  destruct (span_distance (distance x) infos) as [g rest]. destruct Hs as (-> & _ & _).
  rewrite length_app in Hf. simpl. rewrite IH by lia. done.
Qed.

Lemma groups_concat infos : concat (groups infos) = infos.
Proof. by apply groups_loop_concat. Qed.

Lemma groups_loop_same fuel infos :
  Forall (λ g, g ≠ [] ∧ ∃ d, Forall (λ x, distance x = d) g) (groups_loop fuel infos).
Proof.
  revert infos. induction fuel as [|fuel IH]; intros [|x infos]; simpl; try done.
  rewrite Z.eqb_refl. pose proof (span_distance_spec (distance x) infos) as Hs.
  destruct (span_distance (distance x) infos) as [g rest]. destruct Hs as (_ & Hg & _).
  constructor; [|apply IH]. split; [done|]. exists (distance x). by constructor.
Qed.

Lemma groups_same infos :
  Forall (λ g, g ≠ [] ∧ ∃ d, Forall (λ x, distance x = d) g) (groups infos).
Proof. apply groups_loop_same. Qed.

(** A list with one distance is one group. *)
Lemma groups_one infos d :
  infos ≠ [] → Forall (λ x, distance x = d) infos → groups infos = [infos].
Proof.
  intros Hne Hd. pose proof (groups_concat infos) as Hc.
  pose proof (groups_same infos) as Hs. unfold groups in *.
  destruct infos as [|x infos]; [done|]. simpl in *. rewrite Z.eqb_refl in *.
  apply Forall_cons in Hd as [Hx Hd].
  pose proof (span_distance_spec (distance x) infos) as Hsp.
  destruct (span_distance (distance x) infos) as [g rest]. destruct Hsp as (-> & _ & Hh).
  destruct rest as [|y rest].
  - rewrite app_nil_r. by destruct (length g).
  - exfalso. apply (Hh y); [done|]. apply Forall_app in Hd as [_ Hd].
    apply Forall_cons in Hd as [-> _]. done.
Qed.

(** ** Facts about the specification *)

Lemma first_available_Some l si :
  first_available l = Some si → si ∈ l ∧ available si = true.
Proof.
  unfold first_available. intros Hh.
  assert (si ∈ filter (λ si, available si = true) l) as [? ?]%list_elem_of_filter; [|done].
  destruct (filter _ l); simplify_eq/=. left.
Qed.

Lemma first_available_None l :
  first_available l = None ↔ Forall (λ si, available si = false) l.
Proof.
  unfold first_available. rewrite Forall_forall. split.
  - intros Hh si Hsi. destruct (available si) eqn:Ha; [|done].
    assert (si ∈ filter (λ si, available si = true) l) as Hf by by apply list_elem_of_filter.
    destruct (filter _ l); [by apply elem_of_nil in Hf|done].
  - intros Hall. destruct (filter _ l) as [|x l'] eqn:E; [done|].
    assert (x ∈ filter (λ si, available si = true) l) as [Hx Hin]%list_elem_of_filter
      by (rewrite E; left).
    rewrite Hall in Hx by done. done.
Qed.

Lemma pick_None i gs :
  pick i gs = None ↔ Forall (λ si, available si = false) (concat gs).
Proof.
  revert i. induction gs as [|g gs IH]; intros i; simpl; [done|].
  rewrite Forall_app, <- (IH (i mod Z.of_nat (length g) + 1)).
  assert (Forall (λ si, available si = false) g ↔
    Forall (λ si, available si = false) (rotate (Z.to_nat (i mod Z.of_nat (length g))) g)) as ->
    by (rewrite !Forall_forall; by setoid_rewrite elem_of_rotate).
  rewrite <- first_available_None.
  destruct (first_available _); [split; [done|by intros [? _]]|by split; [|intros [_ ?]]].
Qed.

Lemma pick_Some i gs si :
  pick i gs = Some si →
  ∃ gs1 g gs2, gs = gs1 ++ g :: gs2 ∧ si ∈ g ∧ available si = true ∧
    Forall (λ sj, available sj = false) (concat gs1).
Proof.
  revert i. induction gs as [|g gs IH]; intros i; simpl; [done|].
  destruct (first_available _) as [sj|] eqn:Hf.
  - intros [= ->]. apply first_available_Some in Hf as [Hin Ha].
    rewrite elem_of_rotate in Hin. by exists [], g, gs.
  - intros (gs1 & g' & gs2 & -> & ? & ? & ?)%IH. exists (g :: gs1), g', gs2.
    split_and!; [done..|]. simpl. apply Forall_app. split; [|done].
    apply first_available_None in Hf. rewrite Forall_forall in Hf |- *.
    intros x Hx. apply Hf. by rewrite elem_of_rotate.
Qed.

(** A full group of one resets the counter for the groups behind it. *)
Lemma pick_full_singleton i si gs :
  available si = false → pick i ([si] :: gs) = pick 1 gs.
Proof.
  intros Ha. cbn [pick length]. change (Z.of_nat 1) with 1. rewrite Z.mod_1_r.
  rewrite (proj2 (first_available_None _)); [done|].
  apply Forall_forall. intros sj Hsj. rewrite elem_of_rotate in Hsj. set_solver.
Qed.

(** In a list sorted by distance, the pick leaves no nearer server free. *)
Lemma pick_nearest i infos si :
  StronglySorted (λ x y, distance x <= distance y) infos →
  pick i (groups infos) = Some si →
  si ∈ infos ∧ available si = true ∧
  ∀ sj, sj ∈ infos → distance sj < distance si → available sj = false.
Proof.
  intros Hsort Hp. pose proof (groups_concat infos) as Hc.
  pose proof (groups_same infos) as Hs.
  apply pick_Some in Hp as (gs1 & g & gs2 & Hgs & Hin & Ha & Hf). rewrite Hgs in *.
  rewrite concat_app in Hc. simpl in Hc.
  assert (∀ x, x ∈ g → distance x = distance si) as Hg.
  { rewrite Forall_app, Forall_cons in Hs. destruct Hs as (_ & (_ & d & Hd) & _).
    rewrite Forall_forall in Hd. intros x Hx. by rewrite !Hd. }
  split_and!; [rewrite <- Hc; set_solver|done|].
  intros sj Hsj Hlt. rewrite <- Hc in Hsj, Hsort.
  apply elem_of_app in Hsj as [Hsj|Hsj]; [by rewrite Forall_forall in Hf; apply Hf|].
  exfalso. rewrite !StronglySorted_app in Hsort.
  destruct Hsort as (_ & _ & Hle & _).
  apply elem_of_app in Hsj as [Hsj|Hsj]; [apply Hg in Hsj; lia|].
  specialize (Hle si sj Hin Hsj). lia.
Qed.

(** The best-effort choice: a server of the list, none has a smaller ratio. *)
Lemma best_of_spec infos :
  match best_of infos with
  | None => infos = []
  | Some b => b ∈ infos ∧ ∀ si, si ∈ infos → flt (ratio si) (ratio b) = false
  end.
Proof.
  assert (match foldl best_step None infos with
    | None => infos = []
    | Some (b, r) => r = ratio b ∧ b ∈ infos ∧
        ∀ si, si ∈ infos → flt (ratio si) (ratio b) = false
    end) as Hf.
  { induction infos as [|x l IH] using rev_ind; [done|].
    rewrite foldl_app. simpl. destruct (foldl best_step None l) as [[b r]|]; simpl.
    - destruct IH as (-> & Hin & Hmin). destruct (flt (ratio x) (ratio b)) eqn:Hlt.
      + split_and!; [done|set_solver|]. intros si Hsi.
        apply elem_of_app in Hsi as [Hsi|Hsi%list_elem_of_singleton];
          [|subst; apply flt_irrefl].
        specialize (Hmin si Hsi). destruct (flt (ratio si) (ratio x)) eqn:Hlt2; [|done].
        by rewrite (flt_trans _ _ _ Hlt2 Hlt) in Hmin.
      + split_and!; [done|set_solver|]. intros si Hsi.
        apply elem_of_app in Hsi as [Hsi|Hsi%list_elem_of_singleton]; [by apply Hmin|by subst].
    - subst l. split_and!; [done|set_solver|]. intros si Hsi%list_elem_of_singleton. subst.
      apply flt_irrefl. }
  unfold best_of. destruct (foldl best_step None infos) as [[b r]|]; simpl; [|done].
  by destruct Hf as (_ & ? & ?).
Qed.

(** ** Scanning a pool *)

Definition rr_ok (rr : gmap string Z) : Prop := map_Forall (λ _ i, 0 <= i) rr.

Section scan.
Context {P : Type} `{!PoolOps P} {ok : P → Prop} `{!PoolLaws P ok}.
Implicit Types (p q : P) (st : RouterState P).

(** Every server of a list is in the pool. *)
Definition known p (infos : list serverInfo) : Prop :=
  ∀ si, si ∈ infos → is_Some (pool_GetServer p (url si)).

Lemma known_equiv p q infos : p ≈ q → known p infos → known q infos.
Proof. intros Hpq Hk si Hsi. destruct (Hpq (url si)) as [<- _]. by apply Hk. Qed.

Lemma scan_group_live ctx group idx ks p :
  ctx_Err ctx = None → 0 <= idx → group ≠ [] → ok p → known p group →
  match scan_group ctx group idx ks p with
  | (Found c, q) => ∃ si, first_available (visit group idx ks) = Some si ∧
                          c = mkConn (url si) ∧ ok q ∧ counted (url si) 1 p q
  | (NotFound, q) => first_available (visit group idx ks) = None ∧ q = p
  | (ScanPanic, _) => False
  end.
Proof.
  intros Hctx Hidx Hne Hok Hk. induction ks as [|k ks IH]; [done|]. simpl.
  destruct (go_index_rem group idx k Hidx Hne) as (si & -> & Hsi & Hin). rewrite Hsi.
  unfold first_available in *. rewrite filter_cons.
  destruct (available si) eqn:Ha; [|by rewrite decide_False].
  rewrite decide_True by done.
  destruct (acquire_live ctx (url si) p Hok (Hk si Hin) Hctx) as (q & -> & ? & ?).
  by exists si.
Qed.

Lemma scan_group_done ctx e group idx ks p :
  ctx_Err ctx = Some e → 0 <= idx → group ≠ [] → ok p → known p group →
  ∃ q, scan_group ctx group idx ks p = (NotFound, q) ∧ ok q ∧ p ≈ q.
Proof.
  intros Hctx Hidx Hne. revert p. induction ks as [|k ks IH]; intros p Hok Hk;
    [by exists p|]. simpl.
  destruct (go_index_rem group idx k Hidx Hne) as (si & -> & _ & Hin).
  destruct (available si); [|by apply IH].
  destruct (acquire_done ctx (url si) p e Hok (Hk si Hin) Hctx) as (q & -> & Hq & Hpq).
  destruct (IH q Hq (known_equiv _ _ _ Hpq Hk)) as (q' & -> & Hq' & Hqq').
  exists q'. split_and!; [done|done|]. by transitivity q.
Qed.

Lemma rr_step st model (group : list serverInfo) :
  rr_ok (rrIndex st) → group ≠ [] →
  let idx := Z.rem (default 0 (rrIndex st !! model)) (Z.of_nat (length group)) in
  idx = default 0 (rrIndex st !! model) mod Z.of_nat (length group) ∧
  0 <= idx < Z.of_nat (length group) ∧
  rr_ok (<[model := idx + 1]> (rrIndex st)).
Proof.
  intros Hrr Hne idx. assert (0 < length group)%nat by (destruct group; simpl; [done|lia]).
  assert (0 <= default 0 (rrIndex st !! model)).
  { destruct (rrIndex st !! model) as [i|] eqn:E; simpl; [by apply (Hrr model)|lia]. }
  unfold idx. rewrite Z.rem_mod_nonneg by lia.
  pose proof (Z.mod_pos_bound (default 0 (rrIndex st !! model)) (Z.of_nat (length group))
    ltac:(lia)). split_and!; [done|lia|lia|]. apply map_Forall_insert_2; [lia|done].
Qed.

Lemma scan_groups_live ctx model gs st :
  ctx_Err ctx = None → rr_ok (rrIndex st) → Forall (λ g, g ≠ []) gs →
  ok (pool st) → known (pool st) (concat gs) →
  let '(r, st') := scan_groups ctx model gs st in
  rr_ok (rrIndex st') ∧
  match r with
  | Found c => ∃ si, pick (default 0 (rrIndex st !! model)) gs = Some si ∧
                     c = mkConn (url si) ∧ ok (pool st') ∧
                     counted (url si) 1 (pool st) (pool st')
  | NotFound => pick (default 0 (rrIndex st !! model)) gs = None ∧ pool st' = pool st
  | ScanPanic => False
  end.
Proof.
  intros Hctx. revert st. induction gs as [|g gs IH]; intros st Hrr Hne Hok Hk; [done|].
  apply Forall_cons in Hne as [Hg Hne]. simpl. rewrite bool_decide_false by done.
  destruct (rr_step st model g Hrr Hg) as (Hidx & Hb & Hrr'). simpl in *.
  set (idx := Z.rem _ _) in *.
  assert (known (pool st) g ∧ known (pool st) (concat gs)) as [Hkg Hkgs]
    by (split; intros si Hsi; apply Hk; simpl; set_solver).
  pose proof (scan_group_live ctx g idx (seq 0 (length g)) (pool st) Hctx
    ltac:(lia) Hg Hok Hkg) as Hs. rewrite <- Hidx. rewrite visit_seq in Hs by done.
  destruct (scan_group _ _ _ _ _) as [[c| |] q]; [|destruct Hs as [-> ->]|done].
  - split; [done|]. by destruct Hs as (si & -> & ? & ? & ?); exists si.
  - specialize (IH (mkRouter (<[model:=idx + 1]> (rrIndex st)) (pool st)) Hrr' Hne Hok Hkgs).
    simpl in IH. by rewrite lookup_insert_eq in IH.
Qed.

Lemma scan_groups_done ctx e model gs st :
  ctx_Err ctx = Some e → rr_ok (rrIndex st) → Forall (λ g, g ≠ []) gs →
  ok (pool st) → known (pool st) (concat gs) →
  ∃ st', scan_groups ctx model gs st = (NotFound, st') ∧
    rr_ok (rrIndex st') ∧ ok (pool st') ∧ pool st ≈ pool st'.
Proof.
  intros Hctx. revert st. induction gs as [|g gs IH]; intros st Hrr Hne Hok Hk;
    [by exists st|].
  apply Forall_cons in Hne as [Hg Hne]. simpl. rewrite bool_decide_false by done.
  destruct (rr_step st model g Hrr Hg) as (_ & Hb & Hrr'). simpl in *.
  set (idx := Z.rem _ _) in *.
  destruct (scan_group_done ctx e g idx (seq 0 (length g)) (pool st) Hctx
    ltac:(lia) Hg Hok) as (q & -> & Hq & Hpq);
    [intros si Hsi; apply Hk; simpl; set_solver|].
  destruct (IH (mkRouter (<[model:=idx + 1]> (rrIndex st)) q)) as (st' & -> & ? & ? & ?);
    [done..| |].
  - apply (known_equiv (pool st)); [done|]. intros si Hsi. apply Hk. simpl. set_solver.
  - exists st'. split_and!; [done..|]. by transitivity q.
Qed.
End scan.

(** ** The decision a request gets *)

Section decision.
Context {P : Type} `{!PoolOps P} `{!SortSlice}.

(** The candidates, nearest first. *)
Definition ranked (p : P) (servers : list string) : list serverInfo :=
  sort_slice less_distance (candidates p servers).

(** The specification of [route] for a live request with counter [i]. *)
Definition decision (strategy : string) (allowQueue : bool) (infos : list serverInfo)
    (i : Z) : RouteOutcome :=
  if bool_decide (infos = []) then RouteErr ErrNoServers else
  match pick i (groups infos) with
  | Some si => Routed (mkConn (url si))
  | None =>
      match (if bool_decide (strategy = FallbackBestEffort) then best_of infos else None) with
      | Some si => Routed (mkConn (url si))
      | None =>
          if bool_decide (strategy = FallbackQueue) && allowQueue then Enqueue
          else RouteErr ErrAllBusy
      end
  end.
End decision.

Section route_facts.
Context {P : Type} `{!PoolOps P} {ok : P → Prop} `{!PoolLaws P ok}.
Context `{!SortSlice, !SortSliceLaws}.
Implicit Types (p q : P) (st : RouterState P).

Lemma elem_of_candidates p servers si :
  si ∈ candidates p servers ↔
  ∃ u sc, u ∈ servers ∧ pool_GetServer p u = Some sc ∧
    si = mkInfo u (Distance sc) (MaxConcurrentRequests sc) (pool_Inflight p u).
Proof.
  unfold candidates. rewrite list_elem_of_omap. unfold info_of. split.
  - intros (u & Hu & Hi). destruct (pool_GetServer p u) as [sc|] eqn:E; simplify_eq.
    by exists u, sc.
  - intros (u & sc & Hu & Hg & ->). exists u. by rewrite Hg.
Qed.

Lemma elem_of_ranked p servers si : si ∈ ranked p servers ↔ si ∈ candidates p servers.
Proof. unfold ranked. by rewrite sort_slice_perm. Qed.

Lemma ranked_nil p servers : ranked p servers = [] ↔ candidates p servers = [].
Proof.
  unfold ranked. pose proof (sort_slice_perm _ less_distance (candidates p servers)) as Hp.
  split; intros E; rewrite E in Hp; [symmetry; by apply Permutation_nil_l|].
  rewrite E. by apply Permutation_nil_r.
Qed.

Lemma ranked_nil_iff p servers :
  ranked p servers = [] ↔ ∀ u, u ∈ servers → pool_GetServer p u = None.
Proof.
  rewrite ranked_nil. split.
  - intros Hnil u Hu. destruct (pool_GetServer p u) as [sc|] eqn:E; [|done].
    exfalso. apply (not_elem_of_nil (mkInfo u (Distance sc) (MaxConcurrentRequests sc)
      (pool_Inflight p u))). rewrite <- Hnil. apply elem_of_candidates. by exists u, sc.
  - intros Hall. destruct (candidates _ _) as [|si l] eqn:E; [done|].
    assert (si ∈ candidates p servers) as Hin by (rewrite E; left).
    apply elem_of_candidates in Hin as (u & sc & Hu & Hg & _). by rewrite Hall in Hg.
Qed.

(** Without candidates [route] stops early. *)
Lemma route_empty ctx strategy servers model allowQueue st :
  ranked (pool st) servers = [] →
  route_servers ctx strategy servers model allowQueue st = (RouteErr ErrNoServers, st).
Proof.
  intros Hn%ranked_nil. unfold route_servers.
  rewrite (bool_decide_true (candidates _ _ = [])) by done. by case_bool_decide.
Qed.

Lemma ranked_sorted p servers :
  StronglySorted (λ x y, distance x <= distance y) (ranked p servers).
Proof. apply sort_slice_sorted. Qed.

Lemma ranked_known p servers : known p (concat (groups (ranked p servers))).
Proof.
  rewrite groups_concat. intros si Hsi.
  apply elem_of_ranked, elem_of_candidates in Hsi as (u & sc & _ & Hg & ->). by exists sc.
Qed.

Lemma groups_nonempty infos : Forall (λ g, g ≠ []) (groups infos).
Proof. eapply Forall_impl; [apply groups_same|]. by intros g [? _]. Qed.

(** The order of the candidates depends on the servers of the pool only, not
    on their load. *)
Lemma ranked_urls p q servers :
  (∀ u, pool_GetServer q u = pool_GetServer p u) →
  map url (ranked q servers) = map url (ranked p servers).
Proof.
  intros Hpq.
  set (info := λ r u, default (mkInfo u 0 0 0) (info_of (P := P) r u)).
  set (less := λ u v, distance (info p u) <? distance (info p v)).
  set (inpool := filter (λ u, is_Some (pool_GetServer p u)) servers).
  assert (∀ r, (∀ u, pool_GetServer r u = pool_GetServer p u) →
    map url (ranked r servers) = sort_slice less inpool) as Hr;
    [|by rewrite !Hr].
  intros r Hr. assert (candidates r servers = map (info r) inpool) as Hc.
  { unfold candidates, inpool. clear inpool less. induction servers as [|u l IH]; [done|].
    rewrite filter_cons. cbn [omap list_omap]. assert (info_of r u = None ↔ pool_GetServer p u = None) as Hn
      by (unfold info_of; rewrite Hr; by destruct (pool_GetServer p u)).
    destruct (pool_GetServer p u) as [sc|] eqn:E.
    - rewrite decide_True by by eexists. simpl. rewrite <- IH. unfold info at 1.
      destruct (info_of r u); [done|]. discriminate (proj1 Hn eq_refl).
    - rewrite decide_False by by intros [? [=]]. rewrite (proj2 Hn) by done. apply IH. }
  unfold ranked. rewrite Hc, (sort_slice_map _ _ (info r) less).
  - rewrite map_map. rewrite <- (map_id (sort_slice less inpool)) at 2. apply map_ext.
    intros u. unfold info, info_of. by destruct (pool_GetServer r u).
  - intros u v. unfold less_distance, less, info, info_of. rewrite !Hr.
    by destruct (pool_GetServer p u), (pool_GetServer p v).
Qed.

Lemma ranked_distance p q servers d :
  (∀ u, pool_GetServer q u = pool_GetServer p u) →
  Forall (λ si, distance si = d) (ranked p servers) →
  Forall (λ si, distance si = d) (ranked q servers).
Proof.
  intros Hpq. rewrite !Forall_forall. intros Hd si Hsi.
  apply elem_of_ranked, elem_of_candidates in Hsi as (u & sc & Hu & Hg & ->).
  rewrite Hpq in Hg.
  apply (Hd (mkInfo u (Distance sc) (MaxConcurrentRequests sc) (pool_Inflight p u))).
  apply elem_of_ranked, elem_of_candidates. by exists u, sc.
Qed.

(** What a live request gets, and what it leaves behind. *)
Lemma route_live ctx strategy servers model allowQueue st :
  ctx_Err ctx = None → ok (pool st) → rr_ok (rrIndex st) →
  let '(r, st') := route_servers ctx strategy servers model allowQueue st in
  r = decision strategy allowQueue (ranked (pool st) servers)
        (default 0 (rrIndex st !! model)) ∧
  ok (pool st') ∧ rr_ok (rrIndex st') ∧
  match r with
  | Routed c => counted (ServerID c) 1 (pool st) (pool st')
  | _ => pool st' = pool st
  end.
Proof.
  intros Hctx Hok Hrr. unfold route_servers, decision.
  case_bool_decide as Hs.
  { subst. rewrite bool_decide_true by by apply ranked_nil. done. }
  case_bool_decide as Hc.
  { rewrite bool_decide_true by by apply ranked_nil. done. }
  rewrite (bool_decide_false (ranked _ _ = [])) by by rewrite ranked_nil.
  fold (ranked (pool st) servers).
  pose proof (scan_groups_live (ok := ok) ctx model (groups (ranked (pool st) servers)) st
    Hctx Hrr (groups_nonempty _) Hok (ranked_known _ _)) as Hscan.
  destruct (scan_groups _ _ _ _) as [[c| |] st1]; [| |by destruct Hscan].
  { destruct Hscan as (Hrr1 & si & -> & -> & ? & ?). done. }
  destruct Hscan as (Hrr1 & -> & Hp). unfold fallback. rewrite Hp.
  pose proof (best_of_spec (ranked (pool st) servers)) as Hbest.
  case_bool_decide as Hbe; simpl; [|by destruct (_ && allowQueue); simpl; rewrite Hp].
  destruct (best_of _) as [b|]; [|by destruct (_ && allowQueue); simpl; rewrite Hp].
  destruct Hbest as [Hb _].
  destruct (acquire_live ctx (url b) (pool st) Hok) as (q & -> & ? & ?); [|done|done].
  apply ranked_known with (servers := servers). by rewrite groups_concat.
Qed.

(** A request that is already cancelled. *)
Lemma route_done ctx e strategy servers model allowQueue st :
  ctx_Err ctx = Some e → ok (pool st) → rr_ok (rrIndex st) →
  let '(r, st') := route_servers ctx strategy servers model allowQueue st in
  r = (if bool_decide (ranked (pool st) servers = []) then RouteErr ErrNoServers
       else if bool_decide (strategy = FallbackQueue) && allowQueue then Enqueue
       else RouteErr ErrAllBusy) ∧
  ok (pool st') ∧ rr_ok (rrIndex st') ∧ pool st ≈ pool st'.
Proof.
  intros Hctx Hok Hrr. unfold route_servers.
  case_bool_decide as Hs.
  { subst. rewrite bool_decide_true by by apply ranked_nil. done. }
  case_bool_decide as Hc.
  { rewrite bool_decide_true by by apply ranked_nil. done. }
  rewrite (bool_decide_false (ranked _ _ = [])) by by rewrite ranked_nil.
  fold (ranked (pool st) servers).
  destruct (scan_groups_done (ok := ok) ctx e model (groups (ranked (pool st) servers)) st
    Hctx Hrr (groups_nonempty _) Hok (ranked_known _ _)) as (st1 & -> & Hrr1 & Hok1 & Hp).
  unfold fallback. pose proof (best_of_spec (ranked (pool st) servers)) as Hbest.
  case_bool_decide; simpl; [|by destruct (_ && allowQueue)].
  destruct (best_of _) as [b|]; [|by destruct (_ && allowQueue)]. destruct Hbest as [Hb _].
  destruct (acquire_done ctx (url b) (pool st1) e Hok1) as (q & -> & ? & ?); [|done|].
  { apply (known_equiv _ _ _ Hp (ranked_known _ servers)). by rewrite groups_concat. }
  assert (pool st ≈ q) by by transitivity (pool st1). by destruct (_ && allowQueue).
Qed.
End route_facts.

(** ** One group: round robin *)

(** With every server free, the pick is the one the counter points at. *)
Lemma pick_all_free i infos :
  0 <= i → infos ≠ [] → Forall (λ si, available si = true) infos →
  pick i [infos] = infos !! Z.to_nat (i mod Z.of_nat (length infos)).
Proof.
  intros Hi Hne Hall. simpl.
  assert (0 < length infos)%nat by (destruct infos; simpl; [done|lia]).
  pose proof (Z.mod_pos_bound i (Z.of_nat (length infos)) ltac:(lia)).
  set (k := Z.to_nat (i mod Z.of_nat (length infos))).
  assert (first_available (rotate k infos) = infos !! k) as ->; [|by case_match].
  destruct (lookup_lt_is_Some_2 infos k) as [si Hsi]; [lia|].
  unfold rotate. rewrite Nat.mod_small by lia. rewrite (drop_S _ si) by done.
  unfold first_available. simpl. rewrite filter_cons, Hsi, decide_True; [done|].
  rewrite Forall_forall in Hall. apply Hall. by eapply list_elem_of_lookup_2.
Qed.

Section round_robin.
Context {P : Type} `{!PoolOps P} {ok : P → Prop} `{!PoolLaws P ok}.
Context `{!SortSlice, !SortSliceLaws}.
Implicit Types (p q : P) (st : RouterState P).

(** One group moves the counter past the server it started at. *)
Lemma scan_one_group_rr ctx model g st :
  g ≠ [] →
  rrIndex (snd (scan_groups ctx model [g] st)) =
    <[model := Z.rem (default 0 (rrIndex st !! model)) (Z.of_nat (length g)) + 1]>
      (rrIndex st).
Proof.
  intros Hg. simpl. rewrite bool_decide_false by done.
  by destruct (scan_group _ _ _ _ _) as [[| |] ?].
Qed.

(** The servers behind [infos] have [n] free slots each. *)
Definition free_slots (n : nat) (infos : list serverInfo) : Prop :=
  Forall (λ si, inflight si + Z.of_nat n <= maxConn si) infos.

Lemma free_slots_available n infos :
  free_slots (S n) infos → Forall (λ si, available si = true) infos.
Proof. intros Hf. eapply Forall_impl; [exact Hf|]. intros si Hs. unfold available. simpl in Hs. lia. Qed.

(** A live request when all candidates are in one group and free. *)
Lemma route_one_group ctx strategy servers model allowQueue st d :
  ctx_Err ctx = None → ok (pool st) → rr_ok (rrIndex st) →
  let infos := ranked (pool st) servers in
  infos ≠ [] → Forall (λ si, distance si = d) infos →
  Forall (λ si, available si = true) infos →
  let idx := default 0 (rrIndex st !! model) mod Z.of_nat (length infos) in
  ∃ si st', infos !! Z.to_nat idx = Some si ∧
    route_servers ctx strategy servers model allowQueue st =
      (Routed (mkConn (url si)), st') ∧
    ok (pool st') ∧ rrIndex st' = <[model := idx + 1]> (rrIndex st) ∧
    counted (url si) 1 (pool st) (pool st').
Proof.
  intros Hctx Hok Hrr infos Hne Hd Hfree idx.
  assert (0 < length infos)%nat by (destruct infos; simpl; [done|lia]).
  assert (0 <= default 0 (rrIndex st !! model)) as Hi.
  { destruct (rrIndex st !! model) as [i|] eqn:E; simpl; [by apply (Hrr model)|lia]. }
  pose proof (ranked_known (pool st) servers) as Hk.
  unfold route_servers. fold (ranked (pool st) servers). fold infos. fold infos in Hk.
  rewrite (bool_decide_false (servers = []))
    by (intros ->; by apply Hne; apply ranked_nil).
  rewrite (bool_decide_false (candidates _ _ = [])) by by rewrite <- ranked_nil.
  rewrite (groups_one infos d) in * by done.
  pose proof (scan_groups_live (ok := ok) ctx model [infos] st Hctx Hrr
    ltac:(by constructor) Hok Hk) as Hscan.
  pose proof (scan_one_group_rr ctx model infos st Hne) as Hrr'.
  rewrite Z.rem_mod_nonneg in Hrr' by lia. fold idx in Hrr'.
  rewrite pick_all_free in Hscan by done.
  destruct (scan_groups _ _ _ _) as [[c| |] st1]; simpl in *; [| |by destruct Hscan].
  - destruct Hscan as (_ & si & Hsi & -> & ? & ?). by exists si, st1.
  - destruct Hscan as (_ & Hn & _). apply lookup_ge_None in Hn.
    pose proof (Z.mod_pos_bound (default 0 (rrIndex st !! model)) (Z.of_nat (length infos))
      ltac:(lia)). lia.
Qed.

Lemma free_slots_counted id n p q servers :
  ok p → free_slots (S n) (ranked p servers) → counted id 1 p q →
  free_slots n (ranked q servers).
Proof.
  intros Hok Hf Hc. unfold free_slots in *. rewrite Forall_forall in Hf |- *.
  intros si Hsi. apply elem_of_ranked, elem_of_candidates in Hsi as (u & sc & Hu & Hg & ->).
  destruct (Hc u) as [Hgu Hiu]. rewrite Hgu in Hg. simpl. rewrite Hiu.
  assert (pool_Inflight p u + Z.of_nat (S n) <= MaxConcurrentRequests sc) as Hs.
  { apply (Hf (mkInfo u (Distance sc) (MaxConcurrentRequests sc) (pool_Inflight p u))).
    apply elem_of_ranked, elem_of_candidates. by exists u, sc. }
  case_decide as Hid; [rewrite Hid in *|lia].
  assert (wrap64 (pool_Inflight p id + 1) <= MaxConcurrentRequests sc - Z.of_nat n); [|lia].
  apply wrap64_succ_le; [by apply (inflight_int64 (ok := ok))|lia].
Qed.
End round_robin.

(** ** Theorems *)

Section theorems.
Context {P : Type} `{!PoolOps P} {ok : P → Prop} `{!PoolLaws P ok}.
Context `{!SortSlice, !SortSliceLaws} {D : Type} `{!IndexOps D}.
Implicit Types (p q : P) (st : RouterState P) (disc : D).

(** What [Route] works on: a pool in order and non-negative counters. *)
Definition router_wf st : Prop := ok (pool st) ∧ rr_ok (rrIndex st).

(** No server of the pool holds more connections than it allows. *)
Definition within_capacity p : Prop :=
  ∀ u sc, pool_GetServer p u = Some sc → pool_Inflight p u <= MaxConcurrentRequests sc.

(** [C5] [Route] implements its specification for a live request: the groups
    of equal distance are tried nearest first, each from the round-robin
    counter on, the first server with a free slot is taken; if there is none
    the fallback strategy decides.  The connection returned accounts for
    exactly one slot, nothing else in the pool changes, no index is out of
    range, and the router's invariant is kept. *)
Theorem Route_refines_decision ctx cfg disc model st :
  ctx_Err ctx = None → router_wf st →
  let infos := ranked (pool st) (index_ServersForModel disc model) in
  let '(r, st') := Route ctx cfg disc model st in
  r = decision (FallbackStrategy cfg) true infos (default 0 (rrIndex st !! model)) ∧
  router_wf st' ∧
  match r with
  | Routed c => counted (ServerID c) 1 (pool st) (pool st')
  | _ => pool st' = pool st
  end.
Proof.
  intros Hctx [Hok Hrr]. simpl. unfold Route, route.
  pose proof (route_live (ok := ok) ctx (FallbackStrategy cfg)
    (index_ServersForModel disc model) model true st Hctx Hok Hrr) as Hl.
  destruct (route_servers _ _ _ _ _ _) as [r st']. unfold router_wf. tauto.
Qed.

(** A request whose context is already cancelled never gets a connection,
    whatever the strategy: the slots it takes on the way are all given back,
    and no in-flight counter changes. *)
Theorem Route_cancelled ctx e cfg disc model allowQueue st :
  ctx_Err ctx = Some e → router_wf st →
  let '(r, st') := route ctx cfg disc model allowQueue st in
  r ∈ [RouteErr ErrNoServers; RouteErr ErrAllBusy; Enqueue] ∧
  router_wf st' ∧ pool st ≈ pool st'.
Proof.
  intros Hctx [Hok Hrr]. unfold route.
  pose proof (route_done (ok := ok) ctx e (FallbackStrategy cfg)
    (index_ServersForModel disc model) model allowQueue st Hctx Hok Hrr) as Hl.
  destruct (route_servers _ _ _ _ _ _) as [r st']. destruct Hl as (-> & ? & ? & ?).
  split_and!; [|done..]. repeat case_match; set_solver.
Qed.

(** [C22] Under the strategies [error] and [queue] a connection is always to a
    candidate with a free slot, and every nearer candidate is full. *)
Theorem Route_nearest_free ctx cfg disc model st c st' :
  ctx_Err ctx = None → router_wf st → FallbackStrategy cfg ≠ FallbackBestEffort →
  Route ctx cfg disc model st = (Routed c, st') →
  ∃ sc, ServerID c ∈ index_ServersForModel disc model ∧
    pool_GetServer (pool st) (ServerID c) = Some sc ∧
    pool_Inflight (pool st) (ServerID c) < MaxConcurrentRequests sc ∧
    ∀ u su, u ∈ index_ServersForModel disc model →
      pool_GetServer (pool st) u = Some su → Distance su < Distance sc →
      MaxConcurrentRequests su <= pool_Inflight (pool st) u.
Proof.
  intros Hctx [Hok Hrr] Hs. unfold Route, route. intros Hr.
  pose proof (route_live (ok := ok) ctx (FallbackStrategy cfg)
    (index_ServersForModel disc model) model true st Hctx Hok Hrr) as Hl.
  rewrite Hr in Hl. destruct Hl as (Hd & _). unfold decision in Hd.
  rewrite (bool_decide_false (_ = FallbackBestEffort)) in Hd by done.
  case_bool_decide as Hnil; [done|].
  destruct (pick _ _) as [si|] eqn:Hp; [|by case_match].
  injection Hd as ->. simpl. apply pick_nearest in Hp as (Hin & Ha & Hnear);
    [|apply ranked_sorted].
  apply elem_of_ranked, elem_of_candidates in Hin as (u & sc & Hu & Hg & ->). simpl in *.
  unfold available in Ha. simpl in Ha. exists sc. split_and!; [done|done|lia|].
  intros u' su Hu' Hgu Hlt.
  assert (available (mkInfo u' (Distance su) (MaxConcurrentRequests su)
    (pool_Inflight (pool st) u')) = false) as Hf.
  { apply Hnear; [|done]. apply elem_of_ranked, elem_of_candidates. by exists u', su. }
  unfold available in Hf. simpl in Hf. lia.
Qed.

(** As long as requests are routed one at a time, the strategies [error]
    and [queue] never put more connections on a server than it allows. *)
Theorem Route_within_capacity ctx cfg disc model st :
  router_wf st → FallbackStrategy cfg ≠ FallbackBestEffort →
  within_capacity (pool st) → within_capacity (pool (snd (Route ctx cfg disc model st))).
Proof.
  intros [Hok Hrr] Hs Hcap. unfold Route, route.
  destruct (ctx_Err ctx) as [e|] eqn:Hctx.
  { pose proof (route_done (ok := ok) ctx e (FallbackStrategy cfg)
      (index_ServersForModel disc model) model true st Hctx Hok Hrr) as Hl.
    destruct (route_servers _ _ _ _ _ _) as [r st']. destruct Hl as (_ & _ & _ & Hp).
    simpl. intros u sc. destruct (Hp u) as [<- <-]. apply Hcap. }
  pose proof (route_live (ok := ok) ctx (FallbackStrategy cfg)
    (index_ServersForModel disc model) model true st Hctx Hok Hrr) as Hl.
  destruct (route_servers _ _ _ _ _ _) as [r st']. destruct Hl as (Hd & _ & _ & Hp). simpl.
  destruct r as [c| | |]; [|by rewrite Hp..]. unfold decision in Hd.
  rewrite (bool_decide_false (_ = FallbackBestEffort)) in Hd by done.
  case_bool_decide; [done|].
  destruct (pick _ _) as [si|] eqn:Hpick; [|by case_match]. injection Hd as ->.
  apply pick_nearest in Hpick as (Hin & Ha & _); [|apply ranked_sorted].
  apply elem_of_ranked, elem_of_candidates in Hin as (u & sc & Hu & Hg & ->). simpl in *.
  unfold available in Ha. simpl in Ha. intros u' sc' Hg'. destruct (Hp u') as [Hgp ->].
  rewrite Hgp in Hg'. case_decide as Hu'; [|by apply Hcap]. subst u'. simplify_eq.
  apply wrap64_succ_le; [by apply (inflight_int64 (ok := ok))|lia].
Qed.

(** A free server is found, whatever the strategy: if some candidate has a
    free slot when a live request is routed, the request gets a connection. *)
Theorem Route_uses_free_slot ctx cfg disc model st u sc :
  ctx_Err ctx = None → router_wf st →
  u ∈ index_ServersForModel disc model → pool_GetServer (pool st) u = Some sc →
  pool_Inflight (pool st) u < MaxConcurrentRequests sc →
  ∃ c st', Route ctx cfg disc model st = (Routed c, st').
Proof.
  intros Hctx [Hok Hrr] Hu Hg Hfree. unfold Route, route.
  pose proof (route_live (ok := ok) ctx (FallbackStrategy cfg)
    (index_ServersForModel disc model) model true st Hctx Hok Hrr) as Hl.
  destruct (route_servers _ _ _ _ _ _) as [r st']. destruct Hl as (-> & _).
  assert (mkInfo u (Distance sc) (MaxConcurrentRequests sc) (pool_Inflight (pool st) u)
    ∈ ranked (pool st) (index_ServersForModel disc model)) as Hin
    by (apply elem_of_ranked, elem_of_candidates; by exists u, sc).
  unfold decision. case_bool_decide as Hnil; [by rewrite Hnil in Hin; apply elem_of_nil in Hin|].
  destruct (pick _ _) as [si|] eqn:Hp; [by eexists _, _|].
  apply pick_None in Hp. rewrite groups_concat, Forall_forall in Hp.
  specialize (Hp _ Hin). unfold available in Hp. simpl in Hp. lia.
Qed.

(** Under [best_effort] a live request with a candidate always gets a
    connection; when all candidates are full it goes to one whose ratio of
    connections to slots, as a [float64], no other candidate undercuts. *)
Theorem Route_best_effort ctx cfg disc model st :
  ctx_Err ctx = None → router_wf st → FallbackStrategy cfg = FallbackBestEffort →
  let infos := ranked (pool st) (index_ServersForModel disc model) in
  infos ≠ [] →
  ∃ b st', Route ctx cfg disc model st = (Routed (mkConn (url b)), st') ∧ b ∈ infos ∧
    (Forall (λ si, available si = false) infos →
     ∀ si, si ∈ infos → flt (ratio si) (ratio b) = false).
Proof.
  intros Hctx [Hok Hrr] Hs infos Hne. unfold Route, route.
  pose proof (route_live (ok := ok) ctx (FallbackStrategy cfg)
    (index_ServersForModel disc model) model true st Hctx Hok Hrr) as Hl.
  destruct (route_servers _ _ _ _ _ _) as [r st']. destruct Hl as (-> & _). fold infos.
  unfold decision. rewrite (bool_decide_false (infos = [])), bool_decide_true by done.
  destruct (pick _ _) as [si|] eqn:Hp.
  - exists si, st'. apply pick_Some in Hp as (gs1 & g & gs2 & Hgs & Hin & Ha & _).
    assert (si ∈ infos) as Hsi
      by (rewrite <- (groups_concat infos), Hgs, concat_app; set_solver).
    split_and!; [done|done|]. rewrite Forall_forall. intros Hall.
    rewrite Hall in Ha by done. done.
  - pose proof (best_of_spec infos) as Hb. destruct (best_of infos) as [b|]; [|done].
    destruct Hb. by exists b, st'.
Qed.

(** [n] requests for one model, one after the other, none released. *)
Fixpoint Route_many (n : nat) ctx cfg disc model st : list RouteOutcome :=
  match n with
  | O => []
  | S n' => let '(r, st') := Route ctx cfg disc model st in
            r :: Route_many n' ctx cfg disc model st'
  end.

(** [C18] Round robin: when the candidates are equally near and have room for
    [n] requests each, [n] requests in a row visit them in turn, from the
    counter on and modulo their number. *)
Theorem Route_round_robin n ctx cfg disc model st d :
  ctx_Err ctx = None → router_wf st →
  let infos := ranked (pool st) (index_ServersForModel disc model) in
  infos ≠ [] → Forall (λ si, distance si = d) infos → free_slots n infos →
  Route_many n ctx cfg disc model st =
  map (λ k, Routed (mkConn (nth (Z.to_nat
              ((default 0 (rrIndex st !! model) + Z.of_nat k) mod Z.of_nat (length infos)))
              (map url infos) EmptyString))) (seq 0 n).
Proof.
  intros Hctx Hwf. revert st Hwf. induction n as [|n IH]; intros st [Hok Hrr] infos Hne Hd Hf;
    [done|].
  destruct (route_one_group (ok := ok) ctx (FallbackStrategy cfg)
    (index_ServersForModel disc model) model true st d Hctx Hok Hrr Hne Hd
    (free_slots_available _ _ Hf)) as (si & st' & Hsi & Hr & Hok' & Hrr' & Hc).
  assert (Route ctx cfg disc model st = (Routed (mkConn (url si)), st')) as HR by exact Hr.
  cbn [Route_many seq map]. rewrite HR. unfold infos in *. clear infos.
  set (infos := ranked (pool st) (index_ServersForModel disc model)) in *.
  assert (map url (ranked (pool st') (index_ServersForModel disc model)) = map url infos)
    as Hurls by (apply ranked_urls; intros u; apply Hc).
  assert (length (ranked (pool st') (index_ServersForModel disc model)) = length infos)
    as Hlen by (by rewrite <- (length_map url), Hurls, length_map).
  assert (0 < length infos)%nat by (destruct infos; simpl; [done|lia]).
  pose proof (Z.mod_pos_bound (default 0 (rrIndex st !! model)) (Z.of_nat (length infos))
    ltac:(lia)) as Hb.
  f_equal.
  - rewrite Z.add_0_r. do 2 f_equal. symmetry.
    apply nth_lookup_Some. 
    etrans; [apply list_lookup_fmap|]. exact (f_equal (fmap url) Hsi).
  - rewrite IH.
    + rewrite <- (seq_shift n 0), map_map. apply map_ext. intros k.
      rewrite Hurls, Hlen, Hrr', lookup_insert_eq. simpl. do 4 f_equal.
      rewrite <- Z.add_assoc, Zplus_mod_idemp_l. f_equal. lia.
    + split; [done|]. rewrite Hrr'. apply map_Forall_insert_2; [lia|done].
    + intros Hnil. rewrite Hnil in Hlen. simpl in Hlen. lia.
    + eapply ranked_distance; [|done]. intros u. apply Hc.
    + by apply (free_slots_counted (ok := ok) (url si) n (pool st)).
Qed.

(** The counter is shared by all groups of a model: when the nearest group
    is a single server and it is full, the choice among the farther servers
    does not depend on the counter at all, so requests that overflow are not
    spread over them. *)
Theorem Route_overflow_not_rotated ctx cfg disc model st1 st2 si gs :
  ctx_Err ctx = None → router_wf st1 → router_wf st2 → pool st1 = pool st2 →
  groups (ranked (pool st1) (index_ServersForModel disc model)) = [si] :: gs →
  available si = false →
  fst (Route ctx cfg disc model st1) = fst (Route ctx cfg disc model st2).
Proof.
  intros Hctx [Hok1 Hrr1] [Hok2 Hrr2] Hpool Hgs Ha. unfold Route, route.
  pose proof (route_live (ok := ok) ctx (FallbackStrategy cfg)
    (index_ServersForModel disc model) model true st1 Hctx Hok1 Hrr1) as H1.
  pose proof (route_live (ok := ok) ctx (FallbackStrategy cfg)
    (index_ServersForModel disc model) model true st2 Hctx Hok2 Hrr2) as H2.
  destruct (route_servers _ _ _ _ _ st1) as [r1 st1'], (route_servers _ _ _ _ _ st2) as [r2 st2'].
  destruct H1 as (-> & _), H2 as (-> & _). simpl. rewrite <- Hpool. unfold decision.
  by rewrite Hgs, !pick_full_singleton.
Qed.

(** [Route] answers [ErrNoServers] exactly when no server that discovery
    has for the model is in the pool, and then changes nothing. *)
Theorem Route_no_servers ctx cfg disc model st :
  router_wf st →
  let '(r, st') := Route ctx cfg disc model st in
  (r = RouteErr ErrNoServers ↔
   ∀ u, u ∈ index_ServersForModel disc model → pool_GetServer (pool st) u = None) ∧
  (r = RouteErr ErrNoServers → st' = st).
Proof.
  intros [Hok Hrr]. unfold Route, route.
  pose proof (ranked_nil_iff (pool st) (index_ServersForModel disc model)) as Hc.
  destruct (decide (ranked (pool st) (index_ServersForModel disc model) = [])) as [Hn|Hn].
  { rewrite route_empty by done. by rewrite <- Hc. }
  destruct (ctx_Err ctx) as [e|] eqn:Hctx.
  - pose proof (route_done (ok := ok) ctx e (FallbackStrategy cfg)
      (index_ServersForModel disc model) model true st Hctx Hok Hrr) as Hl.
    destruct (route_servers _ _ _ _ _ _) as [r st']. destruct Hl as (-> & _).
    rewrite bool_decide_false, <- Hc by done. by case_match.
  - pose proof (route_live (ok := ok) ctx (FallbackStrategy cfg)
      (index_ServersForModel disc model) model true st Hctx Hok Hrr) as Hl.
    destruct (route_servers _ _ _ _ _ _) as [r st']. destruct Hl as (-> & _).
    unfold decision. rewrite (bool_decide_false (_ = [])), <- Hc by done.
    by repeat case_match.
Qed.
End theorems.
