(* ===== verification/RouterConcurrent.v ===== *)
(** * Concurrent calls of [route] (src/router/router.go)

    [Router] gives a call of [route] as one function of the state.  Several
    goroutines run it at the same time, and only the round-robin counter is
    under a mutex: the load of the servers is read first and used later.  Here
    a call is a sequence of steps between which other calls go on: one per
    server whose load is read, one per look at the round-robin counter, one per
    server that is tried.  The configuration and the set of servers do not
    change meanwhile. *)
From Stdlib Require Import ZArith Lia.
From stdpp Require Import base tactics option list numbers strings gmap relations sorting.
From S2P Require Import Prelude GoFloat Config Interfaces Router.

Open Scope Z_scope.

(** ** One call in steps *)

Record Call : Type := mkCall {
  c_ctx : Context;
  c_servers : list string;
  c_model : string;
  c_allowQueue : bool
}.

(** Where a call is in the body of [route]. *)
Inductive Progress : Type :=
  | Collecting (todo : list string) (infos : list serverInfo)
  | Locking (gs : list (list serverInfo)) (infos : list serverInfo)
  | Scanning (group : list serverInfo) (idx : Z) (ks : list nat)
      (gs : list (list serverInfo)) (infos : list serverInfo)
  | Falling (infos : list serverInfo)
  | Finished (r : RouteOutcome).

Section steps.
Context {P : Type} `{!PoolOps P} `{!SortSlice}.
Variable strategy : string.

Definition start (call : Call) : Progress :=
  if bool_decide (c_servers call = []) then Finished (RouteErr ErrNoServers)
  else Collecting (c_servers call) [].

(** One step of a call. *)
Definition route_step (call : Call) (pr : Progress) (st : RouterState P)
    : Progress * RouterState P :=
  match pr with
  | Collecting (u :: todo) infos =>
      (Collecting todo (infos ++ option_list (info_of (pool st) u)), st)
  | Collecting [] infos =>
      if bool_decide (infos = []) then (Finished (RouteErr ErrNoServers), st)
      else let infos := sort_slice less_distance infos in (Locking (groups infos) infos, st)
  | Locking [] infos => (Falling infos, st)
  | Locking (group :: gs) infos =>
      if bool_decide (group = []) then (Finished RoutePanic, st) else
      let idx := Z.rem (default 0 (rrIndex st !! c_model call)) (Z.of_nat (length group)) in
      (Scanning group idx (seq 0 (length group)) gs infos,
       mkRouter (<[c_model call := idx + 1]> (rrIndex st)) (pool st))
  | Scanning group idx [] gs infos => (Locking gs infos, st)
  | Scanning group idx (k :: ks) gs infos =>
      match go_index group (Z.rem (idx + Z.of_nat k) (Z.of_nat (length group))) with
      | None => (Finished RoutePanic, st)
      | Some si =>
          if available si then
            match pool_Acquire (c_ctx call) (url si) (pool st) with
            | (Ok conn, p) => (Finished (Routed conn), mkRouter (rrIndex st) p)
            | (Err _, p) => (Scanning group idx ks gs infos, mkRouter (rrIndex st) p)
            end
          else (Scanning group idx ks gs infos, st)
      end
  | Falling infos =>
      let '(r, st') := fallback (c_ctx call) strategy (c_allowQueue call) infos st in
      (Finished r, st')
  | Finished r => (Finished r, st)
  end.

(** ** The system *)

Record Sys : Type := mkSys {
  s_router : RouterState P;
  s_workers : list (option (Call * Progress));   (* the goroutines, idle or in a call *)
  s_held : list Conn                             (* connections that were handed out *)
}.

Definition outcome_conns (r : RouteOutcome) : list Conn :=
  match r with Routed c => [c] | _ => [] end.

(** A worker after a step: idle again if the call has ended. *)
Definition settle (call : Call) (pr : Progress) : option (Call * Progress) * list Conn :=
  match pr with
  | Finished r => (None, outcome_conns r)
  | _ => (Some (call, pr), [])
  end.

Definition cancelled (e : error) (call : Call) : Call :=
  mkCall (mkContext (Some e) (ctx_Deadline (c_ctx call))) (c_servers call) (c_model call)
    (c_allowQueue call).

Inductive sys_step : Sys → Sys → Prop :=
  | sys_call st ws held i call w conns :
      ws !! i = Some None → settle call (start call) = (w, conns) →
      sys_step (mkSys st ws held) (mkSys st (<[i := w]> ws) (conns ++ held))
  | sys_run st ws held i call pr pr' st' w conns :
      ws !! i = Some (Some (call, pr)) → route_step call pr st = (pr', st') →
      settle call pr' = (w, conns) →
      sys_step (mkSys st ws held) (mkSys st' (<[i := w]> ws) (conns ++ held))
  | sys_cancel st ws held i call pr e :
      ws !! i = Some (Some (call, pr)) →
      sys_step (mkSys st ws held) (mkSys st (<[i := Some (cancelled e call, pr)]> ws) held)
  | sys_release st ws held1 held2 c :
      sys_step (mkSys st ws (held1 ++ c :: held2))
        (mkSys (mkRouter (rrIndex st) (pool_Release c (pool st))) ws (held1 ++ held2)).

(** [K] goroutines, all idle. *)
Definition idle (K : nat) (st : RouterState P) : Sys := mkSys st (replicate K None) [].

(** ** A call on its own *)

(** The steps of one call with no other in between. *)
Definition alone (call : Call) : relation (Progress * RouterState P) :=
  λ x y, y = route_step call x.1 x.2.

Lemma alone_step call pr st y : rtc (alone call) (route_step call pr st) y → rtc (alone call) (pr, st) y.
Proof. intros Hr. by eapply rtc_l; [|exact Hr]. Qed.

Lemma alone_collect call todo infos st y :
  rtc (alone call) (Collecting [] (infos ++ candidates (pool st) todo), st) y →
  rtc (alone call) (Collecting todo infos, st) y.
Proof.
  revert infos. induction todo as [|u todo IH]; intros infos.
  - unfold candidates. simpl. by rewrite app_nil_r.
  - intros Hr. apply alone_step. cbn [route_step]. apply IH. rewrite <- app_assoc.
    unfold candidates in *. simpl in Hr. by destruct (info_of (pool st) u).
Qed.

(** What the rest of the call does with the outcome of a scan. *)
Definition after_scan (call : Call) (infos : list serverInfo) (r : ScanOutcome * RouterState P)
    : RouteOutcome * RouterState P :=
  match r with
  | (Found conn, st) => (Routed conn, st)
  | (ScanPanic, st) => (RoutePanic, st)
  | (NotFound, st) => fallback (c_ctx call) strategy (c_allowQueue call) infos st
  end.

Definition finished (x : RouteOutcome * RouterState P) : Progress * RouterState P :=
  (Finished x.1, x.2).

Lemma alone_scan call group idx ks gs infos st :
  let '(r, p) := scan_group (c_ctx call) group idx ks (pool st) in
  let st' := mkRouter (rrIndex st) p in
  rtc (alone call) (Scanning group idx ks gs infos, st)
    (match r with NotFound => (Locking gs infos, st') | _ => finished (after_scan call infos (r, st')) end).
Proof.
  revert st. induction ks as [|k ks IH]; intros st; cbn [scan_group].
  - apply alone_step. cbn [route_step]. by destruct st.
  - destruct (go_index _ _) as [si|] eqn:Hg.
    2: { apply alone_step. cbn [route_step]. rewrite Hg. by destruct st. }
    destruct (available si) eqn:Ha.
    + destruct (pool_Acquire (c_ctx call) (url si) (pool st)) as [[conn|e] p] eqn:Hq.
      * apply alone_step. cbn [route_step]. by rewrite Hg, Ha, Hq.
      * specialize (IH (mkRouter (rrIndex st) p)). cbn [pool rrIndex] in IH.
        destruct (scan_group _ _ _ _ p) as [r p']. apply alone_step. cbn [route_step].
        by rewrite Hg, Ha, Hq.
    + specialize (IH st). destruct (scan_group _ _ _ _ (pool st)) as [r p'].
      apply alone_step. cbn [route_step]. by rewrite Hg, Ha.
Qed.

Lemma alone_groups call gs infos st :
  rtc (alone call) (Locking gs infos, st)
    (finished (after_scan call infos (scan_groups (c_ctx call) (c_model call) gs st))).
Proof.
  revert st. induction gs as [|group gs IH]; intros st; cbn [scan_groups].
  - apply alone_step, alone_step. cbn [route_step after_scan]. unfold finished.
    by destruct (fallback _ _ _ _ _).
  - destruct (bool_decide (group = [])) eqn:Hg.
    { apply alone_step. cbn [route_step]. by rewrite Hg. }
    apply alone_step. cbn [route_step]. rewrite Hg.
    set (idx := Z.rem _ _). set (st1 := mkRouter _ (pool st)).
    pose proof (alone_scan call group idx (seq 0 (length group)) gs infos st1) as Hs.
    change (pool st1) with (pool st) in Hs.
    destruct (scan_group _ _ _ _ (pool st)) as [[conn| |] p]; [exact Hs| |exact Hs].
    etrans; [exact Hs|apply IH].
Qed.

(** A call that is not interrupted does what [route_servers] says. *)
Lemma alone_route call st :
  rtc (alone call) (start call, st)
    (finished (route_servers (c_ctx call) strategy (c_servers call) (c_model call)
      (c_allowQueue call) st)).
Proof.
  unfold start, route_servers. destruct (bool_decide (c_servers call = [])); [done|].
  apply alone_collect. cbn [app]. apply alone_step. cbn [route_step].
  destruct (bool_decide (candidates (pool st) (c_servers call) = [])); [done|].
  pose proof (alone_groups call (groups (sort_slice less_distance
    (candidates (pool st) (c_servers call)))) (sort_slice less_distance
    (candidates (pool st) (c_servers call))) st) as Hs.
  unfold after_scan in Hs. by destruct (scan_groups _ _ _ _) as [[conn| |] st'].
Qed.
End steps.

(** ** What one step does *)

Section invariants.
Context {P : Type} `{!PoolOps P} {ok : P → Prop} `{!PoolLaws P ok}.
Context `{!SortSlice, !SortSliceLaws}.
Variable strategy : string.

(** The pool the system started with; its servers stay. *)
Variable p0 : P.

Definition same_servers (p : P) : Prop := ∀ id, pool_GetServer p id = pool_GetServer p0 id.

Definition info_ok (si : serverInfo) : Prop :=
  ∃ sc, pool_GetServer p0 (url si) = Some sc ∧ maxConn si = MaxConcurrentRequests sc.

(** The candidates a call has read so far. *)
Definition infos_of (pr : Progress) : list serverInfo :=
  match pr with
  | Collecting _ infos | Locking _ infos | Scanning _ _ _ _ infos | Falling infos => infos
  | Finished _ => []
  end.

Definition groups_of (pr : Progress) : list (list serverInfo) :=
  match pr with Locking gs _ => gs | Scanning g _ _ gs _ => g :: gs | _ => [] end.

Definition progress_ok (pr : Progress) : Prop :=
  Forall info_ok (infos_of pr) ∧
  Forall (λ g, g ≠ [] ∧ Forall (.∈ infos_of pr) g) (groups_of pr) ∧
  match pr with Scanning _ idx _ _ _ => 0 <= idx | _ => True end.

(** The call may still take a slot on [u]: it has read a free one. *)
Definition wants (u : string) (pr : Progress) : bool :=
  existsb (λ si, bool_decide (url si = u) && available si) (infos_of pr).

(** There is a free slot on [u] at this moment. *)
Definition has_room (u : string) (p : P) : Prop :=
  ∃ sc, pool_GetServer p0 u = Some sc ∧ pool_Inflight p u < MaxConcurrentRequests sc.

Lemma acquire_cases ctx id (p : P) :
  ok p →
  (∃ e q, pool_Acquire ctx id p = (Err e, q) ∧ ok q ∧ p ≈ q) ∨
  (∃ q, pool_Acquire ctx id p = (Ok (mkConn id), q) ∧ is_Some (pool_GetServer p id) ∧ ok q ∧
    counted id 1 p q).
Proof.
  intros Hp. destruct (pool_GetServer p id) as [sc|] eqn:Hid.
  - assert (is_Some (pool_GetServer p id)) as Hs by by rewrite Hid.
    destruct (ctx_Err ctx) as [e|] eqn:He.
    + destruct (acquire_done ctx id p e Hp Hs He) as (q & -> & Hq & Heq). left. eauto.
    + destruct (acquire_live ctx id p Hp Hs He) as (q & -> & Hq & Hc). right.
      exists q. split_and!; [done|by eexists|done|done].
  - left. exists ErrServerUnhealthy, p. split_and!; [by apply acquire_unknown|done|done].
Qed.

(** What a step of a call makes of the pool: nothing to see, or one slot more
    for the connection the call ends with. *)
Inductive step_effect (pr : Progress) (p : P) : Progress → P → Prop :=
  | effect_none pr' p' :
      ok p' → p ≈ p' → (∀ c, pr' ≠ Finished (Routed c)) → pr' ≠ Finished RoutePanic →
      progress_ok pr' →
      (∀ u, wants u pr' = true → wants u pr = true ∨ has_room u p) →
      step_effect pr p pr' p'
  | effect_taken u p' :
      ok p' → is_Some (pool_GetServer p u) → counted u 1 p p' →
      (strategy ≠ FallbackBestEffort → wants u pr = true) →
      step_effect pr p (Finished (Routed (mkConn u))) p'.

Lemma wants_In u pr : wants u pr = true ↔ ∃ si, si ∈ infos_of pr ∧ url si = u ∧ available si = true.
Proof.
  unfold wants. rewrite existsb_exists. split.
  - intros (si & Hin%list_elem_of_In & [Hu%bool_decide_eq_true Ha]%andb_true_iff). eauto.
  - intros (si & Hin%list_elem_of_In & Hu & Ha). exists si. split; [done|].
    rewrite Ha, andb_true_r. by apply bool_decide_eq_true.
Qed.

Lemma info_of_spec (p : P) u :
  same_servers p → Forall (λ si, info_ok si ∧ url si = u ∧ inflight si = pool_Inflight p u)
    (option_list (info_of p u)).
Proof.
  intros Hs. unfold info_of. rewrite Hs. destruct (pool_GetServer p0 u) as [sc|] eqn:Hu; [|done].
  apply Forall_singleton. split_and!; [|done|done]. by exists sc.
Qed.

(** The groups of a call are made of its candidates. *)
Lemma groups_subset infos : Forall (λ g, g ≠ [] ∧ Forall (.∈ infos) g) (groups infos).
Proof.
  apply Forall_forall. intros g Hg. split.
  - pose proof (groups_nonempty infos) as Hne. rewrite Forall_forall in Hne. by apply Hne.
  - apply Forall_forall. intros si Hsi. rewrite <- (groups_concat infos).
    apply list_elem_of_In, in_concat. exists g. by rewrite <- !list_elem_of_In.
Qed.

(** The steps that do not touch the pool. *)
Lemma effect_silent pr p pr' :
  ok p → infos_of pr' = infos_of pr → progress_ok pr' →
  (∀ r, pr' ≠ Finished r) → step_effect pr p pr' p.
Proof.
  intros Hp Hi Hok Hf. apply effect_none; [done|done|by intros c|by intros|done|].
  intros u Hu. left. unfold wants in *. by rewrite <- Hi.
Qed.

(** A call that ends without a connection. *)
Lemma effect_end pr p p' r :
  ok p' → p ≈ p' → (∀ c, r ≠ Routed c) → r ≠ RoutePanic → step_effect pr p (Finished r) p'.
Proof.
  intros Hp Heq Hc Hr. apply effect_none; [done|done|congruence|congruence|by repeat split|done].
Qed.

(** The attempt to take the slot of a candidate. *)
Lemma scan_effect call g idx k ks gs infos st pr' st' :
  ok (pool st) → progress_ok (Scanning g idx (k :: ks) gs infos) →
  route_step strategy call (Scanning g idx (k :: ks) gs infos) st = (pr', st') →
  step_effect (Scanning g idx (k :: ks) gs infos) (pool st) pr' (pool st') ∧
  rrIndex st' = rrIndex st.
Proof.
  intros Hp (Hi & Hg & Hidx). cbn [route_step groups_of infos_of] in *.
  pose proof Hg as [[Hne Hin] _]%Forall_cons.
  destruct (go_index_rem g idx k Hidx Hne) as (si & -> & _ & Hsi).
  rewrite Forall_forall in Hin. specialize (Hin si Hsi).
  assert (progress_ok (Scanning g idx ks gs infos)) as Hok by done.
  destruct (available si) eqn:Ha; [|intros [= <- <-]; split; [by apply effect_silent|done]].
  destruct (acquire_cases (c_ctx call) (url si) (pool st) Hp)
    as [(e & q & -> & Hq & Heq)|(q & -> & Hs & Hq & Hc)]; intros [= <- <-]; (split; [|done]).
  - apply effect_none; [done|done|done|done|done|]. intros u Hu. by left.
  - apply effect_taken; [done..|]. intros _. apply wants_In. eauto.
Qed.

Lemma fallback_effect call infos st r st' :
  ok (pool st) → Forall info_ok infos →
  fallback (c_ctx call) strategy (c_allowQueue call) infos st = (r, st') →
  step_effect (Falling infos) (pool st) (Finished r) (pool st') ∧ rrIndex st' = rrIndex st.
Proof.
  intros Hp Hi. unfold fallback. destruct st as [rr p]. cbn [pool rrIndex] in *.
  assert (∀ q, ok q → p ≈ q → ∀ r st',
    (if bool_decide (strategy = FallbackQueue) && c_allowQueue call
     then (Enqueue, mkRouter rr q) else (RouteErr ErrAllBusy, mkRouter rr q)) = (r, st') →
    step_effect (Falling infos) p (Finished r) (pool st') ∧ rrIndex st' = rr) as Hend.
  { intros q Hq Heq r0 st0. destruct (_ && _); intros [= <- <-]; (split; [|done]);
      by apply effect_end. }
  destruct (bool_decide (strategy = FallbackBestEffort)) eqn:Hbe; [|by apply (Hend p)].
  apply bool_decide_eq_true in Hbe. destruct (best_of infos) as [b|]; [|by apply (Hend p)].
  destruct (acquire_cases (c_ctx call) (url b) p Hp)
    as [(e & q & -> & Hq & Heq)|(q & -> & Hs & Hq & Hc)]; [by apply (Hend q)|].
  intros [= <- <-]. split; [|done]. by apply effect_taken.
Qed.

Lemma route_step_effect call pr st pr' st' :
  ok (pool st) → same_servers (pool st) → rr_ok (rrIndex st) → progress_ok pr →
  (∀ r, pr ≠ Finished r) → route_step strategy call pr st = (pr', st') →
  step_effect pr (pool st) pr' (pool st') ∧ rr_ok (rrIndex st').
Proof.
  intros Hp Hs Hrr Hok Hnf Hstep.
  destruct pr as [todo infos|gs infos|g idx ks gs infos|infos|r]; [| | | |by destruct (Hnf r)].
  - destruct Hok as (Hi & _ & _). destruct todo as [|u todo]; cbn [route_step] in Hstep.
    + destruct (bool_decide (infos = [])); injection Hstep as <- <-; (split; [|done]).
      { by apply effect_end. }
      pose proof (sort_slice_perm serverInfo less_distance infos) as Hperm.
      apply effect_none; [done|done|done|done| |].
      * split_and!; [|apply groups_subset|done]. cbn [infos_of] in *. by rewrite Hperm.
      * intros u (si & Hin & Hu & Ha)%wants_In. left. apply wants_In. exists si.
        split; [|done]. cbn [infos_of] in *. by rewrite <- Hperm.
    + injection Hstep as <- <-. split; [|done]. pose proof (info_of_spec _ u Hs) as Hu.
      apply effect_none; [done|done|done|done| |].
      * split_and!; [|done|done]. cbn [infos_of] in *. apply Forall_app. split; [done|].
        eapply Forall_impl; [exact Hu|]. by intros si [? _].
      * intros v (si & [Hin|Hin]%elem_of_app & Hv & Ha)%wants_In; [left; apply wants_In; eauto|].
        right. rewrite Forall_forall in Hu. destruct (Hu si Hin) as ((sc & Hsc & Hm) & <- & Hl).
        exists sc. rewrite <- Hv. split; [done|]. unfold available in Ha. apply Z.ltb_lt in Ha. lia.
  - destruct Hok as (Hi & Hg & _). destruct gs as [|g gs]; cbn [route_step] in Hstep.
    + injection Hstep as <- <-. split; [|done]. by apply effect_silent.
    + cbn [groups_of] in Hg. pose proof Hg as [[Hne _] _]%Forall_cons.
      rewrite bool_decide_false in Hstep by done.
      destruct (rr_step st (c_model call) g Hrr Hne) as (_ & Hidx & Hrr').
      injection Hstep as <- <-. split; [|exact Hrr']. apply effect_silent; [done|done| |done].
      split_and!; [done|done|lia].
  - destruct ks as [|k ks].
    + cbn [route_step] in Hstep. injection Hstep as <- <-. split; [|done].
      destruct Hok as (Hi & Hg & _). apply effect_silent; [done|done| |done].
      split_and!; [done| |done]. cbn [groups_of] in *. by apply Forall_cons in Hg as [_ Hg].
    + destruct (scan_effect _ _ _ _ _ _ _ _ _ _ Hp Hok Hstep) as [He ->]. done.
  - cbn [route_step] in Hstep.
    destruct (fallback _ _ _ infos st) as [r st1] eqn:Hf. injection Hstep as <- <-.
    destruct (fallback_effect _ _ _ _ _ Hp (proj1 Hok) Hf) as [He ->]. done.
Qed.

(** ** The invariant of the system *)

Hypothesis p0_ok : ok p0.

(** The connections on [u] that are held. *)
Definition held_on (u : string) (held : list Conn) : Z :=
  Z.of_nat (length (filter (λ c, ServerID c = u) held)).

Record sys_wf (s : Sys) : Prop := {
  wf_pool : ok (pool (s_router s));
  wf_servers : same_servers (pool (s_router s));
  wf_rr : rr_ok (rrIndex (s_router s));
  wf_workers : Forall (λ w, ∀ call pr, w = Some (call, pr) →
    progress_ok pr ∧ ∀ r, pr ≠ Finished r) (s_workers s);
  wf_held : Forall (λ c, is_Some (pool_GetServer p0 (ServerID c))) (s_held s);
  wf_count : ∀ u, pool_Inflight (pool (s_router s)) u =
    wrap64 (pool_Inflight p0 u + held_on u (s_held s))
}.

Lemma held_on_cons u c held :
  held_on u (c :: held) = (if decide (u = ServerID c) then 1 else 0) + held_on u held.
Proof.
  unfold held_on. rewrite filter_cons.
  destruct (decide (ServerID c = u)), (decide (u = ServerID c)); try congruence; simpl; lia.
Qed.

Lemma held_on_middle u c l1 l2 :
  held_on u (l1 ++ c :: l2) = (if decide (u = ServerID c) then 1 else 0) + held_on u (l1 ++ l2).
Proof.
  rewrite <- held_on_cons. unfold held_on. f_equal. apply Permutation_length.
  by rewrite <- Permutation_middle.
Qed.

(** The counter of every server after a change of one of them. *)
Lemma count_step (p p' : P) (f f' : string → Z) id d :
  counted id d p p' → (∀ u, pool_Inflight p u = wrap64 (pool_Inflight p0 u + f u)) →
  (∀ u, f' u = (if decide (u = id) then d else 0) + f u) →
  ∀ u, pool_Inflight p' u = wrap64 (pool_Inflight p0 u + f' u).
Proof.
  intros Hc Hf Hf' u. destruct (Hc u) as [_ ->]. rewrite Hf'.
  destruct (decide (u = id)) as [->|].
  - rewrite Hf, wrap64_add_l. f_equal. lia.
  - rewrite Hf. f_equal.
Qed.

Lemma settle_spec call pr w conns :
  settle call pr = (w, conns) →
  (∃ r, pr = Finished r ∧ w = None ∧ conns = outcome_conns r) ∨
  ((∀ r, pr ≠ Finished r) ∧ w = Some (call, pr) ∧ conns = []).
Proof. destruct pr; intros [= <- <-]; [right..|left]; eauto. Qed.

Lemma start_ok call : progress_ok (start call) ∧ infos_of (start call) = [] ∧
  ∀ c, start call ≠ Finished (Routed c).
Proof. unfold start. destruct (bool_decide _); by repeat split. Qed.

Lemma workers_insert (ws : list (option (Call * Progress))) i w (Q : option (Call * Progress) → Prop) :
  Forall Q ws → Q w → Forall Q (<[i := w]> ws).
Proof. intros. by apply Forall_insert. Qed.

Lemma sys_call_wf st ws held i call w conns :
  sys_wf (mkSys st ws held) → settle call (start call) = (w, conns) →
  sys_wf (mkSys st (<[i := w]> ws) (conns ++ held)).
Proof.
  intros [] Hs. destruct (start_ok call) as (Hok & _ & Hc).
  destruct (settle_spec _ _ _ _ Hs) as [(r & Hr & -> & ->)|(Hnf & -> & ->)].
  - assert (outcome_conns r = []) as -> by (destruct r; [by destruct (Hc c)|done..]).
    split; try done. by apply workers_insert.
  - split; try done. apply workers_insert; [done|]. by intros ? ? [= <- <-].
Qed.

Lemma sys_run_wf st ws held i call pr pr' st' w conns :
  sys_wf (mkSys st ws held) → ws !! i = Some (Some (call, pr)) →
  route_step strategy call pr st = (pr', st') → settle call pr' = (w, conns) →
  sys_wf (mkSys st' (<[i := w]> ws) (conns ++ held)) ∧ pr' ≠ Finished RoutePanic.
Proof.
  intros [Hp Hsv Hrr Hws Hh Hc] Hi Hstep Hset. cbn [s_router s_workers s_held] in *.
  destruct (Forall_lookup_1 _ _ _ _ Hws Hi call pr eq_refl) as [Hok Hnf].
  destruct (route_step_effect _ _ _ _ _ Hp Hsv Hrr Hok Hnf Hstep) as [He Hrr'].
  remember (pool st') as q eqn:Hq in He.
  destruct He as [pr' p' Hp' Heq Hnr Hnp Hok' _|u p' Hp' Hu Hcnt _]; subst p'.
  - split; [|done]. assert (conns = []) as ->.
    { destruct (settle_spec _ _ _ _ Hset) as [(r & -> & _ & ->)|(_ & _ & ->)]; [|done].
      destruct r; [by destruct (Hnr c)|done..]. }
    split; try done; cbn [s_router s_workers s_held app].
    + intros id. destruct (Heq id) as [<- _]. apply Hsv.
    + apply workers_insert; [done|]. intros call' pr0 ->.
      destruct (settle_spec _ _ _ _ Hset) as [(r & _ & Hw & _)|(Hnf' & Hw & _)]; [done|].
      by injection Hw as -> ->.
    + intros u. destruct (Heq u) as [_ <-]. apply Hc.
  - split; [|done]. injection Hset as <- <-.
    split; try done; cbn [s_router s_workers s_held app].
    + intros id. destruct (Hcnt id) as [-> _]. apply Hsv.
    + by apply workers_insert.
    + constructor; [|done]. by rewrite <- Hsv.
    + eapply count_step; [exact Hcnt|exact Hc|]. intros v. apply held_on_cons.
Qed.

Lemma sys_step_wf s s' : sys_wf s → sys_step strategy s s' → sys_wf s'.
Proof.
  intros Hwf Hstep.
  destruct Hstep as [st ws held i call w conns Hi Hset|st ws held i call pr pr' st' w conns Hi Hst Hset
    |st ws held i call pr e Hi|st ws held1 held2 c].
  - by eapply sys_call_wf.
  - by eapply sys_run_wf.
  - destruct Hwf as [Hp Hsv Hrr Hws Hh Hc]. split; try done. cbn [s_workers].
    apply workers_insert; [done|]. intros call' pr' [= <- <-].
    by apply (Forall_lookup_1 _ _ _ _ Hws Hi call pr).
  - destruct Hwf as [Hp Hsv Hrr Hws Hh Hc]. cbn [s_router s_workers s_held] in *.
    pose proof Hh as [_ [Hkn _]%Forall_cons]%Forall_app.
    rewrite <- Hsv in Hkn. destruct (release_known c (pool st) Hp Hkn) as [Hq Hcnt].
    split; try done; cbn [s_router s_workers s_held pool rrIndex].
    + intros id. destruct (Hcnt id) as [-> _]. apply Hsv.
    + apply Forall_app in Hh as [H1 [_ H2]%Forall_cons]. by apply Forall_app.
    + apply (count_step (pool st) _ (λ u, held_on u (held1 ++ c :: held2))
        (λ u, held_on u (held1 ++ held2)) _ _ Hcnt Hc). intros v. rewrite held_on_middle.
      destruct (decide (v = ServerID c)); lia.
Qed.

Lemma idle_wf K st : pool st = p0 → rr_ok (rrIndex st) → sys_wf (idle K st).
Proof.
  intros Hp Hrr. split; cbn [idle s_router s_workers s_held]; rewrite ?Hp; try done.
  - by apply Forall_replicate.
  - intros u. unfold held_on. simpl. rewrite Z.add_0_r. symmetry. apply wrap64_id.
    by apply (inflight_int64 (ok := ok)).
Qed.

Lemma reachable_wf K st s :
  pool st = p0 → rr_ok (rrIndex st) → rtc (sys_step strategy) (idle K st) s → sys_wf s.
Proof.
  intros Hp Hrr Hr. pose proof (idle_wf K st Hp Hrr) as Hwf.
  induction Hr as [|x y z Hxy _ IH]; [done|]. apply IH. by eapply sys_step_wf.
Qed.

(** ** The bound on the load *)

Definition worker_wants (u : string) (w : option (Call * Progress)) : nat :=
  match w with Some (_, pr) => if wants u pr then 1 else 0 | None => 0 end.

(** The calls that may still take a slot on [u]. *)
Definition pending (u : string) (ws : list (option (Call * Progress))) : Z :=
  Z.of_nat (sum_list_with (worker_wants u) ws).

Lemma sum_insert {A} (f : A → nat) l i x y :
  l !! i = Some y → (sum_list_with f (<[i := x]> l) + f y = sum_list_with f l + f x)%nat.
Proof.
  revert i. induction l as [|z l IH]; intros [|i] Hi; simplify_eq/=; [lia|].
  specialize (IH i Hi). lia.
Qed.

Lemma sum_le_length {A} (f : A → nat) l :
  (∀ x, f x ≤ 1)%nat → (sum_list_with f l ≤ length l)%nat.
Proof. intros Hf. induction l as [|x l IH]; simpl; [lia|]. specialize (Hf x). lia. Qed.

Lemma pending_insert u ws i w0 w :
  ws !! i = Some w0 →
  pending u (<[i := w]> ws) = pending u ws - Z.of_nat (worker_wants u w0) + Z.of_nat (worker_wants u w).
Proof. intros Hi. unfold pending. pose proof (sum_insert (worker_wants u) ws i w w0 Hi). lia. Qed.

Lemma pending_le u ws : pending u ws <= Z.of_nat (length ws).
Proof.
  unfold pending. apply inj_le, sum_le_length. intros [[call pr]|]; simpl; [|lia].
  destruct (wants u pr); lia.
Qed.

Lemma held_on_nonneg u held : 0 <= held_on u held.
Proof. unfold held_on. lia. Qed.

Section bound.
Variables (K : nat) (u : string) (sc : ServerConfig).
Hypothesis Hsc : pool_GetServer p0 u = Some sc.
Hypothesis Hstrat : strategy ≠ FallbackBestEffort.
Hypothesis HK : (1 ≤ K)%nat.
Hypothesis Hbase : 0 <= pool_Inflight p0 u <= MaxConcurrentRequests sc.
Hypothesis Hsmall : MaxConcurrentRequests sc + Z.of_nat K < 2 ^ 63.

(** The limit, plus one for each call but one that runs at the same time. *)
Definition ceiling : Z := MaxConcurrentRequests sc + Z.of_nat K - 1.

Definition bounded (s : Sys (P := P)) : Prop :=
  length (s_workers s) = K ∧
  pool_Inflight p0 u + held_on u (s_held s) + pending u (s_workers s) <= ceiling.

Lemma bounded_inflight s :
  sys_wf s → bounded s →
  pool_Inflight (pool (s_router s)) u = pool_Inflight p0 u + held_on u (s_held s).
Proof.
  intros Hwf [_ Hb]. rewrite (wf_count s Hwf). apply wrap64_id.
  pose proof (held_on_nonneg u (s_held s)).
  assert (0 <= pending u (s_workers s)) by (unfold pending; lia).
  unfold int64, ceiling in *. lia.
Qed.

Lemma bounded_run st ws held i call pr pr' st' w conns :
  sys_wf (mkSys st ws held) → bounded (mkSys st ws held) → ws !! i = Some (Some (call, pr)) →
  route_step strategy call pr st = (pr', st') → settle call pr' = (w, conns) →
  bounded (mkSys st' (<[i := w]> ws) (conns ++ held)).
Proof.
  intros Hwf Hbd Hi Hstep Hset. pose proof (bounded_inflight _ Hwf Hbd) as Hin.
  destruct Hbd as [Hlen Hb]. pose proof Hwf as [Hp Hsv Hrr Hws _ _].
  cbn [s_router s_workers s_held] in *.
  destruct (Forall_lookup_1 _ _ _ _ Hws Hi call pr eq_refl) as [Hok Hnf].
  destruct (route_step_effect _ _ _ _ _ Hp Hsv Hrr Hok Hnf Hstep) as [He _].
  split; cbn [s_workers s_held]; [by rewrite length_insert|].
  remember (pool st') as q eqn:Hq in He.
  destruct He as [pr' p' _ _ Hnr _ _ Hwant|v p' _ _ _ Hwant].
  - assert (conns = []) as ->.
    { destruct (settle_spec _ _ _ _ Hset) as [(r & -> & _ & ->)|(_ & _ & ->)]; [|done].
      destruct r; [by destruct (Hnr c)|done..]. }
    destruct (wants u pr' && negb (wants u pr)) eqn:Hnew.
    + apply andb_true_iff in Hnew as [H1 H2%negb_true_iff].
      destruct (Hwant u H1) as [H3|(sc' & Hsc' & Hlt)]; [congruence|].
      rewrite Hsc in Hsc'. injection Hsc' as <-. rewrite Hin in Hlt.
      pose proof (pending_le u (<[i := w]> ws)) as Hpl. rewrite length_insert, Hlen in Hpl.
      simpl app. unfold ceiling. lia.
    + assert (worker_wants u w ≤ worker_wants u (Some (call, pr)))%nat.
      { cbn [worker_wants]. destruct (settle_spec _ _ _ _ Hset) as [(r & _ & -> & _)|(_ & -> & _)];
          [cbn; lia|]. cbn [worker_wants]. destruct (wants u pr'), (wants u pr); simpl in *; lia || done. }
      rewrite (pending_insert _ _ _ _ _ Hi). simpl app. lia.
  - injection Hset as <- <-. cbn [outcome_conns app]. rewrite held_on_cons. cbn [ServerID].
    rewrite (pending_insert _ _ _ _ _ Hi). cbn [worker_wants].
    destruct (decide (u = v)) as [->|]; [rewrite Hwant by done; lia|destruct (wants u pr); lia].
Qed.

Lemma sys_step_bounded s s' : sys_wf s → bounded s → sys_step strategy s s' → bounded s'.
Proof.
  intros Hwf Hbd Hstep.
  destruct Hstep as [st ws held i call w conns Hi Hset|st ws held i call pr pr' st' w conns Hi Hst Hset
    |st ws held i call pr e Hi|st ws held1 held2 c].
  - destruct Hbd as [Hlen Hb]. destruct (start_ok call) as (_ & Hinf & Hc).
    cbn [s_workers s_held] in *.
    split; cbn [s_workers s_held]; [by rewrite length_insert|].
    rewrite (pending_insert _ _ _ _ _ Hi).
    destruct (settle_spec _ _ _ _ Hset) as [(r & Hr & -> & ->)|(_ & -> & ->)].
    + assert (outcome_conns r = []) as -> by (destruct r; [by destruct (Hc c)|done..]).
      simpl. lia.
    + cbn [worker_wants app]. unfold wants. rewrite Hinf. simpl. lia.
  - by eapply bounded_run.
  - destruct Hbd as [Hlen Hb]. cbn [s_workers s_held] in *.
    split; cbn [s_workers s_held]; [by rewrite length_insert|].
    rewrite (pending_insert _ _ _ _ _ Hi). cbn [worker_wants]. lia.
  - destruct Hbd as [Hlen Hb]. cbn [s_workers s_held] in *.
    split; cbn [s_workers s_held]; [done|]. rewrite held_on_middle in Hb.
    destruct (decide (u = ServerID c)); lia.
Qed.

Lemma idle_bounded st : bounded (idle K st).
Proof.
  split; cbn [idle s_workers s_held]; [by rewrite length_replicate|].
  assert (pending u (replicate K None) = 0) as ->.
  { unfold pending. clear. induction K as [|k IH]; simpl in *; lia. }
  unfold held_on, ceiling. simpl. lia.
Qed.

Lemma reachable_bounded st s :
  pool st = p0 → rr_ok (rrIndex st) → rtc (sys_step strategy) (idle K st) s →
  pool_Inflight (pool (s_router s)) u <= ceiling.
Proof.
  intros Hp Hrr Hr. assert (sys_wf s ∧ bounded s) as [Hwf Hbd].
  { pose proof (idle_wf K st Hp Hrr) as Hwf. pose proof (idle_bounded st) as Hbd.
    induction Hr as [|x y z Hxy _ IH]; [done|].
    apply IH; [by eapply sys_step_wf|by eapply sys_step_bounded]. }
  rewrite (bounded_inflight s Hwf Hbd). destruct Hbd as [_ Hb].
  assert (0 <= pending u (s_workers s)) by (unfold pending; lia). lia.
Qed.
End bound.
End invariants.

(** ** The bound is reached *)

Section overshoot.
Context {P : Type} `{!PoolOps P} {ok : P → Prop} `{!PoolLaws P ok}.
Context `{!SortSlice, !SortSliceLaws}.
Variables (strategy : string) (st0 : RouterState P) (u : string) (sc : ServerConfig) (model : string).
Hypothesis st0_ok : ok (pool st0).
Hypothesis st0_rr : rr_ok (rrIndex st0).
Hypothesis Hsc : pool_GetServer (pool st0) u = Some sc.
Hypothesis Hroom : pool_Inflight (pool st0) u < MaxConcurrentRequests sc.

(** A call for a model that [u] alone serves. *)
Definition one_call : Call := mkCall Background [u] model false.

(** What it has read before any other call took a slot. *)
Definition stale : serverInfo :=
  mkInfo u (Distance sc) (MaxConcurrentRequests sc) (pool_Inflight (pool st0) u).

Definition ready : option (Call * Progress) := Some (one_call, Locking [[stale]] [stale]).

Lemma sys_one st ws held i call pr pr' st' w conns s :
  ws !! i = Some (Some (call, pr)) → route_step strategy call pr st = (pr', st') →
  settle call pr' = (w, conns) →
  rtc (sys_step strategy) (mkSys st' (<[i := w]> ws) (conns ++ held)) s →
  rtc (sys_step strategy) (mkSys st ws held) s.
Proof. intros. eapply rtc_l; [by eapply sys_run|done]. Qed.

(** A worker reads the load and is about to look for a slot. *)
Lemma get_ready ws i :
  ws !! i = Some None → rtc (sys_step strategy) (mkSys st0 ws []) (mkSys st0 (<[i := ready]> ws) []).
Proof.
  intros Hi. pose proof (lookup_lt_Some _ _ _ Hi) as Hlt.
  assert (info_of (pool st0) u = Some stale) as Hinfo by (unfold info_of; by rewrite Hsc).
  eapply rtc_l; [by eapply (sys_call strategy st0 ws [] i one_call)|]. cbn [app].
  eapply (sys_one _ _ _ i); [by rewrite list_lookup_insert_eq|reflexivity|reflexivity|].
  rewrite Hinfo. change ([] ++ option_list (Some stale)) with [stale]. cbn [app].
  assert (sort_slice less_distance [stale] = [stale]) as Hsort
    by (apply Permutation_singleton_r, sort_slice_perm).
  rewrite list_insert_insert_eq.
  eapply (sys_one _ _ _ i _ _ (Locking [[stale]] [stale]) st0);
    [by rewrite list_lookup_insert_eq| |reflexivity|].
  { cbn [route_step]. rewrite bool_decide_false by done. cbv zeta.
    rewrite Hsort, (groups_one [stale] (Distance sc)) by (done || by constructor). done. }
  rewrite list_insert_insert_eq. cbn [app]. done.
Qed.

(** It takes the slot, whatever has happened since. *)
Lemma take_slot st ws held i :
  ok (pool st) → same_servers (pool st0) (pool st) → rr_ok (rrIndex st) → ws !! i = Some ready →
  ∃ st', rtc (sys_step strategy) (mkSys st ws held)
    (mkSys st' (<[i := None]> ws) (mkConn u :: held)).
Proof.
  intros Hp Hsv Hrr Hi. pose proof (lookup_lt_Some _ _ _ Hi) as Hlt.
  destruct (rr_step st model [stale] Hrr ltac:(done)) as (_ & Hidx & _).
  set (idx := Z.rem (default 0 (rrIndex st !! model)) (Z.of_nat (length [stale]))) in *.
  destruct (go_index_rem [stale] idx 0 ltac:(lia) ltac:(done)) as (si & Hgo & _ & Hin).
  apply list_elem_of_singleton in Hin as ->.
  assert (is_Some (pool_GetServer (pool st) u)) as Hu by (rewrite Hsv, Hsc; by eexists).
  destruct (acquire_live Background u (pool st) Hp Hu eq_refl) as (q & Hq & _ & _).
  exists (mkRouter (<[model := idx + 1]> (rrIndex st)) q).
  eapply (sys_one _ _ _ i); [exact Hi|reflexivity|reflexivity|]. cbn [app].
  eapply (sys_one _ _ _ i _ _ (Finished (Routed (mkConn u))));
    [by rewrite list_lookup_insert_eq| |reflexivity|].
  { cbn [route_step length seq]. change (c_model one_call) with model.
    unfold idx in Hgo. cbn [length] in Hgo. rewrite Hgo. unfold available. cbn [inflight maxConn stale].
    rewrite (proj2 (Z.ltb_lt _ _) Hroom). cbn [pool url stale].
    change (c_ctx one_call) with Background. rewrite Hq. reflexivity. }
  rewrite list_insert_insert_eq. done.
Qed.

Lemma all_ready K j :
  (j ≤ K)%nat →
  rtc (sys_step strategy) (idle K st0)
    (mkSys st0 (replicate j ready ++ replicate (K - j) None) []).
Proof.
  induction j as [|j IH]; intros Hj; [by rewrite Nat.sub_0_r|]. etrans; [apply IH; lia|].
  replace (K - j)%nat with (S (K - S j)) by lia.
  etrans; [apply (get_ready _ j)|].
  - rewrite lookup_app_r, length_replicate, Nat.sub_diag by (rewrite length_replicate; lia). done.
  - rewrite insert_app_r_alt, length_replicate, Nat.sub_diag by (rewrite length_replicate; lia).
    change (<[0%nat := ready]> (replicate (S (K - S j)) None))
      with (ready :: replicate (K - S j) None).
    by rewrite replicate_S_end, <- app_assoc.
Qed.

Lemma all_taken K j :
  (j ≤ K)%nat →
  ∃ st, rtc (sys_step strategy) (idle K st0)
    (mkSys st (replicate j None ++ replicate (K - j) ready) (replicate j (mkConn u))).
Proof.
  induction j as [|j IH]; intros Hj.
  - exists st0. pose proof (all_ready K K ltac:(lia)) as Hr.
    rewrite Nat.sub_diag, app_nil_r in Hr. by rewrite Nat.sub_0_r.
  - destruct IH as [st Hr]; [lia|].
    pose proof (reachable_wf (ok := ok) strategy (pool st0) st0_ok K st0 _ eq_refl st0_rr Hr) as Hwf.
    replace (K - j)%nat with (S (K - S j)) in * by lia.
    destruct (take_slot st (replicate j None ++ replicate (S (K - S j)) ready)
      (replicate j (mkConn u)) j) as [st' Hs]; [apply Hwf..| |].
    { rewrite lookup_app_r, length_replicate, Nat.sub_diag by (rewrite length_replicate; lia). done. }
    exists st'. etrans; [exact Hr|]. etrans; [exact Hs|].
    rewrite insert_app_r_alt, length_replicate, Nat.sub_diag by (rewrite length_replicate; lia).
    change (<[0%nat := None]> (replicate (S (K - S j)) ready))
      with (None :: replicate (K - S j) ready).
    by rewrite (replicate_S_end j None), <- app_assoc.
Qed.
End overshoot.

(** ** Every call ends *)

Definition scan_cost (gs : list (list serverInfo)) : nat := sum_list_with (λ g, 2 + length g)%nat gs.

(** The steps a call has left at most. *)
Definition steps_left (pr : Progress) : nat :=
  (match pr with
  | Collecting todo infos => length todo + 3 * (length todo + length infos) + 3
  | Locking gs _ => scan_cost gs + 2
  | Scanning _ _ ks gs _ => length ks + 1 + scan_cost gs + 2
  | Falling _ => 1
  | Finished _ => 0
  end)%nat.

Lemma scan_cost_groups gs :
  Forall (λ g, g ≠ []) gs → (scan_cost gs ≤ 3 * length (concat gs))%nat.
Proof.
  induction 1 as [|g gs Hg _ IH]; [simpl; lia|]. cbn [scan_cost sum_list_with concat] in *.
  fold (scan_cost gs). rewrite length_app. destruct g; [done|]. simpl in *. lia.
Qed.

Lemma steps_left_groups infos :
  (scan_cost (groups infos) ≤ 3 * length infos)%nat.
Proof.
  pose proof (scan_cost_groups (groups infos) (groups_nonempty infos)) as Hc.
  by rewrite groups_concat in Hc.
Qed.

(** ** Theorems *)

Section theorems.
Context {P : Type} `{!PoolOps P} {ok : P → Prop} `{!PoolLaws P ok}.
Context `{!SortSlice, !SortSliceLaws}.
Implicit Types (st : RouterState P) (s : Sys (P := P)).

(** [C20] Every call of [route] ends: each of its steps uses up one of a number
    that is at most four per server and three at the start, whatever other
    calls, cancellations and releases do to the shared state in between. *)
Theorem route_call_ends strategy call pr st :
  (∀ r, pr ≠ Finished r) →
  (steps_left (route_step strategy call pr st).1 < steps_left pr)%nat ∧
  (steps_left (start call) ≤ 4 * length (c_servers call) + 3)%nat.
Proof.
  intros Hnf. split.
  - destruct pr as [todo infos|gs infos|g idx ks gs infos|infos|r]; [| | | |by destruct (Hnf r)].
    + destruct todo as [|u todo]; cbn [route_step].
      * destruct (bool_decide (infos = [])); [simpl; lia|]. cbn [fst steps_left length].
        pose proof (steps_left_groups (sort_slice less_distance infos)) as Hc.
        rewrite (Permutation_length (sort_slice_perm _ less_distance infos)) in Hc. lia.
      * cbn [fst steps_left length]. rewrite length_app.
        destruct (info_of (pool st) u); simpl; lia.
    + destruct gs as [|g gs]; cbn [route_step]; [simpl; lia|].
      destruct (bool_decide (g = [])); [simpl; lia|].
      cbn [fst steps_left scan_cost sum_list_with]. fold (scan_cost gs). rewrite length_seq. lia.
    + destruct ks as [|k ks]; cbn [route_step]; [simpl; lia|].
      destruct (go_index _ _) as [si|]; [|simpl; lia].
      destruct (available si); [|simpl; lia].
      destruct (pool_Acquire _ _ _) as [[c|e] p]; simpl; lia.
    + cbn [route_step]. destruct (fallback _ _ _ _ _) as [r st']. simpl. lia.
  - unfold start. destruct (bool_decide _); simpl; lia.
Qed.

(** [C19] A call that no other call interrupts does what the function [route_servers]
    says: the same outcome in the same state. *)
Theorem route_steps_refine strategy call st :
  rtc (alone strategy call) (start call, st)
    (finished (route_servers (c_ctx call) strategy (c_servers call) (c_model call)
      (c_allowQueue call) st)).
Proof. apply alone_route. Qed.

(** [C6] Slots are accounted for under every interleaving of calls, cancellations
    and releases: the counter of a server is what it was at the start plus the
    connections to it that are held, and no call can panic. *)
Theorem concurrent_accounting strategy K st s :
  ok (pool st) → rr_ok (rrIndex st) → rtc (sys_step strategy) (idle K st) s →
  (∀ u, pool_Inflight (pool (s_router s)) u =
     wrap64 (pool_Inflight (pool st) u + held_on u (s_held s))) ∧
  ∀ i call pr, s_workers s !! i = Some (Some (call, pr)) →
    (route_step strategy call pr (s_router s)).1 ≠ Finished RoutePanic.
Proof.
  intros Hp Hrr Hr.
  pose proof (reachable_wf strategy (pool st) Hp K st s eq_refl Hrr Hr) as Hwf.
  split; [apply Hwf|]. intros i call pr Hi.
  destruct s as [st' ws held]. cbn [s_router s_workers] in *.
  destruct (route_step strategy call pr st') as [pr' st''] eqn:Hstep.
  destruct (settle call pr') as [w conns] eqn:Hset.
  by destruct (sys_run_wf strategy (pool st) _ _ _ _ _ _ _ _ _ _ Hwf Hi Hstep Hset).
Qed.

(** [C7] How far concurrent calls overshoot the limit of a server, exactly: with
    [K] goroutines, and a strategy other than [best_effort], a server with
    limit [m] never has more than [m + K - 1] connections; and if it has a free
    slot, all [K] can take it, so that for [m - 1] connections at the start the
    bound is reached. *)
Theorem concurrent_overshoot strategy K st u sc :
  ok (pool st) → rr_ok (rrIndex st) → strategy ≠ FallbackBestEffort → (1 ≤ K)%nat →
  pool_GetServer (pool st) u = Some sc →
  0 <= pool_Inflight (pool st) u < MaxConcurrentRequests sc →
  MaxConcurrentRequests sc + Z.of_nat K < 2 ^ 63 →
  (∀ s, rtc (sys_step strategy) (idle K st) s →
     pool_Inflight (pool (s_router s)) u <= MaxConcurrentRequests sc + Z.of_nat K - 1) ∧
  ∃ s, rtc (sys_step strategy) (idle K st) s ∧ s_workers s = replicate K None ∧
     s_held s = replicate K (mkConn u) ∧
     pool_Inflight (pool (s_router s)) u = pool_Inflight (pool st) u + Z.of_nat K.
Proof.
  intros Hp Hrr Hst HK Hsc Hload Hsmall. split.
  - intros s Hr. by apply (reachable_bounded strategy (pool st) Hp K u sc Hsc Hst HK
      ltac:(lia) Hsmall st s eq_refl Hrr Hr).
  - destruct (all_taken strategy st u sc EmptyString Hp Hrr Hsc ltac:(lia) K K ltac:(lia)) as [st' Hr].
    rewrite Nat.sub_diag, app_nil_r in Hr. eexists. split_and!; [exact Hr|done|done|].
    pose proof (reachable_wf strategy (pool st) Hp K st _ eq_refl Hrr Hr) as Hwf.
    rewrite (wf_count _ _ Hwf). cbn [s_held].
    assert (held_on u (replicate K (mkConn u)) = Z.of_nat K) as ->.
    { clear. induction K as [|K IH]; [done|]. cbn [replicate]. rewrite held_on_cons, IH. cbn [ServerID].
      rewrite decide_True by done. lia. }
    apply wrap64_id. unfold int64. lia.
Qed.
End theorems.
