(* ===== verification/Queue.v ===== *)
(** * Package [router], the wait queue (src/router/queue.go)

    [processQueue] is first given as a function, the way it runs when nothing
    interferes.  The queue as a whole is a step relation: the goroutines that
    called [enqueue], the goroutine of [run], and the rest of the program take
    turns, and [processQueue] is cut at every item, and again between the
    answer it decides on and the send, since waiters can read their channel or
    be cancelled at any of these points.  One [route] is one step here. *)
From Stdlib Require Import ZArith Lia.
From stdpp Require Import base tactics option list numbers strings gmap relations.
From S2P Require Import Prelude Config Interfaces Router.

Open Scope Z_scope.

(** ** Data *)

(** A [*queueItem].  [item_id] is the pointer, and names the channel [result]
    and the context of the request as well. *)
Record queueItem : Type := mkItem {
  item_id : nat;
  item_model : string;
  item_deadline : Z
}.

Inductive queueResult : Type :=
  | RConn (c : Conn)
  | RErr (e : error).

(** The result channels that hold a value; their capacity is one. *)
Abbreviation Chans := (gmap nat queueResult).

(** [ch <- r]: [None] when the channel is full and the send would block. *)
Definition send (id : nat) (r : queueResult) (chans : Chans) : option Chans :=
  match chans !! id with
  | Some _ => None
  | None => Some (<[id := r]> chans)
  end.

(** The deadline [enqueue] computes at time [now]; times in nanoseconds. *)
Definition queue_deadline (cfg : GlobalConfig) (now : Z) (ctx : Context) : Z :=
  let maxWait := wrap64 (QueueTimeoutSec cfg * 10 ^ 9) in
  let deadline := now + maxWait in
  match ctx_Deadline ctx with
  | Some d => if d <? deadline then d else deadline
  | None => deadline
  end.

(** [removeItem]: the first item with that pointer. *)
Fixpoint removeItem (id : nat) (queue : list queueItem) : list queueItem :=
  match queue with
  | [] => []
  | it :: queue' =>
      if bool_decide (item_id it = id) then queue' else it :: removeItem id queue'
  end.

(** What [processQueue] does with one item. *)
Inductive ItemOutcome : Type :=
  | Answer (r : queueResult)
  | Keep
  | ItemPanic.

Section process.
Context {P : Type} `{!PoolOps P} `{!SortSlice} {D : Type} `{!IndexOps D}.
Implicit Types (st : RouterState P) (disc : D).

(** [route] is called with [allowQueue = false] and so never asks for
    [Enqueue]. *)
Definition process_item (now : Z) (ctx : Context) cfg disc (it : queueItem) st
    : ItemOutcome * RouterState P :=
  if item_deadline it <? now then (Answer (RErr ErrQueueTimeout), st) else
  match route ctx cfg disc (item_model it) false st with
  | (Routed conn, st') => (Answer (RConn conn), st')
  | (RouteErr _, st') => (Keep, st')
  | (Enqueue, st') | (RoutePanic, st') => (ItemPanic, st')
  end.

(** The loop of [processQueue]: the items kept, the channels, the router.
    [None]: a panic, or a send that blocks. *)
Fixpoint process_items (now : Z) (ctxs : nat → Context) cfg disc (todo remaining : list queueItem)
    (chans : Chans) st : option (list queueItem * Chans * RouterState P) :=
  match todo with
  | [] => Some (remaining, chans, st)
  | it :: todo' =>
      match process_item now (ctxs (item_id it)) cfg disc it st with
      | (Answer r, st') =>
          chans' ← send (item_id it) r chans;
          process_items now ctxs cfg disc todo' remaining chans' st'
      | (Keep, st') =>
          process_items now ctxs cfg disc todo' (remaining ++ [it]) chans st'
      | (ItemPanic, _) => None
      end
  end.

(** [processQueue] on the queue. *)
Definition processQueue now ctxs cfg disc queue chans st :=
  process_items now ctxs cfg disc queue [] chans st.
End process.

(** [drain]: every item gets [context.Canceled], the queue becomes nil. *)
Fixpoint drain_items (queue : list queueItem) (chans : Chans) : option Chans :=
  match queue with
  | [] => Some chans
  | it :: queue' => chans' ← send (item_id it) (RErr Canceled) chans; drain_items queue' chans'
  end.

(** ** The queue at run time *)

(** Where a goroutine is in [enqueue]. *)
Inductive Waiter : Type :=
  | Appending (model : string)   (* past [ensureStarted] *)
  | Notifying                    (* the item is in the queue *)
  | Waiting                      (* in the outer [select] *)
  | Leaving (e : error)          (* in the inner [default], before [removeItem] *)
  | Returned (r : Result Conn).

(** Where the goroutine of [run] is.  It holds the mutex while it is [Scanning]
    the queue and while it is [Sending] an answer it has decided on. *)
Inductive Runner : Type :=
  | NotStarted
  | Idle                                           (* in [select] *)
  | Woken                                          (* before [qm.mu.Lock] *)
  | Scanning (now : Z) (todo remaining : list queueItem)
  | Sending (now : Z) (it : queueItem) (r : queueResult) (todo remaining : list queueItem)
  | Stopped
  | Panicked.

Record QState (P : Type) : Type := mkQ {
  q_queue : list queueItem;
  q_started : bool;
  q_signal : bool;                (* [signalCh] holds a value *)
  q_runner : Runner;
  q_waiters : gmap nat Waiter;
  q_ctxs : gmap nat Context;
  q_chans : Chans;
  q_next : nat;                   (* the next fresh pointer *)
  q_router : RouterState P;
  q_out : list Conn               (* connections in the hands of handlers *)
}.
Arguments mkQ {P}.
Arguments q_queue {P} _.
Arguments q_started {P} _.
Arguments q_signal {P} _.
Arguments q_runner {P} _.
Arguments q_waiters {P} _.
Arguments q_ctxs {P} _.
Arguments q_chans {P} _.
Arguments q_next {P} _.
Arguments q_router {P} _.
Arguments q_out {P} _.

Section state.
Context {P : Type}.
Implicit Types s : QState P.

Definition set_queue f s := mkQ (f (q_queue s)) (q_started s) (q_signal s) (q_runner s)
  (q_waiters s) (q_ctxs s) (q_chans s) (q_next s) (q_router s) (q_out s).
Definition set_signal b s := mkQ (q_queue s) (q_started s) b (q_runner s)
  (q_waiters s) (q_ctxs s) (q_chans s) (q_next s) (q_router s) (q_out s).
Definition set_runner r s := mkQ (q_queue s) (q_started s) (q_signal s) r
  (q_waiters s) (q_ctxs s) (q_chans s) (q_next s) (q_router s) (q_out s).
Definition set_waiter id w s := mkQ (q_queue s) (q_started s) (q_signal s) (q_runner s)
  (<[id := w]> (q_waiters s)) (q_ctxs s) (q_chans s) (q_next s) (q_router s) (q_out s).
Definition set_ctx id c s := mkQ (q_queue s) (q_started s) (q_signal s) (q_runner s)
  (q_waiters s) (<[id := c]> (q_ctxs s)) (q_chans s) (q_next s) (q_router s) (q_out s).
Definition set_chans c s := mkQ (q_queue s) (q_started s) (q_signal s) (q_runner s)
  (q_waiters s) (q_ctxs s) c (q_next s) (q_router s) (q_out s).
Definition set_router (r : RouterState P) s := mkQ (q_queue s) (q_started s) (q_signal s) (q_runner s)
  (q_waiters s) (q_ctxs s) (q_chans s) (q_next s) r (q_out s).
Definition set_out l s := mkQ (q_queue s) (q_started s) (q_signal s) (q_runner s)
  (q_waiters s) (q_ctxs s) (q_chans s) (q_next s) (q_router s) l.

(** [newQueueManager]. *)
Definition newQueueManager (r : RouterState P) : QState P :=
  mkQ [] false false NotStarted ∅ ∅ ∅ 0%nat r [].

(** The mutex is free for the other goroutines. *)
Definition mu_free s : Prop :=
  match q_runner s with
  | Scanning _ _ _ | Sending _ _ _ _ _ | Panicked => False
  | _ => True
  end.

(** [ensureStarted], by the caller with the fresh pointer [q_next]. *)
Definition ensureStarted s : QState P :=
  if q_started s then s else
    mkQ (q_queue s) true (q_signal s) Idle (q_waiters s) (q_ctxs s) (q_chans s) (q_next s)
      (q_router s) (q_out s).

Definition fresh_waiter ctx model s : QState P :=
  mkQ (q_queue s) (q_started s) (q_signal s) (q_runner s)
    (<[q_next s := Appending model]> (q_waiters s)) (<[q_next s := ctx]> (q_ctxs s))
    (q_chans s) (S (q_next s)) (q_router s) (q_out s).

(** [notify]: a full [signalCh] is left as it is. *)
Definition notify s : QState P := set_signal true s.

(** [stop]: the send on the unbuffered [stopCh] succeeds only when [run] is
    in its [select] at that moment. *)
Definition stop s : QState P :=
  match q_runner s with Idle => set_runner Stopped s | _ => s end.

Definition to_result (r : queueResult) : Result Conn :=
  match r with RConn c => Ok c | RErr e => Err e end.

Definition conn_of (r : queueResult) : list Conn :=
  match r with RConn c => [c] | RErr _ => [] end.
End state.

Section steps.
Context {P : Type} `{!PoolOps P} `{!SortSlice} {D : Type} `{!IndexOps D}.
Implicit Types s : QState P.

(** One step.  The configuration and the index a step reads are those of
    that moment, so every step may see others. *)
Inductive queue_step : QState P → QState P → Prop :=
  (* enqueue *)
  | step_start ctx model s :
      mu_free s → queue_step s (ensureStarted (fresh_waiter ctx model s))
  | step_append id model ctx cfg now s :
      mu_free s → q_waiters s !! id = Some (Appending model) → q_ctxs s !! id = Some ctx →
      queue_step s
        (set_queue (λ q, q ++ [mkItem id model (queue_deadline cfg now ctx)])
          (set_waiter id Notifying s))
  | step_notify id s :
      q_waiters s !! id = Some Notifying → queue_step s (notify (set_waiter id Waiting s))
  | step_result id r s :
      q_waiters s !! id = Some Waiting → q_chans s !! id = Some r →
      queue_step s
        (set_out (conn_of r ++ q_out s)
          (set_chans (delete id (q_chans s)) (set_waiter id (Returned (to_result r)) s)))
  | step_done_result id ctx e r s :
      q_waiters s !! id = Some Waiting → q_ctxs s !! id = Some ctx → ctx_Err ctx = Some e →
      q_chans s !! id = Some r →
      queue_step s
        (set_router (mkRouter (rrIndex (q_router s))
            (foldr pool_Release (pool (q_router s)) (conn_of r)))
          (set_chans (delete id (q_chans s)) (set_waiter id (Returned (Err e)) s)))
  | step_done_default id ctx e s :
      q_waiters s !! id = Some Waiting → q_ctxs s !! id = Some ctx → ctx_Err ctx = Some e →
      q_chans s !! id = None →
      queue_step s (set_waiter id (Leaving e) s)
  | step_removeItem id e s :
      mu_free s → q_waiters s !! id = Some (Leaving e) →
      queue_step s (set_queue (removeItem id) (set_waiter id (Returned (Err e)) s))
  (* run and processQueue *)
  | step_signal s :
      q_runner s = Idle → q_signal s = true →
      queue_step s (set_runner Woken (set_signal false s))
  | step_tick s :
      q_runner s = Idle → queue_step s (set_runner Woken s)
  | step_lock now s :
      q_runner s = Woken → queue_step s (set_runner (Scanning now (q_queue s) []) s)
  | step_decide now it todo remaining ctx cfg (disc : D) r st s :
      q_runner s = Scanning now (it :: todo) remaining →
      q_ctxs s !! item_id it = Some ctx →
      process_item now ctx cfg disc it (q_router s) = (Answer r, st) →
      queue_step s (set_router st (set_runner (Sending now it r todo remaining) s))
  | step_send now it r todo remaining chans s :
      q_runner s = Sending now it r todo remaining →
      send (item_id it) r (q_chans s) = Some chans →
      queue_step s (set_chans chans (set_runner (Scanning now todo remaining) s))
  | step_keep now it todo remaining ctx cfg (disc : D) st s :
      q_runner s = Scanning now (it :: todo) remaining →
      q_ctxs s !! item_id it = Some ctx →
      process_item now ctx cfg disc it (q_router s) = (Keep, st) →
      queue_step s
        (set_router st (set_runner (Scanning now todo (remaining ++ [it])) s))
  | step_panic now it todo remaining ctx cfg (disc : D) st s :
      q_runner s = Scanning now (it :: todo) remaining →
      q_ctxs s !! item_id it = Some ctx →
      process_item now ctx cfg disc it (q_router s) = (ItemPanic, st) →
      queue_step s (set_runner Panicked s)
  | step_unlock now remaining s :
      q_runner s = Scanning now [] remaining →
      queue_step s (set_runner Idle (set_queue (λ _, remaining) s))
  (* drain and stop *)
  | step_drain chans s :
      mu_free s → drain_items (q_queue s) (q_chans s) = Some chans →
      queue_step s (set_queue (λ _, []) (set_chans chans s))
  | step_stop s : queue_step s (stop s)
  (* the rest of the program: contexts end, other requests come and go *)
  | step_cancel id ctx e s :
      q_ctxs s !! id = Some ctx → ctx_Err ctx = None →
      queue_step s (set_ctx id (mkContext (Some e) (ctx_Deadline ctx)) s)
  | step_route ctx cfg (disc : D) model r st s :
      route ctx cfg disc model true (q_router s) = (r, st) →
      queue_step s
        (set_router st
          (set_out ((match r with Routed c => [c] | _ => [] end) ++ q_out s) s))
  | step_release out1 c out2 s :
      q_out s = out1 ++ c :: out2 →
      queue_step s
        (set_router (mkRouter (rrIndex (q_router s)) (pool_Release c (pool (q_router s))))
          (set_out (out1 ++ out2) s)).

(** The connection the runner is about to send. *)
Definition runner_conns s : list Conn :=
  match q_runner s with Sending _ _ r _ _ => conn_of r | _ => [] end.

(** The items that no one has answered, and that the runner or the queue
    still holds. *)
Definition live_items s : list queueItem :=
  match q_runner s with
  | Scanning _ todo remaining => remaining ++ todo
  | Sending _ it _ todo remaining => remaining ++ it :: todo
  | _ => q_queue s
  end.
End steps.

(** ** Counting connections *)

Section tracked.
Context {P : Type} `{!PoolOps P} {ok : P → Prop} `{!PoolLaws P ok}.
Context `{!SortSlice, !SortSliceLaws} {D : Type} `{!IndexOps D}.
Implicit Types (p q : P) (l : list Conn) (st : RouterState P) (disc : D).

Definition count (u : string) l : Z :=
  Z.of_nat (length (filter (λ c, ServerID c = u) l)).

(** The counters of [p] are [base] plus the connections of [l], each of which
    is on a server of the pool. *)
Definition tracked (base : string → Z) p l : Prop :=
  (∀ c, c ∈ l → is_Some (pool_GetServer p (ServerID c))) ∧
  ∀ u, pool_Inflight p u = wrap64 (base u + count u l).

Lemma count_cons u c l :
  count u (c :: l) = (if decide (ServerID c = u) then 1 else 0) + count u l.
Proof. unfold count. rewrite filter_cons. case_decide; simpl; lia. Qed.

#[export] Instance tracked_proper base :
  Proper (pool_equiv (P := P) ==> (≡ₚ) ==> iff) (tracked base).
Proof.
  assert (∀ p q l k, p ≈ q → l ≡ₚ k → tracked base p l → tracked base q k) as Himp.
  { intros p q l k Hpq Hlk [Hk Hc]. split.
    - intros c Hin. rewrite <- Hlk in Hin. destruct (Hpq (ServerID c)) as [<- _]. by apply Hk.
    - intros u. destruct (Hpq u) as [_ <-]. rewrite Hc. unfold count. by rewrite Hlk. }
  intros p q Hpq l k Hlk. split; by apply Himp.
Qed.

Lemma tracked_acquire base c p q l :
  is_Some (pool_GetServer p (ServerID c)) → counted (ServerID c) 1 p q →
  tracked base p l → tracked base q (c :: l).
Proof.
  intros Hs Hc [Hk Hl]. split.
  - intros c' Hin. apply (counted_ok_domain _ _ _ _ _ Hc).
    apply elem_of_cons in Hin as [->|]; [done|by apply Hk].
  - intros u. destruct (Hc u) as [_ ->]. rewrite !Hl, count_cons.
    destruct (decide (u = ServerID c)) as [->|].
    + rewrite decide_True by done. rewrite wrap64_add_l. f_equal. lia.
    + by rewrite decide_False by done.
Qed.

Lemma tracked_release base c p l :
  ok p → tracked base p (c :: l) →
  ok (pool_Release c p) ∧ tracked base (pool_Release c p) l.
Proof.
  intros Hok [Hk Hl]. destruct (release_known c p Hok) as [Hok' Hc]; [apply Hk; left|].
  split; [done|]. split.
  - intros c' Hin. apply (counted_ok_domain _ _ _ _ _ Hc). apply Hk. by right.
  - intros u. destruct (Hc u) as [_ ->]. rewrite !Hl, !count_cons.
    destruct (decide (u = ServerID c)) as [->|].
    + rewrite decide_True by done. rewrite wrap64_add_l. f_equal. lia.
    + by rewrite decide_False by done.
Qed.

Lemma tracked_releases base p l k :
  ok p → tracked base p (k ++ l) →
  ok (foldr pool_Release p k) ∧ tracked base (foldr pool_Release p k) l.
Proof.
  revert l. induction k as [|c k IH]; intros l Hok Ht; simpl; [done|].
  destruct (IH (c :: l) Hok) as [Hok' Ht']; [by rewrite <- Permutation_middle|].
  by apply tracked_release.
Qed.

(** A connection that is routed is on a server of the pool. *)
Lemma decision_known strategy allowQueue p servers i c :
  decision strategy allowQueue (ranked p servers) i = Routed c →
  is_Some (pool_GetServer p (ServerID c)).
Proof.
  assert (∀ si, si ∈ ranked p servers → is_Some (pool_GetServer p (url si))) as Hk
    by (intros si Hsi; apply (ranked_known p servers); by rewrite groups_concat).
  unfold decision. case_bool_decide; [done|]. destruct (pick _ _) as [si|] eqn:Hp.
  - intros [= <-]. apply pick_Some in Hp as (gs1 & g & gs2 & Hgs & Hin & _). apply Hk.
    rewrite <- (groups_concat (ranked p servers)), Hgs, concat_app. set_solver.
  - pose proof (best_of_spec (ranked p servers)) as Hb.
    destruct (bool_decide (strategy = _)); [|by destruct (_ && _)].
    destruct (best_of _); [intros [= <-]; apply Hk; apply Hb|by destruct (_ && _)].
Qed.

Definition routed_conns (r : RouteOutcome) : list Conn :=
  match r with Routed c => [c] | _ => [] end.

Lemma route_tracked base ctx cfg disc model allowQueue st r st' l :
  router_wf (ok := ok) st → tracked base (pool st) l →
  route ctx cfg disc model allowQueue st = (r, st') →
  router_wf (ok := ok) st' ∧ tracked base (pool st') (routed_conns r ++ l) ∧
  r ≠ RoutePanic ∧ (allowQueue = false → r ≠ Enqueue).
Proof.
  intros [Hok Hrr] Ht Hr. unfold route in Hr. destruct (ctx_Err ctx) as [e|] eqn:Hctx.
  - pose proof (route_done (ok := ok) ctx e (FallbackStrategy cfg)
      (index_ServersForModel disc model) model allowQueue st Hctx Hok Hrr) as Hd.
    rewrite Hr in Hd. destruct Hd as (-> & ? & ? & Hp). rewrite Hp in Ht.
    split; [done|]. case_bool_decide; [done|]. destruct (bool_decide _), allowQueue; done.
  - pose proof (route_live (ok := ok) ctx (FallbackStrategy cfg)
      (index_ServersForModel disc model) model allowQueue st Hctx Hok Hrr) as Hl.
    rewrite Hr in Hl. destruct Hl as (Hd & ? & ? & Hp). split; [done|]. split.
    + destruct r as [c| | |]; simpl; [|by rewrite Hp..].
      eapply tracked_acquire; [by eapply decision_known|done|done].
    + rewrite Hd. unfold decision. split; [by repeat case_match|].
      intros ->. rewrite andb_false_r. by repeat case_match.
Qed.

Lemma tracked_nil st :
  router_wf (ok := ok) st → tracked (pool_Inflight (pool st)) (pool st) [].
Proof.
  intros [Hok _]. split; [by intros c ?%elem_of_nil|]. intros u.
  unfold count. simpl. rewrite Z.add_0_r. symmetry. apply wrap64_id.
  by apply (inflight_int64 (ok := ok)).
Qed.

Definition answer_conns (o : ItemOutcome) : list Conn :=
  match o with Answer r => conn_of r | _ => [] end.

Lemma process_item_tracked base now ctx cfg disc it st o st' l :
  router_wf (ok := ok) st → tracked base (pool st) l →
  process_item now ctx cfg disc it st = (o, st') →
  o ≠ ItemPanic ∧ router_wf (ok := ok) st' ∧
  tracked base (pool st') (answer_conns o ++ l).
Proof.
  intros Hwf Ht. unfold process_item. case_match; [by intros [= <- <-]|].
  destruct (route _ _ _ _ _ _) as [r st1] eqn:Hr.
  destruct (route_tracked base _ _ _ _ _ _ _ _ l Hwf Ht Hr) as (? & ? & ? & Hq).
  specialize (Hq eq_refl). by destruct r; intros [= <- <-].
Qed.
End tracked.

(** The connections waiting in channels. *)
Definition chan_conns (chans : Chans) : list Conn :=
  concat (map (λ x, conn_of x.2) (map_to_list chans)).

Lemma chan_conns_insert id r chans :
  chans !! id = None → chan_conns (<[id := r]> chans) ≡ₚ conn_of r ++ chan_conns chans.
Proof. intros Hn. unfold chan_conns. by rewrite map_to_list_insert. Qed.

Lemma chan_conns_delete id r chans :
  chans !! id = Some r → chan_conns chans ≡ₚ conn_of r ++ chan_conns (delete id chans).
Proof.
  intros Hs. rewrite <- chan_conns_insert by apply lookup_delete_eq.
  by rewrite insert_delete_id.
Qed.

Lemma send_Some id r chans chans' :
  send id r chans = Some chans' → chans !! id = None ∧ chans' = <[id := r]> chans.
Proof. unfold send. by case_match; intros; simplify_eq. Qed.

(** ** Invariants of the steps *)

Section invariants.
Context {P : Type} `{!PoolOps P} {ok : P → Prop} `{!PoolLaws P ok}.
Context `{!SortSlice, !SortSliceLaws} {D : Type} `{!IndexOps D}.
Implicit Types s : QState P.

(** The connections in the hands of handlers, of the runner, and in channels. *)
Definition held s : list Conn := q_out s ++ runner_conns s ++ chan_conns (q_chans s).

(** The program does not panic, and every slot taken from the pool is held. *)
Definition acct_inv (base : string → Z) s : Prop :=
  router_wf (ok := ok) (q_router s) ∧ q_runner s ≠ Panicked ∧
  tracked base (pool (q_router s)) (held s).

Lemma runner_conns_free s : mu_free s → runner_conns s = [].
Proof. unfold mu_free, runner_conns. by destruct (q_runner s). Qed.

Lemma drain_items_conns queue chans chans' :
  drain_items queue chans = Some chans' → chan_conns chans' ≡ₚ chan_conns chans.
Proof.
  revert chans. induction queue as [|it queue IH]; intros chans; simpl; [by intros [= ->]|].
  destruct (send _ _ _) as [c|] eqn:Hs; [|done]. simpl.
  apply send_Some in Hs as [Hn ->]. intros ->%IH. by rewrite chan_conns_insert.
Qed.

Lemma queue_step_acct base s s' :
  queue_step (D := D) s s' → acct_inv base s → acct_inv base s'.
Proof.
  intros Hstep (Hwf & Hp & Ht). destruct Hstep; unfold acct_inv, held in *; simpl;
    try by split_and!.
  - rewrite (runner_conns_free s) in Ht by done.
    unfold ensureStarted. case_match; simpl; [|by split_and!].
    by rewrite (runner_conns_free (fresh_waiter ctx model s)).
  - split_and!; [done..|]. rewrite (chan_conns_delete id r), app_assoc in Ht by done.
    rewrite (Permutation_app_swap_app _ (conn_of r)) in Ht. by rewrite <- !app_assoc in *.
  - rewrite (chan_conns_delete id r), app_assoc, Permutation_app_swap_app, <- app_assoc in Ht by done.
    destruct Hwf as [Hok Hrr].
    by destruct (tracked_releases base _ _ _ Hok Ht).
  - unfold runner_conns in *. simpl. by repeat select (q_runner s = _) (fun Hr => rewrite Hr in *).
  - unfold runner_conns in *. simpl. by repeat select (q_runner s = _) (fun Hr => rewrite Hr in *).
  - unfold runner_conns in *. simpl. by repeat select (q_runner s = _) (fun Hr => rewrite Hr in *).
  - select (process_item _ _ _ _ _ _ = _) (fun Hi =>
      destruct (process_item_tracked (ok := ok) base _ _ _ _ _ _ _ _ _ Hwf Ht Hi)
        as (_ & ? & Ht')).
    split_and!; [done..|]. unfold runner_conns in *. simpl.
    select (q_runner s = _) (fun Hr => rewrite Hr in Ht').
    by rewrite Permutation_app_swap_app.
  - select (send _ _ _ = _) (fun Hs => apply send_Some in Hs as [Hn ->]).
    split_and!; [done..|]. rewrite chan_conns_insert by done. unfold runner_conns in *.
    select (q_runner s = _) (fun Hr => by rewrite Hr in Ht).
  - select (process_item _ _ _ _ _ _ = _) (fun Hi =>
      destruct (process_item_tracked (ok := ok) base _ _ _ _ _ _ _ _ _ Hwf Ht Hi)
        as (_ & ? & Ht')).
    split_and!; [done..|]. unfold runner_conns in *.
    select (q_runner s = _) (fun Hr => by rewrite Hr in Ht').
  - select (process_item _ _ _ _ _ _ = _) (fun Hi =>
      by destruct (process_item_tracked (ok := ok) base _ _ _ _ _ _ _ _ _ Hwf Ht Hi)
        as ([] & _)).
  - unfold runner_conns in *. select (q_runner s = _) (fun Hr => by rewrite Hr in Ht).
  - split_and!; [done..|]. by erewrite drain_items_conns.
  - unfold stop, runner_conns in *.
    destruct (q_runner s) eqn:Hr; simpl; rewrite ?Hr; split_and!; congruence || done.
  - select (route _ _ _ _ _ _ = _) (fun Hr =>
      destruct (route_tracked (ok := ok) base _ _ _ _ _ _ _ _ _ Hwf Ht Hr) as (? & Ht' & _)).
    split_and!; [done..|]. by rewrite <- app_assoc.
  - select (q_out s = _) (fun Ho => rewrite Ho in Ht).
    rewrite <- app_assoc in Ht. simpl in Ht. rewrite <- Permutation_middle in Ht.
    destruct Hwf as [Hok Hrr].
    destruct (tracked_release base _ _ _ Hok Ht). by rewrite <- app_assoc.
Qed.
End invariants.

(** ** Who may still be answered *)

Definition in_queue (w : Waiter) : Prop :=
  match w with Notifying | Waiting | Leaving _ => True | _ => False end.

Definition was_queued (w : Waiter) : Prop :=
  match w with Appending _ => False | _ => True end.

Lemma elem_of_removeItem id it queue :
  NoDup (map item_id queue) →
  it ∈ removeItem id queue ↔ it ∈ queue ∧ item_id it ≠ id.
Proof.
  induction queue as [|it' queue IH]; simpl; intros Hn; [set_solver|].
  apply NoDup_cons in Hn as [Hni Hn]. case_bool_decide as Hid.
  - subst id. split.
    + intros Hin. split; [by right|]. intros Heq. apply Hni. rewrite <- Heq.
      by apply (list_elem_of_fmap_2 item_id).
    + intros [[->|?]%elem_of_cons ?]; done.
  - rewrite !elem_of_cons, IH by done. naive_solver.
Qed.

Lemma removeItem_NoDup id queue :
  NoDup (map item_id queue) → NoDup (map item_id (removeItem id queue)).
Proof.
  induction queue as [|it queue IH]; simpl; intros Hn; [done|].
  pose proof Hn as [Hni Hn']%NoDup_cons. case_bool_decide; [done|]. simpl.
  apply NoDup_cons. split; [|by apply IH].
  intros Hin. apply Hni. apply (list_elem_of_fmap_1 item_id) in Hin as (it' & -> & Hin).
  apply (list_elem_of_fmap_2 item_id). by apply elem_of_removeItem in Hin as [? _].
Qed.

(** Where [drain] finds the channels empty, it fills each and nothing else. *)
Lemma drain_items_spec queue chans :
  NoDup (map item_id queue) → (∀ it, it ∈ queue → chans !! item_id it = None) →
  ∃ chans', drain_items queue chans = Some chans' ∧
    ∀ id, chans' !! id = if decide (id ∈ map item_id queue) then Some (RErr Canceled)
                         else chans !! id.
Proof.
  revert chans. induction queue as [|it queue IH]; intros chans Hn Hc; simpl.
  { by exists chans. }
  simpl in Hn. apply NoDup_cons in Hn as [Hni Hn].
  unfold send. rewrite Hc by left. simpl.
  destruct (IH (<[item_id it := RErr Canceled]> chans)) as (chans' & -> & Hl); [done| |].
  { intros it' Hin. rewrite lookup_insert_ne; [apply Hc; by right|].
    intros Heq. apply Hni. rewrite Heq. by apply (list_elem_of_fmap_2 item_id). }
  exists chans'. split; [done|]. intros id. rewrite Hl.
  destruct (decide (id = item_id it)) as [->|].
  - rewrite decide_False by done. rewrite decide_True by left. apply lookup_insert_eq.
  - destruct (decide (id ∈ map item_id queue)).
    + by rewrite decide_True by by right.
    + rewrite decide_False by (rewrite not_elem_of_cons; done). by apply lookup_insert_ne.
Qed.

Section identities.
Context {P : Type} `{!PoolOps P} `{!SortSlice} {D : Type} `{!IndexOps D}.
Implicit Types s : QState P.

(** Every item still in the queue, or still to be visited by the pass that is
    running, has an empty channel and a goroutine that waits for it. *)
Record ids_inv s : Prop := {
  ids_nodup : NoDup (map item_id (live_items s));
  ids_live it : it ∈ live_items s →
    q_chans s !! item_id it = None ∧
    ∃ w, q_waiters s !! item_id it = Some w ∧ in_queue w;
  ids_chan id r : q_chans s !! id = Some r →
    ∃ w, q_waiters s !! id = Some w ∧ was_queued w;
  ids_known id w : q_waiters s !! id = Some w →
    (id < q_next s)%nat ∧ is_Some (q_ctxs s !! id)
}.

Lemma live_free s : mu_free s → live_items s = q_queue s.
Proof. unfold mu_free, live_items. by destruct (q_runner s). Qed.

(** A goroutine that moves on keeps the invariant, if the items that are left
    are not affected. *)
Lemma ids_inv_waiter s s' id w w' :
  ids_inv s → q_waiters s !! id = Some w → was_queued w' →
  q_waiters s' = <[id := w']> (q_waiters s) → q_ctxs s' = q_ctxs s → q_next s' = q_next s →
  (∀ i, i ≠ id → q_chans s' !! i = q_chans s !! i) →
  (∀ r, q_chans s' !! id = Some r → q_chans s !! id = Some r) →
  NoDup (map item_id (live_items s')) →
  (∀ it, it ∈ live_items s' → item_id it ≠ id → it ∈ live_items s) →
  (∀ it, it ∈ live_items s' → item_id it = id → in_queue w' ∧ q_chans s !! id = None) →
  ids_inv s'.
Proof.
  intros Hi Hw Hq Hws Hcs Hnx Hch Hch' Hnd Hlv Hself. split; [done| | |].
  - intros it Hin. rewrite Hws. destruct (decide (item_id it = id)) as [Heq|Hne].
    + destruct (Hself it Hin Heq) as [? Hn]. rewrite Heq, lookup_insert_eq. split; [|by eexists].
      destruct (q_chans s' !! id) eqn:E; [|done]. by rewrite (Hch' _ eq_refl) in Hn.
    + rewrite Hch, lookup_insert_ne by done. by apply (ids_live _ Hi), Hlv.
  - intros i r Hr. rewrite Hws. destruct (decide (i = id)) as [->|Hne].
    + rewrite lookup_insert_eq. by eexists.
    + rewrite Hch in Hr by done. rewrite lookup_insert_ne by done. by apply (ids_chan _ Hi i r).
  - intros i v. rewrite Hws, Hcs, Hnx. destruct (decide (i = id)) as [->|Hne].
    + intros _. by apply (ids_known _ Hi id w).
    + rewrite lookup_insert_ne by done. apply (ids_known _ Hi).
Qed.

(** So does a change of the runner that only loses items. *)
Lemma ids_inv_runner s s' :
  ids_inv s → q_waiters s' = q_waiters s → q_next s' = q_next s →
  (∀ id, is_Some (q_ctxs s !! id) → is_Some (q_ctxs s' !! id)) →
  NoDup (map item_id (live_items s')) →
  (∀ it, it ∈ live_items s' → it ∈ live_items s ∧ q_chans s' !! item_id it = None) →
  (∀ id r, q_chans s' !! id = Some r →
    is_Some (q_chans s !! id) ∨ id ∈ map item_id (live_items s)) →
  ids_inv s'.
Proof.
  intros Hi Hws Hnx Hcs Hnd Hlv Hch. split; [done| | |]; rewrite ?Hws.
  - intros it [Hin Hn]%Hlv. split; [done|]. by apply (ids_live _ Hi).
  - intros id r [[r' Hr]|Hin]%Hch; [by apply (ids_chan _ Hi id r')|].
    apply (list_elem_of_fmap_1 item_id) in Hin as (it & -> & Hin).
    destruct (ids_live _ Hi it Hin) as (_ & w & Hw & Hq). exists w. split; [done|]. by destruct w.
  - intros id w Hw. rewrite Hnx. destruct (ids_known _ Hi id w Hw). auto.
Qed.

Lemma live_ensureStarted s : mu_free s → live_items (ensureStarted s) = q_queue s.
Proof.
  intros Hf. unfold ensureStarted, live_items, mu_free in *.
  destruct (q_started s); [|done]. by destruct (q_runner s).
Qed.

Lemma ids_inv_start ctx model s :
  mu_free s → ids_inv s → ids_inv (ensureStarted (fresh_waiter ctx model s)).
Proof.
  intros Hf Hi.
  assert (∀ w, q_waiters s !! q_next s ≠ Some w) as Hfresh.
  { intros w Hw. destruct (ids_known _ Hi _ _ Hw). lia. }
  pose proof (live_ensureStarted (fresh_waiter ctx model s) Hf) as Hl. simpl in Hl.
  pose proof (live_free s Hf) as Hl0.
  assert (∀ A (f : QState P → A),
    (∀ b r s, f (mkQ (q_queue s) b (q_signal s) r (q_waiters s) (q_ctxs s) (q_chans s)
      (q_next s) (q_router s) (q_out s)) = f s) → f (ensureStarted (fresh_waiter ctx model s))
      = f (fresh_waiter ctx model s)) as Hsame.
  { intros A f Hb. unfold ensureStarted. case_match; [done|apply Hb]. }
  split; rewrite ?(Hsame _ q_waiters), ?(Hsame _ q_ctxs), ?(Hsame _ q_chans),
    ?(Hsame _ q_next), ?Hl by done; simpl.
  - rewrite <- Hl0. apply (ids_nodup _ Hi).
  - intros it Hin. rewrite <- Hl0 in Hin. destruct (ids_live _ Hi it Hin) as (? & w & Hw & ?).
    split; [done|]. exists w. rewrite lookup_insert_ne; [done|].
    intros Heq. by rewrite <- Heq in Hw; apply Hfresh in Hw.
  - intros id r Hr. destruct (ids_chan _ Hi id r Hr) as (w & Hw & ?). exists w.
    rewrite lookup_insert_ne; [done|]. intros Heq. by rewrite <- Heq in Hw; apply Hfresh in Hw.
  - intros id w. rewrite lookup_insert. case_decide as Hd.
    + subst. intros _. split; [lia|]. rewrite lookup_insert_eq. by eexists.
    + intros Hw. destruct (ids_known _ Hi id w Hw). split; [lia|].
      by rewrite lookup_insert_ne.
Qed.

Lemma ids_inv_append id model it s :
  mu_free s → q_waiters s !! id = Some (Appending model) → item_id it = id →
  ids_inv s → ids_inv (set_queue (λ q, q ++ [it]) (set_waiter id Notifying s)).
Proof.
  intros Hf Hw Hid Hi. pose proof (live_free s Hf) as Hl.
  assert (live_items (set_queue (λ q, q ++ [it]) (set_waiter id Notifying s))
    = q_queue s ++ [it]) as Hl' by by apply live_free.
  assert (q_chans s !! id = None) as Hn.
  { destruct (q_chans s !! id) as [r|] eqn:E; [|done].
    destruct (ids_chan _ Hi id r E) as (w & Hw' & ?). by simplify_eq. }
  apply (ids_inv_waiter s _ id (Appending model) Notifying); try done; rewrite Hl'.
  - rewrite map_app. apply NoDup_app. rewrite <- Hl. split_and!.
    + apply (ids_nodup _ Hi).
    + intros i (it' & -> & Hin)%(list_elem_of_fmap_1 item_id) Heq%list_elem_of_singleton.
      destruct (ids_live _ Hi it' Hin) as (_ & w & Hw' & ?).
      rewrite Heq, Hid in Hw'. by simplify_eq.
    + apply NoDup_singleton.
  - intros it' [?| ->%list_elem_of_singleton]%elem_of_app ?; [by rewrite Hl|done].
Qed.

(** The steps of a goroutine inside [enqueue]. *)
Lemma ids_inv_removeItem id e s :
  mu_free s → q_waiters s !! id = Some (Leaving e) → ids_inv s →
  ids_inv (set_queue (removeItem id) (set_waiter id (Returned (Err e)) s)).
Proof.
  intros Hf Hw Hi. pose proof (live_free s Hf) as Hl.
  assert (live_items (set_queue (removeItem id) (set_waiter id (Returned (Err e)) s))
    = removeItem id (q_queue s)) as Hl' by by apply live_free.
  pose proof (ids_nodup _ Hi) as Hnd. rewrite Hl in Hnd.
  apply (ids_inv_waiter s _ id (Leaving e) (Returned (Err e))); try done; rewrite Hl'.
  - by apply removeItem_NoDup.
  - intros it [? _]%elem_of_removeItem _; [by rewrite Hl|done].
  - intros it [_ ?]%elem_of_removeItem ?; done.
Qed.

Lemma ids_inv_receive id r w s s' :
  q_waiters s !! id = Some Waiting → q_chans s !! id = Some r → was_queued w →
  ids_inv s → q_waiters s' = <[id := w]> (q_waiters s) → q_ctxs s' = q_ctxs s →
  q_next s' = q_next s → q_chans s' = delete id (q_chans s) → live_items s' = live_items s →
  ids_inv s'.
Proof.
  intros Hw Hr Hq Hi Hws Hcs Hnx Hch Hl.
  apply (ids_inv_waiter s s' id Waiting w); try done; rewrite ?Hch, ?Hl.
  - intros i Hne. by rewrite lookup_delete_ne.
  - intros r'. by rewrite lookup_delete_eq.
  - apply (ids_nodup _ Hi).
  - done.
  - intros it Hin Heq. destruct (ids_live _ Hi it Hin) as [Hn _]. by rewrite Heq, Hr in Hn.
Qed.

Lemma ids_inv_move id w w' s s' :
  q_waiters s !! id = Some w → in_queue w → in_queue w' →
  ids_inv s → q_waiters s' = <[id := w']> (q_waiters s) → q_ctxs s' = q_ctxs s →
  q_next s' = q_next s → q_chans s' = q_chans s → live_items s' = live_items s →
  ids_inv s'.
Proof.
  intros Hw Hq Hq' Hi Hws Hcs Hnx Hch Hl.
  apply (ids_inv_waiter s s' id w w'); try done; rewrite ?Hch, ?Hl; try done.
  - by destruct w'.
  - apply (ids_nodup _ Hi).
  - intros it Hin Heq. split; [done|]. rewrite <- Heq. by apply (ids_live _ Hi).
Qed.

(** The steps of [run] and [processQueue]. *)
Lemma ids_inv_same s s' :
  ids_inv s → q_waiters s' = q_waiters s → q_next s' = q_next s →
  (∀ id, is_Some (q_ctxs s !! id) → is_Some (q_ctxs s' !! id)) →
  q_chans s' = q_chans s → live_items s' = live_items s → ids_inv s'.
Proof.
  intros Hi Hws Hnx Hcs Hch Hl. apply (ids_inv_runner s); rewrite ?Hch, ?Hl; try done.
  - apply (ids_nodup _ Hi).
  - intros it Hin. split; [done|]. by apply (ids_live _ Hi).
  - intros id r Hr. left. by eexists.
Qed.

Lemma ids_inv_send now it r todo remaining chans s s' :
  q_runner s = Sending now it r todo remaining →
  send (item_id it) r (q_chans s) = Some chans →
  ids_inv s → q_waiters s' = q_waiters s → q_ctxs s' = q_ctxs s → q_next s' = q_next s →
  q_chans s' = chans → q_runner s' = Scanning now todo remaining → ids_inv s'.
Proof.
  intros Hr [Hn ->]%send_Some Hi Hws Hcs Hnx Hch Hr'.
  pose proof (ids_nodup _ Hi) as Hnd. unfold live_items in Hnd. rewrite Hr in Hnd.
  rewrite map_app in Hnd. cbn [map] in Hnd.
  rewrite <- Permutation_middle, <- map_app in Hnd. apply NoDup_cons in Hnd as [Hni Hnd].
  apply (ids_inv_runner s); rewrite ?Hch, ?Hcs; try done; unfold live_items; rewrite ?Hr, ?Hr'.
  - done.
  - intros it' Hin. split; [set_solver|]. rewrite lookup_insert_ne.
    + apply (ids_live _ Hi). unfold live_items. rewrite Hr. set_solver.
    + intros Heq. apply Hni. rewrite Heq. by apply (list_elem_of_fmap_2 item_id).
  - intros id r'. rewrite lookup_insert. case_decide as Hd; intros Hl; [right|left; by eexists].
    rewrite <- Hd. apply (list_elem_of_fmap_2 item_id). set_solver.
Qed.

Lemma ids_inv_drain chans s :
  mu_free s → drain_items (q_queue s) (q_chans s) = Some chans → ids_inv s →
  ids_inv (set_queue (λ _, []) (set_chans chans s)).
Proof.
  intros Hf Hd Hi. pose proof (live_free s Hf) as Hl.
  assert (live_items (set_queue (λ _, []) (set_chans chans s)) = []) as Hl' by by apply live_free.
  pose proof (ids_nodup _ Hi) as Hnd. rewrite Hl in Hnd.
  destruct (drain_items_spec (q_queue s) (q_chans s) Hnd) as (chans' & Hd' & Hc).
  { intros it Hin. rewrite <- Hl in Hin. by apply (ids_live _ Hi). }
  simplify_eq. apply (ids_inv_runner s); rewrite ?Hl'; try done.
  - constructor.
  - by intros it ?%elem_of_nil.
  - intros id r. simpl. rewrite Hc, Hl. case_decide; [by right|left; by eexists].
Qed.

Lemma queue_step_ids s s' :
  queue_step (D := D) s s' → q_runner s' ≠ Panicked → ids_inv s → ids_inv s'.
Proof.
  intros Hstep Hp Hi. destruct Hstep;
    try by (apply (ids_inv_same s); unfold live_items; simpl; try done;
            repeat select (q_runner _ = _) (fun Hr => rewrite Hr)).
  - by apply ids_inv_start.
  - by eapply ids_inv_append.
  - by eapply (ids_inv_move id Notifying Waiting s).
  - by eapply (ids_inv_receive id r (Returned (to_result r)) s).
  - by eapply (ids_inv_receive id r (Returned (Err e)) s).
  - by eapply (ids_inv_move id Waiting (Leaving e) s).
  - by apply ids_inv_removeItem.
  - by eapply ids_inv_send.
  - apply (ids_inv_same s); try done. unfold live_items. simpl.
    select (q_runner s = _) (fun Hr => rewrite Hr). by rewrite <- app_assoc.
  - apply (ids_inv_same s); try done. unfold live_items. simpl.
    select (q_runner s = _) (fun Hr => rewrite Hr). by rewrite app_nil_r.
  - by apply ids_inv_drain.
  - unfold stop. destruct (q_runner s) eqn:Hr; try done.
    apply (ids_inv_same s); try done. unfold live_items. simpl. by rewrite Hr.
  - apply (ids_inv_same s); try done. intros id'. simpl. rewrite lookup_insert.
    case_decide; [by eexists|done].
Qed.
End identities.

(** ** Nobody is forgotten *)

Section kept.
Context {P : Type} `{!PoolOps P} `{!SortSlice} {D : Type} `{!IndexOps D}.
Implicit Types s : QState P.

(** A goroutine whose item is not in the queue any more, and not in the pass that
    is running, has its answer in its channel. *)
Definition kept s : Prop :=
  ∀ id w, q_waiters s !! id = Some w → in_queue w →
    is_Some (q_chans s !! id) ∨ id ∈ map item_id (live_items s).

Lemma removeItem_other id id' queue :
  id' ≠ id → id' ∈ map item_id queue → id' ∈ map item_id (removeItem id queue).
Proof.
  intros Hne. induction queue as [|it queue IH]; simpl; [done|].
  rewrite elem_of_cons. intros [->|Hin].
  - rewrite bool_decide_false by done. left.
  - case_bool_decide; [done|]. right. by apply IH.
Qed.

(** A step that answers, or leaves where they are, all that are waiting. *)
Lemma kept_same s s' :
  kept s → q_waiters s' = q_waiters s →
  (∀ id, is_Some (q_chans s !! id) → is_Some (q_chans s' !! id)) →
  (∀ id, id ∈ map item_id (live_items s) →
    is_Some (q_chans s' !! id) ∨ id ∈ map item_id (live_items s')) → kept s'.
Proof.
  intros Hk Hw Hc Hl id w. rewrite Hw. intros Hid Hq. destruct (Hk id w Hid Hq); auto.
Qed.

(** A step of one goroutine. *)
Lemma kept_waiter s s' id v :
  kept s → q_waiters s' = <[id := v]> (q_waiters s) →
  (∀ k, k ≠ id → q_chans s' !! k = q_chans s !! k) →
  (∀ k, k ≠ id → k ∈ map item_id (live_items s) → k ∈ map item_id (live_items s')) →
  (in_queue v → is_Some (q_chans s' !! id) ∨ id ∈ map item_id (live_items s')) → kept s'.
Proof.
  intros Hk Hw Hc Hl Hv k w. rewrite Hw. destruct (decide (k = id)) as [->|Hne].
  - rewrite lookup_insert_eq. intros [= <-]. exact Hv.
  - rewrite lookup_insert_ne by done. intros Hkw Hq. rewrite Hc by done.
    destruct (Hk k w Hkw Hq); auto.
Qed.

Lemma queue_step_kept s s' :
  queue_step (D := D) s s' → q_runner s' ≠ Panicked → ids_inv s → kept s → kept s'.
Proof.
  intros Hstep Hp Hi Hk. destruct Hstep;
    try (apply (kept_same s); [exact Hk|done|done|]; intros id' Hin; right;
         unfold live_items in *; simpl in *;
         repeat select (q_runner _ = _) (fun Hr => rewrite ?Hr in *); simpl in *; done).
  - pose proof (live_ensureStarted (fresh_waiter ctx model s) ltac:(done)) as Hl.
    apply (kept_waiter s _ (q_next s) (Appending model)); [done| | | |done];
      try (unfold ensureStarted; by case_match).
    intros k _. rewrite Hl, (live_free s) by done. done.
  - apply (kept_waiter s _ id Notifying); [done..| |]; rewrite (live_free (set_queue _ _)) by done;
      simpl; rewrite map_app; [intros k _; rewrite (live_free s) by done; set_solver|].
    intros _. right. set_solver.
  - eapply (kept_waiter s _ id Waiting); [done..|]. intros _. by eapply (Hk id Notifying).
  - eapply (kept_waiter s _ id); [done..| |done|done]. intros k Hne. by apply lookup_delete_ne.
  - eapply (kept_waiter s _ id); [done..| |done|done]. intros k Hne. by apply lookup_delete_ne.
  - eapply (kept_waiter s _ id (Leaving e)); [done..|]. intros _. by eapply (Hk id Waiting).
  - eapply (kept_waiter s _ id); [done..| |done]. intros k Hne.
    rewrite (live_free (set_queue _ _)), (live_free s) by done. by apply removeItem_other.
  - select (send _ _ _ = _) (fun Hs => apply send_Some in Hs as [Hn ->]).
    apply (kept_same s); [done|done| |].
    + intros k Hc. simpl. rewrite lookup_insert. by case_decide.
    + intros k. unfold live_items. simpl. select (q_runner s = _) (fun Hr => rewrite Hr).
      rewrite lookup_insert. case_decide as Hd; [by left; eexists|]. rewrite !map_app. simpl.
      rewrite !elem_of_app, elem_of_cons. naive_solver.
  - apply (kept_same s); [done..|]. intros k. unfold live_items. simpl.
    select (q_runner s = _) (fun Hr => rewrite Hr). rewrite <- app_assoc. by right.
  - apply (kept_same s); [done..|]. intros k. unfold live_items. simpl.
    select (q_runner s = _) (fun Hr => rewrite Hr). rewrite app_nil_r. by right.
  - pose proof (live_free s ltac:(done)) as Hl.
    destruct (drain_items_spec (q_queue s) (q_chans s)) as (chans' & Hd & Hc).
    { rewrite <- Hl. apply (ids_nodup _ Hi). }
    { intros it Hin. rewrite <- Hl in Hin. by apply (ids_live _ Hi). }
    assert (chans' = chans) as -> by congruence. apply (kept_same s); [done|done| |].
    + intros k Hs. simpl. rewrite Hc. by case_decide.
    + intros k. rewrite Hl. intros Hin. left. simpl. rewrite Hc, decide_True by done. by eexists.
  - unfold stop. destruct (q_runner s) eqn:Hr; try done. apply (kept_same s); [done..|].
    intros k. unfold live_items. simpl. rewrite Hr. by right.
Qed.
End kept.

(** ** Deadlines *)

Lemma queue_deadline_min cfg now ctx :
  0 < QueueTimeoutSec cfg <= 9223372036 →
  queue_deadline cfg now ctx =
    match ctx_Deadline ctx with
    | Some d => Z.min d (now + QueueTimeoutSec cfg * 10 ^ 9)
    | None => now + QueueTimeoutSec cfg * 10 ^ 9
    end.
Proof.
  intros Ht. unfold queue_deadline. rewrite wrap64_id by (unfold int64; lia).
  destruct (ctx_Deadline ctx) as [d|]; [|done].
  destruct (Z.ltb_spec d (now + QueueTimeoutSec cfg * 10 ^ 9)); lia.
Qed.

Lemma queue_deadline_overflow cfg now ctx :
  9223372036 < QueueTimeoutSec cfg <= 18446744073 → queue_deadline cfg now ctx < now.
Proof.
  intros Ht. assert (wrap64 (QueueTimeoutSec cfg * 10 ^ 9) < 0).
  { unfold wrap64. replace (QueueTimeoutSec cfg * 10 ^ 9 + 2 ^ 63)
      with (QueueTimeoutSec cfg * 10 ^ 9 - 2 ^ 63 + 1 * 2 ^ 64) by lia.
    rewrite Z_mod_plus_full, Z.mod_small by lia. lia. }
  unfold queue_deadline. destruct (ctx_Deadline ctx) as [d|]; [|lia].
  destruct (Z.ltb_spec d (now + wrap64 (QueueTimeoutSec cfg * 10 ^ 9))); lia.
Qed.

(** ** One pass *)

(** The channels of the items are empty. *)
Definition fresh_chans (items : list queueItem) (chans : Chans) : Prop :=
  ∀ it, it ∈ items → chans !! item_id it = None.

Lemma fresh_tail it items chans : fresh_chans (it :: items) chans → fresh_chans items chans.
Proof. intros Hc x Hx. apply Hc. by right. Qed.

Lemma fresh_insert it r items chans :
  item_id it ∉ map item_id items → fresh_chans (it :: items) chans →
  fresh_chans items (<[item_id it := r]> chans).
Proof.
  intros Hni Hc x Hx. rewrite lookup_insert_ne; [apply Hc; by right|]. intros Heq. apply Hni.
  rewrite Heq. by apply (list_elem_of_fmap_2 item_id).
Qed.

Section pass.
Context {P : Type} `{!PoolOps P} {ok : P → Prop} `{!PoolLaws P ok}.
Context `{!SortSlice, !SortSliceLaws} {D : Type} `{!IndexOps D}.
Implicit Types (p q : P) (st : RouterState P) (disc : D).

(** Every server of the list that is in the pool is full. *)
Definition stuck p (servers : list string) : Prop :=
  ∀ u sc, u ∈ servers → pool_GetServer p u = Some sc →
    MaxConcurrentRequests sc <= pool_Inflight p u.

Lemma stuck_ranked p servers :
  stuck p servers ↔ Forall (λ si, available si = false) (ranked p servers).
Proof.
  rewrite Forall_forall. unfold stuck. split.
  - intros Hs si Hsi. apply elem_of_ranked, elem_of_candidates in Hsi as (u & sc & Hu & Hg & ->).
    unfold available. simpl. specialize (Hs u sc Hu Hg). lia.
  - intros Hall u sc Hu Hg.
    assert (available (mkInfo u (Distance sc) (MaxConcurrentRequests sc) (pool_Inflight p u))
      = false) as Ha by (apply Hall, elem_of_ranked, elem_of_candidates; by exists u, sc).
    unfold available in Ha. simpl in Ha. lia.
Qed.

(** A live request that is not routed found every candidate full. *)
Lemma route_err_stuck ctx cfg disc model st e st' :
  ctx_Err ctx = None → router_wf (ok := ok) st →
  route ctx cfg disc model false st = (RouteErr e, st') →
  stuck (pool st) (index_ServersForModel disc model).
Proof.
  intros Hctx [Hok Hrr] Hr. apply stuck_ranked.
  pose proof (route_live (ok := ok) ctx (FallbackStrategy cfg)
    (index_ServersForModel disc model) model false st Hctx Hok Hrr) as Hl.
  unfold route in Hr. rewrite Hr in Hl. destruct Hl as (Hd & _). unfold decision in Hd.
  case_bool_decide as Hn; [by rewrite Hn|].
  destruct (pick _ _) eqn:Hp; [done|]. apply pick_None in Hp. by rewrite groups_concat in Hp.
Qed.

Lemma stuck_route ctx cfg disc model allowQueue st servers r st' :
  router_wf (ok := ok) st → FallbackStrategy cfg ≠ FallbackBestEffort →
  route ctx cfg disc model allowQueue st = (r, st') →
  stuck (pool st) servers → stuck (pool st') servers.
Proof.
  intros [Hok Hrr] Hs Hr Hst u sc Hu Hg. unfold route in Hr.
  destruct (ctx_Err ctx) as [e|] eqn:Hctx.
  - pose proof (route_done (ok := ok) ctx e (FallbackStrategy cfg)
      (index_ServersForModel disc model) model allowQueue st Hctx Hok Hrr) as Hd.
    rewrite Hr in Hd. destruct Hd as (_ & _ & _ & Hp). destruct (Hp u) as [Hpg <-].
    apply (Hst u sc Hu). congruence.
  - pose proof (route_live (ok := ok) ctx (FallbackStrategy cfg)
      (index_ServersForModel disc model) model allowQueue st Hctx Hok Hrr) as Hl.
    rewrite Hr in Hl. destruct Hl as (Hd & _ & _ & Hc).
    destruct r as [c| | |]; [|by rewrite Hc in *; apply (Hst u)..].
    destruct (Hc u) as [Hcg ->]. rewrite Hcg in Hg. specialize (Hst u sc Hu Hg).
    case_decide as Hu'; [|done]. exfalso. unfold decision in Hd.
    rewrite (bool_decide_false (_ = FallbackBestEffort)) in Hd by done.
    case_bool_decide; [done|].
    destruct (pick _ _) as [si|] eqn:Hp; [|by case_match]. injection Hd as ->.
    apply pick_nearest in Hp as (Hin & Ha & _); [|apply ranked_sorted].
    apply elem_of_ranked, elem_of_candidates in Hin as (u' & sc' & _ & Hg' & ->).
    unfold available in Ha. simpl in *. subst u'. simplify_eq. lia.
Qed.

Lemma stuck_process_item now ctx cfg disc it st servers o st' :
  router_wf (ok := ok) st → FallbackStrategy cfg ≠ FallbackBestEffort →
  process_item now ctx cfg disc it st = (o, st') →
  stuck (pool st) servers → stuck (pool st') servers.
Proof.
  intros Hwf Hs. unfold process_item. case_match; [by intros [= _ ->]|].
  destruct (route _ _ _ _ _ _) as [r st1] eqn:Hr. intros Ho Hst.
  assert (st1 = st') as -> by (destruct r; congruence). by eapply stuck_route.
Qed.

(** The outcome of an item that is not expired, with a live context. *)
Lemma process_item_stuck now ctx cfg disc it st :
  router_wf (ok := ok) st → FallbackStrategy cfg ≠ FallbackBestEffort →
  ctx_Err ctx = None → now <= item_deadline it →
  stuck (pool st) (index_ServersForModel disc (item_model it)) ↔
  fst (process_item now ctx cfg disc it st) = Keep.
Proof.
  intros Hwf Hs Hctx Hnow. unfold process_item.
  destruct (Z.ltb_spec (item_deadline it) now); [lia|].
  destruct (route _ _ _ _ _ _) as [r st1] eqn:Hr.
  split.
  - intros Hst%stuck_ranked. destruct Hwf as [Hok Hrr]. unfold route in Hr.
    pose proof (route_live (ok := ok) ctx (FallbackStrategy cfg)
      (index_ServersForModel disc (item_model it)) (item_model it) false st Hctx Hok Hrr) as Hl.
    rewrite Hr in Hl. destruct Hl as (-> & _). unfold decision.
    rewrite (bool_decide_false (_ = FallbackBestEffort)), andb_false_r by done.
    case_bool_decide; [done|]. rewrite (proj2 (pick_None _ _)); [done|by rewrite groups_concat].
  - destruct r; simpl; try done. intros _. by eapply route_err_stuck.
Qed.

(** The loop, from any point on: what is sent, what is kept. *)
Lemma process_items_spec now ctxs cfg disc todo remaining chans st :
  router_wf (ok := ok) st → NoDup (map item_id todo) →
  fresh_chans todo chans →
  ∃ kept chans' st',
    process_items now ctxs cfg disc todo remaining chans st =
      Some (remaining ++ kept, chans', st') ∧
    router_wf (ok := ok) st' ∧
    kept = filter (λ it, chans' !! item_id it = None) todo ∧
    (∀ id, id ∉ map item_id todo → chans' !! id = chans !! id) ∧
    (∀ it, it ∈ todo → item_deadline it < now →
      chans' !! item_id it = Some (RErr ErrQueueTimeout)) ∧
    (∀ it e, it ∈ todo → chans' !! item_id it = Some (RErr e) →
      e = ErrQueueTimeout ∧ item_deadline it < now).
Proof.
  revert remaining chans st. induction todo as [|it todo IH];
    intros remaining chans st Hwf Hnd Hc.
  { exists [], chans, st. rewrite app_nil_r. split_and!; try done; set_solver. }
  cbn [map] in Hnd. apply NoDup_cons in Hnd as [Hni Hnd]. cbn [process_items].
  destruct (process_item _ _ _ _ _ _) as [o st1] eqn:Hp.
  destruct (process_item_tracked (ok := ok) _ _ _ _ _ _ _ _ _ [] Hwf
    (tracked_nil _ Hwf) Hp) as (Hnp & Hwf1 & _).
  destruct o as [r| |]; [| |done].
  - unfold send. rewrite Hc by left. simpl.
    destruct (IH remaining (<[item_id it := r]> chans) st1) as
      (kept & chans' & st' & -> & ? & Hk & Hfr & Hexp & Herr); [done..|by apply fresh_insert|].
    assert (chans' !! item_id it = Some r) as Hr by by rewrite Hfr, lookup_insert_eq.
    exists kept, chans', st'. split_and!; [done|done| | | |].
    + by rewrite filter_cons, decide_False by by rewrite Hr.
    + intros id Hid. cbn [map] in Hid. rewrite not_elem_of_cons in Hid. destruct Hid as [? Hid].
      rewrite Hfr by done. by apply lookup_insert_ne.
    + intros it' [->|Hin]%elem_of_cons Hlt; [|by apply Hexp]. rewrite Hr.
      unfold process_item in Hp. destruct (Z.ltb_spec (item_deadline it) now); [|lia].
      congruence.
    + intros it' e [->|Hin]%elem_of_cons He; [|by apply Herr].
      rewrite Hr in He. simplify_eq. unfold process_item in Hp.
      destruct (Z.ltb_spec (item_deadline it) now); [by simplify_eq|].
      by destruct (route _ _ _ _ _ _) as [[]].
  - destruct (IH (remaining ++ [it]) chans st1) as
      (kept & chans' & st' & -> & ? & Hk & Hfr & Hexp & Herr); [done|done|by eapply fresh_tail|].
    assert (chans' !! item_id it = None) as Hr by by rewrite Hfr; [apply Hc; left|].
    exists (it :: kept), chans', st'. rewrite <- app_assoc. split_and!; [done|done| | | |].
    + by rewrite filter_cons, decide_True, Hk by done.
    + intros id Hid. cbn [map] in Hid. rewrite not_elem_of_cons in Hid. by apply Hfr, Hid.
    + intros it' [->|Hin]%elem_of_cons Hlt; [|by apply Hexp]. exfalso.
      unfold process_item in Hp. by destruct (Z.ltb_spec (item_deadline it) now); [|lia].
    + intros it' e [->|Hin]%elem_of_cons He; [by rewrite Hr in He|by apply Herr].
Qed.

Lemma process_items_stuck now ctxs cfg disc m todo remaining chans st res :
  router_wf (ok := ok) st → FallbackStrategy cfg ≠ FallbackBestEffort →
  NoDup (map item_id todo) → fresh_chans todo chans →
  stuck (pool st) (index_ServersForModel disc m) →
  process_items now ctxs cfg disc todo remaining chans st = Some res →
  ∀ it, it ∈ todo → item_model it = m → now <= item_deadline it →
    ctx_Err (ctxs (item_id it)) = None → res.1.2 !! item_id it = None.
Proof.
  intros Hwf Hs. revert remaining chans st Hwf.
  induction todo as [|it todo IH]; intros remaining chans st Hwf Hnd Hc Hst Hres it' Hin;
    [by apply elem_of_nil in Hin|].
  cbn [map] in Hnd. apply NoDup_cons in Hnd as [Hni Hnd]. cbn [process_items] in Hres.
  destruct (process_item _ _ _ _ _ _) as [o st1] eqn:Hp.
  destruct (process_item_tracked (ok := ok) _ _ _ _ _ _ _ _ _ [] Hwf
    (tracked_nil _ Hwf) Hp) as (_ & Hwf1 & _).
  pose proof (stuck_process_item _ _ _ _ _ _ _ _ _ Hwf Hs Hp Hst) as Hst1.
  apply elem_of_cons in Hin as [->|Hin].
  - intros Hm Hd Hctx. subst m.
    pose proof (proj1 (process_item_stuck now _ cfg disc it st Hwf Hs Hctx Hd) Hst) as Hk.
    rewrite Hp in Hk. simpl in Hk. subst o.
    destruct (process_items_spec now ctxs cfg disc todo (remaining ++ [it]) chans st1)
      as (kept & chans' & st' & Hr & _ & _ & Hfr & _); [done|done|by eapply fresh_tail|].
    rewrite Hr in Hres. simplify_eq. simpl. rewrite Hfr by done. apply Hc. left.
  - destruct o as [r| |]; [| |done].
    + unfold send in Hres. rewrite Hc in Hres by left. simpl in Hres.
      eapply IH; [exact Hwf1|done|by apply fresh_insert|done..].
    + eapply IH; [exact Hwf1|done|by eapply fresh_tail|done..].
Qed.

Lemma process_items_fifo now ctxs cfg disc l1 it1 l2 it2 remaining chans st res :
  router_wf (ok := ok) st → FallbackStrategy cfg ≠ FallbackBestEffort →
  NoDup (map item_id (l1 ++ it1 :: l2)) →
  fresh_chans (l1 ++ it1 :: l2) chans →
  process_items now ctxs cfg disc (l1 ++ it1 :: l2) remaining chans st = Some res →
  it2 ∈ l2 → item_model it2 = item_model it1 →
  now <= item_deadline it1 → now <= item_deadline it2 →
  ctx_Err (ctxs (item_id it1)) = None → ctx_Err (ctxs (item_id it2)) = None →
  res.1.2 !! item_id it1 = None → res.1.2 !! item_id it2 = None.
Proof.
  intros Hwf Hs Hnd Hc Hres Hin Hm Hd1 Hd2 Hc1 Hc2 Hk. revert remaining chans st Hwf Hnd Hc Hres.
  induction l1 as [|it l1 IH]; intros remaining chans st Hwf Hnd Hc Hres; simpl in Hnd, Hc, Hres.
  all: apply NoDup_cons in Hnd as [Hni Hnd];
    destruct (process_item _ _ _ _ _ _) as [o st1] eqn:Hp;
    destruct (process_item_tracked (ok := ok) _ _ _ _ _ _ _ _ _ [] Hwf
      (tracked_nil _ Hwf) Hp) as (_ & Hwf1 & _).
  - destruct o as [r| |]; [| |done].
    + unfold send in Hres. rewrite Hc in Hres by left. simpl in Hres.
      destruct (process_items_spec now ctxs cfg disc l2 remaining (<[item_id it1 := r]> chans) st1)
        as (kept & chans' & st' & Hr & _ & _ & Hfr & _); [done|done|by apply fresh_insert|].
      rewrite Hr in Hres. simplify_eq. simpl in Hk. by rewrite Hfr, lookup_insert_eq in Hk.
    + assert (stuck (pool st) (index_ServersForModel disc (item_model it1))) as Hst
        by (apply (process_item_stuck now (ctxs (item_id it1)) cfg disc it1 st); try done;
            by rewrite Hp).
      pose proof (stuck_process_item _ _ _ _ _ _ _ _ _ Hwf Hs Hp Hst) as Hst1.
      eapply (process_items_stuck now ctxs cfg disc (item_model it1) l2);
        [exact Hwf1|done|done|by eapply fresh_tail|done..].
  - destruct o as [r| |]; [| |done].
    + unfold send in Hres. rewrite Hc in Hres by left. simpl in Hres.
      eapply IH; [exact Hwf1|done|by apply fresh_insert|exact Hres].
    + eapply IH; [exact Hwf1|done|by eapply fresh_tail|exact Hres].
Qed.
End pass.

(** ** What a caller of [enqueue] can get *)

Section results.
Context {P : Type} `{!PoolOps P} `{!SortSlice} {D : Type} `{!IndexOps D}.
Implicit Types s : QState P.

(** The errors of the queue itself. *)
Definition queue_error (e : error) : Prop := e = ErrQueueTimeout ∨ e = Canceled.

Definition sending_ok (r : Runner) : Prop :=
  match r with Sending _ _ (RErr e) _ _ => queue_error e | _ => True end.

Record results_inv s : Prop := {
  res_chan id e : q_chans s !! id = Some (RErr e) → queue_error e;
  res_leaving id e : q_waiters s !! id = Some (Leaving e) →
    (ctx ← q_ctxs s !! id; ctx_Err ctx) = Some e;
  res_returned id e : q_waiters s !! id = Some (Returned (Err e)) →
    queue_error e ∨ (ctx ← q_ctxs s !! id; ctx_Err ctx) = Some e;
  res_sending : sending_ok (q_runner s)
}.

Lemma drain_items_errors queue chans chans' id e :
  drain_items queue chans = Some chans' → chans' !! id = Some (RErr e) →
  e = Canceled ∨ chans !! id = Some (RErr e).
Proof.
  revert chans. induction queue as [|it queue IH]; intros chans; simpl; [intros [= ->]; auto|].
  destruct (send _ _ _) as [c|] eqn:Hs; [|done]. simpl.
  apply send_Some in Hs as [Hn ->]. intros Hd Hl.
  destruct (IH _ Hd Hl) as [?|Hi]; [auto|]. rewrite lookup_insert in Hi.
  case_decide; [left; congruence|auto].
Qed.

Lemma process_item_error now ctx cfg disc it st e st' :
  process_item (D := D) now ctx cfg disc it st = (Answer (RErr e), st') → queue_error e.
Proof.
  unfold process_item. case_match; [intros [= <- _]; by left|].
  by destruct (route _ _ _ _ _ _) as [[]].
Qed.

(** Only channels, waiters and contexts matter. *)
Lemma results_inv_same s s' :
  q_chans s' = q_chans s → q_waiters s' = q_waiters s → q_ctxs s' = q_ctxs s →
  (results_inv s → sending_ok (q_runner s')) → results_inv s → results_inv s'.
Proof. intros Hc Hw Hx Hs Hr. pose proof (Hs Hr). destruct Hr. by split; rewrite ?Hc, ?Hw, ?Hx. Qed.

Lemma results_inv_waiter s s' id w :
  results_inv s → q_waiters s' = <[id := w]> (q_waiters s) → q_ctxs s' = q_ctxs s →
  q_runner s' = q_runner s →
  (∀ i r, q_chans s' !! i = Some r → q_chans s !! i = Some r) →
  (∀ e, w = Leaving e → (ctx ← q_ctxs s !! id; ctx_Err ctx) = Some e) →
  (∀ e, w = Returned (Err e) →
    queue_error e ∨ (ctx ← q_ctxs s !! id; ctx_Err ctx) = Some e) →
  results_inv s'.
Proof.
  intros [Hc Hl Hr Hs] Hw Hx Hrn Hch Hlv Hrt. split; rewrite ?Hw, ?Hx, ?Hrn; [| | |done].
  - intros i e ?%Hch. by eapply Hc.
  - intros i e. rewrite lookup_insert. case_decide; [|apply Hl].
    subst. intros [= He]. by apply Hlv.
  - intros i e. rewrite lookup_insert. case_decide; [|apply Hr].
    subst. intros [= He]. by apply Hrt.
Qed.

Lemma results_inv_chans s s' :
  results_inv s → q_waiters s' = q_waiters s → q_ctxs s' = q_ctxs s →
  sending_ok (q_runner s') →
  (∀ i e, q_chans s' !! i = Some (RErr e) → queue_error e ∨ q_chans s !! i = Some (RErr e)) →
  results_inv s'.
Proof.
  intros [Hc Hl Hr _] Hw Hx Hs Hch. split; rewrite ?Hw, ?Hx; [|done..].
  intros i e [?|?]%Hch; [done|by eapply Hc].
Qed.

Lemma results_inv_cancel id ctx e s :
  q_ctxs s !! id = Some ctx → ctx_Err ctx = None → results_inv s →
  results_inv (set_ctx id (mkContext (Some e) (ctx_Deadline ctx)) s).
Proof.
  intros Hx Hn [Hc Hl Hr Hs].
  assert (∀ i e', (c ← q_ctxs s !! i; ctx_Err c) = Some e' →
    (c ← <[id := mkContext (Some e) (ctx_Deadline ctx)]> (q_ctxs s) !! i; ctx_Err c) = Some e')
    as Hkeep.
  { intros i e' Hi. rewrite lookup_insert. case_decide; [|done]. subst i.
    rewrite Hx in Hi. simpl in Hi. congruence. }
  split; simpl; [done| | |done].
  - intros i e' ?%Hl. by apply Hkeep.
  - intros i e' [?|?]%Hr; [by left|right; by apply Hkeep].
Qed.

Lemma results_inv_start ctx model s :
  ids_inv s → results_inv s → results_inv (ensureStarted (fresh_waiter ctx model s)).
Proof.
  intros Hi [Hc Hl Hr Hs]. apply (results_inv_same (fresh_waiter ctx model s));
    [unfold ensureStarted; by case_match..| |].
  { intros _. unfold ensureStarted. by case_match. }
  assert (∀ i w, q_waiters s !! i = Some w → i ≠ q_next s) as Hf
    by (intros i w Hw ->; destruct (ids_known _ Hi _ _ Hw); lia).
  split; simpl; [done| | |done]; intros i e; rewrite lookup_insert; case_decide; try done; intros Hw;
    (rewrite lookup_insert_ne by done); [by apply Hl|by apply Hr].
Qed.

Lemma queue_step_results s s' :
  queue_step (D := D) s s' → ids_inv s → results_inv s → results_inv s'.
Proof.
  intros Hstep Hi Hr. pose proof (res_sending _ Hr) as Hsd.
  destruct Hstep; try by apply (results_inv_same s).
  - by apply results_inv_start.
  - by apply (results_inv_waiter s _ id Notifying).
  - by apply (results_inv_waiter s _ id Waiting).
  - apply (results_inv_waiter s _ id (Returned (to_result r))); try done; simpl.
    + intros i r' [? ?]%lookup_delete_Some. done.
    + intros e [= He]. left. destruct r; simplify_eq/=. by eapply (res_chan _ Hr).
  - apply (results_inv_waiter s _ id (Returned (Err e))); try done; simpl.
    + intros i r' [? ?]%lookup_delete_Some. done.
    + intros e' [= <-]. right. by simplify_option_eq.
  - apply (results_inv_waiter s _ id (Leaving e)); try done.
    intros e' [= <-]. by simplify_option_eq.
  - apply (results_inv_waiter s _ id (Returned (Err e))); try done.
    intros e' [= <-]. right. by apply (res_leaving _ Hr).
  - apply (results_inv_same s); try done. intros _. simpl.
    destruct r; [done|by eapply process_item_error].
  - apply (results_inv_chans s); try done. simpl. intros i e.
    select (send _ _ _ = _) (fun Hs => apply send_Some in Hs as [Hn ->]).
    rewrite lookup_insert. case_decide; [|by right]. intros [= ->]. left.
    select (q_runner s = _) (fun Hq => by rewrite Hq in Hsd).
  - apply (results_inv_chans s); try done. simpl. intros i e He.
    destruct (drain_items_errors (q_queue s) (q_chans s) chans i e) as [->|]; try done;
      [left; by right|by right].
  - unfold stop. by destruct (q_runner s) eqn:Hq; apply (results_inv_same s); rewrite ?Hq.
  - by apply results_inv_cancel.
Qed.
End results.

Section stopped.
Context {P : Type} `{!PoolOps P} `{!SortSlice} {D : Type} `{!IndexOps D}.

Lemma drain_items_conn queue chans chans' id c :
  drain_items queue chans = Some chans' → chans' !! id = Some (RConn c) →
  chans !! id = Some (RConn c).
Proof.
  revert chans. induction queue as [|it queue IH]; intros chans; simpl; [by intros [= ->]|].
  destruct (send _ _ _) as [ch|] eqn:Hs; [|done]. simpl.
  apply send_Some in Hs as [Hn ->]. intros Hd Hl. specialize (IH _ Hd Hl).
  rewrite lookup_insert in IH. by case_decide.
Qed.

Lemma stopped_step (s s' : QState P) :
  queue_step (D := D) s s' → q_started s = true → q_runner s = Stopped →
  q_started s' = true ∧ q_runner s' = Stopped ∧
  ∀ id c, q_chans s' !! id = Some (RConn c) → q_chans s !! id = Some (RConn c).
Proof.
  intros Hstep Hs Hr. destruct Hstep; simpl; try congruence; try done.
  - unfold ensureStarted. simpl. by rewrite Hs.
  - split_and!; [done..|]. by intros i c [_ ?]%lookup_delete_Some.
  - split_and!; [done..|]. by intros i c [_ ?]%lookup_delete_Some.
  - split_and!; [done..|]. intros i c. by apply drain_items_conn with (queue := q_queue s).
  - unfold stop. by rewrite Hr.
Qed.
End stopped.

(** A value left in the channel of a goroutine that has returned stays there. *)
Section lost.
Context {P : Type} `{!PoolOps P} `{!SortSlice} {D : Type} `{!IndexOps D}.

Definition lost (id : nat) (r : queueResult) (s : QState P) : Prop :=
  (∃ x, q_waiters s !! id = Some (Returned x)) ∧ q_chans s !! id = Some r ∧ (id < q_next s)%nat.

Lemma drain_items_full queue chans chans' id r :
  drain_items queue chans = Some chans' → chans !! id = Some r → chans' !! id = Some r.
Proof.
  revert chans. induction queue as [|it queue IH]; intros chans; simpl; [by intros [= ->]|].
  destruct (send _ _ _) as [ch|] eqn:Hs; [|done]. simpl.
  apply send_Some in Hs as [Hn ->]. intros Hd Hl. apply (IH _ Hd).
  rewrite lookup_insert_ne; congruence.
Qed.

Lemma lost_waiter id r s s' id' w w' :
  lost id r s → q_waiters s !! id' = Some w → (∀ x, w ≠ Returned x) →
  q_waiters s' = <[id' := w']> (q_waiters s) → q_next s' = q_next s →
  (∀ i, i ≠ id' → q_chans s' !! i = q_chans s !! i) → lost id r s'.
Proof.
  intros ((x & Hx) & Hc & Hn) Hw Hne Hws Hnx Hch. assert (id ≠ id') by (intros ->; congruence).
  split_and!; [exists x; by rewrite Hws, lookup_insert_ne|by rewrite Hch|by rewrite Hnx].
Qed.

Lemma lost_step id r (s s' : QState P) : queue_step (D := D) s s' → lost id r s → lost id r s'.
Proof.
  intros Hstep Hl. destruct Hstep; try exact Hl;
    try by (eapply lost_waiter; try done; simpl; intros; by rewrite ?lookup_delete_ne).
  - destruct Hl as ((x & Hx) & Hc & Hn).
    unfold ensureStarted. case_match; (split_and!;
      [exists x; simpl; rewrite lookup_insert_ne; [done|lia]|done|simpl; lia]).
  - destruct Hl as ((x & Hx) & Hc & Hn). split_and!; [by exists x| |done]. simpl.
    select (send _ _ _ = _) (fun Hs => apply send_Some in Hs as [Hnone ->]).
    rewrite lookup_insert_ne; congruence.
  - destruct Hl as ((x & Hx) & Hc & Hn). split_and!; [by exists x| |done]. simpl.
    by eapply drain_items_full.
  - unfold stop. by destruct (q_runner s).
Qed.

Lemma lost_steps id r (s s' : QState P) :
  rtc (queue_step (D := D)) s s' → lost id r s → lost id r s'.
Proof. induction 1; eauto using lost_step. Qed.
End lost.

(** ** Theorems *)

Section theorems.
Context {P : Type} `{!PoolOps P} {ok : P → Prop} `{!PoolLaws P ok}.
Context `{!SortSlice, !SortSliceLaws} {D : Type} `{!IndexOps D}.
Implicit Types (s : QState P) (st : RouterState P) (disc : D).

(** The states the program can get into from a router. *)
Definition reachable st s : Prop := rtc (queue_step (D := D)) (newQueueManager st) s.

Lemma reachable_inv st s :
  router_wf (ok := ok) st → reachable st s →
  acct_inv (ok := ok) (pool_Inflight (pool st)) s ∧ ids_inv s ∧ results_inv s.
Proof.
  intros Hwf Hr. unfold reachable in Hr. apply rtc_ind_r with (z := s)
    (P := λ s, acct_inv (ok := ok) (pool_Inflight (pool st)) s ∧ ids_inv s ∧ results_inv s)
    in Hr; [done| |].
  - split_and!; [split_and!; [done|done|by apply tracked_nil]|..].
    + split; simpl; [constructor|by intros ? ?%elem_of_nil|..]; intros ? ?; by rewrite lookup_empty.
    + split; simpl; [intros ? ?; by rewrite lookup_empty..|done].
  - intros s1 s2 _ Hstep (Ha & Hi & Hq).
    pose proof (queue_step_acct (ok := ok) _ _ _ Hstep Ha) as Ha'.
    split_and!; [done|eapply queue_step_ids; [done|apply Ha'|done]|by eapply queue_step_results].
Qed.

(** [C4] However the goroutines interleave, the program does not panic, and
    every in-flight counter is its initial value plus the connections that
    handlers hold, plus the one the runner is about to send, plus those that
    sit in a result channel. *)
Theorem queue_accounts_for_slots st s :
  router_wf (ok := ok) st → reachable st s →
  q_runner s ≠ Panicked ∧
  ∀ u, pool_Inflight (pool (q_router s)) u =
    wrap64 (pool_Inflight (pool st) u + count u (held s)).
Proof. intros Hwf Hr. by destruct (reachable_inv st s Hwf Hr) as [(_ & ? & _ & ?) _]. Qed.

(** [C16] No send on a result channel ever blocks: the answer the runner has
    decided on can be sent at once, the next item of a pass can be decided
    whatever configuration and index it sees, and [drain] can run whenever
    the mutex is free.  So nobody gets stuck holding the mutex. *)
Theorem queue_sends_never_block st s :
  router_wf (ok := ok) st → reachable st s →
  match q_runner s with
  | Sending _ it r _ _ => is_Some (send (item_id it) r (q_chans s))
  | Scanning now (it :: _) _ => ∃ ctx, q_ctxs s !! item_id it = Some ctx ∧
      ∀ cfg disc, fst (process_item now ctx cfg disc it (q_router s)) ≠ ItemPanic
  | _ => True
  end ∧
  (mu_free s → is_Some (drain_items (q_queue s) (q_chans s))).
Proof.
  intros Hwf Hr. destruct (reachable_inv st s Hwf Hr) as ((Hw & _ & Ht) & Hi & _). split.
  - pose proof (ids_live _ Hi) as Hl. unfold live_items in Hl.
    destruct (q_runner s) as [| | |now [|it todo] rem|now it r todo rem| |] eqn:Hrun; try done.
    + destruct (Hl it) as (_ & w & Hwt & _); [set_solver|].
      destruct (ids_known _ Hi _ _ Hwt) as [_ [ctx Hctx]]. exists ctx. split; [done|].
      intros cfg disc. destruct (process_item _ _ _ _ _ _) as [o st'] eqn:Hp.
      by destruct (process_item_tracked (ok := ok) _ _ _ _ _ _ _ _ _ _ Hw Ht Hp).
    + destruct (Hl it) as (Hn & _); [set_solver|]. unfold send. rewrite Hn. by eexists.
  - intros Hf. rewrite <- (live_free s Hf).
    destruct (drain_items_spec (live_items s) (q_chans s) (ids_nodup _ Hi)) as (c & Hc & _);
      [|by exists c]. intros it Hin. by apply (ids_live _ Hi).
Qed.

(** A call of [enqueue] that fails fails with [ErrQueueTimeout], with the
    [context.Canceled] of [drain], or with the error of its own context;
    "all servers at capacity" never comes out of the queue. *)
Theorem enqueue_errors st s id e :
  router_wf (ok := ok) st → reachable st s →
  q_waiters s !! id = Some (Returned (Err e)) →
  e = ErrQueueTimeout ∨ e = Canceled ∨
  ∃ ctx, q_ctxs s !! id = Some ctx ∧ ctx_Err ctx = Some e.
Proof.
  intros Hwf Hr Hw. destruct (reachable_inv st s Hwf Hr) as (_ & _ & Hq).
  destruct (res_returned _ Hq _ _ Hw) as [[?|?]|Hx]; [auto..|].
  do 2 right. destruct (q_ctxs s !! id) as [ctx|]; [by exists ctx|done].
Qed.

(** Once [run] has been stopped it stays stopped, and nobody is served
    from the queue again: [ensureStarted] does not start a second goroutine,
    so a request queued later waits until its own context ends. *)
Theorem stopped_serves_nobody s s' :
  q_started s = true → q_runner s = Stopped → rtc (queue_step (D := D)) s s' →
  q_runner s' = Stopped ∧
  ∀ id c, q_chans s' !! id = Some (RConn c) → q_chans s !! id = Some (RConn c).
Proof.
  intros Hs Hr Hrtc.
  induction Hrtc as [s|s s1 s2 Hstep _ IH]; [done|].
  destruct (stopped_step s s1 Hstep Hs Hr) as (Hs1 & Hr1 & Hc1).
  destruct (IH Hs1 Hr1) as [? Hc]. split; [done|]. intros id c ?. by apply Hc1, Hc.
Qed.

(** [C25] One pass over a queue of distinct items with empty channels: it
    returns; an item is kept, in the old order, exactly if it was not
    answered; every expired item gets [ErrQueueTimeout], no other item does,
    and the channels of others are untouched. *)
Theorem processQueue_answers now ctxs cfg disc queue chans st :
  router_wf (ok := ok) st → NoDup (map item_id queue) → fresh_chans queue chans →
  ∃ kept chans' st',
    processQueue now ctxs cfg disc queue chans st = Some (kept, chans', st') ∧
    router_wf (ok := ok) st' ∧
    kept = filter (λ it, chans' !! item_id it = None) queue ∧
    (∀ id, id ∉ map item_id queue → chans' !! id = chans !! id) ∧
    ∀ it, it ∈ queue →
      (item_deadline it < now ↔ chans' !! item_id it = Some (RErr ErrQueueTimeout)).
Proof.
  intros Hwf Hnd Hc.
  destruct (process_items_spec now ctxs cfg disc queue [] chans st Hwf Hnd Hc)
    as (kept & chans' & st' & Hp & ? & ? & ? & Hexp & Herr).
  exists kept, chans', st'. split_and!; [done..|]. intros it Hin.
  split; [by apply Hexp|]. intros He. by eapply Herr.
Qed.

(** No overtaking: under [error] and [queue], if a live item that has not
    expired is kept by a pass, so is every such item for the same model that
    stands behind it. *)
Theorem processQueue_fifo now ctxs cfg disc l1 it1 l2 it2 chans st kept chans' st' :
  router_wf (ok := ok) st → FallbackStrategy cfg ≠ FallbackBestEffort →
  NoDup (map item_id (l1 ++ it1 :: l2)) → fresh_chans (l1 ++ it1 :: l2) chans →
  processQueue now ctxs cfg disc (l1 ++ it1 :: l2) chans st = Some (kept, chans', st') →
  it2 ∈ l2 → item_model it2 = item_model it1 →
  now <= item_deadline it1 → now <= item_deadline it2 →
  ctx_Err (ctxs (item_id it1)) = None → ctx_Err (ctxs (item_id it2)) = None →
  it1 ∈ kept → it2 ∈ kept.
Proof.
  intros Hwf Hs Hnd Hc Hp Hin Hm Hd1 Hd2 Hc1 Hc2 Hk.
  destruct (process_items_spec now ctxs cfg disc _ [] chans st Hwf Hnd Hc)
    as (kept' & ch & st1 & Hp' & _ & Hkept & _).
  unfold processQueue in Hp. rewrite Hp' in Hp. simplify_eq/=.
  apply list_elem_of_filter in Hk as [Hk _]. apply list_elem_of_filter. split; [|set_solver].
  by apply (process_items_fifo now ctxs cfg disc l1 it1 l2 it2 [] chans st _ Hwf Hs Hnd Hc Hp').
Qed.

Lemma process_items_steps now ctxs cfg disc todo remaining s kept chans' st' :
  q_runner s = Scanning now todo remaining →
  (∀ it, it ∈ todo → q_ctxs s !! item_id it = Some (ctxs (item_id it))) →
  process_items now ctxs cfg disc todo remaining (q_chans s) (q_router s) =
    Some (kept, chans', st') →
  rtc (queue_step (D := D)) s
    (set_router st' (set_chans chans' (set_runner (Scanning now [] kept) s))).
Proof.
  revert remaining s. induction todo as [|it todo IH]; intros remaining s Hr Hc Hp; simpl in Hp.
  { simplify_eq. destruct s; simpl in *; subst. apply rtc_refl. }
  destruct (process_item _ _ _ _ _ _) as [o st1] eqn:Hi. destruct o as [r| |]; [| |done].
  - destruct (send _ _ _) as [ch|] eqn:Hs; [|done]. simpl in Hp.
    eapply rtc_l; [eapply step_decide; [done|apply Hc; left|done]|].
    eapply rtc_l; [by eapply (step_send now it r todo remaining ch)|].
    eapply (IH _ (set_chans ch (set_runner (Scanning now todo remaining) (set_router st1
      (set_runner (Sending now it r todo remaining) s))))); [done| |done].
    intros it' Hin. apply Hc. by right.
  - eapply rtc_l; [eapply step_keep; [done|apply Hc; left|done]|].
    eapply (IH _ (set_router st1 (set_runner (Scanning now todo (remaining ++ [it])) s)));
      [done| |done]. intros it' Hin. apply Hc. by right.
Qed.

(** [C24] The step relation implements [processQueue]: from a wake-up, the steps
    of an undisturbed pass lead to exactly the queue, channels and router
    that the function computes, with the mutex released. *)
Theorem processQueue_is_a_run now ctxs cfg disc s kept chans' st' :
  q_runner s = Woken →
  (∀ it, it ∈ q_queue s → q_ctxs s !! item_id it = Some (ctxs (item_id it))) →
  processQueue now ctxs cfg disc (q_queue s) (q_chans s) (q_router s) =
    Some (kept, chans', st') →
  rtc (queue_step (D := D)) s
    (set_router st' (set_chans chans' (set_queue (λ _, kept) (set_runner Idle s)))).
Proof.
  intros Hr Hc Hp. eapply rtc_l; [by apply (step_lock now)|].
  eapply rtc_r; [by eapply process_items_steps|].
  by apply (step_unlock now kept (set_router st' (set_chans chans'
    (set_runner (Scanning now [] kept) (set_runner (Scanning now (q_queue s) []) s))))).
Qed.
End theorems.

(** The deadline of a queued request: for a [QueueTimeoutSec] up to
    9223372036 it is the earlier of the context's deadline and now plus the
    timeout; from 9223372037 to 18446744073, which validation accepts, the
    product overflows and the request is born expired. *)
Theorem queue_deadline_bounds cfg now ctx :
  (0 < QueueTimeoutSec cfg <= 9223372036 →
   queue_deadline cfg now ctx =
     match ctx_Deadline ctx with
     | Some d => Z.min d (now + QueueTimeoutSec cfg * 10 ^ 9)
     | None => now + QueueTimeoutSec cfg * 10 ^ 9
     end) ∧
  (9223372036 < QueueTimeoutSec cfg <= 18446744073 → queue_deadline cfg now ctx < now).
Proof. split; [apply queue_deadline_min|apply queue_deadline_overflow]. Qed.
