(* ===== verification/RouterPool.v ===== *)
(** * The router on the pool and the index of the program

    The theorems of [Router] hold for any pool and index that keep the
    promises of [Interfaces].  Here they are applied to the pool of [Backend],
    the index of [Discovery], and a sorting function. *)
From Stdlib Require Import ZArith Lia.
From stdpp Require Import base tactics option list numbers strings gmap sorting.
From S2P Require Import Prelude GoFloat Config Interfaces Backend Discovery Router RouterConcurrent.

Open Scope Z_scope.

(** ** A sorting function *)

Fixpoint insert_by {A} (less : A → A → bool) (x : A) (l : list A) : list A :=
  match l with
  | [] => [x]
  | y :: l' => if less y x then y :: insert_by less x l' else x :: l
  end.

Definition insertion_sort : SortSlice := λ A less l, foldr (insert_by less) [] l.

Section insertion_sort.
Lemma insert_by_perm A (less : A → A → bool) x l : insert_by less x l ≡ₚ x :: l.
Proof.
  induction l as [|y l IH]; simpl; [done|]. destruct (less y x); [|done].
  rewrite IH. apply Permutation_swap.
Qed.

Lemma insert_by_sorted A (key : A → Z) x l :
  StronglySorted (λ x y, key x <= key y) l →
  StronglySorted (λ x y, key x <= key y) (insert_by (λ x y, key x <? key y) x l).
Proof.
  induction l as [|y l IH]; simpl; intros Hs; [repeat constructor|].
  apply StronglySorted_inv in Hs as [Hs Hy]. destruct (Z.ltb_spec (key y) (key x)).
  - constructor; [by apply IH|]. rewrite insert_by_perm. constructor; [lia|done].
  - constructor; [by constructor|]. constructor; [lia|].
    eapply Forall_impl; [exact Hy|]. simpl. lia.
Qed.

Lemma insert_by_map A B (f : A → B) lessA lessB x l :
  (∀ x y, lessB (f x) (f y) = lessA x y) →
  insert_by lessB (f x) (map f l) = map f (insert_by lessA x l).
Proof.
  intros Hl. induction l as [|y l IH]; simpl; [done|].
  rewrite Hl. destruct (lessA y x); simpl; by rewrite ?IH.
Qed.

#[local] Existing Instance insertion_sort.
Lemma insertion_sort_laws : SortSliceLaws.
Proof.
  split; unfold sort_slice, insertion_sort.
  - intros A less l. induction l as [|x l IH]; simpl; [done|]. by rewrite insert_by_perm, IH.
  - intros A key l. induction l as [|x l IH]; simpl; [constructor|]. by apply insert_by_sorted.
  - intros A B f lessA lessB l Hl. induction l as [|x l IH]; simpl; [done|].
    by rewrite IH, (insert_by_map _ _ _ lessA).
Qed.
End insertion_sort.

(** ** Samples *)

Definition sample_fleet (inflight_a : nat) : Pool :=
  let p := foldr AddServer NewPool
    [mkServerConfig "http://a" 1 3; mkServerConfig "http://b" 1 3;
     mkServerConfig "http://c" 2 1; mkServerConfig "http://d" 2 1] in
  Nat.iter inflight_a (λ p, snd (Acquire Background "http://a" p)) p.

Lemma sample_fleet_wf n : pool_wf (sample_fleet n).
Proof.
  assert (pool_wf (sample_fleet 0)) as Hb by (unfold sample_fleet; simpl; eauto using AddServer_wf, NewPool_wf).
  induction n as [|n IH]; [done|]. simpl. by apply Acquire_wf.
Qed.

(** An index in which [servers], all healthy, serve the model [m]. *)
Definition sample_index (svs : list string) : Discovery :=
  {| servers := svs;
     models := {["m" := svs]};
     modelDetails := {["m" := "{}"]};
     healthy := list_to_map (map (λ u, (u, true)) svs);
     interval := 15;
     cancel := true;
     started := true |}.

Definition sample_strategy (fs : string) : GlobalConfig :=
  let g := d_Global DefaultConfig in
  mkGlobalConfig fs (DiscoveryIntervalSec g) (RequestTimeoutSec g) (QueueTimeoutSec g)
    (DrainTimeoutSec g) (ShutdownTimeoutSec g) (OpenCodeBaseURL g) (OpenCodeContextOutput g)
    (OpenCodeContextBuffer g) (OpenCodeContextInput g).

(** The servers [http://a] and [http://b] at distance 1, [http://c] and
    [http://d] at distance 2; [n] connections on [http://a]. *)
Definition sample_router (n : nat) : RouterState Pool := Router.New (sample_fleet n).

Lemma sample_router_wf n : router_wf (ok := pool_wf) (sample_router n).
Proof. split; [apply sample_fleet_wf|]. apply map_Forall_empty. Qed.

Definition sample_cancelled : Context := mkContext (Some Canceled) None.

(** ** Witnesses *)

Section witnesses.
#[local] Existing Instances insertion_sort insertion_sort_laws.

Let abcd := sample_index ["http://c"; "http://b"; "http://x"; "http://a"; "http://d"].

Lemma Route_refines_decision_witness :
  let infos := ranked (sample_fleet 1) (index_ServersForModel abcd "m") in
  let '(r, st') := Route Background (sample_strategy "error") abcd "m" (sample_router 1) in
  r = decision "error" true infos 0 ∧ router_wf (ok := pool_wf) st' ∧
  match r with
  | Routed c => counted (ServerID c) 1 (sample_fleet 1) (pool st')
  | _ => pool st' = sample_fleet 1
  end.
Proof.
  apply (Route_refines_decision Background (sample_strategy "error") abcd "m"
    (sample_router 1)); [done|apply sample_router_wf].
Defined.

Lemma Route_cancelled_witness :
  let '(r, st') :=
    route sample_cancelled (sample_strategy "queue") abcd "m" false (sample_router 0) in
  r ∈ [RouteErr ErrNoServers; RouteErr ErrAllBusy; Enqueue] ∧
  router_wf (ok := pool_wf) st' ∧ sample_fleet 0 ≈ pool st'.
Proof.
  apply (Route_cancelled sample_cancelled Canceled (sample_strategy "queue") abcd "m" false
    (sample_router 0)); [done|apply sample_router_wf].
Defined.

(** [http://a] is full: the request goes to [http://b]. *)
Lemma Route_nearest_free_witness :
  ∃ sc, "http://b" ∈ index_ServersForModel abcd "m" ∧
    pool_GetServer (sample_fleet 3) "http://b" = Some sc ∧
    pool_Inflight (sample_fleet 3) "http://b" < MaxConcurrentRequests sc ∧
    ∀ u su, u ∈ index_ServersForModel abcd "m" →
      pool_GetServer (sample_fleet 3) u = Some su → Distance su < Distance sc →
      MaxConcurrentRequests su <= pool_Inflight (sample_fleet 3) u.
Proof.
  apply (Route_nearest_free (ok := pool_wf) Background (sample_strategy "error") abcd "m"
    (sample_router 3) (mkConn "http://b")
    (snd (Route Background (sample_strategy "error") abcd "m" (sample_router 3))));
    [done|apply sample_router_wf|done|vm_compute; reflexivity].
Defined.

Lemma sample_within_capacity : within_capacity (sample_fleet 2).
Proof.
  intros u sc.
  assert (∀ u o, clients (sample_fleet 2) !! u = Some o →
    (u, o) ∈ map_to_list (clients (sample_fleet 2))) as Hm by (intros; by apply elem_of_map_to_list).
  intros Hg. change (GetServer (sample_fleet 2) u = Some sc) in Hg. unfold GetServer in Hg.
  destruct (lookup_client (sample_fleet 2) u) as [o|] eqn:E; [|done].
  apply Hm in E.
  assert (Forall (λ uo, ∀ sc, server <$> (objs (sample_fleet 2) !! uo.2) = Some sc →
    Inflight (sample_fleet 2) uo.1 <= MaxConcurrentRequests sc)
    (map_to_list (clients (sample_fleet 2)))) as Hall
    by (vm_compute; repeat constructor; vm_compute; by intros ? [= <-]).
  rewrite Forall_forall in Hall. by apply (Hall _ E).
Qed.

Lemma Route_within_capacity_witness :
  within_capacity
    (pool (snd (Route Background (sample_strategy "queue") abcd "m" (sample_router 2)))).
Proof.
  apply (Route_within_capacity (ok := pool_wf));
    [apply sample_router_wf|done|apply sample_within_capacity].
Defined.

Lemma Route_uses_free_slot_witness :
  ∃ c st', Route Background (sample_strategy "error") abcd "m" (sample_router 3) =
           (Routed c, st').
Proof.
  apply (Route_uses_free_slot (ok := pool_wf) Background (sample_strategy "error") abcd "m"
    (sample_router 3) "http://d" (mkServerConfig "http://d" 2 1));
    [done|apply sample_router_wf| |vm_compute; reflexivity..].
  apply (bool_decide_unpack _). vm_compute. exact I.
Defined.

(** Both candidates full, [http://a] three of three, [http://b] not there. *)
Lemma Route_best_effort_witness :
  let disc := sample_index ["http://a"] in
  let infos := ranked (sample_fleet 3) (index_ServersForModel disc "m") in
  ∃ b st', Route Background (sample_strategy "best_effort") disc "m" (sample_router 3) =
           (Routed (mkConn (url b)), st') ∧ b ∈ infos ∧
    (Forall (λ si, available si = false) infos →
     ∀ si, si ∈ infos → flt (ratio si) (ratio b) = false).
Proof.
  apply (Route_best_effort (ok := pool_wf) Background (sample_strategy "best_effort")
    (sample_index ["http://a"]) "m" (sample_router 3));
    [done|apply sample_router_wf|done|vm_compute; done].
Defined.

Lemma Route_round_robin_witness :
  Route_many 3 Background (sample_strategy "error") (sample_index ["http://b"; "http://a"]) "m"
    (sample_router 0) =
  map (λ u, Routed (mkConn u)) ["http://b"; "http://a"; "http://b"].
Proof.
  rewrite (Route_round_robin (ok := pool_wf) 3 _ _ _ _ _ 1);
    [vm_compute; reflexivity|done|apply sample_router_wf|vm_compute; done
    |vm_compute; repeat constructor|].
  unfold free_slots. vm_compute. repeat constructor; done.
Defined.

Lemma Route_overflow_not_rotated_witness :
  let disc := sample_index ["http://a"; "http://c"; "http://d"] in
  let st i := mkRouter {["m" := i]} (sample_fleet 3) in
  fst (Route Background (sample_strategy "error") disc "m" (st 1)) =
  fst (Route Background (sample_strategy "error") disc "m" (st 2)).
Proof.
  apply (Route_overflow_not_rotated (ok := pool_wf) Background (sample_strategy "error")
    (sample_index ["http://a"; "http://c"; "http://d"]) "m" _ _
    (mkInfo "http://a" 1 3 3) [[mkInfo "http://c" 2 1 0; mkInfo "http://d" 2 1 0]]);
    [done| | |done|vm_compute; reflexivity|done];
    (split; [apply (sample_fleet_wf 3)|]; by apply map_Forall_singleton).
Defined.

Lemma Route_no_servers_witness :
  let '(r, st') := Route Background (sample_strategy "queue") (sample_index ["http://x"]) "m"
    (sample_router 0) in
  (r = RouteErr ErrNoServers ↔
   ∀ u, u ∈ index_ServersForModel (sample_index ["http://x"]) "m" →
     pool_GetServer (sample_fleet 0) u = None) ∧
  (r = RouteErr ErrNoServers → st' = sample_router 0).
Proof.
  apply (Route_no_servers (ok := pool_wf) Background (sample_strategy "queue")
    (sample_index ["http://x"]) "m" (sample_router 0) (sample_router_wf 0)).
Defined.

(** *** Concurrent calls *)

Let call_m : Call := mkCall Background ["http://b"; "http://a"] "m" false.

Lemma route_call_ends_witness :
  (steps_left (route_step "error" call_m (start call_m) (sample_router 1)).1 <
     steps_left (start call_m))%nat ∧ (steps_left (start call_m) ≤ 11)%nat.
Proof. by apply (route_call_ends "error" call_m (start call_m) (sample_router 1)). Defined.

(** Two workers, of which one has read the load of its first candidate. *)
Lemma concurrent_accounting_witness :
  let s := mkSys (sample_router 1)
    [Some (call_m, Collecting ["http://b"; "http://a"] []); None] [] in
  (∀ u, pool_Inflight (pool (s_router s)) u =
     wrap64 (pool_Inflight (sample_fleet 1) u + held_on u (s_held s))) ∧
  ∀ i call pr, s_workers s !! i = Some (Some (call, pr)) →
    (route_step "error" call pr (s_router s)).1 ≠ Finished RoutePanic.
Proof.
  apply (concurrent_accounting (ok := pool_wf) "error" 2 (sample_router 1)).
  - apply sample_fleet_wf.
  - apply map_Forall_empty.
  - apply rtc_once.
    exact (sys_call "error" (sample_router 1) [None; None] [] 0 call_m _ [] eq_refl eq_refl).
Defined.

(** [http://a] allows three connections and has two; three calls make it five. *)
Lemma concurrent_overshoot_witness :
  (∀ s, rtc (sys_step "error") (idle 3 (sample_router 2)) s →
     pool_Inflight (pool (s_router s)) "http://a" <= 3 + 3 - 1) ∧
  ∃ s, rtc (sys_step "error") (idle 3 (sample_router 2)) s ∧ s_workers s = replicate 3 None ∧
     s_held s = replicate 3 (mkConn "http://a") ∧
     pool_Inflight (pool (s_router s)) "http://a" =
       pool_Inflight (pool (sample_router 2)) "http://a" + 3.
Proof.
  apply (concurrent_overshoot (ok := pool_wf) "error" 3 (sample_router 2) "http://a"
    (mkServerConfig "http://a" 1 3)).
  - apply sample_fleet_wf.
  - apply map_Forall_empty.
  - done.
  - lia.
  - vm_compute. reflexivity.
  - vm_compute. split; [discriminate|reflexivity].
  - vm_compute. reflexivity.
Defined.
End witnesses.
