(* ===== verification/QueuePool.v ===== *)
(** * The wait queue on the pool and the index of the program

    A run of the queue that loses a slot for good, and inputs at which the
    hypotheses of the theorems of [Queue] hold. *)
From Stdlib Require Import ZArith Lia.
From stdpp Require Import base tactics option list numbers strings gmap relations.
From S2P Require Import Prelude Config Interfaces Backend Discovery Router Queue RouterPool.

Open Scope Z_scope.

Section sample_runs.
#[local] Existing Instances insertion_sort insertion_sort_laws.

Let index := sample_index ["http://a"].
Let cfg := sample_strategy "queue".
Let step := queue_step (P := Pool) (D := Discovery).

Let item : queueItem := mkItem 0 "m" (30 * 10 ^ 9).

(** ** The cancellation race *)

(** One request waits in the queue. *)
Definition one_waiting : QState Pool :=
  {| q_queue := [item];
     q_started := true;
     q_signal := true;
     q_runner := Idle;
     q_waiters := {[0%nat := Waiting]};
     q_ctxs := {[0%nat := Background]};
     q_chans := ∅;
     q_next := 1;
     q_router := sample_router 0;
     q_out := [] |}.

Lemma one_waiting_reachable : reachable (D := Discovery) (sample_router 0) one_waiting.
Proof.
  eapply rtc_l; [by apply (step_start Background "m")|].
  eapply rtc_l; [by apply (step_append 0%nat "m" Background cfg 0)|].
  eapply rtc_l; [by apply (step_notify 0%nat)|].
  apply rtc_refl.
Qed.

Lemma item_is_answered :
  process_item 0 Background cfg index item (sample_router 0) =
  (Answer (RConn (mkConn "http://a")),
   snd (process_item 0 Background cfg index item (sample_router 0))).
Proof.
  apply injective_projections; [vm_compute; reflexivity|reflexivity].
Qed.

(** The pass has taken a slot for it and is about to send the connection. *)
Definition about_to_send : QState Pool :=
  set_router (snd (process_item 0 Background cfg index item
      (sample_router 0)))
    (set_runner (Sending 0 item (RConn (mkConn "http://a")) [] [])
      (set_signal false one_waiting)).

Lemma about_to_send_reachable : rtc step one_waiting about_to_send.
Proof.
  eapply rtc_l; [by apply step_signal|].
  eapply rtc_l; [by apply (step_lock 0)|].
  eapply rtc_l; [eapply (step_decide 0 item [] [] Background cfg index);
    [reflexivity|reflexivity|exact item_is_answered]|].
  apply rtc_refl.
Qed.

(** Its context ends; it finds the channel empty, and only then the
    connection is sent. *)
Definition slot_lost : QState Pool :=
  {| q_queue := [];
     q_started := true;
     q_signal := false;
     q_runner := Idle;
     q_waiters := {[0%nat := Returned (Err Canceled)]};
     q_ctxs := {[0%nat := mkContext (Some Canceled) None]};
     q_chans := {[0%nat := RConn (mkConn "http://a")]};
     q_next := 1;
     q_router := q_router about_to_send;
     q_out := [] |}.

Lemma slot_lost_reachable : rtc step about_to_send slot_lost.
Proof.
  eapply rtc_l; [by apply (step_cancel 0%nat Background Canceled)|].
  eapply rtc_l; [by apply (step_done_default 0%nat (mkContext (Some Canceled) None) Canceled)|].
  eapply rtc_l; [by eapply (step_send 0 item _ [] [])|].
  eapply rtc_l; [by apply (step_unlock 0 [])|].
  eapply rtc_l; [by apply (step_removeItem 0%nat Canceled)|].
  apply rtc_refl.
Qed.

(** [C27] A slot can be lost: a request whose context ends after the pass took a
    slot for it and before the connection is in its channel returns its
    context's error, and the connection stays in the channel for ever, so
    that the server counts one connection more than anyone holds. *)
Theorem queue_cancel_race_leaks :
  ∃ s, reachable (D := Discovery) (sample_router 0) s ∧
    q_waiters s !! 0%nat = Some (Returned (Err Canceled)) ∧
    q_queue s = [] ∧ q_out s = [] ∧ Inflight (pool (q_router s)) "http://a" = 1 ∧
    ∀ s', rtc step s s' → q_chans s' !! 0%nat = Some (RConn (mkConn "http://a")).
Proof.
  exists slot_lost. split_and!; try done.
  - unfold reachable; etrans; [apply one_waiting_reachable|].
    unfold reachable; etrans; [apply about_to_send_reachable|apply slot_lost_reachable].
  - intros s' Hs. apply (lost_steps 0%nat (RConn (mkConn "http://a")) slot_lost s' Hs).
    split_and!; [by eexists|done|simpl; lia].
Qed.

(** ** Witnesses *)

Lemma queue_accounts_for_slots_witness :
  q_runner one_waiting ≠ Panicked ∧
  ∀ u, pool_Inflight (pool (q_router one_waiting)) u =
    wrap64 (pool_Inflight (sample_fleet 0) u + count u (held one_waiting)).
Proof.
  apply (queue_accounts_for_slots (ok := pool_wf) (D := Discovery) (sample_router 0));
    [apply sample_router_wf|apply one_waiting_reachable].
Defined.

Lemma queue_sends_never_block_witness :
  is_Some (send 0 (RConn (mkConn "http://a")) (q_chans about_to_send)) ∧
  (mu_free about_to_send →
   is_Some (drain_items (q_queue about_to_send) (q_chans about_to_send))).
Proof.
  apply (queue_sends_never_block (ok := pool_wf) (D := Discovery) (sample_router 0) about_to_send);
    [apply sample_router_wf|].
  unfold reachable; etrans; [apply one_waiting_reachable|apply about_to_send_reachable].
Defined.

Lemma enqueue_errors_witness :
  Canceled = ErrQueueTimeout ∨ Canceled = Canceled ∨
  ∃ ctx, q_ctxs slot_lost !! 0%nat = Some ctx ∧ ctx_Err ctx = Some Canceled.
Proof.
  apply (enqueue_errors (ok := pool_wf) (D := Discovery) (sample_router 0) slot_lost);
    [apply sample_router_wf| |done].
  unfold reachable; etrans; [apply one_waiting_reachable|].
  unfold reachable; etrans; [apply about_to_send_reachable|apply slot_lost_reachable].
Defined.

Lemma stopped_serves_nobody_witness :
  let s := fresh_waiter Background "m" (stop one_waiting) in
  q_runner s = Stopped ∧
  ∀ id c, q_chans s !! id = Some (RConn c) → q_chans (stop one_waiting) !! id = Some (RConn c).
Proof.
  apply (stopped_serves_nobody (D := Discovery) (stop one_waiting)); [done|done|].
  apply rtc_once. by apply (step_start Background "m" (stop one_waiting)).
Defined.

(** Three requests, the first expired, one slot: the second is served, the
    third is kept. *)
Let three : list queueItem := [mkItem 5 "m" 10; mkItem 6 "m" 90; mkItem 7 "m" 80].

Lemma three_nodup : NoDup (map item_id three).
Proof. apply (bool_decide_unpack _). vm_compute. exact I. Qed.

Lemma three_fresh : fresh_chans three ∅.
Proof. intros it _. apply lookup_empty. Qed.

Lemma processQueue_answers_witness :
  ∃ kept chans' st',
    processQueue 50 (λ _, Background) cfg index three ∅ (sample_router 2) =
      Some (kept, chans', st') ∧
    router_wf (ok := pool_wf) st' ∧
    kept = filter (λ it, chans' !! item_id it = None) three ∧
    (∀ id, id ∉ map item_id three → chans' !! id = (∅ : Chans) !! id) ∧
    ∀ it, it ∈ three →
      (item_deadline it < 50 ↔ chans' !! item_id it = Some (RErr ErrQueueTimeout)).
Proof.
  apply (processQueue_answers (ok := pool_wf) 50 (λ _, Background) cfg index three ∅
    (sample_router 2)); [apply sample_router_wf|apply three_nodup|apply three_fresh].
Defined.

(** The server is full: all are kept. *)
Lemma processQueue_fifo_witness :
  let kept := [mkItem 5 "m" 60; mkItem 6 "m" 90; mkItem 7 "m" 80] in
  mkItem 7 "m" 80 ∈ kept.
Proof.
  intros kept. set (res := processQueue 50 (λ _, Background) cfg index kept ∅ (sample_router 3)).
  assert (fst <$> res = Some (kept, ∅)) as Hres by (vm_compute; reflexivity).
  destruct res as [[[k ch] st']|] eqn:Hp; [|done]. injection Hres as Hk Hch. subst k ch.
  apply (processQueue_fifo (ok := pool_wf) 50 (λ _, Background) cfg index
    [mkItem 5 "m" 60] (mkItem 6 "m" 90) [mkItem 7 "m" 80] (mkItem 7 "m" 80) ∅
    (sample_router 3) kept ∅ st').
  - apply sample_router_wf.
  - discriminate.
  - apply (bool_decide_unpack _). vm_compute. exact I.
  - intros it _. apply lookup_empty.
  - exact Hp.
  - left.
  - reflexivity.
  - discriminate.
  - discriminate.
  - reflexivity.
  - reflexivity.
  - right. left.
Defined.

Lemma processQueue_is_a_run_witness :
  let s := set_runner Woken one_waiting in
  ∃ st', rtc step s (set_router st' (set_chans {[0%nat := RConn (mkConn "http://a")]}
    (set_queue (λ _, []) (set_runner Idle s)))).
Proof.
  intros s.
  set (res := processQueue 0 (λ _, Background) cfg index (q_queue s) (q_chans s) (q_router s)).
  assert (fst <$> res = Some ([], {[0%nat := RConn (mkConn "http://a")]})) as Hres
    by (vm_compute; reflexivity).
  destruct res as [[[k ch] st']|] eqn:Hp; [|discriminate Hres].
  injection Hres as Hk Hch. subst k ch. exists st'.
  apply (processQueue_is_a_run 0 (λ _, Background) cfg index s).
  - reflexivity.
  - intros it ->%list_elem_of_singleton. reflexivity.
  - exact Hp.
Defined.

Lemma queue_deadline_bounds_witness :
  queue_deadline cfg 5 (mkContext None (Some 7)) = 7.
Proof. by rewrite (proj1 (queue_deadline_bounds cfg 5 (mkContext None (Some 7)))) by done. Defined.
End sample_runs.
