(* ===== verification/Http.v ===== *)
(** * Responses of the HTTP server: the helpers of src/server/server.go

    A response is the record of [Backend]: what the handler leaves in the
    [http.ResponseWriter] when it returns.  Values are turned into JSON trees
    by the handlers and into text here. *)
From Stdlib Require Import ZArith Lia Ascii.
From stdpp Require Import base tactics option list numbers strings gmap.
From S2P Require Import Prelude GoJson Backend.

Open Scope Z_scope.

Definition respond (status : Z) (contentType body : string) : Response :=
  mkResponse status {["Content-Type" := [contentType]]} body.

Definition respondJSON (status : Z) (data : json) : Response :=
  respond status "application/json" (Marshal data).

(** The map of the source is written with its keys sorted. *)
Definition respondError (status : Z) (msg : string) : Response :=
  respondJSON status (JObj [("error", JObj [("message", JStr msg); ("type", JStr "error")])]).

(** [io.ReadAll(r.Body)]. *)
Inductive Body : Type :=
  | BodyError
  | BodyOf (bytes : string).

(** ** Raw JSON inside a response *)

(** [None] makes the whole [json.Marshal] fail. *)
Definition embed_raw (raw : string) : option string :=
  match parse raw with Some _ => Some (compact raw) | None => None end.

Example embed_raw_ok :
  map (embed_raw ∘ quoted) [" { 'a b' : [ 1 , '<\' ' ] } "; "{'a' 1}"] =
  [Some (quoted "{'a b':[1,'\u003c\' ']}"); None].
Proof. vm_compute. reflexivity. Qed.
