(* ===== verification/DiscoveryWire.v ===== *)
(** * What the poller reads (src/discovery/discovery.go)

    [decode_models] keeps the bytes of the entries of a models response.  Here
    it is compared with the decoder that stores trees: it accepts the same
    bodies, and the bytes it keeps are those of the entries. *)
From Stdlib Require Import ZArith Lia.
From stdpp Require Import base tactics option list numbers strings gmap.
From S2P Require Import Prelude GoStrings GoJson JsonRoundTrip JsonLocal GoRaw.
From S2P Require Import Config Interfaces Backend Discovery Http.

Open Scope Z_scope.

(** The reference: [modelsResponse] with trees in the place of bytes. *)
Definition tree_response : Type := string * option (list json).

Definition tree_decoder : decoder tree_response := into_struct
  [("object", field fst (λ x r, (x, r.2)) into_string);
   ("data", field snd (λ x r, (r.1, x)) (into_slice JNull into_raw))].

(** The id of an entry that is a tree. *)
Definition tree_id (v : json) : option string :=
  match store (Some v) (into_struct [("id", into_string)]) EmptyString with
  | inr id => Some id
  | inl _ => None
  end.

(** Looking up one of two fields. *)
Lemma find_field_2 {F} n1 n2 (a b : F) k :
  find_field [(n1, a); (n2, b)] k =
  if decide (n1 = k) then Some a else if decide (n2 = k) then Some b
  else if decide (foldName n1 = foldName k) then Some a
  else if decide (foldName n2 = foldName k) then Some b else None.
Proof.
  unfold find_field. rewrite !filter_cons, !filter_nil. simpl.
  destruct (decide (n1 = k)); [done|]. destruct (decide (n2 = k)); [done|].
  destruct (decide (foldName n1 = foldName k)); [done|].
  by destruct (decide (foldName n2 = foldName k)).
Qed.

Lemma into_elems_raw vs old : into_elems JNull into_raw vs old = (vs, false).
Proof.
  revert old. induction vs as [|v vs IH]; intros old; [done|]. cbn [into_elems into_raw].
  by rewrite IH.
Qed.

(** The field of bytes against the field of trees. *)
Lemma into_raws_spec w v ws vs :
  raw_of w v → Forall2 raw_of ws (default [] vs) →
  let '(ws', e) := into_raws w ws in
  let '(vs', e') := into_slice JNull into_raw v vs in
  e = e' ∧ Forall2 raw_of ws' (default [] vs').
Proof.
  unfold raw_of, into_raws. intros Hw Hold. rewrite Hw. destruct v as [| | | |l|]; try done.
  cbn [into_slice]. rewrite into_elems_raw. destruct (raw_array_spec w l Hw) as (ws' & -> & Hall).
  done.
Qed.

(** The two states of the decoders agree. *)
Definition responses_agree (r : modelsResponse * bool) (t : tree_response * bool) : Prop :=
  Object r.1 = t.1.1 ∧ Forall2 raw_of (Data r.1) (default [] t.1.2) ∧ r.2 = t.2.

Definition tree_member (acc : tree_response * bool) (m : string * json) : tree_response * bool :=
  match find_field
    [("object", field fst (λ x r, (x, r.2)) into_string);
     ("data", field snd (λ x r, (r.1, x)) (into_slice JNull into_raw))] m.1 with
  | None => acc
  | Some dec => let '(a, e) := dec m.2 acc.1 in (a, acc.2 || e)
  end.

Lemma models_member_agree r t m n :
  responses_agree r t → raw_member m n → responses_agree (models_member r m) (tree_member t n).
Proof.
  intros Ha [Hk Hv]. unfold models_member, tree_member. rewrite Hk, !find_field_2.
  destruct r as [b e], t as [[o vs] e'], Ha as (Ho & Hd & He). cbn [fst snd] in Ho, Hd, He.
  assert (responses_agree
    (match parse m.2 with
     | Some v => let '(x, e'0) := into_string v (Object b) in
                 (mkModelsResponse x (Data b), e || e'0)
     | None => (b, true)
     end)
    (let '(a, e0) := field fst (λ x r, (x, r.2)) into_string n.2 (o, vs) in (a, e' || e0))) as H1.
  { unfold raw_of in Hv. rewrite Hv. unfold field. simpl. rewrite Ho.
    destruct (into_string n.2 o) as [x e0]. by repeat split; simpl; [|subst]. }
  assert (responses_agree
    (let '(x, e'0) := into_raws m.2 (Data b) in (mkModelsResponse (Object b) x, e || e'0))
    (let '(a, e0) := field snd (λ x r, (r.1, x)) (into_slice JNull into_raw) n.2 (o, vs) in
     (a, e' || e0))) as H2.
  { pose proof (into_raws_spec m.2 n.2 (Data b) vs Hv Hd) as Hs. unfold field. simpl.
    destruct (into_raws m.2 (Data b)) as [ws' e1].
    destruct (into_slice JNull into_raw n.2 vs) as [vs' e2]. destruct Hs as [-> Hs].
    by repeat split; simpl; [| |subst]. }
  destruct (decide ("object" = n.1)); [exact H1|]. destruct (decide ("data" = n.1)); [exact H2|].
  destruct (decide (foldName "object" = foldName n.1)); [exact H1|].
  destruct (decide (foldName "data" = foldName n.1)); [exact H2|]. done.
Qed.

Lemma models_members_agree ws ms r t :
  Forall2 raw_member ws ms → responses_agree r t →
  responses_agree (foldl models_member r ws) (foldl tree_member t ms).
Proof.
  intros Hall. revert r t. induction Hall as [|m n ws ms Hm _ IH]; intros r t Hrt; [done|].
  apply IH. by apply models_member_agree.
Qed.

(** [C32] The poller's decoder against one that stores trees: a body is refused
    by both (no JSON value at its start, not an object or null, an [object]
    that is not a string or a [data] that is not an array), or accepted by
    both, and then the entries that are kept as bytes are, one by one and in
    order, texts of the entries of the tree. *)
Theorem decode_models_refines body :
  match Decode tree_decoder body (EmptyString, None) with
  | inl _ => decode_models body = DecodeFailed
  | inr (_, data) =>
      ∃ raws, decode_models body = Decoded raws ∧ Forall2 raw_of raws (default [] data)
  end.
Proof.
  unfold Decode, store, parse_first, decode_models.
  destruct (parse_value (fuel_for body) 0 body) as [[v r]|] eqn:Hp; simpl.
  - destruct (raw_value_of _ _ _ _ _ ltac:(done) ltac:(done) Hp) as (w & -> & Hw). rewrite Hw.
    destruct v as [| | | | |ms]; try done; [by exists []|].
    destruct (raw_object_spec w ms Hw) as (ws & -> & Hall). simpl.
    pose proof (models_members_agree ws ms (mkModelsResponse EmptyString [], false)
      ((EmptyString, None), false) Hall) as Ha.
    destruct Ha as (_ & Hd & He); [by repeat split|].
    change (foldl _ ((EmptyString, None), false) ms)
      with (foldl tree_member ((EmptyString, None), false) ms).
    destruct (foldl tree_member _ ms) as [[o vs] e']. destruct (foldl models_member _ ws) as [b e].
    simpl in Hd, He. subst e. destruct e'; [done|]. by exists (Data b).
  - by destruct (raw_value _ _ _) as [[w r]|] eqn:Hr;
      [apply raw_value_spec in Hr as (v & Hv & _); [rewrite Hp in Hv|]|].
Qed.

(** *** Depth *)

(** An entry that was read inside a response: a value, no deeper than what may
    stand two levels below a text. *)
Definition entry_ok (raw : string) : Prop := ∃ v, parse raw = Some v ∧ fits 2 (height v).

Lemma into_raws_ok w v old :
  raw_of w v → fits 1 (height v) → Forall entry_ok old → Forall entry_ok (into_raws w old).1.
Proof.
  unfold raw_of, into_raws. intros Hw Hf Hold. rewrite Hw.
  destruct v as [| | | |vs|]; [by constructor|done..| |done].
  destruct (raw_array_spec w vs Hw) as (ws & -> & Hall). simpl. unfold fits in Hf. simpl in Hf.
  assert (∀ x, x ∈ vs → fits 2 (height x)) as Hvs.
  { intros x Hx. assert (height x ≤ max_list_with height vs)%nat; [|unfold fits; lia].
    by apply (max_list_with_le height vs). }
  clear Hw Hf. induction Hall as [|x y ws vs Hxy _ IH]; constructor.
  - exists y. split; [done|]. apply Hvs. left.
  - apply IH. intros z Hz. apply Hvs. by right.
Qed.

Lemma models_members_ok ws ms b e :
  Forall2 raw_member ws ms → (∀ m, m ∈ ms → fits 1 (height m.2)) → Forall entry_ok (Data b) →
  Forall entry_ok (Data (foldl models_member (b, e) ws).1).
Proof.
  intros Hall. revert b e. induction Hall as [|m n ws ms [_ Hm] _ IH]; intros b e Hms Hb; [done|].
  assert (∀ m, m ∈ ms → fits 1 (height m.2)) as Hms' by (intros x Hx; apply Hms; by right).
  assert (Forall entry_ok (Data (models_member (b, e) m).1)) as Hd.
  { unfold models_member. rewrite find_field_2.
    pose proof (into_raws_ok m.2 n.2 (Data b) Hm ltac:(apply Hms; left) Hb) as Hr.
    destruct (into_raws m.2 (Data b)) as [ws' e1].
    assert (Forall entry_ok (Data (match parse m.2 with
     | Some v => let '(x, e'0) := into_string v (Object b) in (mkModelsResponse x (Data b), e || e'0)
     | None => (b, true) end).1)) as Ho
      by (destruct (parse m.2); [by destruct (into_string _ _)|done]).
    by repeat case_decide. }
  cbn [foldl]. destruct (models_member (b, e) m) as [b' e']. by apply IH.
Qed.

(** What the poller keeps of a response. *)
Lemma decode_models_ok text raws : decode_models text = Decoded raws → Forall entry_ok raws.
Proof.
  unfold decode_models. destruct (raw_value _ 0 text) as [[w r]|] eqn:Hr; [|done].
  apply raw_value_spec in Hr as (v & _ & _ & Hw & Hf); [|done].
  apply value_text_parse in Hw as Hp; [|done]. rewrite Hp.
  destruct v as [| | | | |ms]; try done; [by intros [= <-]|].
  destruct (raw_object_spec w ms Hp) as (ws & -> & Hall). simpl.
  pose proof (models_members_ok ws ms (mkModelsResponse EmptyString []) false Hall) as Hok.
  destruct (foldl models_member _ ws) as [b e]. destruct e; [done|]. intros [= <-].
  apply Hok; [|constructor]. intros m Hm. unfold fits in *. simpl in Hf.
  assert (height m.2 ≤ max_list_with (λ m, height m.2) ms)%nat; [|lia].
  by apply (max_list_with_le (λ m, height m.2) ms).
Qed.

(** The id that is read from the bytes of an entry is the id in the tree. *)
Lemma entry_id_tree w v : raw_of w v → entry_id w = tree_id v.
Proof. unfold raw_of, entry_id, tree_id, Unmarshal. by intros ->. Qed.

(** A member that is not a field of the response is skipped. *)
Lemma tree_decoder_other k v r :
  find_field [("object", true); ("data", false)] k = None →
  tree_decoder (JObj [(k, v)]) r = (r, false).
Proof.
  intros Hk. unfold tree_decoder, into_struct. cbn [foldl fst].
  rewrite find_field_2 in Hk. rewrite find_field_2. by repeat case_decide.
Qed.

Lemma decode_models_other text k v :
  parse_first text = Some (JObj [(k, v)]) →
  find_field [("object", true); ("data", false)] k = None → decode_models text = Decoded [].
Proof.
  intros Hp Hk. pose proof (decode_models_refines text) as Hr. unfold Decode in Hr.
  rewrite Hp in Hr. unfold store in Hr. rewrite tree_decoder_other in Hr by done.
  destruct Hr as (raws & -> & Hall). cbn [default snd] in Hall. by inversion Hall.
Qed.

Lemma decode_error_body st msg : decode_models (resp_Body (respondError st msg)) = Decoded [].
Proof.
  apply (decode_models_other _ "error"
    (JObj [("message", JStr (sanitize msg)); ("type", JStr "error")])); [|reflexivity].
  rewrite <- (string_app_nil_r (resp_Body _)).
  apply (parse_first_marshal None (JObj [("error", JObj [("message", JStr msg);
    ("type", JStr "error")])])); reflexivity.
Qed.

(** The poller looks at the body only, not at the status: a server that
    answers the models request with an error in the usual JSON form counts as
    healthy, and loses all its models. *)
Theorem error_answer_is_healthy `{!MapRange, !MapRangeLaw, !Backends} url st msg d :
  http_get (url +:+ "/v1/models") = Answered (resp_Body (respondError st msg)) →
  IsHealthy (poll url d) url = true ∧
  ∀ m svs, models (poll url d) !! m = Some svs → url ∉ svs.
Proof.
  intros Hg.
  assert (probe (url +:+ "/v1/models") = Decoded []) as Hp
    by (unfold probe; rewrite Hg; apply decode_error_body).
  unfold poll. rewrite Hp. cbn [collect]. split.
  - unfold IsHealthy, setHealthy. simpl. by rewrite lookup_insert_eq.
  - intros m svs. cbn [setHealthy models].
    destruct (updateModels_lookup url [] (with_models d (models d) (modelDetails d)) m) as [-> _].
    cbn [models with_models]. unfold served, nonempty.
    rewrite (bool_decide_false (m ∈ [])), app_nil_r by apply not_elem_of_nil.
    destruct (bool_decide (_ = [])); [done|]. intros Hs. injection Hs as <-.
    by intros [Hne _]%list_elem_of_filter.
Qed.

(** ** Witnesses *)

Section witnesses.
#[local] Existing Instance sample_range.
#[local] Instance range_law : MapRangeLaw.
Proof. by intros X. Qed.

(** A backend that answers every request with an error. *)
#[local] Instance broken : Backends :=
  {| http_get := λ _, Answered (resp_Body (respondError 500 "out of memory")) |}.

Lemma error_answer_is_healthy_witness :
  let d := poll "http://a" sample_discovery in
  IsHealthy d "http://a" = true ∧ ∀ m svs, models d !! m = Some svs → "http://a" ∉ svs.
Proof. by apply (error_answer_is_healthy "http://a" 500 "out of memory" sample_discovery). Defined.
End witnesses.
