(* ===== verification/OpenCode.v ===== *)
(** * The OpenCode configuration (src/server/opencode.go)

    Context limits from model metadata, the base URL, the generated file, and
    the stripping of comments from the one that is posted. *)
From Stdlib Require Import ZArith Lia Ascii.
From stdpp Require Import base tactics option list numbers strings gmap sorting.
From S2P Require Import Prelude GoStrings GoText GoJson Config Discovery Backend Http.

Open Scope Z_scope.

(** ** Data *)

Record opencodeModelLimit : Type := mkLimit {
  lim_Context : Z;
  lim_Input : Z;
  lim_Output : Z
}.

Record opencodeModelEntry : Type := mkEntry {
  ent_ID : string;
  ent_Limit : opencodeModelLimit
}.

Definition defaultGenerationLimit : Z := 3000.
Definition defaultMaxModelLen : Z := 8192.
Definition defaultProviderName : string := "llm-bridge".

(** The metadata [extractMaxModelLen] decodes. *)
Record modelMeta : Type := mkMeta {
  MaxModelLen : Z;
  MaxTokens : Z;
  ContextLen : Z;
  MaxContextLen : Z
}.

Definition meta_decoder : decoder modelMeta := into_struct
  [("max_model_len",
     field MaxModelLen (λ x m, mkMeta x (MaxTokens m) (ContextLen m) (MaxContextLen m)) into_int);
   ("max_tokens",
     field MaxTokens (λ x m, mkMeta (MaxModelLen m) x (ContextLen m) (MaxContextLen m)) into_int);
   ("context_length",
     field ContextLen (λ x m, mkMeta (MaxModelLen m) (MaxTokens m) x (MaxContextLen m)) into_int);
   ("max_context_length",
     field MaxContextLen (λ x m, mkMeta (MaxModelLen m) (MaxTokens m) (ContextLen m) x) into_int)].

(** ** Limits *)

(** The [switch] of [extractMaxModelLen]. *)
Definition choose_len (meta : modelMeta) : Z :=
  if 0 <? MaxModelLen meta then MaxModelLen meta
  else if 0 <? MaxContextLen meta then MaxContextLen meta
  else if 0 <? MaxTokens meta then wrap64 (MaxTokens meta + defaultGenerationLimit)
  else if 0 <? ContextLen meta then ContextLen meta
  else defaultMaxModelLen.

Definition extractMaxModelLen (raw : RawMessage) : Z :=
  if bool_decide (raw = EmptyString) then defaultMaxModelLen else
  match Unmarshal meta_decoder raw (mkMeta 0 0 0 0) with
  | inl _ => defaultMaxModelLen
  | inr meta => choose_len meta
  end.

(** The limits of one model, the same in both handlers. *)
Definition model_limit (g : GlobalConfig) (ctx : Z) : opencodeModelLimit :=
  let outLimit := defaulted 8192 (OpenCodeContextOutput g) in
  let buffer := defaulted 1024 (OpenCodeContextBuffer g) in
  let inLimit := wrap64 (wrap64 (ctx - outLimit) - buffer) in
  let '(inLimit, outLimit) :=
    if inLimit <? 0 then (0, wrap64 (ctx - buffer)) else (inLimit, outLimit) in
  let '(inLimit, outLimit) :=
    if outLimit <? 0 then
      let inLimit := wrap64 (ctx - buffer) in
      (if inLimit <? 0 then 0 else inLimit, 0)
    else (inLimit, outLimit) in
  mkLimit ctx inLimit outLimit.

(** [buildModelEntries]; [details[name]] is nil for a name without metadata. *)
Definition buildModelEntries (g : GlobalConfig) (d : Discovery)
    : gmap string opencodeModelEntry :=
  let modelNames := sort_strings (elements (dom (Models d))) in
  foldl (λ entries name,
    let ctx := extractMaxModelLen (default EmptyString (ModelDetails d !! name)) in
    <[name := mkEntry name (model_limit g ctx)]> entries) ∅ modelNames.

(** ** The base URL *)

(** What the handlers see of a request: [r.URL.Query().Get("base_url")],
    [r.TLS != nil], [r.Host]. *)
Record OCRequest : Type := mkOCRequest {
  query_base_url : string;
  tls : bool;
  host : string
}.

Definition resolveBaseURL (g : GlobalConfig) (r : OCRequest) (queryBaseURL : string) : string :=
  let baseURL := queryBaseURL in
  let baseURL := if bool_decide (baseURL = EmptyString) then OpenCodeBaseURL g else baseURL in
  let baseURL :=
    if bool_decide (baseURL = EmptyString) then
      (if tls r then "https" else "http") +:+ "://" +:+ host r
    else baseURL in
  trim_right_byte "/" baseURL +:+ "/v1".

(** ** The generated file *)

Definition limit_json (l : opencodeModelLimit) : json :=
  JObj [("context", JInt (lim_Context l)); ("input", JInt (lim_Input l));
        ("output", JInt (lim_Output l))].

Definition entry_json (e : opencodeModelEntry) : json :=
  JObj [("id", JStr (ent_ID e)); ("limit", limit_json (ent_Limit e))].

(** A map is written with its keys sorted. *)
Definition entries_json (entries : gmap string opencodeModelEntry) : json :=
  JObj (omap (λ name, e ← entries !! name; Some (name, entry_json e))
    (sort_strings (elements (dom entries)))).

Definition opencode_json (baseURL : string) (entries : gmap string opencodeModelEntry) : json :=
  JObj [("$schema", JStr "https://opencode.ai/config.json");
        ("enabled_providers", JArr [JStr defaultProviderName]);
        ("provider", JObj [(defaultProviderName,
           JObj [("api", JStr "openai"); ("name", JStr defaultProviderName);
                 ("options", JObj [("baseURL", JStr baseURL); ("apiKey", JStr "sk-llm-bridge")]);
                 ("models", entries_json entries)])])].

Definition file_header : string :=
  "// Auto-generated by llm-bridge" +:+ String NL
  (quoted "// Only the 'llm-bridge' provider is enabled — all external providers are implicitly disabled."
   +:+ String NL
  (quoted "// Set 'baseURL' below to match your llm-bridge address if different." +:+ String NL
  (String NL EmptyString))).

(** [generateOpenCodeConfig].  The values are strings and integers, for which
    [json.MarshalIndent] does not fail. *)
Definition generateOpenCodeConfig (g : GlobalConfig) (d : Discovery) (baseURL : string)
    : string * string :=
  let raw := MarshalIndent (opencode_json baseURL (buildModelEntries g d)) in
  (raw, file_header +:+ raw).

(** ** Comments *)

(** [stripLineComment], in the middle of a line. *)
Fixpoint strip_go (inString esc : bool) (line : string) : string :=
  match line with
  | EmptyString => EmptyString
  | String ch t =>
      if esc then String ch (strip_go inString false t)
      else if bool_decide (ch = BACKSLASH) && inString then String ch (strip_go inString true t)
      else if bool_decide (ch = DQ) then String ch (strip_go (negb inString) false t)
      else if negb inString && HasPrefix line "//" then EmptyString
      else String ch (strip_go inString false t)
  end.

Definition stripLineComment (line : string) : string := strip_go false false line.

Definition stripJSONC (data : string) : string :=
  trim_right_byte NL
    (foldl (λ result line, result +:+ stripLineComment line +:+ String NL EmptyString) EmptyString
      (split_byte NL data)).

(** ** Handlers *)

Definition handleOpenCodeConfig (g : GlobalConfig) (d : Discovery) (r : OCRequest) : Response :=
  let baseURL := resolveBaseURL g r (query_base_url r) in
  let '(_, comment) := generateOpenCodeConfig g d baseURL in
  respond 200 "application/jsonc" comment.

(** [var parsed map[string]interface{}]: an object, or null. *)
Definition decodes_to_map (content : string) : bool :=
  match parse content with Some (JObj _) | Some JNull => true | _ => false end.

(** The text that is parsed: comments stripped if there may be any, white space
    trimmed, and nothing read as an empty object. *)
Definition posted_content (bodyBytes : string) : string :=
  let content := TrimSpace bodyBytes in
  let content := if Contains content "//" then stripJSONC content else content in
  let content := TrimSpace content in
  if bool_decide (content = EmptyString) then "{}" else content.

Definition handlePostOpenCodeConfig (g : GlobalConfig) (d : Discovery) (r : OCRequest) (body : Body)
    : Response :=
  match body with
  | BodyError => respondError 400 "failed to read request body"
  | BodyOf bodyBytes =>
      let content := posted_content bodyBytes in
      if negb (decodes_to_map content) then respondError 400 "invalid JSON body" else
      let modelEntries := buildModelEntries g d in
      let baseURL := resolveBaseURL g r (query_base_url r) in
      let raw := MarshalIndent (opencode_json baseURL modelEntries) in
      respond 200 "application/jsonc" (file_header +:+ raw)
  end.

(** ** Facts *)

Lemma defaulted_positive d x : 0 < d → 0 < defaulted d x.
Proof. unfold defaulted. intros. destruct (Z.leb_spec x 0); lia. Qed.

Lemma foldl_insert_lookup {A} (f : string → A) names (m : gmap string A) n :
  foldl (λ m name, <[name := f name]> m) m names !! n =
    if decide (n ∈ names) then Some (f n) else m !! n.
Proof.
  revert m. induction names as [|name names IH]; intros m; simpl; [done|].
  rewrite IH. destruct (decide (n ∈ names)) as [Hn|Hn].
  - by rewrite decide_True by by right.
  - destruct (decide (name = n)) as [->|Hne].
    + rewrite lookup_insert_eq. by rewrite decide_True by left.
    + rewrite lookup_insert_ne by done. rewrite decide_False; [done|].
      intros [->|?]%elem_of_cons; done.
Qed.


(** What is left of a line starts like the line, or is empty. *)
Lemma strip_go_cons inS e c t :
  strip_go inS e (String c t) = EmptyString ∨ ∃ w, strip_go inS e (String c t) = String c w.
Proof. cbn [strip_go]. repeat case_match; eauto. Qed.

(** Stripping a tail does not make a comment start where there was none. *)
Lemma strip_go_prefix inS c t :
  HasPrefix (String c t) "//" = false → HasPrefix (String c (strip_go inS false t)) "//" = false.
Proof.
  intros Hp. destruct t as [|d t]; [done|].
  destruct (strip_go_cons inS false d t) as [->|[w ->]]; [by simpl; destruct (bool_decide _)|].
  simpl in Hp |- *. destruct (bool_decide _); [|done]. simpl in *.
  destruct (bool_decide ("/"%char = d)); [|done]. by destruct t.
Qed.

Lemma strip_go_idem inS e line :
  strip_go inS e (strip_go inS e line) = strip_go inS e line.
Proof.
  revert inS e. induction line as [|c t IH]; intros inS e; [done|]. cbn [strip_go].
  destruct e; [cbn [strip_go]; by rewrite IH|].
  destruct (bool_decide (c = BACKSLASH) && inS) eqn:Hb;
    [cbn [strip_go]; by rewrite Hb, IH|].
  destruct (bool_decide (c = DQ)) eqn:Hq; [cbn [strip_go]; by rewrite Hb, Hq, IH|].
  destruct (negb inS && HasPrefix (String c t) "//") eqn:Hc; [done|].
  cbn [strip_go]. rewrite Hb, Hq. destruct inS; simpl negb in *; [by rewrite IH|].
  rewrite (strip_go_prefix _ _ _ Hc). simpl. by rewrite IH.
Qed.

(** What is cut off starts with the two slashes. *)
Lemma strip_go_rest inS e line :
  ∃ r, line = strip_go inS e line +:+ r ∧ (r = EmptyString ∨ HasPrefix r "//" = true).
Proof.
  revert inS e. induction line as [|c t IH]; intros inS e; [by exists EmptyString; auto|].
  assert (∀ i e, ∃ r, String c t = String c (strip_go i e t) +:+ r ∧
    (r = EmptyString ∨ HasPrefix r "//" = true)) as Hc.
  { intros i e'. destruct (IH i e') as (r & Hr & Hp). exists r. split; [|done].
    exact (f_equal (String c) Hr). }
  cbn [strip_go]. destruct e; [apply Hc|]. destruct (_ && inS); [apply Hc|].
  destruct (bool_decide _); [apply Hc|].
  destruct (negb inS && HasPrefix (String c t) "//") eqn:Hs; [|apply Hc].
  apply andb_true_iff in Hs as [_ Hs]. exists (String c t). auto.
Qed.

Lemma trim_right_byte_no_end c s :
  trim_right_byte c s = EmptyString ∨
  ∃ w b, trim_right_byte c s = w +:+ String b EmptyString ∧ b ≠ c.
Proof.
  induction s as [|a s IH]; [by left|]. cbn [trim_right_byte all_byte].
  destruct (all_byte c s) eqn:Hs.
  - destruct (bool_decide (a = c)) eqn:Ha; [by left|]. right. simpl.
    assert (trim_right_byte c s = EmptyString) as ->
      by (destruct s as [|a' s]; [done|]; cbn [trim_right_byte]; by rewrite Hs).
    exists EmptyString, a. split; [done|]. by apply bool_decide_eq_false in Ha.
  - rewrite andb_false_r. right. destruct IH as [Hn|(w & b & -> & Hb)].
    + exfalso. destruct (trim_right_byte_spec c s) as (t & Ht & Hall).
      rewrite Hn in Ht. change (EmptyString +:+ t) with t in Ht. congruence.
    + by exists (String a w), b.
Qed.

(** The value an optional part of the configuration falls back to. *)
Definition first_nonempty (l : list string) : string :=
  default EmptyString (head (filter (λ s, s ≠ EmptyString) l)).

(** ** Theorems *)

(** The limits of a model split its context: with a context of at least the
    buffer, input, output and buffer add up to the context exactly, the output
    being cut before the input is given anything; with a smaller context both
    are zero.  (Integers that do not overflow.) *)
Theorem model_limit_partition g ctx :
  let out := defaulted 8192 (OpenCodeContextOutput g) in
  let buf := defaulted 1024 (OpenCodeContextBuffer g) in
  0 < ctx < 2 ^ 63 → out + buf < 2 ^ 63 →
  let l := model_limit g ctx in
  lim_Context l = ctx ∧
  lim_Output l = Z.max 0 (Z.min out (ctx - buf)) ∧
  lim_Input l = Z.max 0 (ctx - out - buf) ∧
  (buf <= ctx → lim_Input l + lim_Output l + buf = ctx).
Proof.
  intros out buf Hctx Hsum. unfold model_limit. fold out buf.
  pose proof (defaulted_positive 8192 (OpenCodeContextOutput g) ltac:(lia)) as Ho. fold out in Ho.
  pose proof (defaulted_positive 1024 (OpenCodeContextBuffer g) ltac:(lia)) as Hb. fold buf in Hb.
  rewrite (wrap64_id (ctx - out)), (wrap64_id (ctx - out - buf)), (wrap64_id (ctx - buf))
    by (unfold int64; lia).
  destruct (Z.ltb_spec (ctx - out - buf) 0); simpl;
    [destruct (Z.ltb_spec (ctx - buf) 0)|destruct (Z.ltb_spec out 0)]; simpl; lia.
Qed.

(** A model without metadata gets the default context of 8192 tokens, of
    which, under the default settings, nothing is left for the input. *)
Theorem default_model_has_no_input :
  model_limit (d_Global DefaultConfig) (extractMaxModelLen EmptyString) = mkLimit 8192 0 7168.
Proof. reflexivity. Qed.

(** The context length found in the metadata is positive, unless
    [max_tokens] is within 3000 of the largest [int]: then the sum wraps
    around and the length is negative. *)
Theorem choose_len_positive meta :
  int64 (MaxTokens meta) →
  (MaxTokens meta <= 2 ^ 63 - 1 - 3000 → 0 < choose_len meta) ∧
  (MaxModelLen meta <= 0 → MaxContextLen meta <= 0 → 2 ^ 63 - 3000 <= MaxTokens meta →
   choose_len meta < 0).
Proof.
  unfold int64, choose_len, defaultGenerationLimit, defaultMaxModelLen. intros Hi. split.
  - intros Hm. destruct (Z.ltb_spec 0 (MaxModelLen meta)); [done|].
    destruct (Z.ltb_spec 0 (MaxContextLen meta)); [done|].
    destruct (Z.ltb_spec 0 (MaxTokens meta)).
    + rewrite wrap64_id by (unfold int64; lia). lia.
    + destruct (Z.ltb_spec 0 (ContextLen meta)); lia.
  - intros H1 H2 H3. destruct (Z.ltb_spec 0 (MaxModelLen meta)); [lia|].
    destruct (Z.ltb_spec 0 (MaxContextLen meta)); [lia|].
    destruct (Z.ltb_spec 0 (MaxTokens meta)); [|lia]. unfold wrap64.
    replace (MaxTokens meta + 3000 + 2 ^ 63)
      with (MaxTokens meta + 3000 - 2 ^ 63 + 1 * 2 ^ 64) by lia.
    rewrite Z_mod_plus_full, Z.mod_small by lia. lia.
Qed.

(** The base URL is the first non-empty one of the query, the configuration
    and the request's own address, with all slashes at its end removed and
    [/v1] put behind it. *)
Theorem resolveBaseURL_form g r q :
  let auto := (if tls r then "https" else "http") +:+ "://" +:+ host r in
  ∃ base slashes, resolveBaseURL g r q = base +:+ "/v1" ∧
    first_nonempty [q; OpenCodeBaseURL g; auto] = base +:+ slashes ∧
    all_byte "/" slashes = true ∧
    (base = EmptyString ∨ ∃ w b, base = w +:+ String b EmptyString ∧ b ≠ "/"%char).
Proof.
  intros auto. unfold resolveBaseURL. fold auto.
  set (b := if bool_decide (q = EmptyString) then OpenCodeBaseURL g else q).
  set (b' := if bool_decide (b = EmptyString) then auto else b).
  assert (first_nonempty [q; OpenCodeBaseURL g; auto] = b') as ->.
  { unfold first_nonempty, b', b. assert (auto ≠ EmptyString) by (unfold auto; by destruct (tls r)).
    destruct (decide (q = EmptyString)) as [->|]; [|by rewrite (bool_decide_false (q = _)),
      bool_decide_false, filter_cons, decide_True by done].
    rewrite filter_cons, decide_False by (intros Hn; by apply Hn).
    rewrite (bool_decide_true (EmptyString = _)) by done. simpl.
    destruct (decide (OpenCodeBaseURL g = EmptyString)) as [->|].
    - by rewrite filter_cons, decide_False, filter_cons, decide_True by (done || intros Hn; by apply Hn).
    - by rewrite filter_cons, decide_True, bool_decide_false by done. }
  destruct (trim_right_byte_spec "/" b') as (t & Ht & Hall).
  exists (trim_right_byte "/" b'), t. split_and!; [done|done|done|apply trim_right_byte_no_end].
Qed.

(** Every discovered model is in the generated file, and no other, with the
    limits that follow from its metadata. *)
Theorem buildModelEntries_lookup g d name :
  buildModelEntries g d !! name =
    if decide (name ∈ dom (Models d)) then
      Some (mkEntry name (model_limit g
        (extractMaxModelLen (default EmptyString (ModelDetails d !! name)))))
    else None.
Proof.
  unfold buildModelEntries. rewrite (foldl_insert_lookup (λ name, mkEntry name (model_limit g
    (extractMaxModelLen (default EmptyString (ModelDetails d !! name)))))).
  rewrite lookup_empty. assert (name ∈ sort_strings (elements (dom (Models d))) ↔
    name ∈ dom (Models d)) as Hiff by by rewrite sort_strings_perm, elem_of_elements.
  destruct (decide (name ∈ dom (Models d))); [by rewrite decide_True by by apply Hiff|].
  rewrite decide_False; [done|]. by rewrite Hiff.
Qed.

(** Stripping a line cuts it at a comment and nowhere else: the line is what
    is kept followed by nothing or by text that starts with two slashes, and
    what is kept has no comment left in it. *)
Theorem stripLineComment_cuts_comment line :
  (∃ rest, line = stripLineComment line +:+ rest ∧
     (rest = EmptyString ∨ HasPrefix rest "//" = true)) ∧
  stripLineComment (stripLineComment line) = stripLineComment line.
Proof. split; [apply strip_go_rest|apply strip_go_idem]. Qed.

(** The posted configuration does not influence the answer: whatever it
    says, a body that is an object or null, or nothing but comments and white
    space, gets exactly the file that a GET request gets; any other body gets
    status 400. *)
Theorem post_equals_get g d r bytes :
  handlePostOpenCodeConfig g d r (BodyOf bytes) =
    if decodes_to_map (posted_content bytes) then handleOpenCodeConfig g d r
    else respondError 400 "invalid JSON body".
Proof.
  unfold handlePostOpenCodeConfig, handleOpenCodeConfig, generateOpenCodeConfig.
  by destruct (decodes_to_map _).
Qed.

(** ** Witnesses and samples *)

Example posted_sample :
  map (λ s, decodes_to_map (posted_content s))
    [EmptyString; "// nothing" +:+ String NL EmptyString; quoted "{'a': 'http://x' // b"  +:+ String NL "}";
     "[1]"; "/* c */ {}"] = [true; true; true; false; false].
Proof. vm_compute. reflexivity. Qed.

Lemma model_limit_partition_witness :
  let l := model_limit (d_Global DefaultConfig) 32768 in
  lim_Context l = 32768 ∧ lim_Output l = Z.max 0 (Z.min 8192 (32768 - 1024)) ∧
  lim_Input l = Z.max 0 (32768 - 8192 - 1024) ∧
  (1024 <= 32768 → lim_Input l + lim_Output l + 1024 = 32768).
Proof. apply (model_limit_partition (d_Global DefaultConfig) 32768); unfold defaulted; simpl; lia. Defined.

Lemma choose_len_positive_witness :
  let meta := mkMeta 0 4096 0 0 in
  (4096 <= 2 ^ 63 - 1 - 3000 → 0 < choose_len meta) ∧
  (0 <= 0 → 0 <= 0 → 2 ^ 63 - 3000 <= 4096 → choose_len meta < 0).
Proof. apply (choose_len_positive (mkMeta 0 4096 0 0)). unfold int64. simpl. lia. Defined.
