(* ===== verification/OpenCodeFile.v ===== *)
(** * The generated OpenCode file can be read (src/server/opencode.go)

    The file that [generateOpenCodeConfig] writes has comments in front of a
    JSON document.  Here: stripping comments gives back exactly the document,
    whatever the names of the models and the base URL are, and the document
    parses.  The point is that two slashes inside a string, as in a URL, are not
    taken for a comment, because the encoder escapes quotes and newlines. *)
From Stdlib Require Import ZArith Lia Ascii.
From stdpp Require Import base tactics option list numbers strings gmap sorting.
From S2P Require Import Prelude GoStrings GoText GoJson GoUrl JsonRoundTrip.
From S2P Require Import Config Discovery Backend Http OpenCode.

Open Scope Z_scope.

(** ** Texts without comments *)

(** The states of [strip_go] over a text in which every line ends outside a
    string and no slash is outside a string; [None] for other texts. *)
Definition lex_step (inS esc : bool) (c : ascii) : option (bool * bool) :=
  if esc then (if bool_decide (c = NL) then None else Some (inS, false))
  else if bool_decide (c = BACKSLASH) && inS then Some (true, true)
  else if bool_decide (c = DQ) then Some (negb inS, false)
  else if inS then (if bool_decide (c = NL) then None else Some (true, false))
  else if bool_decide (c = "/"%char) then None else Some (false, false).

Fixpoint lex (inS esc : bool) (s : string) : option (bool * bool) :=
  match s with
  | EmptyString => Some (inS, esc)
  | String c t => '(i, e) ← lex_step inS esc c; lex i e t
  end.

Lemma lex_app inS esc a b : lex inS esc (a +:+ b) = ('(i, e) ← lex inS esc a; lex i e b).
Proof.
  revert inS esc. induction a as [|c a IH]; intros inS esc; [done|].
  change (String c a +:+ b) with (String c (a +:+ b)). cbn [lex].
  destruct (lex_step inS esc c) as [[i e]|]; [|done]. simpl. apply IH.
Qed.

(** One step of the lexer is one step of [strip_go]. *)
Lemma strip_go_step inS esc c t i e :
  lex_step inS esc c = Some (i, e) → strip_go inS esc (String c t) = String c (strip_go i e t).
Proof.
  unfold lex_step. cbn [strip_go]. destruct esc.
  { case_bool_decide; [done|]. by intros [= <- <-]. }
  destruct (bool_decide (c = BACKSLASH) && inS) eqn:Hb.
  { apply andb_true_iff in Hb as [_ ->]. by intros [= <- <-]. }
  destruct (bool_decide (c = DQ)); [by intros [= <- <-]|].
  destruct inS; [destruct (bool_decide (c = NL)); [done|]; by intros [= <- <-]|].
  destruct (bool_decide (c = "/"%char)) eqn:Hs; [done|]. intros [= <- <-]. simpl negb.
  assert (HasPrefix (String c t) "//" = false) as ->; [|done].
  apply bool_decide_eq_false in Hs. cbn [HasPrefix].
  rewrite bool_decide_false; [done|]. intros E. by apply Hs.
Qed.

(** A newline is outside strings. *)
Lemma lex_step_NL inS esc i e : lex_step inS esc NL = Some (i, e) → inS = false ∧ esc = false ∧
  i = false ∧ e = false.
Proof. by destruct inS, esc; intros [= <- <-]. Qed.

(** No line of such a text has anything to strip. *)
Lemma lex_lines s : ∀ inS esc st,
  lex inS esc s = Some st →
  ∃ w ws, split_byte NL s = w :: ws ∧ strip_go inS esc w = w ∧
    Forall (λ l, stripLineComment l = l) ws.
Proof.
  induction s as [|c s IH]; intros inS esc st Hl; [by exists EmptyString, []|].
  cbn [lex] in Hl. destruct (lex_step inS esc c) as [[i e]|] eqn:Hs; [|done].
  destruct (IH i e st Hl) as (w & ws & Hw & Hgo & Hws). cbn [split_byte]. rewrite Hw.
  destruct (bool_decide (c = NL)) eqn:Hc.
  - apply bool_decide_eq_true in Hc as ->. apply lex_step_NL in Hs as (-> & -> & -> & ->).
    exists EmptyString, (w :: ws). split_and!; [done|done|]. by constructor.
  - exists (String c w), ws. split_and!; [done| |done].
    by rewrite (strip_go_step _ _ _ _ _ _ Hs), Hgo.
Qed.

Lemma lex_strip_lines s st :
  lex false false s = Some st → map stripLineComment (split_byte NL s) = split_byte NL s.
Proof.
  intros (w & ws & -> & Hw & Hws)%lex_lines. simpl. unfold stripLineComment at 1. rewrite Hw.
  f_equal. apply map_id_elem. intros l Hl. by rewrite Forall_forall in Hws; apply Hws.
Qed.

(** ** Lines *)

(** Lines with a newline behind each. *)
Definition lines_text (ls : list string) : string := foldr (λ w s, w +:+ String NL s) EmptyString ls.

Lemma fold_lines ls acc :
  foldl (λ result line, result +:+ stripLineComment line +:+ String NL EmptyString) acc ls =
  acc +:+ lines_text (map stripLineComment ls).
Proof.
  revert acc. induction ls as [|w ls IH]; intros acc; simpl; [by rewrite string_app_nil_r|].
  by rewrite IH, !string_app_assoc.
Qed.

Lemma lines_text_split s : lines_text (split_byte NL s) = s +:+ String NL EmptyString.
Proof.
  induction s as [|c s IH]; [done|]. cbn [split_byte].
  pose proof (split_byte_nonempty NL s) as Hne. destruct (split_byte NL s) as [|w ws]; [done|].
  case_bool_decide as Hc; [subst c; exact (f_equal (String NL) IH)|exact (f_equal (String c) IH)].
Qed.

Lemma trim_right_byte_end c s b t :
  b ≠ c → all_byte c t = true → trim_right_byte c (s +:+ String b t) = s +:+ String b EmptyString.
Proof.
  intros Hb Ht. assert (∀ s, all_byte c (s +:+ String b t) = false) as Hall.
  { intros s'. induction s' as [|a s' IH].
    - change (EmptyString +:+ String b t) with (String b t). simpl. by rewrite bool_decide_false.
    - change (String a s' +:+ String b t) with (String a (s' +:+ String b t)). simpl.
      by rewrite IH, andb_false_r. }
  induction s as [|a s IH].
  - change (EmptyString +:+ String b t) with (String b t). cbn [trim_right_byte].
    rewrite (Hall EmptyString : all_byte c (String b t) = false).
    assert (trim_right_byte c t = EmptyString) as ->; [|done].
    destruct t; [done|]. cbn [trim_right_byte]. by rewrite Ht.
  - change (String a s +:+ String b t) with (String a (s +:+ String b t)). cbn [trim_right_byte].
    rewrite (Hall (String a s) : all_byte c (String a (s +:+ String b t)) = false). by rewrite IH.
Qed.

(** ** White space *)

(** The encoding of a white space rune does not reach a byte that is plain. *)
Lemma encoding_stops y b t e :
  plain b = true → Forall (λ n, plain (ascii_of_nat n) = false) e →
  HasPrefix (y +:+ String b t) (encode e) = true → (length e ≤ String.length y)%nat.
Proof.
  intros Hb He. revert y. induction He as [|n e Hn _ IH]; intros y Hp; [simpl; lia|].
  cbn [encode foldr] in Hp. destruct y as [|a y].
  - change (EmptyString +:+ String b t) with (String b t) in Hp. cbn [HasPrefix] in Hp.
    apply andb_true_iff in Hp as [Hnb%bool_decide_eq_true _]. congruence.
  - change (String a y +:+ String b t) with (String a (y +:+ String b t)) in Hp.
    cbn [HasPrefix] in Hp. apply andb_true_iff in Hp as [_ Hp]. simpl. specialize (IH y Hp). lia.
Qed.

Lemma space_width_stops y b t :
  plain b = true → (space_width (y +:+ String b t) ≤ String.length y)%nat.
Proof.
  intros Hb. unfold space_width.
  assert (Forall (Forall (λ n, plain (ascii_of_nat n) = false)) space_bytes) as Hall
    by (repeat constructor).
  induction Hall as [|e es He _ IH]; [simpl; lia|]. rewrite filter_cons.
  destruct (decide (HasPrefix _ _ = true)) as [Hp|]; [|exact IH].
  by apply (encoding_stops y b t e).
Qed.

Lemma all_space_plain y b t k :
  plain b = true → (k ≤ String.length y)%nat → all_space k (y +:+ String b t) = false.
Proof.
  intros Hb. revert k. induction y as [|a y IH]; intros k Hk.
  - assert (k = 0%nat) as -> by (simpl in Hk; lia).
    change (EmptyString +:+ String b t) with (String b t). cbn [all_space].
    by rewrite space_width_plain.
  - pose proof (space_width_stops (String a y) b t Hb) as Hw.
    change (String a y +:+ String b t) with (String a (y +:+ String b t)) in Hw |- *.
    cbn [all_space]. simpl in Hk, Hw. destruct k as [|k]; [|apply IH; lia].
    destruct (space_width _) as [|k]; [done|]. apply IH. lia.
Qed.

(** A text that starts and ends with plain bytes is not trimmed. *)
Lemma TrimSpace_framed y b :
  match y with String a _ => plain a = true | EmptyString => True end → plain b = true →
  TrimSpace (y +:+ String b EmptyString) = y +:+ String b EmptyString.
Proof.
  intros Ha Hb. unfold TrimSpace.
  assert (trim_left_space 0 (y +:+ String b EmptyString) = y +:+ String b EmptyString) as ->.
  { destruct y as [|a y]; [change (EmptyString +:+ ?x) with x|
      change (String a y +:+ ?x) with (String a (y +:+ x))]; cbn [trim_left_space];
      by rewrite space_width_plain. }
  clear Ha. induction y as [|a y IH].
  - change (EmptyString +:+ String b EmptyString) with (String b EmptyString).
    cbn [trim_right_space].
    by rewrite (all_space_plain EmptyString b EmptyString 0 Hb ltac:(done)
      : all_space 0 (String b EmptyString) = false).
  - pose proof (all_space_plain (String a y) b EmptyString 0 Hb ltac:(simpl; lia)) as Hs.
    change (String a y +:+ ?x) with (String a (y +:+ x)) in Hs |- *.
    cbn [trim_right_space]. by rewrite Hs, IH.
Qed.

(** Newlines in front are dropped. *)
Lemma TrimSpace_NL s : TrimSpace (String NL s) = TrimSpace s.
Proof. unfold TrimSpace. by destruct s. Qed.

(** ** JSON has no comments *)

Lemma lex_high c t : 128 <= byte c → lex true false (String c t) = lex true false t.
Proof.
  intros Hc. cbn [lex]. unfold lex_step.
  rewrite !bool_decide_false by (intros ->; vm_compute in Hc; by destruct Hc). done.
Qed.

Lemma lex_ascii c t : byte c < 128 → lex true false (encode_ascii c +:+ t) = lex true false t.
Proof.
  destruct c as [[] [] [] [] [] [] [] []]; intros Hc;
    first [reflexivity | exfalso; vm_compute in Hc; discriminate Hc].
Qed.

(** The inside of a string literal ends inside. *)
Lemma lex_escape_go s : ∀ n t,
  continuation n s = true → lex true false (escape_go n s +:+ t) = lex true false t.
Proof.
  induction s as [[|c s] IH] using string_length_ind; intros n t Hn; [by destruct n|].
  cbn [escape_go]. destruct n as [|n].
  - destruct (Z.ltb_spec (byte c) 128) as [Hc|Hc].
    { rewrite string_app_assoc, lex_ascii by done. apply IH; [simpl; lia|done]. }
    assert (∀ k, continuation k s = true →
      lex true false (String c (escape_go k s) +:+ t) = lex true false t) as Hplain.
    { intros k Hk. change (String c ?x +:+ t) with (String c (x +:+ t)).
      rewrite lex_high by done. apply IH; [simpl; lia|done]. }
    destruct (utf8_width (String c s)) as [|n] eqn:Hw.
    { rewrite string_app_assoc. change (lex true false (u_escape 65533 +:+ ?x))
        with (lex true false x). apply IH; [simpl; lia|done]. }
    apply utf8_width_continuation in Hw. specialize (Hplain n Hw).
    destruct s as [|d [|e s']]; [exact Hplain..|].
    destruct (_ && _ && _) eqn:Hsep; [|exact Hplain].
    apply andb_true_iff in Hsep as [_ He%orb_true_iff]. rewrite !Z.eqb_eq in He.
    rewrite string_app_assoc. destruct He as [-> | ->];
      change (lex true false (u_escape ?n +:+ ?x)) with (lex true false x);
      apply IH; (simpl; lia) || done.
  - simpl in Hn. apply andb_true_iff in Hn as [Hc%in_range_spec Hn].
    change (String c ?x +:+ t) with (String c (x +:+ t)).
    rewrite lex_high by lia. apply IH; [simpl; lia|done].
Qed.

Lemma lex_quote s t : lex false false (quote s +:+ t) = lex false false t.
Proof.
  unfold quote. change (String DQ ?x +:+ t) with (String DQ (x +:+ t)).
  rewrite string_app_assoc. change (lex false false (String DQ ?x)) with (lex true false x).
  by rewrite lex_escape_go.
Qed.

Lemma lex_num lit t : num_chars lit = true → lex false false (lit +:+ t) = lex false false t.
Proof.
  induction lit as [|c lit IH]; [done|]. cbn [num_chars]. intros [Hc Hl]%andb_true_iff.
  change (String c lit +:+ t) with (String c (lit +:+ t)). cbn [lex].
  assert (lex_step false false c = Some (false, false)) as ->; [|exact (IH Hl)].
  revert Hc. by destruct c as [[] [] [] [] [] [] [] []].
Qed.

Lemma lex_indent ind t : lex false false (newline_indent ind +:+ t) = lex false false t.
Proof.
  assert (∀ n, lex false false (string_repeat n " " +:+ t) = lex false false t) as Hr.
  { intros n. induction n as [|n IH]; [done|]. cbn [string_repeat]. exact IH. }
  destruct ind as [n|]; [exact (Hr (2 * n)%nat)|done].
Qed.

(** Pieces with commas between them. *)
Lemma lex_concat {A} (f : A → string) l t :
  Forall (λ x, ∀ t, lex false false (f x +:+ t) = lex false false t) l →
  lex false false (String.concat "," (map f l) +:+ t) = lex false false t.
Proof.
  induction 1 as [|x l Hx Hl IH]; [done|]. destruct l as [|y l]; [apply Hx|].
  cbn [map]. rewrite concat_cons2, !string_app_assoc, Hx.
  change (lex false false ("," +:+ ?x)) with (lex false false x). exact IH.
Qed.

Lemma lex_marshal v : ∀ ind t,
  json_ok v = true → lex false false (marshal ind v +:+ t) = lex false false t.
Proof.
  induction v as [|[]|lit|s|vs IH|ms IH] using json_tree_ind; intros ind t Hok; try done;
    try rewrite Forall_forall in IH.
  - by apply lex_num, number_ok_chars.
  - apply lex_quote.
  - destruct vs as [|v vs]; [done|]. rewrite marshal_arr, !string_app_assoc.
    change (lex false false ("[" +:+ ?x)) with (lex false false x).
    rewrite lex_concat; [by rewrite lex_indent|]. apply Forall_forall. intros x Hx t'.
    unfold elem_text. rewrite string_app_assoc, lex_indent. apply IH; [done|].
    by eapply forallb_elem.
  - destruct ms as [|m ms]; [done|]. rewrite marshal_obj, !string_app_assoc.
    change (lex false false ("{" +:+ ?x)) with (lex false false x).
    rewrite lex_concat; [by rewrite lex_indent|]. apply Forall_forall. intros x Hx t'.
    unfold member_text. rewrite !string_app_assoc, lex_indent, lex_quote.
    assert (∀ r, lex false false
      (":" +:+ (match ind with None => EmptyString | Some _ => " " end) +:+ r) =
      lex false false r) as -> by (by destruct ind).
    apply IH; [done|]. exact (forallb_elem _ _ _ Hok Hx).
Qed.

(** ** The generated file *)

Section file.
Variable ms : list (string * json).
Hypothesis ms_nonempty : ms ≠ [].
Hypothesis ms_ok : json_ok (JObj ms) = true.

Let text : string := MarshalIndent (JObj ms).

Lemma text_brackets : ∃ y, text = String "{" (y +:+ "}").
Proof.
  unfold text. clear ms_ok. destruct ms as [|m ms']; [done|]. unfold MarshalIndent.
  rewrite marshal_obj. eexists. rewrite <- !string_app_assoc. reflexivity.
Qed.

Lemma text_strip : map stripLineComment (split_byte NL text) = split_byte NL text.
Proof.
  apply (lex_strip_lines text (false, false)).
  rewrite <- (string_app_nil_r text). by apply (lex_marshal (JObj ms)).
Qed.

Lemma TrimSpace_text : TrimSpace text = text.
Proof. destruct text_brackets as [y ->]. by apply (TrimSpace_framed (String "{" y) "}"). Qed.

(** The four lines of the header. *)
Lemma split_header :
  ∃ l1 l2 l3, Forall (λ l, stripLineComment l = EmptyString) [l1; l2; l3] ∧
    split_byte NL (file_header +:+ text) = l1 :: l2 :: l3 :: EmptyString :: split_byte NL text.
Proof.
  unfold file_header. eexists _, _, _. split; cycle 1.
  - rewrite !string_app_assoc. change (String NL ?x +:+ ?y) with (String NL (x +:+ y)).
    rewrite split_byte_app by (vm_compute; repeat split; discriminate).
    rewrite !string_app_assoc. change (String NL ?x +:+ ?y) with (String NL (x +:+ y)).
    rewrite split_byte_app by (vm_compute; repeat split; discriminate).
    rewrite !string_app_assoc. change (String NL ?x +:+ ?y) with (String NL (x +:+ y)).
    rewrite split_byte_app by (vm_compute; repeat split; discriminate). reflexivity.
  - repeat constructor.
Qed.

Lemma stripJSONC_file :
  stripJSONC (file_header +:+ text) =
  String NL (String NL (String NL (String NL text))).
Proof.
  unfold stripJSONC. rewrite fold_lines.
  destruct split_header as (l1 & l2 & l3 & Hl & ->). cbn [map].
  apply Forall_cons in Hl as [-> Hl]. apply Forall_cons in Hl as [-> Hl].
  apply Forall_cons in Hl as [-> _]. rewrite text_strip. cbn [lines_text foldr].
  change (stripLineComment EmptyString) with EmptyString.
  change (foldr _ _ (split_byte NL text)) with (lines_text (split_byte NL text)).
  rewrite lines_text_split. destruct text_brackets as [y ->].
  change (trim_right_byte NL
    (String NL (String NL (String NL (String NL (String "{" ((y +:+ "}") +:+ String NL EmptyString)))))) =
    String NL (String NL (String NL (String NL (String "{" (y +:+ "}")))))).
  rewrite string_app_assoc.
  exact (trim_right_byte_end NL (String NL (String NL (String NL (String NL (String "{" y)))))
    "}" (String NL EmptyString) ltac:(done) eq_refl).
Qed.

(** What is left of a generated file is its document. *)
Lemma posted_content_file : posted_content (file_header +:+ text) = text.
Proof.
  unfold posted_content.
  assert (TrimSpace (file_header +:+ text) = file_header +:+ text) as ->.
  { destruct text_brackets as [y ->].
    change (String "{" (y +:+ "}")) with (String "{" y +:+ "}").
    rewrite <- string_app_assoc. by apply TrimSpace_framed. }
  assert (Contains (file_header +:+ text) "//" = true) as -> by done.
  rewrite stripJSONC_file, !TrimSpace_NL, TrimSpace_text.
  by destruct text_brackets as [y ->].
Qed.
End file.

(** *** The document *)

Lemma entry_json_ok e : json_ok (entry_json e) = true ∧ height (entry_json e) = 2%nat.
Proof.
  unfold entry_json, limit_json. cbn [json_ok forallb snd height]. unfold JInt. cbn [json_ok].
  by rewrite !number_ok_Itoa.
Qed.

Lemma entries_json_ok entries :
  json_ok (entries_json entries) = true ∧ (height (entries_json entries) ≤ 3)%nat.
Proof.
  unfold entries_json. generalize (sort_strings (elements (dom entries))) as names.
  intros names. cbn [json_ok height].
  set (ms := omap _ names).
  assert (∀ m, m ∈ ms → ∃ e, m.2 = entry_json e) as Hms.
  { intros m (name & _ & Hm)%list_elem_of_omap. destruct (entries !! name) as [e|]; [|done].
    simpl in Hm. injection Hm as <-. by exists e. }
  clearbody ms. induction ms as [|m ms IH]; [simpl; lia|].
  destruct IH as [IHok IHh]; [intros m' Hm'; apply Hms; by right|].
  destruct (Hms m (list_elem_of_here _ _)) as [e He].
  cbn [forallb max_list_with]. rewrite He. destruct (entry_json_ok e) as [-> ->].
  split; [done|]. simpl in IHh |- *. lia.
Qed.

Lemma opencode_json_decodable baseURL entries : decodable (opencode_json baseURL entries) = true.
Proof.
  destruct (entries_json_ok entries) as [Hok Hh]. unfold decodable, opencode_json.
  cbn [json_ok forallb snd height max_list_with]. rewrite Hok.
  rewrite bool_decide_true; [done|]. unfold max_depth. lia.
Qed.

(** [C31] The generated file survives being posted: stripping its comments gives
    back exactly the document below them, whatever the model names, limits and
    base URL are (slashes inside strings are no comments); the document parses
    to the configuration; and a POST of the file is accepted and answered with
    the current file. *)
Theorem opencode_file_roundtrip g d r g' d' r' :
  let file := resp_Body (handleOpenCodeConfig g d r) in
  let doc := opencode_json (resolveBaseURL g r (query_base_url r)) (buildModelEntries g d) in
  posted_content file = MarshalIndent doc ∧
  parse (posted_content file) = Some (clean doc) ∧
  handlePostOpenCodeConfig g' d' r' (BodyOf file) = handleOpenCodeConfig g' d' r'.
Proof.
  intros file doc.
  assert (posted_content file = MarshalIndent doc) as Hc.
  { pose proof (opencode_json_decodable (resolveBaseURL g r (query_base_url r))
      (buildModelEntries g d)) as [Hok _]%andb_true_iff. by apply posted_content_file. }
  assert (parse (posted_content file) = Some (clean doc)) as Hp.
  { rewrite Hc. apply parse_marshal_end, opencode_json_decodable. }
  split_and!; [done|done|]. unfold handlePostOpenCodeConfig, decodes_to_map. by rewrite Hp.
Qed.

(** A model whose name looks like a comment. *)
Example awkward_name :
  let e := mkEntry "// gpt" (mkLimit 1 2 3) in
  let t := file_header +:+ MarshalIndent (opencode_json "http://h/v1" {["// gpt" := e]}) in
  decodes_to_map (posted_content t) = true.
Proof. vm_compute. reflexivity. Qed.
