(* ===== verification/Exporter.v ===== *)
(** * The metrics exporter (src/server/metrics_exporter.go)

    The text the server gives to Prometheus, and what a reader of the exposition
    format finds in it. *)
From Stdlib Require Import ZArith Lia Ascii.
From stdpp Require Import base tactics option list numbers strings gmap sorting pretty.
From S2P Require Import Prelude GoStrings GoText GoFloat GoNum Config Interfaces Backend Discovery Metrics.

Open Scope Z_scope.

(** ** Definitions *)

Definition nl : string := String NL EmptyString.

(** [writeMetric]: what it appends to the builder. *)
Definition writeMetric (name mtype help labelStr value : string) : string :=
  "# HELP " +:+ name +:+ " " +:+ help +:+ nl +:+ "# TYPE " +:+ name +:+ " " +:+ mtype +:+ nl
  +:+ name +:+ "{" +:+ labelStr +:+ "}" +:+ " " +:+ value +:+ nl.

(** The nine metrics of one backend. *)
Definition server_metrics (serverURL : string) (sm : ServerMetrics) : string :=
  writeMetric "vllm_requests_running" "gauge" "Number of requests currently running on backend"
    serverURL (Itoa (RequestsRunning sm)) +:+
  writeMetric "vllm_requests_waiting" "gauge" "Number of requests waiting in queue"
    serverURL (Itoa (RequestsWaiting sm)) +:+
  writeMetric "vllm_kv_cache_usage_perc" "gauge" "KV-cache usage percentage"
    serverURL (Sprintf_1f (KVCacheUsagePerc sm)) +:+
  writeMetric "vllm_prompt_tokens_total" "counter" "Total prompt tokens processed"
    serverURL (Itoa (PromptTokensTotal sm)) +:+
  writeMetric "vllm_generation_tokens_total" "counter" "Total generation tokens produced"
    serverURL (Itoa (GenTokensTotal sm)) +:+
  writeMetric "vllm_prefill_throughput" "gauge" "Prefill throughput in tokens per second"
    serverURL (Sprintf_1f (PrefillThroughput sm)) +:+
  writeMetric "vllm_decode_throughput" "gauge" "Decode throughput in tokens per second"
    serverURL (Sprintf_1f (DecodeThroughput sm)) +:+
  writeMetric "vllm_avg_prefill_time_ms" "gauge" "Average prefill time per request"
    serverURL (Sprintf_1f (AvgPrefillTimeMS sm)) +:+
  writeMetric "vllm_avg_decode_time_ms" "gauge" "Average decode time per token"
    serverURL (Sprintf_1f (AvgDecodeTimeMS sm)).

(** [status="success"] and [status="error"]. *)
Definition status_label (v : string) : string :=
  "status=" +:+ String (ascii_of_nat 34) (v +:+ String (ascii_of_nat 34) EmptyString).

(** [exportMetrics]: the map comes in any order, and is sorted. *)
Definition exportMetrics `{!MapRange} (allMetrics : gmap string ServerMetrics) (p : Pool)
    (bridgeSuccess bridgeError : Z) : string :=
  let serverURLs := sort_strings (range_keys (dom allMetrics)) in
  let buf := foldl (λ buf serverURL,
    match allMetrics !! serverURL with
    | None => buf
    | Some sm => buf +:+ server_metrics serverURL sm
    end) EmptyString serverURLs in
  let buf := buf +:+ writeMetric "llm_bridge_requests_total" "counter"
    "Total proxy requests processed by bridge" (status_label "success") (Itoa bridgeSuccess) in
  let buf := buf +:+ writeMetric "llm_bridge_requests_total" "counter"
    "Total proxy requests processed by bridge" (status_label "error") (Itoa bridgeError) in
  foldl (λ buf serverURL,
    buf +:+ writeMetric "llm_bridge_inflight_requests" "gauge"
      "Current number of in-flight proxy requests" serverURL (Itoa (Inflight p serverURL)))
    buf serverURLs.

(** ** The lines of the text *)

Definition lines (text : string) : list string := split_byte NL text.

(** A sample line of the exposition format: it is not a comment. *)
Definition sample_line (name labelStr value : string) : string :=
  name +:+ "{" +:+ labelStr +:+ "}" +:+ " " +:+ value.

Definition metric_lines (name mtype help labelStr value : string) : list string :=
  ["# HELP " +:+ name +:+ " " +:+ help; "# TYPE " +:+ name +:+ " " +:+ mtype;
   sample_line name labelStr value].

Lemma writeMetric_lines name mtype help labelStr value rest :
  Forall (no_byte NL) [name; mtype; help; labelStr; value] →
  lines (writeMetric name mtype help labelStr value +:+ rest) =
    metric_lines name mtype help labelStr value ++ lines rest.
Proof.
  rewrite !Forall_cons. intros (Hn & Ht & Hh & Hl & Hv & _).
  assert (Forall (no_byte NL) (metric_lines name mtype help labelStr value)) as Hall.
  { unfold metric_lines, sample_line. rewrite !Forall_cons, !no_byte_app. by repeat split. }
  unfold metric_lines in *. rewrite !Forall_cons in Hall. destruct Hall as (H1 & H2 & H3 & _).
  assert (writeMetric name mtype help labelStr value +:+ rest =
    ("# HELP " +:+ name +:+ " " +:+ help) +:+ String NL (("# TYPE " +:+ name +:+ " " +:+ mtype)
      +:+ String NL (sample_line name labelStr value +:+ String NL rest))) as ->.
  { unfold writeMetric, sample_line, nl. rewrite !string_app_assoc. done. }
  unfold lines. by rewrite !split_byte_app.
Qed.

(** ** The text as a list of blocks *)

Record block : Type := mkBlock {
  b_name : string;
  b_type : string;
  b_help : string;
  b_label : string;
  b_value : string
}.

Definition write_block (b : block) : string :=
  writeMetric (b_name b) (b_type b) (b_help b) (b_label b) (b_value b).

Definition block_lines (b : block) : list string :=
  metric_lines (b_name b) (b_type b) (b_help b) (b_label b) (b_value b).

Definition write_all (bs : list block) : string :=
  foldr (λ b s, write_block b +:+ s) EmptyString bs.

Definition server_blocks (u : string) (sm : ServerMetrics) : list block :=
  [mkBlock "vllm_requests_running" "gauge" "Number of requests currently running on backend"
     u (Itoa (RequestsRunning sm));
   mkBlock "vllm_requests_waiting" "gauge" "Number of requests waiting in queue"
     u (Itoa (RequestsWaiting sm));
   mkBlock "vllm_kv_cache_usage_perc" "gauge" "KV-cache usage percentage"
     u (Sprintf_1f (KVCacheUsagePerc sm));
   mkBlock "vllm_prompt_tokens_total" "counter" "Total prompt tokens processed"
     u (Itoa (PromptTokensTotal sm));
   mkBlock "vllm_generation_tokens_total" "counter" "Total generation tokens produced"
     u (Itoa (GenTokensTotal sm));
   mkBlock "vllm_prefill_throughput" "gauge" "Prefill throughput in tokens per second"
     u (Sprintf_1f (PrefillThroughput sm));
   mkBlock "vllm_decode_throughput" "gauge" "Decode throughput in tokens per second"
     u (Sprintf_1f (DecodeThroughput sm));
   mkBlock "vllm_avg_prefill_time_ms" "gauge" "Average prefill time per request"
     u (Sprintf_1f (AvgPrefillTimeMS sm));
   mkBlock "vllm_avg_decode_time_ms" "gauge" "Average decode time per token"
     u (Sprintf_1f (AvgDecodeTimeMS sm))].

Definition requests_block (status : string) (n : Z) : block :=
  mkBlock "llm_bridge_requests_total" "counter" "Total proxy requests processed by bridge"
    (status_label status) (Itoa n).

Definition inflight_block (p : Pool) (u : string) : block :=
  mkBlock "llm_bridge_inflight_requests" "gauge" "Current number of in-flight proxy requests"
    u (Itoa (Inflight p u)).

Section blocks.
Context `{!MapRange, !MapRangeLaw}.

(** The text as blocks. *)
Definition export_blocks (allMetrics : gmap string ServerMetrics) (p : Pool) (ok err : Z)
    : list block :=
  let us := sort_strings (range_keys (dom allMetrics)) in
  (us ≫= λ u, match allMetrics !! u with Some sm => server_blocks u sm | None => [] end) ++
  [requests_block "success" ok; requests_block "error" err] ++
  map (inflight_block p) us.

Lemma write_all_app l k : write_all (l ++ k) = write_all l +:+ write_all k.
Proof. induction l as [|b l IH]; simpl; [done|]. by rewrite IH, string_app_assoc. Qed.

Lemma foldl_write {A} (f : A → list block) (g : string → A → string) buf xs :
  (∀ buf x, g buf x = buf +:+ write_all (f x)) →
  foldl g buf xs = buf +:+ write_all (xs ≫= f).
Proof.
  intros Hg. revert buf. induction xs as [|x xs IH]; intros buf; simpl.
  { by rewrite string_app_nil_r. }
  by rewrite IH, Hg, write_all_app, string_app_assoc.
Qed.

Lemma server_metrics_blocks u sm : server_metrics u sm = write_all (server_blocks u sm).
Proof. unfold server_metrics, server_blocks, write_all, write_block. simpl. by rewrite string_app_nil_r. Qed.

Lemma exportMetrics_blocks m p ok err :
  exportMetrics m p ok err = write_all (export_blocks m p ok err).
Proof.
  unfold exportMetrics, export_blocks.
  rewrite (foldl_write (λ u, [inflight_block p u])) by
    (intros; unfold write_all, write_block; simpl; by rewrite string_app_nil_r).
  rewrite (foldl_write (λ u, match m !! u with Some sm => server_blocks u sm | None => [] end)).
  - rewrite !write_all_app. change (EmptyString +:+ ?s) with s.
    rewrite !string_app_assoc. f_equal. unfold write_all at 2. simpl. unfold write_block. simpl.
    rewrite string_app_nil_r, string_app_assoc. do 2 f_equal.
  - intros buf u. destruct (m !! u); [by rewrite server_metrics_blocks|].
    by rewrite string_app_nil_r.
Qed.

(** ** Values without line breaks *)

Lemma Itoa_no_byte z : no_byte NL (Itoa z).
Proof.
  destruct (decide (0 <= z)) as [Hz|Hz].
  - apply plain_no_byte; [apply Itoa_plain; lia|done].
  - destruct z as [|q|q]; [lia|lia|]. unfold Itoa.
    change (pretty (Z.neg q)) with (String "-" (Itoa (Z.pos q))). split; [done|].
    apply plain_no_byte; [apply Itoa_plain; lia|done].
Qed.

Lemma Sprintf_1f_no_byte x : no_byte NL (Sprintf_1f x).
Proof.
  destruct x as [s|s| |s m e]; simpl; [by destruct s; repeat split..| |].
  - by repeat split.
  - rewrite !no_byte_app. split_and!; [by destruct s|apply Itoa_no_byte|by repeat split|apply Itoa_no_byte].
Qed.

Lemma lines_write_all bs :
  Forall (λ b, Forall (no_byte NL) [b_name b; b_type b; b_help b; b_label b; b_value b]) bs →
  lines (write_all bs) = (bs ≫= block_lines) ++ [EmptyString].
Proof.
  induction bs as [|b bs IH]; intros Hb; [done|]. apply Forall_cons in Hb as [Hb Hbs].
  cbn [write_all foldr]. fold (write_all bs). unfold write_block.
  rewrite writeMetric_lines, IH by done. done.
Qed.

Lemma status_label_no_byte v : no_byte NL v → no_byte NL (status_label v).
Proof.
  intros Hv. unfold status_label.
  change (String (ascii_of_nat 34) (v +:+ String (ascii_of_nat 34) EmptyString))
    with (String (ascii_of_nat 34) EmptyString +:+ v +:+ String (ascii_of_nat 34) EmptyString).
  rewrite !no_byte_app. by repeat split.
Qed.

Lemma gauge_no_byte name mtype help u v :
  no_byte NL name → no_byte NL mtype → no_byte NL help → no_byte NL u → no_byte NL v →
  Forall (no_byte NL) [b_name (mkBlock name mtype help u v); b_type (mkBlock name mtype help u v);
    b_help (mkBlock name mtype help u v); b_label (mkBlock name mtype help u v);
    b_value (mkBlock name mtype help u v)].
Proof. by repeat constructor. Qed.

Lemma export_blocks_no_byte m p ok err :
  (∀ u, u ∈ dom m → no_byte NL u) →
  Forall (λ b, Forall (no_byte NL) [b_name b; b_type b; b_help b; b_label b; b_value b])
    (export_blocks m p ok err).
Proof.
  intros Hu. assert (∀ u, u ∈ sort_strings (range_keys (dom m)) → no_byte NL u) as Hs
    by (intros u; rewrite sort_strings_perm, range_keys_perm, elem_of_elements; apply Hu).
  assert (∀ v n, no_byte NL v → Forall (no_byte NL) [b_name (requests_block v n);
    b_type (requests_block v n); b_help (requests_block v n); b_label (requests_block v n);
    b_value (requests_block v n)]) as Hreq.
  { intros v n Hv. rewrite !Forall_cons. split_and!; try by repeat split.
    - by apply status_label_no_byte.
    - apply Itoa_no_byte. }
  unfold export_blocks. rewrite !Forall_app. split_and!.
  - apply Forall_forall. intros b (u & Hb & Hin)%list_elem_of_bind.
    destruct (m !! u) as [sm|]; [|by apply elem_of_nil in Hb]. apply Hs in Hin.
    assert (Forall (λ b, Forall (no_byte NL) [b_name b; b_type b; b_help b; b_label b; b_value b])
      (server_blocks u sm)) as Hall; [|by rewrite Forall_forall in Hall; apply Hall].
    unfold server_blocks. do 9 (apply Forall_cons_2;
      [apply gauge_no_byte; [by repeat split|by repeat split|by repeat split|done|
        apply Itoa_no_byte || apply Sprintf_1f_no_byte]|]). constructor.
  - apply Forall_cons; split; [apply Hreq; by repeat split|].
    apply Forall_cons; split; [apply Hreq; by repeat split|constructor].
  - apply Forall_forall. intros b Hb. apply (list_elem_of_fmap_1 (inflight_block p)) in Hb as (u & -> & Hin).
    apply Hs in Hin. unfold inflight_block. rewrite !Forall_cons. simpl.
    split_and!; try done; try (by repeat split). apply Itoa_no_byte.
Qed.

(** ** Reading the text *)

(** What is before and behind the first [c]. *)
Fixpoint cut (c : ascii) (s : string) : option (string * string) :=
  match s with
  | EmptyString => None
  | String b s' =>
      if decide (b = c) then Some (EmptyString, s')
      else '(l, r) ← cut c s'; Some (String b l, r)
  end.

(** A line as a sample: name, labels and value. *)
Definition read_sample (line : string) : option (string * string * string) :=
  '(name, rest) ← cut "{" line;
  '(label, v) ← cut "}" rest;
  match v with String " " value => Some (name, label, value) | _ => None end.

Definition pick (name : string) (line : string) : option (string * string) :=
  '(n, label, value) ← read_sample line;
  if decide (n = name) then Some (label, value) else None.

(** The samples of one metric in a text, each with its labels. *)
Definition samples (name text : string) : list (string * string) := omap (pick name) (lines text).

Lemma cut_app c s t : no_byte c s → cut c (s +:+ String c t) = Some (s, t).
Proof.
  induction s as [|b s IH].
  - intros _. change (EmptyString +:+ String c t) with (String c t). cbn [cut]. by rewrite decide_True.
  - intros [Hb Hs]. change (String b s +:+ String c t) with (String b (s +:+ String c t)).
    cbn [cut]. by rewrite decide_False, IH.
Qed.

Lemma cut_None c s : no_byte c s → cut c s = None.
Proof. induction s as [|b s IH]; [done|]. intros [Hb Hs]. cbn [cut]. by rewrite decide_False, IH. Qed.

(** What a block may hold for the reader. *)
Definition block_plain (b : block) : Prop :=
  Forall (no_byte "{") [b_name b; b_type b; b_help b] ∧ no_byte "}" (b_label b).

Definition block_sample (name : string) (b : block) : list (string * string) :=
  if decide (b_name b = name) then [(b_label b, b_value b)] else [].

Lemma pick_block name b : block_plain b → omap (pick name) (block_lines b) = block_sample name b.
Proof.
  destruct b as [n ty h l v]. intros [Hn Hl]. cbn in Hn, Hl.
  apply Forall_cons in Hn as [Hn Ht]. apply Forall_cons in Ht as [Ht Hh].
  apply Forall_cons in Hh as [Hh _].
  unfold block_lines, metric_lines, block_sample. cbn [b_name b_type b_help b_label b_value omap list_omap].
  assert (∀ s, no_byte "{" s → pick name s = None) as Hnone
    by (intros s Hs; unfold pick, read_sample; by rewrite cut_None).
  rewrite !Hnone by (rewrite !no_byte_app; by repeat split).
  unfold pick, read_sample, sample_line.
  change (n +:+ "{" +:+ ?x) with (n +:+ String "{" x). rewrite cut_app by done. cbn [mbind option_bind].
  change (l +:+ "}" +:+ ?x) with (l +:+ String "}" x). rewrite cut_app by done.
  change (" " +:+ v) with (String " " v). cbn [mbind option_bind]. by destruct (decide (n = name)).
Qed.

Lemma samples_write_all name bs :
  Forall (λ b, Forall (no_byte NL) [b_name b; b_type b; b_help b; b_label b; b_value b]) bs →
  Forall block_plain bs → samples name (write_all bs) = bs ≫= block_sample name.
Proof.
  intros Hnl Hp. unfold samples. rewrite lines_write_all by done. rewrite omap_app.
  change (omap (pick name) [EmptyString]) with ([] : list (string * string)). rewrite app_nil_r.
  clear Hnl. induction Hp as [|b bs Hb _ IH]; [done|]. cbn [mbind list_bind].
  by rewrite omap_app, pick_block, IH.
Qed.

(** The metrics of a backend, and the field each shows. *)
Definition server_fields : list (string * (ServerMetrics → string)) :=
  [("vllm_requests_running", λ sm, Itoa (RequestsRunning sm));
   ("vllm_requests_waiting", λ sm, Itoa (RequestsWaiting sm));
   ("vllm_kv_cache_usage_perc", λ sm, Sprintf_1f (KVCacheUsagePerc sm));
   ("vllm_prompt_tokens_total", λ sm, Itoa (PromptTokensTotal sm));
   ("vllm_generation_tokens_total", λ sm, Itoa (GenTokensTotal sm));
   ("vllm_prefill_throughput", λ sm, Sprintf_1f (PrefillThroughput sm));
   ("vllm_decode_throughput", λ sm, Sprintf_1f (DecodeThroughput sm));
   ("vllm_avg_prefill_time_ms", λ sm, Sprintf_1f (AvgPrefillTimeMS sm));
   ("vllm_avg_decode_time_ms", λ sm, Sprintf_1f (AvgDecodeTimeMS sm))].

Definition bridge_names : list string := ["llm_bridge_requests_total"; "llm_bridge_inflight_requests"].

Lemma bind_map {A B} (f : A → list B) (g : A → B) l :
  (∀ x, x ∈ l → f x = [g x]) → l ≫= f = map g l.
Proof.
  induction l as [|x l IH]; intros Hf; [done|]. cbn [mbind list_bind map].
  rewrite Hf by left. cbn. f_equal. apply IH. intros y Hy. apply Hf. by right.
Qed.

Lemma bind_nil {A B} (f : A → list B) l : (∀ x, x ∈ l → f x = []) → l ≫= f = [].
Proof.
  induction l as [|x l IH]; intros Hf; [done|]. cbn [mbind list_bind].
  rewrite Hf by left. apply IH. intros y Hy. apply Hf. by right.
Qed.

Lemma export_blocks_plain m p ok err :
  (∀ u, u ∈ dom m → no_byte "}" u) → Forall block_plain (export_blocks m p ok err).
Proof.
  intros Hu. assert (∀ u, u ∈ sort_strings (range_keys (dom m)) → no_byte "}" u) as Hs
    by (intros u; rewrite sort_strings_perm, range_keys_perm, elem_of_elements; apply Hu).
  unfold export_blocks. rewrite !Forall_app. split_and!.
  - apply Forall_forall. intros b (u & Hb & Hin)%list_elem_of_bind. apply Hs in Hin.
    destruct (m !! u) as [sm|]; [|by apply elem_of_nil in Hb].
    assert (Forall block_plain (server_blocks u sm)) as Hall; [|by rewrite Forall_forall in Hall; apply Hall].
    unfold server_blocks. repeat (apply Forall_cons_2; [split; [by repeat constructor|done]|]). constructor.
  - do 2 (apply Forall_cons_2; [split; [by repeat constructor|by repeat split]|]). constructor.
  - apply Forall_forall. intros b Hb. apply (list_elem_of_fmap_1 (inflight_block p)) in Hb as (u & -> & Hin).
    apply Hs in Hin. split; [by repeat constructor|done].
Qed.

Lemma block_sample_other name bs : name ∉ map b_name bs → bs ≫= block_sample name = [].
Proof.
  intros Hn. apply bind_nil. intros b Hb. unfold block_sample. rewrite decide_False; [done|].
  intros <-. apply Hn. by apply list_elem_of_fmap_2.
Qed.

Lemma server_sample name f u sm :
  (name, f) ∈ server_fields →
  server_blocks u sm ≫= block_sample name = [(u, f sm)] ∧ name ∉ bridge_names.
Proof.
  intros Hin. unfold server_fields in Hin.
  repeat (apply elem_of_cons in Hin as [[= -> ->]|Hin];
    [split; [reflexivity|by apply (bool_decide_eq_true_1 _)]|]).
  by apply elem_of_nil in Hin.
Qed.

(** The samples of the blocks. *)
Lemma export_samples name m p ok err :
  export_blocks m p ok err ≫= block_sample name =
    (sort_strings (range_keys (dom m)) ≫= λ u,
       match m !! u with Some sm => server_blocks u sm ≫= block_sample name | None => [] end) ++
    ([requests_block "success" ok; requests_block "error" err] ≫= block_sample name) ++
    (sort_strings (range_keys (dom m)) ≫= λ u, block_sample name (inflight_block p u)).
Proof.
  unfold export_blocks. rewrite !bind_app. f_equal; [|f_equal].
  - induction (sort_strings _) as [|u us IH]; [done|]. cbn [mbind list_bind]. rewrite bind_app, IH.
    by destruct (m !! u).
  - induction (sort_strings _) as [|u us IH]; [done|]. cbn [map mbind list_bind]. by rewrite IH.
Qed.
End blocks.

(** A label list in the exposition format: [name="value"]. *)
Definition label_ok (l : string) : Prop :=
  ∃ name v, l = name +:+ "=" +:+ String (ascii_of_nat 34) (v +:+ String (ascii_of_nat 34) EmptyString).

(** ** Theorems *)

Section theorems.
Context `{!MapRange, !MapRangeLaw}.

(** [C40] What a reader finds in the exported text.  For each of the nine metrics of a
    backend: one sample for every server the collector knows, with the value of its
    field, in the order of the URLs; two counters of the bridge; the connections in
    flight for every such server; and no other metric.  The order in which Go ranges
    over the map makes no difference.  (The URLs may hold no line break and no closing
    brace.) *)
Theorem exportMetrics_reads_back m p ok err :
  (∀ u, u ∈ dom m → no_byte NL u ∧ no_byte "}" u) →
  let text := exportMetrics m p ok err in
  let us := sort_strings (elements (dom m)) in
  (∀ name f, (name, f) ∈ server_fields →
     samples name text = map (λ u, (u, f (default zero_metrics (m !! u)))) us) ∧
  samples "llm_bridge_requests_total" text =
    [(status_label "success", Itoa ok); (status_label "error", Itoa err)] ∧
  samples "llm_bridge_inflight_requests" text = map (λ u, (u, Itoa (Inflight p u))) us ∧
  (∀ name, name ∉ map fst server_fields ++ bridge_names → samples name text = []) ∧
  ∀ other : MapRange, @MapRangeLaw other → @exportMetrics other m p ok err = text.
Proof.
  intros Hu text us.
  assert (sort_strings (range_keys (dom m)) = us) as Hus by apply sort_strings_unique, range_keys_perm.
  assert (∀ u, u ∈ us → ∃ sm, m !! u = Some sm) as Hdom
    by (intros u; unfold us; rewrite sort_strings_perm, elem_of_elements; apply elem_of_dom).
  assert (∀ name, samples name text = export_blocks m p ok err ≫= block_sample name) as Hs.
  { intros name. unfold text. rewrite exportMetrics_blocks. apply samples_write_all.
    - apply export_blocks_no_byte. intros u Hin. by destruct (Hu u Hin).
    - apply export_blocks_plain. intros u Hin. by destruct (Hu u Hin). }
  split_and!.
  - intros name f Hin. rewrite Hs, export_samples, Hus.
    assert (name ∉ bridge_names) as Hb by by apply (server_sample name f EmptyString zero_metrics).
    apply not_elem_of_cons in Hb as [Hb1 Hb2].
    rewrite (block_sample_other name [_; _]), (bind_nil (λ u, block_sample name (inflight_block p u)));
      [rewrite !app_nil_r| |].
    + apply bind_map. intros u Hin'. destruct (Hdom u Hin') as [sm ->]. by apply server_sample.
    + intros u _. unfold block_sample. rewrite decide_False; [done|]. intros <-. apply Hb2. left.
    + intros Hc. repeat (apply elem_of_cons in Hc as [->|Hc]; [done|]). by apply elem_of_nil in Hc.
  - rewrite Hs, export_samples, (bind_nil _ _), (bind_nil (λ u, block_sample _ (inflight_block p u)));
      [done|done|]. intros u _. by destruct (m !! u).
  - rewrite Hs, export_samples, Hus, (bind_nil _ _); [|intros u _; by destruct (m !! u)].
    by apply bind_map.
  - intros name [Hf Hb]%not_elem_of_app. apply not_elem_of_cons in Hb as [Hb1 Hb2].
    rewrite Hs, export_samples, (bind_nil _ _), block_sample_other, (bind_nil _ _); [done|..].
    + intros u _. unfold block_sample. rewrite decide_False; [done|]. intros <-. apply Hb2. left.
    + intros Hc. repeat (apply elem_of_cons in Hc as [->|Hc]; [done|]). by apply elem_of_nil in Hc.
    + intros u _. destruct (m !! u); [|done]. by apply block_sample_other.
  - intros other Hother. unfold text, exportMetrics.
    assert (sort_strings (@range_keys other (dom m)) = us) as ->
      by (apply sort_strings_unique, (@range_keys_perm other Hother)). by rewrite Hus.
Qed.

(** The lines of a server carry its bare URL where the format wants
    [name="value"]: for a URL without a double quote they are not well formed,
    so Prometheus cannot read the text as soon as a server is configured. *)
Theorem exportMetrics_bad_label m p ok err u :
  (∀ u, u ∈ dom m → no_byte NL u) → u ∈ dom m → no_byte (ascii_of_nat 34) u →
  sample_line "llm_bridge_inflight_requests" u (Itoa (Inflight p u)) ∈
    lines (exportMetrics m p ok err) ∧ ¬ label_ok u.
Proof.
  intros Hnl Hu Hq. split.
  - rewrite exportMetrics_blocks, lines_write_all by by apply export_blocks_no_byte.
    apply elem_of_app. left. apply list_elem_of_bind. exists (inflight_block p u). split.
    + unfold block_lines, metric_lines, inflight_block. simpl. set_solver.
    + unfold export_blocks. rewrite !elem_of_app. do 2 right.
      apply (list_elem_of_fmap_2 (inflight_block p)). by rewrite sort_strings_perm, range_keys_perm, elem_of_elements.
  - intros (name & v & ->). rewrite !no_byte_app in Hq. by destruct Hq as (_ & _ & [Hq _]).
Qed.
End theorems.

(** ** Witnesses *)

Section witnesses.
#[local] Instance in_order : MapRange := elements.
#[local] Instance in_order_ok : MapRangeLaw.
Proof. by intros X. Qed.

Lemma exportMetrics_reads_back_witness :
  let text := exportMetrics {["http://a:1" := zero_metrics]} sample_pool 3 1 in
  samples "vllm_requests_running" text = [("http://a:1", "0")] ∧
  samples "llm_bridge_requests_total" text = [(status_label "success", "3"); (status_label "error", "1")] ∧
  samples "bridge_server_inflight" text = [].
Proof.
  destruct (exportMetrics_reads_back {["http://a:1" := zero_metrics]} sample_pool 3 1)
    as (Hf & Hr & _ & Hn & _).
  - intros u Hu. rewrite dom_singleton_L, elem_of_singleton in Hu. subst u. by repeat split.
  - split_and!; [|exact Hr|].
    + rewrite (Hf "vllm_requests_running" (λ sm, Itoa (RequestsRunning sm))) by by left.
      vm_compute. reflexivity.
    + apply Hn. apply (bool_decide_eq_true_1 _). vm_compute. reflexivity.
Defined.

(** The names that [docs/api.md] gives are not among them. *)
Example documented_names :
  map (λ name, samples name (exportMetrics {["http://a:1" := zero_metrics]} sample_pool 3 1))
    ["bridge_requests_total_success"; "bridge_requests_total_error"; "bridge_server_inflight"] = [[]; []; []].
Proof. vm_compute. reflexivity. Qed.

Lemma exportMetrics_bad_label_witness :
  sample_line "llm_bridge_inflight_requests" "http://a:1" "0" ∈
    lines (exportMetrics {["http://a:1" := zero_metrics]} sample_pool 3 1) ∧
  ¬ label_ok "http://a:1".
Proof.
  apply (exportMetrics_bad_label {["http://a:1" := zero_metrics]} sample_pool 3 1 "http://a:1").
  - intros u Hu. rewrite dom_singleton_L, elem_of_singleton in Hu. subst u. by repeat split.
  - by rewrite dom_singleton_L, elem_of_singleton.
  - by repeat split.
Defined.

(** The header lines of the request counters are written twice. *)
Example type_line_repeated :
  length (filter (λ l, l = "# TYPE llm_bridge_requests_total counter")
    (lines (exportMetrics ∅ sample_pool 3 1))) = 2%nat.
Proof. vm_compute. reflexivity. Qed.
End witnesses.
