(* ===== verification/Server.v ===== *)
(** * The HTTP server: state and read-only endpoints (src/server/server.go)

    The state of a [Server] and of everything it points to, [syncServers], and
    the endpoints that only read: models, servers, status, metrics. *)
From Stdlib Require Import ZArith Lia Ascii SpecFloat.
From stdpp Require Import base tactics option list numbers strings gmap.
From S2P Require Import Prelude GoSlice GoStrings GoText GoFloat GoNum GoShortest GoJson GoUrl.
From S2P Require Import Config Interfaces Backend Discovery Metrics Router Http DiscoveryWire Exporter.

Open Scope Z_scope.

(** ** State *)

(** A [Server] with what its pointers lead to.  The router state contains the
    pool; the collector may be nil. *)
Record Server : Type := mkServer {
  cfg : Store;
  disc : Discovery;
  rtr : RouterState Pool;
  mc : option Collector;
  bridgeReqsSuccess : Z;
  bridgeReqsError : Z
}.

Definition set_cfg c s := mkServer c (disc s) (rtr s) (mc s) (bridgeReqsSuccess s) (bridgeReqsError s).
Definition set_rtr r s := mkServer (cfg s) (disc s) r (mc s) (bridgeReqsSuccess s) (bridgeReqsError s).
Definition set_disc d s := mkServer (cfg s) d (rtr s) (mc s) (bridgeReqsSuccess s) (bridgeReqsError s).
Definition set_mc m s := mkServer (cfg s) (disc s) (rtr s) m (bridgeReqsSuccess s) (bridgeReqsError s).
Definition set_pool p s := set_rtr (mkRouter (rrIndex (rtr s)) p) s.

Definition server_pool (s : Server) : Pool := pool (rtr s).

(** The servers of the current configuration. *)
Definition configured (s : Server) : list ServerConfig := servers_of (cfg s) (Config.Get (cfg s)).

(** ** Synchronisation *)

Definition sync_pool (svs : list ServerConfig) (p : Pool) : Pool :=
  foldl (λ p sc, AddServer sc p) p svs.

Definition syncServers (s : Server) : Server :=
  let svs := configured s in
  let urls := map URL svs in
  mkServer (cfg s) (Discovery.SetServers urls (disc s))
    (mkRouter (rrIndex (rtr s)) (sync_pool svs (server_pool s)))
    (Metrics.SetServers urls <$> mc s) (bridgeReqsSuccess s) (bridgeReqsError s).

(** [New], without the routes. *)
Definition New (c : Store) (d : Discovery) (r : RouterState Pool) (m : option Collector) : Server :=
  syncServers (mkServer c d r m 0 0).

(** ** The routes *)

(** The handlers of the API, as [setupRoutes] installs them. *)
Inductive endpoint : Type :=
  | ChatCompletions | Completions | Embeddings | ListModels
  | ListServers | AddServerE | GetServerE | UpdateServer | DeleteServer
  | GetConfig | PutConfig | Status | OpenCodeGet | MetricsE | OpenCodePost.

Instance endpoint_eq_dec : EqDecision endpoint.
Proof. solve_decision. Defined.

Definition setupRoutes : list (string * string * endpoint) :=
  [("POST", "/v1/chat/completions", ChatCompletions);
   ("POST", "/v1/completions", Completions);
   ("POST", "/v1/embeddings", Embeddings);
   ("GET", "/v1/models", ListModels);
   ("GET", "/admin/servers", ListServers);
   ("POST", "/admin/servers", AddServerE);
   ("GET", "/admin/servers/*", GetServerE);
   ("PUT", "/admin/servers/*", UpdateServer);
   ("DELETE", "/admin/servers/*", DeleteServer);
   ("GET", "/admin/config", GetConfig);
   ("PUT", "/admin/config", PutConfig);
   ("GET", "/admin/status", Status);
   ("GET", "/opencode/config", OpenCodeGet);
   ("GET", "/admin/metrics", MetricsE);
   ("POST", "/opencode/config", OpenCodePost)].

(** ** Models *)

Section models.
Context `{!MapRange}.

(** The entry of one model. *)
Definition model_raw (d : Discovery) (name : string) : string :=
  match ModelDetails d !! name with
  | Some raw => raw
  | None => Marshal (JObj [("id", JStr name); ("object", JStr "model")])
  end.

Definition models_text (entries : list string) : string :=
  quoted "{'data':[" +:+ String.concat "," entries +:+ quoted "],'object':'list'}".

(** The models in the order of the map; one raw entry that is not valid JSON
    leaves the body empty, since the error of [json.Marshal] is dropped. *)
Definition handleModels (s : Server) : Response :=
  let data := map (model_raw (disc s)) (range_keys (dom (Models (disc s)))) in
  respond 200 "application/json"
    (match mapM embed_raw data with
     | Some entries => models_text entries
     | None => EmptyString
     end).
End models.

(** ** Servers *)

(** [serverResponse]. *)
Record serverResponse : Type := mkServerResponse {
  r_server : ServerConfig;
  r_healthy : bool;
  r_inflight : Z
}.

Definition server_members (r : serverResponse) : list (string * json) :=
  [("url", JStr (URL (r_server r))); ("distance", JInt (Distance (r_server r)));
   ("max_concurrent_requests", JInt (MaxConcurrentRequests (r_server r)));
   ("healthy", JBool (r_healthy r)); ("inflight", JInt (r_inflight r))].

Definition serverResponse_json (r : serverResponse) : json := JObj (server_members r).

Definition server_info (s : Server) (sc : ServerConfig) : serverResponse :=
  mkServerResponse sc (default false (Healthy (disc s) !! URL sc))
    (Inflight (server_pool s) (URL sc)).

Definition handleListServers (s : Server) : Response :=
  respondJSON 200 (JArr (map (λ sc, serverResponse_json (server_info s sc)) (configured s))).

(** The id in the path: the part that chi matched with [*], unescaped. *)
Definition server_id (rawID : string) : Response + string :=
  if bool_decide (rawID = EmptyString) then inl (respondError 400 "missing server id") else
  match PathUnescape rawID with
  | None => inl (respondError 400 "invalid server id encoding")
  | Some id => inr id
  end.

(** The first server with the URL [id], with its index. *)
Definition find_server (id : string) (svs : list ServerConfig) : option (nat * ServerConfig) :=
  list_find (λ sc, URL sc = id) svs.

Definition handleGetServer (rawID : string) (s : Server) : Response :=
  match server_id rawID with
  | inl r => r
  | inr id =>
      match find_server id (configured s) with
      | Some (_, sc) =>
          respondJSON 200 (serverResponse_json
            (mkServerResponse sc (IsHealthy (disc s) id) (Inflight (server_pool s) (URL sc))))
      | None => respondError 404 ("server not found: " +:+ id)
      end
  end.

(** ** Status *)

(** [serverInfo] of [handleStatus], and the whole answer. *)
Record statusServer : Type := mkStatusServer {
  st_server : serverResponse;
  st_metrics : option ServerMetrics
}.

Record StatusData : Type := mkStatus {
  st_servers : list statusServer;
  st_models : gmap string (list string);
  st_healthy : gmap string bool
}.

Definition status_metrics (s : Server) (u : string) : option ServerMetrics :=
  match mc s with
  | None => None
  | Some c =>
      match Metrics.Get c u with
      | Some sm => if IsZero sm then None else Some sm
      | None => None
      end
  end.

Definition status_data (s : Server) : StatusData :=
  mkStatus
    (map (λ sc, mkStatusServer (server_info s sc) (status_metrics s (URL sc))) (configured s))
    (Models (disc s)) (Healthy (disc s)).

(** The text of a time, which depends on the time zone of the host. *)
Class TimeText : Type := time_text : Z → string.

Section status.
Context `{!TimeText}.

(** [json.Marshal] refuses a float that is infinite or not a number. *)
Definition float_json (x : float64) : option json := JNum <$> float_text x.

Definition metrics_json (m : ServerMetrics) : option json :=
  kv ← float_json (KVCacheUsagePerc m);
  prefill ← float_json (PrefillThroughput m);
  decode ← float_json (DecodeThroughput m);
  prefill_ms ← float_json (AvgPrefillTimeMS m);
  decode_ms ← float_json (AvgDecodeTimeMS m);
  Some (JObj
    [("requests_running", JInt (RequestsRunning m)); ("requests_waiting", JInt (RequestsWaiting m));
     ("kv_cache_usage_perc", kv); ("prompt_tokens_total", JInt (PromptTokensTotal m));
     ("gen_tokens_total", JInt (GenTokensTotal m)); ("prefill_throughput", prefill);
     ("decode_throughput", decode); ("avg_prefill_time_ms", prefill_ms);
     ("avg_decode_time_ms", decode_ms); ("updated_at", JStr (time_text (UpdatedAt m)))]).

Definition statusServer_json (x : statusServer) : option json :=
  m ← match st_metrics x with None => Some JNull | Some m => metrics_json m end;
  Some (JObj (server_members (st_server x) ++ [("metrics", m)])).

(** A map is written with its keys sorted. *)
Definition map_json {A} (f : A → json) (m : gmap string A) : json :=
  JObj (omap (λ k, (λ x, (k, f x)) <$> m !! k) (sort_strings (elements (dom m)))).

Definition status_json (d : StatusData) : option json :=
  svs ← mapM statusServer_json (st_servers d);
  Some (JObj [("healthy", map_json JBool (st_healthy d));
              ("models", map_json (λ l, JArr (map JStr l)) (st_models d));
              ("servers", JArr svs)]).

(** The error of [json.Marshal] is dropped. *)
Definition handleStatus (s : Server) : Response :=
  respond 200 "application/json"
    (match status_json (status_data s) with Some j => Marshal j | None => EmptyString end).
End status.

(** ** Metrics *)

Definition handleMetrics `{!MapRange} (s : Server) : Response :=
  let allMetrics := match mc s with Some c => GetAll c | None => ∅ end in
  respond 200 "text/plain; version=0.0.4; charset=utf-8"
    (exportMetrics allMetrics (server_pool s) (bridgeReqsSuccess s) (bridgeReqsError s)).

(** ** Synchronised states *)

Definition urls_of (svs : list ServerConfig) : list string := map URL svs.

(** The last server of [svs] with the URL [u]: the one that is in the pool
    after [sync_pool]. *)
Definition last_with (u : string) (svs : list ServerConfig) : option ServerConfig :=
  last (filter (λ sc, URL sc = u) svs).

(** Pool, discovery and collector agree with the configuration.  The pool may
    know more servers. *)
Record synced (s : Server) : Prop := {
  synced_pool u sc : last_with u (configured s) = Some sc → GetServer (server_pool s) u = Some sc;
  synced_disc : Discovery.servers (disc s) = urls_of (configured s);
  synced_mc c : mc s = Some c → dom (data c) = list_to_set (urls_of (configured s))
}.

(** Nothing but the configured servers is in the pool. *)
Definition pool_exact (s : Server) : Prop :=
  ∀ u, is_Some (GetServer (server_pool s) u) → u ∈ urls_of (configured s).

Lemma last_with_None u svs : last_with u svs = None ↔ u ∉ urls_of svs.
Proof.
  unfold last_with, urls_of. rewrite last_None. split.
  - intros Hf (sc & -> & Hin)%list_elem_of_fmap_1.
    assert (sc ∈ filter (λ sc', URL sc' = URL sc) svs) as Hx by by apply list_elem_of_filter.
    rewrite Hf in Hx. by apply elem_of_nil in Hx.
  - intros Hn. destruct (filter _ svs) as [|sc l] eqn:E; [done|]. exfalso. apply Hn.
    assert (sc ∈ filter (λ sc, URL sc = u) svs) as [<- Hin]%list_elem_of_filter
      by (rewrite E; left).
    by apply list_elem_of_fmap_2.
Qed.

Lemma last_with_Some u svs sc : last_with u svs = Some sc → sc ∈ svs ∧ URL sc = u.
Proof.
  unfold last_with. rewrite last_Some. intros [l Hl].
  assert (sc ∈ filter (λ sc, URL sc = u) svs) as [? ?]%list_elem_of_filter
    by (rewrite Hl; set_solver). done.
Qed.

Lemma last_with_snoc u svs sc :
  last_with u (svs ++ [sc]) = if decide (URL sc = u) then Some sc else last_with u svs.
Proof.
  unfold last_with. rewrite filter_app, filter_cons, filter_nil.
  case_decide; [by rewrite last_snoc|by rewrite app_nil_r].
Qed.

Lemma last_with_NoDup svs sc :
  NoDup (urls_of svs) → sc ∈ svs → last_with (URL sc) svs = Some sc.
Proof.
  unfold urls_of. induction svs as [|sv svs IH] using rev_ind; [by intros _ ?%elem_of_nil|].
  rewrite map_app, NoDup_app. intros (Hnd & Hd & _) Hin. rewrite last_with_snoc.
  apply elem_of_app in Hin as [Hin|Hin]; [|apply list_elem_of_singleton in Hin; subst; by rewrite decide_True].
  rewrite decide_False; [by apply IH|]. intros E.
  apply (Hd (URL sc)); [by apply list_elem_of_fmap_2|]. simpl. set_solver.
Qed.

Lemma sync_pool_spec svs p :
  pool_wf p →
  pool_wf (sync_pool svs p) ∧
  ∀ u, GetServer (sync_pool svs p) u =
         (match last_with u svs with Some sc => Some sc | None => GetServer p u end) ∧
       Inflight (sync_pool svs p) u =
         (match last_with u svs with Some _ => 0 | None => Inflight p u end).
Proof.
  intros Hp. induction svs as [|sc svs IH] using rev_ind; [done|].
  unfold sync_pool in *. rewrite foldl_app. simpl. destruct IH as [Hw Hv].
  split; [by apply AddServer_wf|]. intros u.
  destruct (AddServer_view sc _ u Hw) as [-> ->]. destruct (Hv u) as [-> ->].
  rewrite last_with_snoc. destruct (decide (u = URL sc)) as [->|].
  - by rewrite decide_True by done.
  - by rewrite (decide_False (P := (URL sc = u))) by congruence.
Qed.

Lemma configured_sync s : configured (syncServers s) = configured s.
Proof. done. Qed.

Lemma syncServers_synced s : pool_wf (server_pool s) → synced (syncServers s).
Proof.
  intros Hp. destruct (sync_pool_spec (configured s) _ Hp) as [_ Hv]. split.
  - intros u sc Hl. rewrite configured_sync in Hl. unfold server_pool. simpl.
    destruct (Hv u) as [Hg _]. by rewrite Hl in Hg.
  - done.
  - intros c. simpl. destruct (mc s) as [c0|]; simpl; [|done]. intros [= <-].
    apply set_eq. intros u. rewrite elem_of_dom, SetServers_lookup, elem_of_list_to_set.
    rewrite configured_sync. unfold urls_of. case_decide as Hu.
    + split; [done|eauto].
    + split; [by intros [? ?]|done].
Qed.

(** ** Well-formed states *)

(** The metadata discovery keeps of a model is an entry of a response that
    advertised it. *)
Definition detail_ok (id : string) (raw : RawMessage) : Prop :=
  advertised_id raw = Some id ∧ entry_ok raw.

Definition details_ok (d : Discovery) : Prop := map_Forall detail_ok (modelDetails d).

Record server_wf (s : Server) : Prop := {
  swf_cfg : store_wf (cfg s);
  swf_rtr : router_wf (ok := pool_wf) (rtr s);
  swf_disc : disc_wf (disc s);
  swf_details : details_ok (disc s);
  swf_mc : ∀ c, mc s = Some c → collector_ok c
}.

Lemma syncServers_wf s : server_wf s → server_wf (syncServers s).
Proof.
  intros [Hc [Hp Hr] Hd Hk Hm]. split; [done| |done|done|].
  - split; [|done]. by apply sync_pool_spec.
  - cbn [mc syncServers]. destruct (mc s) as [c|]; [|done]. intros c' [= <-].
    by apply SetServers_ok, Hm.
Qed.

Lemma set_mc_wf c s : server_wf s → collector_ok c → server_wf (set_mc (Some c) s).
Proof. intros [? ? ? ? _] Hc. split; [done..|]. by intros ? [= <-]. Qed.

Section details.
Context `{!MapRange, !MapRangeLaw, !Backends}.

Lemma collect_details_ok dat det :
  Forall entry_ok dat → map_Forall detail_ok det → map_Forall detail_ok (snd (collect dat det)).
Proof.
  intros Hdat. revert det. induction Hdat as [|raw dat Hraw _ IH]; intros det Hd; [done|].
  rewrite collect_cons. destruct (advertised_id raw) as [id|] eqn:Hid; [|by apply IH].
  assert (map_Forall detail_ok (match det !! id with Some _ => det | None => <[id := raw]> det end))
    as Hd' by (destruct (det !! id); [done|by apply map_Forall_insert_2]).
  apply IH in Hd'. by destruct (collect dat _).
Qed.

Lemma update_model_details url u m :
  u_details (update_model url u m) ⊆ u_details u.
Proof.
  unfold update_model. destruct (u_models u !! m); [|done].
  case_bool_decide; [apply delete_subseteq|done].
Qed.

Lemma updateModels_details url ids d : modelDetails (updateModels url ids d) ⊆ modelDetails d.
Proof.
  unfold updateModels. simpl. generalize (range_keys (dom (models d))) as order.
  intros order. change (modelDetails d)
    with (u_details (mkUpdate (models d) (modelDetails d) (list_to_set ids))) at 2.
  generalize (mkUpdate (models d) (modelDetails d) (list_to_set ids)) as u.
  induction order as [|m order IH]; intros u; simpl; [done|].
  etrans; [apply IH|apply update_model_details].
Qed.

Lemma details_ok_subseteq (m1 m2 : gmap string string) :
  m1 ⊆ m2 → map_Forall detail_ok m2 → map_Forall detail_ok m1.
Proof. intros Hsub Hm k raw Hk. apply (Hm k raw). by eapply lookup_weaken. Qed.

(** Polling keeps the metadata readable. *)
Lemma poll_details_ok u d : details_ok d → details_ok (poll u d).
Proof.
  unfold details_ok, poll. intros Hd. destruct (probe _) as [| | |dat] eqn:Hp; [done..|].
  assert (Forall entry_ok dat) as Hdat.
  { unfold probe in Hp. destruct (http_get _); try done. by eapply decode_models_ok. }
  pose proof (collect_details_ok dat (modelDetails d) Hdat Hd) as Hc.
  destruct (collect dat (modelDetails d)) as [ids det]. simpl.
  apply (details_ok_subseteq _ _ (updateModels_details u ids (with_models d (models d) det))).
  exact Hc.
Qed.

(** What every poll preserves, a round of discovery preserves. *)
Lemma Discover_ind (Q : Discovery → Prop) ctx d :
  (∀ u d, Q d → Q (poll u d)) → Q d → Q (Discover ctx d).2.
Proof.
  intros Hq Hd. unfold Discover. destruct (ctx 0%nat); [done|].
  apply discover_loop_ind; [|done]. intros u d' _. apply Hq.
Qed.

Lemma embed_all d names :
  details_ok d → (∀ n, n ∈ names → n ∈ dom (modelDetails d)) →
  mapM embed_raw (map (model_raw d) names) = Some (map (compact ∘ model_raw d) names).
Proof.
  intros Hd Hn. apply mapM_Some. apply Forall2_fmap_l, Forall2_fmap_r, Forall_Forall2_diag.
  apply Forall_forall. intros n Hin. unfold model_raw, ModelDetails, embed_raw. simpl.
  destruct (modelDetails d !! n) as [raw|] eqn:Hraw.
  - by destruct (Hd n raw Hraw) as (_ & v & -> & _).
  - apply not_elem_of_dom in Hraw. by apply Hn in Hin.
Qed.
End details.

(** ** Theorems *)

Lemma New_facts c d rr m :
  let s := New c d (mkRouter rr NewPool) m in
  synced s ∧ pool_exact s ∧ ∀ u, Inflight (server_pool s) u = 0.
Proof.
  set (s0 := mkServer c d (mkRouter rr NewPool) m 0 0).
  destruct (sync_pool_spec (configured s0) NewPool NewPool_wf) as [_ Hv].
  split; [apply (syncServers_synced s0 NewPool_wf)|]. split.
  - intros u Hu. destruct (last_with u (configured s0)) as [sc|] eqn:Hl.
    + apply last_with_Some in Hl as [Hin <-]. by apply list_elem_of_fmap_2.
    + exfalso. destruct (Hv u) as [Hg _]. rewrite Hl in Hg.
      assert (GetServer (sync_pool (configured s0) NewPool) u = None) as Hn by exact Hg.
      change (is_Some (GetServer (sync_pool (configured s0) NewPool) u)) in Hu.
      rewrite Hn in Hu. by destruct Hu.
  - intros u. destruct (Hv u) as [_ Hi]. by destruct (last_with u (configured s0)).
Qed.

(** A new server starts synchronised: with a fresh pool, whatever was in
    discovery and in the collector before, the pool holds exactly the configured
    servers with no request in flight, discovery polls their URLs, and the
    collector has an entry for each of them and for no other. *)
Theorem New_synced c d rr m :
  let s := New c d (mkRouter rr NewPool) m in
  synced s ∧ pool_exact s ∧ ∀ u, Inflight (server_pool s) u = 0.
Proof. apply New_facts. Qed.

Lemma handleModels_text `{!MapRange, !MapRangeLaw} s :
  server_wf s →
  ∃ names, names ≡ₚ elements (dom (models (disc s))) ∧
    handleModels s = respond 200 "application/json" (models_text
      (map (λ n, compact (default EmptyString (modelDetails (disc s) !! n))) names)).
Proof.
  intros Hwf. exists (range_keys (dom (models (disc s)))). split; [apply range_keys_perm|].
  assert (∀ n, n ∈ range_keys (dom (models (disc s))) → n ∈ dom (modelDetails (disc s))) as Hn.
  { intros n. rewrite range_keys_perm, elem_of_elements.
    by destruct (swf_disc s Hwf) as [_ ->]. }
  unfold handleModels, Models. rewrite embed_all by (done || apply Hwf). do 2 f_equal.
  apply map_ext_in. intros n Hin%list_elem_of_In%Hn. unfold model_raw, ModelDetails. simpl.
  apply elem_of_dom in Hin as [raw ->]. done.
Qed.

(** [GET /v1/models] answers with every model discovery knows, each
    exactly once, in some order, with the metadata of its backend verbatim up
    to white space; the body is never empty. *)
Theorem handleModels_lists `{!MapRange, !MapRangeLaw} s :
  server_wf s →
  ∃ names, names ≡ₚ elements (dom (models (disc s))) ∧
    handleModels s = respond 200 "application/json" (models_text
      (map (λ n, compact (default EmptyString (modelDetails (disc s) !! n))) names)).
Proof. apply handleModels_text. Qed.

Lemma find_server_Some svs sc :
  NoDup (urls_of svs) → sc ∈ svs → ∃ i, find_server (URL sc) svs = Some (i, sc) ∧ svs !! i = Some sc.
Proof.
  intros Hnd Hin. unfold find_server.
  destruct (list_find_elem_of (λ x, URL x = URL sc) svs sc Hin eq_refl) as [[i x] Hf].
  exists i. pose proof (proj1 (list_find_Some _ _ _ _) Hf) as (Hx & Hu & _).
  assert (x = sc) as ->; [|done]. apply list_elem_of_lookup_1 in Hin as [j Hj].
  assert (i = j) as ->; [|congruence].
  eapply NoDup_lookup; [exact Hnd| |]; unfold urls_of; rewrite list_lookup_fmap.
  - by rewrite Hx.
  - rewrite Hj. simpl. by rewrite Hu.
Qed.

Lemma find_server_None id svs : find_server id svs = None ↔ id ∉ urls_of svs.
Proof.
  unfold find_server. rewrite list_find_None, Forall_forall. split.
  - intros Hf (sc & -> & Hin)%list_elem_of_fmap_1. by apply (Hf sc).
  - intros Hn sc Hin <-. apply Hn. by apply list_elem_of_fmap_2.
Qed.

(** A server URL survives the way through the path of a request. *)
Lemma server_id_encode u : u ≠ EmptyString → server_id (encodeURIComponent u) = inr u.
Proof.
  intros Hu. unfold server_id. rewrite bool_decide_false by by intros ?%encodeURIComponent_nonempty.
  by rewrite PathUnescape_encode.
Qed.

(** [GET /admin/servers/{id}] with the id a client made of a URL by
    percent encoding finds the configured server with that URL, and answers with
    its settings, its health and its requests in flight; a URL that is not
    configured gets 404. *)
Theorem handleGetServer_roundtrip s u :
  NoDup (urls_of (configured s)) → u ≠ EmptyString →
  handleGetServer (encodeURIComponent u) s =
    match last_with u (configured s) with
    | Some sc => respondJSON 200 (serverResponse_json (server_info s sc))
    | None => respondError 404 ("server not found: " +:+ u)
    end.
Proof.
  intros Hnd Hu. unfold handleGetServer. rewrite server_id_encode by done.
  destruct (last_with u (configured s)) as [sc|] eqn:Hl.
  - apply last_with_Some in Hl as [Hin <-].
    by destruct (find_server_Some _ _ Hnd Hin) as (i & -> & _).
  - apply last_with_None in Hl. by rewrite (proj2 (find_server_None _ _) Hl).
Qed.

(** ** A sample server *)

Definition sample_probe : Backends :=
  {| http_get := λ url, Answered (quoted "{'data':[" +:+ sample_entry "m1" +:+ ","
       +:+ sample_entry "m2" +:+ "]}") |}.

(** A backend that reports a cache usage that is not a number. *)
Definition nan_body : string := "vllm:kv_cache_usage_perc NaN" +:+ String NL EmptyString.

Section samples.
#[local] Existing Instances sample_grow sample_yaml sample_url sample_range sample_probe.
#[local] Instance sample_conversion : IntConversion := amd64.

Definition sample_disc : Discovery :=
  snd (Discover (λ _, None) (Discovery.SetServers ["http://a:1"] (Discovery.New 15))).

Definition sample_collector : Collector :=
  default (Metrics.New 15)
    (Metrics.Start (λ _, None) (λ _ _, Scraped nan_body 1000) ["http://a:1"] (Metrics.New 15)).

Definition sample_srv (w : option (error * option string)) : Server :=
  New (sample_store w) sample_disc (Router.New NewPool) (Some sample_collector).

#[local] Instance sample_range_ok : MapRangeLaw.
Proof. by intros X. Qed.

Lemma sample_srv_wf w : server_wf (sample_srv w).
Proof.
  apply syncServers_wf. split.
  - apply sample_store_wf.
  - split; [apply NewPool_wf|]. by intros ? ? ?.
  - apply (Discover_ind disc_wf); [apply poll_wf|]. split; [done|]. simpl. by rewrite !dom_empty_L.
  - apply (Discover_ind details_ok); [apply poll_details_ok|]. by intros ? ? ?.
  - intros c [= <-]. unfold sample_collector. destruct (Metrics.Start _ _ _ _) as [c|] eqn:Hs;
      [|apply New_ok]. eapply Start_ok; [exact Hs|apply New_ok].
Qed.

Lemma handleModels_lists_witness :
  ∃ names, names ≡ₚ ["m1"; "m2"] ∧
    handleModels (sample_srv None) = respond 200 "application/json" (models_text
      (map (λ n, compact (default EmptyString (modelDetails sample_disc !! n))) names)).
Proof. apply (handleModels_lists (sample_srv None)). apply sample_srv_wf. Defined.

Lemma handleGetServer_roundtrip_witness :
  handleGetServer "http%3A%2F%2Fa%3A1" (sample_srv None) =
    respondJSON 200 (serverResponse_json (mkServerResponse sample_server true 0)).
Proof.
  apply (handleGetServer_roundtrip (sample_srv None) "http://a:1"); [|done].
  vm_compute. constructor; [by intros ?%elem_of_nil|constructor].
Defined.
End samples.
