(* ===== verification/StatusPage.v ===== *)
(** * What the status endpoint answers (handleStatus of src/server/server.go)

    The answer is empty exactly when the last scrape of a configured server left
    a float that JSON has no text for; otherwise it is a document that reads back
    as the state: servers, models, health, and every metric with its value. *)
From Stdlib Require Import ZArith Lia Ascii SpecFloat.
From stdpp Require Import base tactics option list numbers strings gmap.
From S2P Require Import Prelude GoSlice GoStrings GoText GoFloat GoNum GoShortest FloatForm.
From S2P Require Import GoJson JsonRoundTrip JsonFloat Config Interfaces Backend Discovery.
From S2P Require Import Metrics Router Http DiscoveryWire Server.

Open Scope Z_scope.

(** ** Floats that have a text *)

Definition metrics_encodable (m : ServerMetrics) : bool :=
  forallb is_finite [KVCacheUsagePerc m; PrefillThroughput m; DecodeThroughput m;
                     AvgPrefillTimeMS m; AvgDecodeTimeMS m].

(** A tree that the decoder reads as the float [x]. *)
Definition reads_as (x : float64) (j : json) : Prop :=
  ∃ lit, j = JNum lit ∧ ParseFloat lit = Some x.

(** The metrics as the page shows them. *)
Definition shows_metrics `{!TimeText} (m : ServerMetrics) (j : json) : Prop :=
  ∃ kv prefill decode prefill_ms decode_ms,
    j = JObj
      [("requests_running", JInt (RequestsRunning m)); ("requests_waiting", JInt (RequestsWaiting m));
       ("kv_cache_usage_perc", kv); ("prompt_tokens_total", JInt (PromptTokensTotal m));
       ("gen_tokens_total", JInt (GenTokensTotal m)); ("prefill_throughput", prefill);
       ("decode_throughput", decode); ("avg_prefill_time_ms", prefill_ms);
       ("avg_decode_time_ms", decode_ms); ("updated_at", clean (JStr (time_text (UpdatedAt m))))] ∧
    reads_as (KVCacheUsagePerc m) kv ∧ reads_as (PrefillThroughput m) prefill ∧
    reads_as (DecodeThroughput m) decode ∧ reads_as (AvgPrefillTimeMS m) prefill_ms ∧
    reads_as (AvgDecodeTimeMS m) decode_ms.

Definition shows_server `{!TimeText} (s : Server) (sc : ServerConfig) (j : json) : Prop :=
  ∃ m, j = JObj
      [("url", clean (JStr (URL sc))); ("distance", JInt (Distance sc));
       ("max_concurrent_requests", JInt (MaxConcurrentRequests sc));
       ("healthy", JBool (default false (Healthy (disc s) !! URL sc)));
       ("inflight", JInt (Inflight (server_pool s) (URL sc))); ("metrics", m)] ∧
    match status_metrics s (URL sc) with
    | Some sm => shows_metrics sm m
    | None => m = JNull
    end.

Section status_facts.
Context `{!TimeText}.

Lemma float_json_spec x :
  if is_finite x then
    ∃ lit, float_json x = Some (JNum lit) ∧ number_ok lit = true ∧
      (float_ok x → ParseFloat lit = Some x)
  else float_json x = None.
Proof.
  unfold float_json. destruct (is_finite x) eqn:Hf.
  - destruct (float_text x) as [t|] eqn:Ht; [|apply float_text_None in Ht; congruence].
    exists t. split; [done|]. split; [by eapply float_text_number_ok|].
    intros Hx. by apply float_text_reads.
  - by rewrite (proj2 (float_text_None x) Hf).
Qed.

Lemma metrics_json_None m : metrics_json m = None ↔ metrics_encodable m = false.
Proof.
  unfold metrics_json, metrics_encodable. cbn [forallb].
  pose proof (float_json_spec (KVCacheUsagePerc m)) as H1.
  pose proof (float_json_spec (PrefillThroughput m)) as H2.
  pose proof (float_json_spec (DecodeThroughput m)) as H3.
  pose proof (float_json_spec (AvgPrefillTimeMS m)) as H4.
  pose proof (float_json_spec (AvgDecodeTimeMS m)) as H5.
  destruct (is_finite (KVCacheUsagePerc m)); [destruct H1 as (? & -> & _)|by rewrite H1].
  destruct (is_finite (PrefillThroughput m)); [destruct H2 as (? & -> & _)|by rewrite H2].
  destruct (is_finite (DecodeThroughput m)); [destruct H3 as (? & -> & _)|by rewrite H3].
  destruct (is_finite (AvgPrefillTimeMS m)); [destruct H4 as (? & -> & _)|by rewrite H4].
  destruct (is_finite (AvgDecodeTimeMS m)); [destruct H5 as (? & -> & _)|by rewrite H5].
  done.
Qed.

(** The tree of the metrics can be decoded, and shows them. *)
Lemma metrics_json_shows m j :
  metrics_json m = Some j → metrics_ok m →
  json_ok j = true ∧ height j = 1%nat ∧ shows_metrics m (clean j).
Proof.
  intros Hj (Ho1 & Ho2 & Ho3 & Ho4 & Ho5).
  assert (metrics_encodable m = true) as He.
  { destruct (metrics_encodable m) eqn:He; [done|]. apply metrics_json_None in He. congruence. }
  unfold metrics_encodable in He. cbn [forallb] in He. rewrite !andb_true_iff in He.
  destruct He as (Hf1 & Hf2 & Hf3 & Hf4 & Hf5 & _). unfold metrics_json in Hj.
  pose proof (float_json_spec (KVCacheUsagePerc m)) as H1. rewrite Hf1 in H1.
  pose proof (float_json_spec (PrefillThroughput m)) as H2. rewrite Hf2 in H2.
  pose proof (float_json_spec (DecodeThroughput m)) as H3. rewrite Hf3 in H3.
  pose proof (float_json_spec (AvgPrefillTimeMS m)) as H4. rewrite Hf4 in H4.
  pose proof (float_json_spec (AvgDecodeTimeMS m)) as H5. rewrite Hf5 in H5.
  destruct H1 as (l1 & E1 & N1 & R1), H2 as (l2 & E2 & N2 & R2), H3 as (l3 & E3 & N3 & R3).
  destruct H4 as (l4 & E4 & N4 & R4), H5 as (l5 & E5 & N5 & R5).
  rewrite E1, E2, E3, E4, E5 in Hj. cbn [mbind option_bind] in Hj. injection Hj as <-. split; [|split].
  - cbn [json_ok forallb fst snd]. by rewrite !number_ok_JInt, N1, N2, N3, N4, N5.
  - reflexivity.
  - exists (JNum l1), (JNum l2), (JNum l3), (JNum l4), (JNum l5). split; [reflexivity|].
    split_and!; eexists; by split; [|auto].
Qed.

(** ** The trees of the page *)

Lemma statusServer_json_None s sc :
  statusServer_json (mkStatusServer (server_info s sc) (status_metrics s (URL sc))) = None ↔
  ∃ sm, status_metrics s (URL sc) = Some sm ∧ metrics_encodable sm = false.
Proof.
  unfold statusServer_json. cbn [st_metrics].
  destruct (status_metrics s (URL sc)) as [sm|]; [|by split; [|intros (? & ? & ?)]].
  split.
  - intros Hn. exists sm. split; [done|]. apply metrics_json_None. by destruct (metrics_json sm).
  - intros (sm' & [= <-] & He%metrics_json_None). by rewrite He.
Qed.

Lemma status_metrics_ok s u sm :
  server_wf s → status_metrics s u = Some sm → metrics_ok sm.
Proof.
  intros Hwf. unfold status_metrics. destruct (mc s) as [c|] eqn:Hc; [|done].
  destruct (Metrics.Get c u) as [m|] eqn:Hg; [|done]. destruct (IsZero m); [done|].
  intros [= <-]. by apply (swf_mc s Hwf c Hc u).
Qed.

Lemma statusServer_json_shows s sc j :
  server_wf s →
  statusServer_json (mkStatusServer (server_info s sc) (status_metrics s (URL sc))) = Some j →
  json_ok j = true ∧ (height j ≤ 2)%nat ∧ shows_server s sc (clean j).
Proof.
  intros Hwf. unfold statusServer_json. cbn [st_metrics st_server].
  pose proof (status_metrics_ok s (URL sc)) as Hok.
  assert (∀ m, json_ok m = true → (height m ≤ 1)%nat →
    json_ok (JObj (server_members (server_info s sc) ++ [("metrics", m)])) = true ∧
    (height (JObj (server_members (server_info s sc) ++ [("metrics", m)])) ≤ 2)%nat) as Hm.
  { intros m Hm Hh. cbn [json_ok server_members app forallb fst snd].
    rewrite !number_ok_JInt, Hm. split; [done|].
    cbn [height server_members app max_list_with snd]. simpl. lia. }
  unfold shows_server. destruct (status_metrics s (URL sc)) as [sm|].
  - destruct (metrics_json sm) as [m|] eqn:Hj; [|done]. intros [= <-].
    destruct (metrics_json_shows sm m Hj (Hok sm Hwf eq_refl)) as (Hjo & Hh & Hs).
    destruct (Hm m Hjo ltac:(lia)) as [? ?]. split; [done|]. split; [done|].
    by exists (clean m).
  - intros [= <-]. destruct (Hm JNull eq_refl ltac:(simpl; lia)). split; [done|]. split; [done|].
    by exists JNull.
Qed.

(** A map of trees of one height. *)
Lemma map_json_ok {A} (f : A → json) (m : gmap string A) n :
  (∀ x, json_ok (f x) = true ∧ (height (f x) ≤ n)%nat) →
  json_ok (map_json f m) = true ∧ (height (map_json f m) ≤ S n)%nat.
Proof.
  intros Hf. unfold map_json. cbn [json_ok height].
  induction (sort_strings (elements (dom m))) as [|k ks IH]; [split; [done|simpl; lia]|].
  cbn [omap list_omap]. destruct (m !! k) as [x|]; [|exact IH]. simpl.
  destruct (Hf x) as [-> Hh], IH as [-> IH]. split; [done|]. simpl in *. lia.
Qed.

Lemma servers_shown s svs vs :
  server_wf s →
  mapM statusServer_json (map (λ sc, mkStatusServer (server_info s sc) (status_metrics s (URL sc))) svs)
    = Some vs →
  forallb json_ok vs = true ∧ (max_list_with height vs ≤ 2)%nat ∧
  Forall2 (shows_server s) svs (map clean vs).
Proof.
  intros Hwf. revert vs. induction svs as [|sc svs IH]; intros vs; simpl.
  - intros [= <-]. split_and!; [done|simpl; lia|constructor].
  - destruct (statusServer_json _) as [j|] eqn:Hj; [|done]. simpl.
    destruct (mapM _ _) as [vs'|]; [|done]. intros [= <-].
    destruct (statusServer_json_shows s sc j Hwf Hj) as (Ho & Hh & Hs).
    destruct (IH vs' eq_refl) as (IHo & IHh & IHs). simpl. rewrite Ho, IHo.
    split_and!; [done|lia|by constructor].
Qed.

Lemma status_json_None s :
  status_json (status_data s) = None ↔
  ∃ u sm, u ∈ urls_of (configured s) ∧ status_metrics s u = Some sm ∧ metrics_encodable sm = false.
Proof.
  unfold status_json, status_data. cbn [st_servers].
  transitivity (mapM statusServer_json
    (map (λ sc, mkStatusServer (server_info s sc) (status_metrics s (URL sc))) (configured s)) = None).
  { by destruct (mapM _ _). }
  rewrite mapM_None, Exists_exists. split.
  - intros (x & (sc & -> & Hin)%list_elem_of_fmap_1 & (sm & Hsm & He)%statusServer_json_None).
    exists (URL sc), sm. split; [by apply list_elem_of_fmap_2|done].
  - intros (u & sm & (sc & -> & Hin)%list_elem_of_fmap_1 & Hsm & He).
    eexists. split; [by apply list_elem_of_fmap_2|]. apply statusServer_json_None. by exists sm.
Qed.

(** An object is never written as nothing. *)
Lemma Marshal_object ms : Marshal (JObj ms) ≠ EmptyString.
Proof. by destruct ms. Qed.

(** ** Theorems *)

(** One configured backend whose last scrape left an infinite value or one
    that is not a number blanks the whole status page, which is then answered with
    200 and an empty body; nothing else does. *)
Theorem handleStatus_blank s :
  StatusCode (handleStatus s) = 200 ∧
  (resp_Body (handleStatus s) = EmptyString ↔
   ∃ u sm, u ∈ urls_of (configured s) ∧ status_metrics s u = Some sm ∧
     metrics_encodable sm = false).
Proof.
  split; [done|]. rewrite <- status_json_None. unfold handleStatus. cbn [resp_Body respond].
  destruct (status_json (status_data s)) as [j|] eqn:Hj; [|done]. split; [|done].
  intros Hm. exfalso. revert Hj. unfold status_json. destruct (mapM _ _); [|done]. simpl.
  intros [= <-]. by apply Marshal_object in Hm.
Qed.

(** [C15] The status page reads back as the state of the program.  If the floats of
    the configured servers' metrics are finite, the body of [GET /admin/status]
    is one JSON document, with the health and the models that discovery knows,
    and with an object for every configured server, in the order of the
    configuration: its settings, health and requests in flight, and [null] or the
    metrics of its last scrape, in which every float is written with a literal
    that reads as exactly that float. *)
Theorem status_reads_back s :
  server_wf s →
  (∀ u sm, u ∈ urls_of (configured s) → status_metrics s u = Some sm →
     metrics_encodable sm = true) →
  ∃ vs, parse (resp_Body (handleStatus s)) =
      Some (JObj [("healthy", clean (map_json JBool (Healthy (disc s))));
                  ("models", clean (map_json (λ l, JArr (map JStr l)) (Models (disc s))));
                  ("servers", JArr vs)]) ∧
    Forall2 (shows_server s) (configured s) vs.
Proof.
  intros Hwf Hfin. unfold handleStatus. cbn [resp_Body respond].
  destruct (status_json (status_data s)) as [j|] eqn:Hj.
  2:{ apply status_json_None in Hj as (u & sm & Hu & Hsm & He).
      rewrite (Hfin u sm Hu Hsm) in He. done. }
  unfold status_json, status_data in Hj. cbn [st_servers st_models st_healthy] in Hj.
  destruct (mapM _ _) as [vs|] eqn:Hvs; [|done]. cbn [mbind option_bind] in Hj. injection Hj as <-.
  destruct (servers_shown s _ vs Hwf Hvs) as (Ho & Hh & Hs).
  destruct (map_json_ok JBool (Healthy (disc s)) 0) as [Ho1 Hh1]; [done|].
  destruct (map_json_ok (λ l, JArr (map JStr l)) (Models (disc s)) 1) as [Ho2 Hh2].
  { intros l. cbn [json_ok height]. split; [by apply forallb_map_true, Forall_true|].
    pose proof (max_list_with_map height JStr l 0 ltac:(done)). lia. }
  exists (map clean vs). split; [|done]. unfold Marshal. rewrite parse_marshal_end; [done|].
  unfold decodable. cbn [json_ok forallb fst snd height max_list_with]. rewrite Ho1, Ho2, Ho.
  apply bool_decide_eq_true. unfold max_depth. lia.
Qed.
End status_facts.

(** ** Samples *)

(** A backend whose metrics are numbers, with rates from two scrapes. *)
Definition good_body (tokens : string) : string :=
  "vllm:kv_cache_usage_perc 0.123" +:+ String NL ("vllm:prompt_tokens_total " +:+ tokens).

Definition sample_time : TimeText := λ _, "2025-01-01T00:00:00Z".

Section samples.
#[local] Existing Instances sample_grow sample_yaml sample_url sample_range sample_probe.
#[local] Existing Instances sample_conversion sample_time.

Definition good_collector : Collector :=
  default (Metrics.New 15)
    (fetch_one "http://a:1" (Scraped (good_body "10") 1000000000) (Metrics.SetServers ["http://a:1"]
      (Metrics.New 15)) ≫= fetch_one "http://a:1" (Scraped (good_body "17") 4000000000)).

Definition good_srv : Server := set_mc (Some good_collector) (sample_srv None).

Lemma good_srv_wf : server_wf good_srv.
Proof.
  apply set_mc_wf; [apply sample_srv_wf|]. unfold good_collector. destruct (_ ≫= _) as [c|] eqn:Hc; [|apply New_ok].
  destruct (fetch_one _ _ (Metrics.SetServers _ _)) as [c1|] eqn:Hc1; [|done].
  eapply fetch_one_ok; [exact Hc|]. eapply fetch_one_ok; [exact Hc1|]. apply SetServers_ok, New_ok.
Qed.

(** The page of the sample: 7 tokens in 3 seconds. *)
Example good_page :
  resp_Body (handleStatus good_srv) = quoted
    ("{'healthy':{'http://a:1':true}," +:+
     "'models':{'m1':['http://a:1'],'m2':['http://a:1']}," +:+
     "'servers':[{'url':'http://a:1','distance':1,'max_concurrent_requests':2," +:+
     "'healthy':true,'inflight':0,'metrics':{'requests_running':0,'requests_waiting':0," +:+
     "'kv_cache_usage_perc':12.3,'prompt_tokens_total':17,'gen_tokens_total':0," +:+
     "'prefill_throughput':2.3333333333333335,'decode_throughput':0," +:+
     "'avg_prefill_time_ms':0,'avg_decode_time_ms':0," +:+
     "'updated_at':'2025-01-01T00:00:00Z'}}]}").
Proof. vm_compute. reflexivity. Qed.

(** A cache usage that is not a number leaves nothing of the page. *)
Example nan_page : resp_Body (handleStatus (sample_srv None)) = EmptyString.
Proof. vm_compute. reflexivity. Qed.

Lemma status_reads_back_witness :
  ∃ vs, parse (resp_Body (handleStatus good_srv)) =
      Some (JObj [("healthy", clean (map_json JBool (Healthy (disc good_srv))));
                  ("models", clean (map_json (λ l, JArr (map JStr l)) (Models (disc good_srv))));
                  ("servers", JArr vs)]) ∧
    Forall2 (shows_server good_srv) (configured good_srv) vs.
Proof.
  apply (status_reads_back good_srv good_srv_wf). intros u sm Hu Hs.
  assert (urls_of (configured good_srv) = ["http://a:1"]) as E by (vm_compute; reflexivity).
  rewrite E in Hu. apply list_elem_of_singleton in Hu. subst u.
  assert (metrics_encodable <$> status_metrics good_srv "http://a:1" = Some true) as E1
    by (vm_compute; reflexivity).
  rewrite Hs in E1. by injection E1.
Defined.
End samples.
