(* ===== verification/Federation.v ===== *)
(** * A bridge behind a bridge (src/server/server.go, src/discovery/discovery.go)

    A bridge answers [GET /v1/models] in the form its own poller reads, so that
    one bridge can be a server of another.  The answer of [Server.handleModels]
    is followed here through [Discovery.poll] of the second bridge, bytes
    included. *)
From Stdlib Require Import ZArith Lia Ascii.
From stdpp Require Import base tactics option list numbers strings gmap.
From S2P Require Import Prelude GoStrings GoText GoNum GoJson GoUrl JsonRoundTrip JsonLocal.
From S2P Require Import GoRaw JsonCompact.
From S2P Require Import Config Interfaces Backend Discovery Metrics Router Http DiscoveryWire Server.

Open Scope Z_scope.

(** ** The bytes of a models response *)

(** The text of a value is what is kept of it. *)
Lemma raw_value_text w v f d r :
  value_text w v → (String.length w ≤ f)%nat → fits d (height v) → ends_number r = true →
  raw_value f d (w +:+ r) = Some (w, r).
Proof.
  intros [Hs Hp] Hf Hd Hr. unfold raw_value.
  rewrite (skip_ws_value (w +:+ r)) by by apply starts_value_app. rewrite Hp by done. simpl.
  by rewrite substring_prefix.
Qed.

(** The array of the entries [ws], from behind its bracket. *)
Definition entries_text (ws : list string) : string := String.concat "," ws +:+ "]".

Lemma entries_text_cons w w' ws :
  entries_text (w :: w' :: ws) = w +:+ String "," (entries_text (w' :: ws)).
Proof.
  unfold entries_text. change (String.concat "," (w :: w' :: ws))
    with (w +:+ String "," (String.concat "," (w' :: ws))).
  by rewrite string_app_assoc.
Qed.

Lemma entries_inner ws vs :
  Forall2 value_text ws vs → ws ≠ [] →
  inner_text parse_elems (elems_height vs) (entries_text ws) vs.
Proof.
  induction 1 as [|w v ws vs Hw Hall IH]; [done|]. intros _. destruct Hall as [|w' v' ws vs Hw' Hall].
  - by apply (inner_elems_one w EmptyString EmptyString v).
  - rewrite entries_text_cons.
    by apply (inner_elems_cons w EmptyString EmptyString v Hw eq_refl eq_refl), IH.
Qed.

Lemma entries_raw ws vs f d :
  Forall2 value_text ws vs → ws ≠ [] → (String.length (entries_text ws) ≤ f)%nat →
  fits d (elems_height vs) → raw_elems f d (entries_text ws) = Some (ws, EmptyString).
Proof.
  intros Hall. revert f. induction Hall as [|w v ws vs Hw Hall IH]; [done|]. intros f _ Hf Hd.
  unfold fits, elems_height in Hd. simpl in Hd.
  assert (fits d (height v) ∧ fits d (elems_height vs)) as [Hd1 Hd2]
    by (unfold fits, elems_height; lia).
  destruct Hall as [|w' v' ws vs Hw' Hall].
  - unfold entries_text in *. rewrite length_app_string in Hf. simpl in Hf.
    destruct f as [|f]; [lia|]. cbn [raw_elems String.concat].
    by rewrite (raw_value_text w v) by (done || lia).
  - rewrite entries_text_cons in Hf |- *. rewrite length_app_string in Hf. simpl in Hf.
    destruct f as [|f]; [lia|]. cbn [raw_elems].
    rewrite (raw_value_text w v) by (done || lia). cbn [mbind option_bind].
    change (skip_ws (String "," ?x)) with (String "," x). cbv iota.
    by rewrite IH by (done || lia).
Qed.

(** The array itself. *)
Definition array_text (ws : list string) : string := String "[" (entries_text ws).

Lemma array_value ws vs : Forall2 value_text ws vs → value_text (array_text ws) (JArr vs).
Proof.
  intros Hall. destruct Hall as [|w v ws vs Hw Hall]; [by apply (value_text_empty EmptyString)|].
  apply value_text_array, entries_inner; [by constructor|done].
Qed.

Lemma array_raws ws vs :
  Forall2 value_text ws vs → fits 0 (height (JArr vs)) →
  into_raws (array_text ws) [] = (ws, false).
Proof.
  intros Hall Hd. unfold into_raws.
  rewrite (value_text_parse _ _ (array_value ws vs Hall) Hd). f_equal.
  destruct (decide (ws = [])) as [->|Hne]; [done|].
  unfold raw_array. change (skip_ws (array_text ws)) with (array_text ws).
  unfold array_text at 1. cbv iota.
  destruct (entries_inner ws vs Hall Hne EmptyString) as [Hs _]. rewrite string_app_nil_r in Hs.
  rewrite (proj1 (not_closing _ _ _ Hs)).
  rewrite (entries_raw ws vs); [done|done|done|unfold array_text; simpl; lia|].
  unfold fits in *. simpl in Hd. unfold elems_height. lia.
Qed.

(** The whole body. *)
Lemma models_text_members ws :
  models_text ws = String "{" (key_text (array_text ws) EmptyString EmptyString "data" EmptyString
    EmptyString (String "," (key_text (quoted "'list'") EmptyString EmptyString "object" EmptyString
    EmptyString "}"))).
Proof.
  unfold models_text, array_text, entries_text, key_text.
  change (EmptyString +:+ ?x) with x. change (String "[" ?x +:+ ?y) with (String "[" (x +:+ y)).
  by rewrite string_app_assoc.
Qed.

Definition models_tree (vs : list json) : json := JObj [("data", JArr vs); ("object", JStr "list")].

Lemma list_text : value_text (quoted "'list'") (JStr "list").
Proof. by apply (value_text_string "list"). Qed.

Lemma models_value ws vs : Forall2 value_text ws vs → value_text (models_text ws) (models_tree vs).
Proof.
  intros Hall. rewrite models_text_members. apply value_text_object.
  apply inner_members_cons; [by apply array_value|done..|].
  apply inner_members_one; [apply list_text|done..].
Qed.

Lemma models_fits vs : Forall (λ v, fits 2 (height v)) vs → fits 0 (height (models_tree vs)).
Proof.
  intros Hall. assert (max_list_with height vs ≤ Z.to_nat (max_depth - 2))%nat as Hm.
  { apply max_list_with_le. intros v Hv. rewrite Forall_forall in Hall.
    pose proof (Hall v Hv) as Hf. unfold fits in Hf. lia. }
  unfold fits. cbn [height models_tree max_list_with snd]. unfold max_depth in *. lia.
Qed.

(** A member with nothing around its pieces, read in bytes. *)
Lemma raw_member_read w v q k f d c r :
  value_text w v → (∀ r, unquote 0 None (q +:+ String DQ r) = Some (k, r)) →
  c ∈ [","; "]"; "}"]%char → (String.length w ≤ f)%nat → fits d (height v) →
  raw_members (S f) d (key_text w EmptyString EmptyString q EmptyString EmptyString (String c r)) =
  match skip_ws (String c r) with
  | String "}" r3 => Some ([(k, w)], r3)
  | String "," r3 => '(ms, r4) ← raw_members f d r3; Some ((k, w) :: ms, r4)
  | _ => None
  end.
Proof.
  intros Hw Hq Hc Hf Hd.
  change (key_text w EmptyString EmptyString q EmptyString EmptyString (String c r))
    with (String DQ (q +:+ String DQ (String ":" (w +:+ String c r)))).
  cbn [raw_members]. rewrite (skip_ws_value (String DQ _)) by done. cbv iota.
  rewrite bool_decide_true by done. rewrite Hq. cbn [mbind option_bind].
  change (skip_ws (String ":" ?x)) with (String ":" x). cbv iota.
  rewrite (raw_value_text w v); [done|done|done|done|].
  apply (blank_ends EmptyString); [done|set_solver].
Qed.

Lemma models_raws ws vs :
  Forall2 value_text ws vs → fits 0 (height (models_tree vs)) →
  raw_object (models_text ws) = Some [("data", array_text ws); ("object", quoted "'list'")].
Proof.
  intros Hall Hd. rewrite models_text_members. unfold raw_object.
  change (skip_ws (String "{" ?x)) with (String "{" x). cbv iota.
  set (k2 := key_text (quoted "'list'") EmptyString EmptyString "object" EmptyString EmptyString "}").
  set (k := key_text (array_text ws) EmptyString EmptyString "data" EmptyString EmptyString
    (String "," k2)).
  assert (starts_value (skip_ws k) = true) as Hs by (by apply key_starts).
  rewrite (proj2 (not_closing _ _ _ Hs)).
  assert (S (String.length (array_text ws)) + S (String.length k2) ≤ String.length k)%nat as Hl
    by exact (key_text_length _ EmptyString EmptyString "data" EmptyString EmptyString (String "," k2)).
  assert (9 ≤ String.length k2)%nat as Hl2 by (vm_compute; lia).
  cbn [String.length]. unfold fits in Hd. cbn [height models_tree max_list_with snd] in Hd.
  generalize dependent (String.length k). intros n Hl. unfold k. rewrite (raw_member_read _ (JArr vs) "data" "data");
    [|by apply array_value|done|left|lia|unfold fits; simpl; lia].
  change (skip_ws (String "," ?x)) with (String "," x). cbv iota.
  destruct n as [|n]; [lia|]. assert (6 ≤ n)%nat by lia. unfold k2.
  rewrite (raw_member_read _ (JStr "list") "object" "object");
    [done|apply list_text|done|right; right; left|simpl; lia|unfold fits; simpl; lia].
Qed.

(** The poller gets exactly the entries. *)
Lemma decode_models_text ws vs :
  Forall2 value_text ws vs → Forall (λ v, fits 2 (height v)) vs →
  decode_models (models_text ws) = Decoded ws.
Proof.
  intros Hall Hf%models_fits. pose proof (models_value ws vs Hall) as Hv. unfold decode_models.
  rewrite <- (string_app_nil_r (models_text ws)) at 2.
  rewrite (raw_value_text _ _ _ _ _ Hv); [|unfold fuel_for; lia|done|done].
  rewrite (value_text_parse _ _ Hv Hf). unfold models_tree at 1. rewrite (models_raws ws vs Hall Hf).
  assert (into_raws (array_text ws) [] = (ws, false)) as Hr.
  { apply (array_raws ws vs Hall). unfold fits in *.
    cbn [height models_tree max_list_with snd] in Hf. simpl. lia. }
  cbn [from_option foldl]. unfold id at 1. cbn [foldl].
  unfold models_member at 2. cbn [fst snd Data].
  change (find_field [("object", true); ("data", false)] "data") with (Some false). cbv iota.
  by rewrite Hr.
Qed.

(** ** Polling a bridge *)

(** Compaction keeps an entry's value and so its id. *)
Lemma compact_entry raw :
  entry_ok raw → ∃ v, parse raw = Some v ∧ fits 2 (height v) ∧ value_text (compact raw) v ∧
    advertised_id (compact raw) = advertised_id raw.
Proof.
  intros (v & Hp & Hf). destruct (compact_value_text raw v Hp) as [Hv H0]. exists v.
  split_and!; [done|done|done|].
  unfold advertised_id, entry_id, Unmarshal. by rewrite Hp, (value_text_parse _ _ Hv H0).
Qed.

Section named.
Variables (f : string → RawMessage) (names : list string).
Hypothesis Hf : ∀ n, n ∈ names → advertised_id (f n) = Some n.

Lemma entry_ids_named : entry_ids (map f names) = names.
Proof.
  unfold entry_ids. induction names as [|n l IH]; [done|]. simpl.
  rewrite Hf by left. f_equal. apply IH. intros x Hx. apply Hf. by right.
Qed.

Lemma first_entry_named m :
  first_entry m (map f names) = if decide (m ∈ names) then Some (f m) else None.
Proof.
  induction names as [|n l IH]; [by case_decide as Hm; [apply elem_of_nil in Hm|]|].
  cbn [map]. rewrite first_entry_cons, Hf by left. destruct (decide (m = n)) as [->|Hne].
  - by rewrite !decide_True by (done || left).
  - rewrite decide_False by congruence. rewrite IH by (intros x Hx; apply Hf; by right).
    destruct (decide (m ∈ l)); [by rewrite decide_True by by right|].
    by rewrite decide_False by by intros [?|?]%elem_of_cons.
Qed.
End named.

(** What the poller of a second bridge gets from a first one. *)
Lemma served_models `{!MapRange, !MapRangeLaw} s :
  server_wf s →
  let raw n := compact (default EmptyString (modelDetails (disc s) !! n)) in
  ∃ names, (∀ n, n ∈ names ↔ n ∈ dom (models (disc s))) ∧
    (∀ n, n ∈ names → advertised_id (raw n) = Some n ∧
      modelDetails (disc s) !! n ≠ None) ∧
    decode_models (resp_Body (handleModels s)) = Decoded (map raw names).
Proof.
  intros Hwf raw. destruct (handleModels_text s Hwf) as (names & Hperm & ->).
  assert (∀ n, n ∈ names ↔ n ∈ dom (models (disc s))) as Hn
    by (intros n; by rewrite Hperm, elem_of_elements).
  assert (∀ n, n ∈ names → ∃ r v, modelDetails (disc s) !! n = Some r ∧ fits 2 (height v) ∧
    value_text (raw n) v ∧ advertised_id (raw n) = Some n) as Hraw.
  { intros n Hin%Hn. destruct (swf_disc s Hwf) as [_ Hdom]. rewrite <- Hdom in Hin.
    apply elem_of_dom in Hin as [r Hr]. destruct (swf_details s Hwf n r Hr) as [Hid Hok].
    destruct (compact_entry r Hok) as (v & _ & Hfit & Hv & Ha). exists r, v. unfold raw.
    rewrite Hr. simpl. by rewrite Ha. }
  exists names. split; [done|]. split.
  { intros n Hin. destruct (Hraw n Hin) as (r & v & -> & _ & _ & Ha). done. }
  assert (∃ vs, Forall2 value_text (map raw names) vs ∧ Forall (λ v, fits 2 (height v)) vs)
    as (vs & Hall & Hfit).
  { clear Hperm Hn. induction names as [|n l IH]; [by exists []|].
    destruct IH as (vs & Hall & Hfit); [intros x Hx; apply Hraw; by right|].
    destruct (Hraw n ltac:(left)) as (r & v & _ & Hv & Ht & _).
    exists (v :: vs). split; by constructor. }
  exact (decode_models_text _ vs Hall Hfit).
Qed.

(** [C14] A bridge can be a server of another bridge.  When the poller of the
    second gets the first one's answer to [GET /v1/models], in whatever order
    the models are listed there, the first counts as healthy, it is a candidate
    for exactly the models it knows, and of a model that is new to the second
    the metadata is that of the first up to white space and escapes. *)
Theorem bridges_federate `{!MapRange, !MapRangeLaw, !Backends} s url d :
  server_wf s →
  http_get (url +:+ "/v1/models") = Answered (resp_Body (handleModels s)) →
  IsHealthy (poll url d) url = true ∧
  (∀ m, url ∈ ServersForModel (poll url d) m ↔ m ∈ dom (models (disc s))) ∧
  (∀ m, modelDetails d !! m = None →
    modelDetails (poll url d) !! m = compact <$> modelDetails (disc s) !! m).
Proof.
  intros Hwf Hg. destruct (served_models s Hwf) as (names & Hn & Hraw & Hdec).
  set (raw := λ n, compact (default EmptyString (modelDetails (disc s) !! n))) in *.
  assert (probe (url +:+ "/v1/models") = Decoded (map raw names)) as Hp
    by (unfold probe; by rewrite Hg).
  assert (∀ n, n ∈ names → advertised_id (raw n) = Some n) as Hid by (intros n; apply Hraw).
  assert (∀ m, url ∈ ServersForModel (poll url d) m ↔ m ∈ dom (models (disc s))) as Hs.
  { intros m. rewrite <- Hn. etrans; [apply (poll_self url d m)|]. rewrite Hp. split.
    - intros (data & [= <-] & Hin). by rewrite entry_ids_named in Hin.
    - intros Hin. exists (map raw names). by rewrite entry_ids_named. }
  destruct (poll_decoded url d _ Hp) as (det & Hdet & Hpoll). split; [|split; [done|]].
  { by rewrite Hpoll, IsHealthy_setHealthy, decide_True. }
  intros m Hm. rewrite Hpoll, details_setHealthy.
  destruct (updateModels_lookup url (entry_ids (map raw names)) (with_models d (models d) det) m)
    as [_ ->]. cbn [models modelDetails with_models].
  rewrite Hdet, Hm, first_entry_named, entry_ids_named by done.
  destruct (decide (m ∈ names)) as [Hin|Hin].
  - rewrite bool_decide_false.
    + destruct (Hraw m Hin) as [_ Hd]. unfold raw.
      by destruct (modelDetails (disc s) !! m).
    + intros [_ [Hf _]%served_nil]. by apply bool_decide_eq_false in Hf.
  - assert (modelDetails (disc s) !! m = None) as ->; [|by case_bool_decide].
    apply not_elem_of_dom. destruct (swf_disc s Hwf) as [_ ->]. by rewrite <- Hn.
Qed.

(** ** Witness *)

Section witnesses.
#[local] Existing Instances sample_grow sample_yaml sample_url sample_range.
#[local] Instance range_law : MapRangeLaw.
Proof. by intros X. Qed.

(** The sample server behind another bridge. *)
#[local] Instance behind : Backends :=
  {| http_get := λ _, Answered (resp_Body (handleModels (sample_srv None))) |}.

Lemma bridges_federate_witness :
  let d' := poll "http://bridge" sample_discovery in
  IsHealthy d' "http://bridge" = true ∧
  (∀ m, "http://bridge" ∈ ServersForModel d' m ↔ m ∈ dom (models (disc (sample_srv None)))) ∧
  (∀ m, modelDetails sample_discovery !! m = None →
    modelDetails d' !! m = compact <$> modelDetails (disc (sample_srv None)) !! m).
Proof.
  apply (bridges_federate (sample_srv None) "http://bridge" sample_discovery); [|done].
  apply sample_srv_wf.
Defined.
End witnesses.
