(* ===== verification/Proxy.v ===== *)
(** * The OpenAI endpoints (src/server/server.go)

    [handleOpenAIProxy]: reading the request, routing it, forwarding it on the
    connection, copying the answer, and releasing the connection.  Waiting in
    the queue is a parameter here, a function of the state: while a request
    waits, the others change the state, in the steps of [Queue]. *)
From Stdlib Require Import ZArith Lia.
From stdpp Require Import base tactics option list numbers strings gmap relations.
From S2P Require Import Prelude GoJson Config Interfaces Backend Discovery Metrics.
From S2P Require Import Router Queue RouterPool QueuePool Http Server.

Open Scope Z_scope.

(** ** Requests *)

Record openAIRequest : Type := mkOpenAI {
  Model : string;
  Stream : bool
}.

Definition openAI_request : decoder openAIRequest := into_struct
  [("model", field Model (λ x r, mkOpenAI x (Stream r)) into_string);
   ("stream", field Stream (λ x r, mkOpenAI (Model r) x) into_bool)].

(** What the handler sees of a request. *)
Record ProxyReq : Type := mkProxyReq {
  r_Method : string;
  r_Path : string;
  r_Header : Header;
  r_Body : Body
}.

(** The part of the handler before the routing. *)
Definition admit_request (body : Body) : Response + string * openAIRequest :=
  match body with
  | BodyError => inl (respondError 400 "failed to read request body")
  | BodyOf b =>
      match Unmarshal openAI_request b (mkOpenAI EmptyString false) with
      | inl _ => inl (respondError 400 "invalid JSON body")
      | inr req =>
          if bool_decide (Model req = EmptyString) then
            inl (respondError 400 "model field is required")
          else inr (b, req)
      end
  end.

(** The [switch] on the error of [Route]. *)
Definition route_error (e : error) (model : string) : Response :=
  if Is e ErrNoServers then respondError 503 ("no servers available for model: " +:+ model)
  else if Is e ErrAllBusy then respondError 503 "all servers at capacity"
  else if Is e ErrQueueTimeout then respondError 503 "queue wait timed out"
  else if Is e Canceled then respondError 503 "request canceled"
  else respondError 500 ("routing error: " +:+ Error e).

(** ** Answers *)

Definition Header_Set (h : Header) (key v : string) : Header := <[CanonicalHeaderKey key := [v]]> h.

(** The copy of one header of the answer; [None] is the panic of [vals[0]]. *)
Definition copy_header (stream : bool) (hdr : Header) (acc : option Header) (k : string)
    : option Header :=
  h ← acc;
  let vals := default [] (hdr !! k) in
  if bool_decide (k = "Content-Type") && stream then
    match vals with v :: _ => Some (Header_Set h k v) | [] => None end
  else Some (foldl (λ h v, Header_Add h k v) h vals).

(** [w.WriteHeader] panics on a code that does not have three digits. *)
Definition valid_code (code : Z) : bool := (100 <=? code) && (code <=? 999).

Definition count_success (s : Server) : Server :=
  mkServer (cfg s) (disc s) (rtr s) (mc s) (wrap64 (bridgeReqsSuccess s + 1)) (bridgeReqsError s).
Definition count_error (s : Server) : Server :=
  mkServer (cfg s) (disc s) (rtr s) (mc s) (bridgeReqsSuccess s) (wrap64 (bridgeReqsError s + 1)).

(** [defer s.pool.Release(conn)]. *)
Definition release (c : Conn) (s : Server) : Server := set_pool (Release c (server_pool s)) s.

(** ** The handler *)

Section handler.
Context `{!NetURL, !HttpClient, !MapRange, !SortSlice}.

(** The part of the answer's body that reaches the client. *)
Variable io_Copy : string → string.

(** [queueMgr.enqueue]. *)
Variable enqueue : Context → string → Server → Result Conn * Server.

(** [s.rtr.Route]; [None] is a panic. *)
Definition call_Route (ctx : Context) (model : string) (s : Server)
    : option (Result Conn) * Server :=
  match Route ctx (Global (Config.Get (cfg s))) (disc s) model (rtr s) with
  | (Routed c, st) => (Some (Ok c), set_rtr st s)
  | (RouteErr e, st) => (Some (Err e), set_rtr st s)
  | (RoutePanic, st) => (None, set_rtr st s)
  | (Enqueue, st) => let '(r, s') := enqueue ctx model (set_rtr st s) in (Some r, s')
  end.

(** The part of the handler between the routing and the release. *)
Definition forward (ctx : Context) (c : Conn) (q : ProxyReq) (b : string) (stream : bool)
    (s : Server) : option Response * Server :=
  let h0 : Header := if stream then {["Content-Type" := ["text/event-stream"]]} else ∅ in
  match ProxyRequest (server_pool s) ctx c (r_Method q) (r_Path q) b (r_Header q)
          (range_keys (dom (r_Header q))) with
  | Err e => (Some (respondError 502 ("proxy error: " +:+ Error e)), count_error s)
  | Ok resp =>
      match foldl (copy_header stream (resp_Header resp)) (Some h0)
              (range_keys (dom (resp_Header resp))) with
      | None => (None, s)
      | Some h =>
          if valid_code (StatusCode resp) then
            (Some (mkResponse (StatusCode resp) h (io_Copy (resp_Body resp))), count_success s)
          else (None, s)
      end
  end.

Definition handleOpenAIProxy (checkStream : bool) (ctx : Context) (q : ProxyReq) (s : Server)
    : option Response * Server :=
  match admit_request (r_Body q) with
  | inl r => (Some r, s)
  | inr (b, req) =>
      match call_Route ctx (Model req) s with
      | (None, s1) => (None, s1)
      | (Some (Err e), s1) => (Some (route_error e (Model req)), s1)
      | (Some (Ok c), s1) =>
          let '(o, s2) := forward ctx c q b (checkStream && Stream req) s1 in (o, release c s2)
      end
  end.

Definition handleChatCompletions := handleOpenAIProxy true.
Definition handleCompletions := handleOpenAIProxy false.
Definition handleEmbeddings := handleOpenAIProxy false.
End handler.

(** ** Facts *)

Section facts.
Context `{!NetURL, !HttpClient, !MapRange, !MapRangeLaw, !SortSlice, !SortSliceLaws}.

(** Forwarding leaves the router state alone, and counts at most once. *)
Lemma forward_state (io_Copy : string → string) ctx c q b stream s :
  let '(o, s') := forward io_Copy ctx c q b stream s in
  rtr s' = rtr s ∧ cfg s' = cfg s ∧ disc s' = disc s ∧ mc s' = mc s.
Proof. unfold forward. repeat case_match; simplify_eq; done. Qed.

(** The panic of an empty list of values needs an answer with such a list. *)
Lemma copy_header_total stream hdr order h :
  (∀ k, hdr !! k ≠ Some []) → (∀ k, k ∈ order → k ∈ dom hdr) →
  is_Some (foldl (copy_header stream hdr) (Some h) order).
Proof.
  intros Hne. revert h. induction order as [|k order IH]; intros h Hk; simpl; [done|].
  assert (is_Some (hdr !! k)) as [vals Hv] by (apply elem_of_dom, Hk; left).
  destruct vals as [|v vals]; [by destruct (Hne k)|].
  rewrite Hv. simpl. destruct (_ && _); apply IH; intros k' ?; apply Hk; by right.
Qed.

Lemma copy_header_plain hdr order h :
  foldl (copy_header false hdr) (Some h) order = Some (copy_headers order hdr h).
Proof.
  unfold copy_headers. revert h. induction order as [|k order IH]; intros h; [done|].
  cbn [foldl]. unfold copy_header at 2. cbn [mbind option_bind].
  rewrite andb_false_r. apply IH.
Qed.

(** A streamed answer has one content type: the first of the backend. *)
Lemma copy_header_stream hdr order h h' :
  NoDup order → Forall (λ k, CanonicalHeaderKey k = k) order →
  foldl (copy_header true hdr) (Some h) order = Some h' →
  h' !! "Content-Type" =
    (if decide ("Content-Type" ∈ order)
     then Some (take 1 (default [] (hdr !! "Content-Type"))) else h !! "Content-Type") ∧
  ∀ k, k ≠ "Content-Type" → default [] (h' !! k) =
    default [] (h !! k) ++ if decide (k ∈ order) then default [] (hdr !! k) else [].
Proof.
  intros Hnd Hc. revert h. induction order as [|k order IH]; intros h; cbn [foldl].
  { intros [= <-]. split; [by rewrite decide_False by apply not_elem_of_nil|].
    intros k _. rewrite decide_False by apply not_elem_of_nil. by rewrite app_nil_r. }
  apply NoDup_cons in Hnd as [Hni Hnd]. apply Forall_cons in Hc as [Hk Hc].
  unfold copy_header at 2. cbn [mbind option_bind]. rewrite andb_true_r. case_bool_decide as Hct.
  - destruct (default [] (hdr !! k)) as [|v vals] eqn:Hv.
    { intros E. exfalso. clear -E. induction order; simpl in E; done || auto. }
    intros Hf. destruct (IH Hnd Hc _ Hf) as [Hx Hy]. rewrite Hct in *. split.
    + rewrite Hx, decide_False by done. rewrite decide_True by left.
      unfold Header_Set. rewrite Hk, lookup_insert_eq, Hv. done.
    + intros k' Hne. rewrite (Hy k' Hne). unfold Header_Set. rewrite Hk.
      rewrite lookup_insert_ne by done. f_equal. apply decide_ext.
      rewrite elem_of_cons. naive_solver.
  - intros Hf. destruct (IH Hnd Hc _ Hf) as [Hx Hy]. split.
    + rewrite Hx, Header_Add_vals, Hk, (decide_False (P := (_ ∧ _))) by naive_solver.
      apply decide_ext. rewrite elem_of_cons. naive_solver.
    + intros k' Hne. rewrite (Hy k' Hne), Header_Add_vals, Hk.
      destruct (decide (k' = k)) as [->|Hkk].
      * rewrite (decide_False (P := k ∈ order)), app_nil_r by done.
        rewrite (decide_True (P := k ∈ k :: order)) by left.
        destruct (default [] (hdr !! k)) as [|v vs] eqn:E.
        -- rewrite decide_False by by intros []. by rewrite app_nil_r.
        -- by rewrite decide_True by done.
      * rewrite decide_False by by intros []. f_equal. apply decide_ext.
        rewrite elem_of_cons. naive_solver.
Qed.

(** The headers of an answer that is forwarded: those of the backend; but a streamed
    answer has exactly one content type, the first one of the backend, or
    [text/event-stream]. *)
Definition forwarded_headers (stream : bool) (hdr h : Header) : Prop :=
  (∀ k, stream = false ∨ k ≠ "Content-Type" → default [] (h !! k) = default [] (hdr !! k)) ∧
  (stream = true → h !! "Content-Type" =
    Some (match hdr !! "Content-Type" with Some vals => take 1 vals | None => ["text/event-stream"] end)).

Lemma copied_headers stream hdr h :
  (∀ k, k ∈ dom hdr → CanonicalHeaderKey k = k) →
  foldl (copy_header stream hdr) (Some (if stream then {["Content-Type" := ["text/event-stream"]]} else ∅))
    (range_keys (dom hdr)) = Some h →
  forwarded_headers stream hdr h.
Proof.
  intros Hcan Hf.
  assert (NoDup (range_keys (dom hdr))) as Hnd by (rewrite range_keys_perm; apply NoDup_elements).
  assert (∀ k, k ∈ range_keys (dom hdr) ↔ is_Some (hdr !! k)) as Hin
    by (intros k; by rewrite range_keys_perm, elem_of_elements, elem_of_dom).
  assert (Forall (λ k, CanonicalHeaderKey k = k) (range_keys (dom hdr))) as Hc
    by (apply Forall_forall; intros k Hk; apply Hcan, elem_of_dom, Hin, Hk).
  assert (∀ k, (if decide (k ∈ range_keys (dom hdr)) then default [] (hdr !! k) else []) =
    default [] (hdr !! k)) as Hd.
  { intros k. case_decide as Hk; [done|]. rewrite Hin in Hk. apply eq_None_not_Some in Hk. by rewrite Hk. }
  destruct stream.
  - destruct (copy_header_stream hdr _ _ _ Hnd Hc Hf) as [Hct Hother]. split.
    + intros k [?|Hne]; [done|]. rewrite (Hother k Hne), Hd. by rewrite lookup_singleton_ne by done.
    + intros _. rewrite Hct. case_decide as Hk; rewrite Hin in Hk.
      * destruct Hk as [vals Hk]. by rewrite Hk.
      * apply eq_None_not_Some in Hk. rewrite Hk. by rewrite lookup_singleton_eq.
  - rewrite copy_header_plain in Hf. injection Hf as <-. split; [|done].
    intros k _. rewrite copy_headers_lookup by done. by rewrite lookup_empty, Hd.
Qed.
End facts.

(** ** Theorems *)

Section theorems.
Context `{!NetURL, !HttpClient, !MapRange, !MapRangeLaw, !SortSlice, !SortSliceLaws}.
Variable io_Copy : string → string.
Variable enqueue : Context → string → Server → Result Conn * Server.

Abbreviation handle := (handleOpenAIProxy io_Copy enqueue).

(** What [held] is when a request that waited has its result: its connection
    and those of the others. *)
Lemma enqueue_tracked (st : RouterState Pool) (qs : QState Pool) c others :
  router_wf (ok := pool_wf) st → reachable (D := Discovery) st qs → held qs ≡ₚ c :: others →
  router_wf (ok := pool_wf) (q_router qs) ∧
  tracked (Inflight (pool st)) (pool (q_router qs)) (c :: others).
Proof.
  intros Hwf Hr Hh. destruct (reachable_inv (ok := pool_wf) st qs Hwf Hr) as ((? & _ & Ht) & _ & _).
  split; [done|]. by rewrite <- Hh.
Qed.

Lemma release_tracked base c s l :
  router_wf (ok := pool_wf) (rtr s) → tracked base (server_pool s) (c :: l) →
  router_wf (ok := pool_wf) (rtr (release c s)) ∧ tracked base (server_pool (release c s)) l.
Proof.
  intros [Hok Hrr] Ht. destruct (tracked_release (ok := pool_wf) base c _ l Hok Ht) as [? ?].
  done.
Qed.

Lemma forward_release ctx c q b stream s :
  rtr (release c (forward io_Copy ctx c q b stream s).2) = rtr (release c s).
Proof.
  pose proof (forward_state io_Copy ctx c q b stream s) as Hf.
  destruct (forward _ _ _ _ _ _ _) as [o s']. destruct Hf as (Hr & _).
  unfold release, set_pool, set_rtr, server_pool. simpl. by rewrite Hr.
Qed.

(** The request is one that [Route] sends to the queue. *)
Definition waits (ctx : Context) (q : ProxyReq) (s : Server) : bool :=
  match admit_request (r_Body q) with
  | inl _ => false
  | inr (_, req) =>
      match (Route ctx (Global (Config.Get (cfg s))) (disc s) (Model req) (rtr s)).1 with
      | Enqueue => true
      | _ => false
      end
  end.

(** A request gives back what it takes: if the connections [l] are out
    when it arrives, they and no other are out when its handler has returned,
    on every path: refused, not routed, proxied, failed, or ended by a panic.
    If it has to wait, the connections of the others may change to [l'] until its
    wait ends; [enqueue_tracked] shows that the queue hands over a connection in
    the way that is assumed here of [enqueue]. *)
Theorem proxy_balanced base l l' checkStream ctx q s :
  router_wf (ok := pool_wf) (rtr s) → tracked base (server_pool s) l →
  (∀ model s1, router_wf (ok := pool_wf) (rtr s1) → tracked base (server_pool s1) l →
     let '(r, s2) := enqueue ctx model s1 in
     router_wf (ok := pool_wf) (rtr s2) ∧
     tracked base (server_pool s2) (match r with Ok c => c :: l' | Err _ => l' end)) →
  let '(_, s') := handle checkStream ctx q s in
  router_wf (ok := pool_wf) (rtr s') ∧
  tracked base (server_pool s') (if waits ctx q s then l' else l).
Proof.
  intros Hwf Ht Henq. unfold handleOpenAIProxy, waits.
  destruct (admit_request (r_Body q)) as [r|[b req]]; [by auto|].
  unfold call_Route, Route.
  destruct (route ctx _ (disc s) (Model req) true (rtr s)) as [out st] eqn:Hr.
  destruct (route_tracked (ok := pool_wf) base _ _ _ _ _ _ _ _ l Hwf Ht Hr)
    as (Hwf1 & Ht1 & Hnp & _).
  assert (∀ c s1 k, router_wf (ok := pool_wf) (rtr s1) → tracked base (server_pool s1) (c :: k) →
    let '(o, s2) := forward io_Copy ctx c q b (checkStream && Stream req) s1 in
    router_wf (ok := pool_wf) (rtr (release c s2)) ∧
    tracked base (server_pool (release c s2)) k) as Hfin.
  { intros c s1 k Hw1 Htr. pose proof (forward_release ctx c q b (checkStream && Stream req) s1) as Hf.
    destruct (forward _ _ _ _ _ _ _) as [o s2]. cbn [snd] in Hf.
    change (server_pool (release c s2)) with (pool (rtr (release c s2))). rewrite Hf.
    by apply (release_tracked base c s1 k). }
  destruct out as [c|e| |]; [| | |done].
  - specialize (Hfin c (set_rtr st s) l Hwf1 Ht1).
    destruct (forward _ _ _ _ _ _ _) as [o s2]. destruct Hfin. auto.
  - auto.
  - specialize (Henq (Model req) (set_rtr st s) Hwf1 Ht1).
    destruct (enqueue _ _ _) as [[c|e] s2]; destruct Henq as [Hw2 Ht2]; [|by auto].
    specialize (Hfin c s2 l' Hw2 Ht2). destruct (forward _ _ _ _ _ _ _) as [o s3].
    destruct Hfin. auto.
Qed.

(** [C38] A request that gets a connection, from [Route] at once or after a wait in the
    queue, and whose backend answers.  The client receives the backend's status, the
    delivered body and the backend's headers, with the one content type that a
    streamed answer has; one success is counted from the state [s1] in which the
    request got its connection, no error, and the connection is released.  The answer
    is one that [net/http] hands on: a status of three digits, and header keys in
    canonical form, each with a value. *)
Theorem proxy_forwards checkStream ctx q s b req c s1 resp :
  admit_request (r_Body q) = inr (b, req) →
  call_Route enqueue ctx (Model req) s = (Some (Ok c), s1) →
  ProxyRequest (server_pool s1) ctx c (r_Method q) (r_Path q) b (r_Header q)
    (range_keys (dom (r_Header q))) = Ok resp →
  valid_code (StatusCode resp) = true →
  (∀ k, k ∈ dom (resp_Header resp) → CanonicalHeaderKey k = k) →
  (∀ k, resp_Header resp !! k ≠ Some []) →
  ∃ r s', handle checkStream ctx q s = (Some r, s') ∧
    StatusCode r = StatusCode resp ∧ resp_Body r = io_Copy (resp_Body resp) ∧
    forwarded_headers (checkStream && Stream req) (resp_Header resp) (resp_Header r) ∧
    bridgeReqsSuccess s' = wrap64 (bridgeReqsSuccess s1 + 1) ∧
    bridgeReqsError s' = bridgeReqsError s1 ∧ server_pool s' = Release c (server_pool s1).
Proof.
  intros Hadm Hr Hp Hcode Hcan Hne. unfold handleOpenAIProxy. rewrite Hadm, Hr. unfold forward.
  rewrite Hp. 
  set (h0 := if checkStream && Stream req
    then ({["Content-Type" := ["text/event-stream"]]} : Header) else ∅).
  destruct (copy_header_total (checkStream && Stream req) (resp_Header resp)
    (range_keys (dom (resp_Header resp))) h0 Hne) as [h Hh].
  { intros k. by rewrite range_keys_perm, elem_of_elements. }
  rewrite Hh, Hcode. eexists _, _. split; [reflexivity|]. split_and!; try reflexivity.
  by apply copied_headers.
Qed.

(** Requests that cannot be served, with a live client and without the
    queue: if discovery knows no healthy server of the pool for the model, the
    answer is 503 naming the model and nothing changes; if the request gets no
    connection although there are such servers, it is 503 for capacity, and the
    pool and the counters of the bridge are as before. *)
Theorem proxy_unavailable checkStream ctx q s b req :
  server_wf s → ctx_Err ctx = None →
  FallbackStrategy (Global (Config.Get (cfg s))) ≠ FallbackQueue →
  admit_request (r_Body q) = inr (b, req) →
  let svs := ServersForModel (disc s) (Model req) in
  let '(o, s') := handle checkStream ctx q s in
  ((∀ u, u ∈ svs → GetServer (server_pool s) u = None) →
     o = Some (respondError 503 ("no servers available for model: " +:+ Model req)) ∧ s' = s) ∧
  (∀ u, u ∈ svs → is_Some (GetServer (server_pool s) u) →
     (∀ c, (Route ctx (Global (Config.Get (cfg s))) (disc s) (Model req) (rtr s)).1 ≠ Routed c) →
     o = Some (respondError 503 "all servers at capacity") ∧ server_pool s' = server_pool s ∧
     bridgeReqsSuccess s' = bridgeReqsSuccess s ∧ bridgeReqsError s' = bridgeReqsError s).
Proof.
  intros Hs Hctx Hstrat Hadm svs. unfold handleOpenAIProxy. rewrite Hadm.
  unfold call_Route, Route, route.
  destruct (swf_rtr s Hs) as [Hok Hrr].
  pose proof (ranked_nil_iff (server_pool s) svs) as Hnil.
  pose proof (route_live (ok := pool_wf) ctx (FallbackStrategy (Global (Config.Get (cfg s))))
    svs (Model req) true (rtr s) Hctx Hok Hrr) as Hl.
  change (index_ServersForModel (disc s) (Model req)) with svs.
  destruct (decide (ranked (server_pool s) svs = [])) as [Hn|Hn].
  - rewrite (route_empty ctx _ svs _ true (rtr s)) by exact Hn. simpl. split.
    + intros _. split; [done|]. by destruct s.
    + intros u Hu [sc Hsc]. pose proof (proj1 Hnil Hn u Hu) as E.
      change (GetServer (server_pool s) u = None) in E. congruence.
  - destruct (route_servers _ _ _ _ _ _) as [r st]. destruct Hl as (Hr & _ & _ & Hp).
    assert ((∀ c, r ≠ Routed c) → r = RouteErr ErrAllBusy) as Hbusy.
    { intros Hnr. rewrite Hr in Hnr |- *. unfold decision in *.
      change (pool (rtr s)) with (server_pool s) in *.
      rewrite (bool_decide_false (ranked _ _ = [])) in * by done.
      rewrite (bool_decide_false (_ = FallbackQueue)) in * by done. simpl in *.
      destruct (pick _ _) as [si|]; [by destruct (Hnr (mkConn (url si)))|].
      destruct (bool_decide (_ = FallbackBestEffort)); [|done].
      destruct (best_of _) as [si|]; [by destruct (Hnr (mkConn (url si)))|done]. }
    destruct r as [c|e| |].
    + destruct (forward _ _ _ _ _ _ _) as [o s2]. split.
      * intros Hall. exfalso. by apply Hn, Hnil.
      * intros u _ _ Hc. by destruct (Hc c).
    + assert (RouteErr e = RouteErr ErrAllBusy) as [= ->] by by apply Hbusy.
      split; [intros Hall; exfalso; by apply Hn, Hnil|].
      intros _ _ _ _. split_and!; [reflexivity|exact Hp|reflexivity..].
    + by discriminate Hbusy.
    + by discriminate Hbusy.
Qed.

(** [C26] A request that waited in the queue in vain, whose context is at most
    cancelled, is answered with 503: in every run of the queue the error that
    [enqueue] returns is one the handler knows. *)
Theorem queued_request_503 (st : RouterState Pool) (qs : QState Pool) id e ctx model :
  router_wf (ok := pool_wf) st → reachable (D := Discovery) st qs →
  q_waiters qs !! id = Some (Returned (Err e)) → q_ctxs qs !! id = Some ctx →
  ctx_Err ctx ≠ Some DeadlineExceeded → (∀ e', ctx_Err ctx = Some e' → e' ∈ [Canceled; DeadlineExceeded]) →
  StatusCode (route_error e model) = 503.
Proof.
  intros Hwf Hr Hw Hctx Hnd Hstd.
  destruct (reachable_inv (ok := pool_wf) st qs Hwf Hr) as (_ & _ & Hq).
  destruct (res_returned _ Hq _ _ Hw) as [[E|E]|Hx]; [by subst e..|].
  rewrite Hctx in Hx. change (ctx_Err ctx = Some e) in Hx. pose proof (Hstd e Hx) as Hin. apply elem_of_cons in Hin as [E|Hin]; [by subst e|].
  apply list_elem_of_singleton in Hin. congruence.
Qed.
End theorems.

(** ** Witnesses *)

Section witnesses.
#[local] Existing Instances sample_grow sample_yaml sample_url sample_range sample_http.
#[local] Existing Instances insertion_sort insertion_sort_laws.
#[local] Instance sample_range_is_ok : MapRangeLaw.
Proof. by intros X. Qed.

Let s0 : Server := sample_srv None.
Let body : string := quoted "{'model':'m1','stream':true}".
Let q0 : ProxyReq := mkProxyReq "POST" "/v1/completions" {["X-Test" := ["1"; "2"]]} (BodyOf body).
Let c0 : Conn := mkConn "http://a:1".

(** A queue that never has a place in time. *)
Definition sample_enqueue : Context → string → Server → Result Conn * Server :=
  λ _ _ s, (Err ErrQueueTimeout, s).

Lemma proxy_balanced_witness :
  let '(_, s') := handleOpenAIProxy id sample_enqueue true Background q0 s0 in
  router_wf (ok := pool_wf) (rtr s') ∧
  tracked (Inflight (server_pool s0)) (server_pool s')
    (if waits Background q0 s0 then [] else []).
Proof.
  apply (proxy_balanced id sample_enqueue (Inflight (server_pool s0)) [] [] true Background q0 s0).
  - apply sample_srv_wf.
  - exact (tracked_nil (ok := pool_wf) (rtr s0) (swf_rtr _ (sample_srv_wf None))).
  - intros model s1 Hw Ht. by split.
Defined.

Let resp0 : Response := mkResponse 200 {["X-Test" := ["1"; "2"]]} "http://a:1/v1/completions".

(** A streamed request, with a connection at once. *)
Let s1 : Server := (call_Route sample_enqueue Background "m1" s0).2.

Lemma proxy_forwards_witness :
  ∃ r s', handleOpenAIProxy id sample_enqueue true Background q0 s0 = (Some r, s') ∧
    StatusCode r = 200 ∧ resp_Body r = "http://a:1/v1/completions" ∧
    forwarded_headers true {["X-Test" := ["1"; "2"]]} (resp_Header r) ∧
    bridgeReqsSuccess s' = wrap64 (bridgeReqsSuccess s1 + 1) ∧
    bridgeReqsError s' = bridgeReqsError s1 ∧ server_pool s' = Release c0 (server_pool s1).
Proof.
  assert (∀ k : string, k ∈ dom (resp_Header resp0) → k = "X-Test") as Hk.
  { intros k Hk. cbn [resp0 resp_Header] in Hk. by rewrite dom_singleton_L, elem_of_singleton in Hk. }
  apply (proxy_forwards id sample_enqueue true Background q0 s0 body (mkOpenAI "m1" true) c0 s1 resp0).
  - vm_compute. reflexivity.
  - vm_compute. reflexivity.
  - vm_compute. reflexivity.
  - reflexivity.
  - intros k ->%Hk. reflexivity.
  - intros k E. assert (k = "X-Test") as -> by (apply Hk, elem_of_dom; by eexists).
    vm_compute in E. discriminate E.
Defined.

(** No backend serves the model [m9]. *)
Let q9 : ProxyReq := mkProxyReq "POST" "/v1/embeddings" ∅ (BodyOf (quoted "{'model':'m9'}")).

Lemma proxy_unavailable_witness :
  handleOpenAIProxy id sample_enqueue false Background q9 s0 =
    (Some (respondError 503 "no servers available for model: m9"), s0).
Proof.
  pose proof (proxy_unavailable id sample_enqueue false Background q9 s0
    (quoted "{'model':'m9'}") (mkOpenAI "m9" false) (sample_srv_wf None) eq_refl) as Hu.
  destruct (handleOpenAIProxy id sample_enqueue false Background q9 s0) as [o s'].
  destruct Hu as [Hu _]; [vm_compute; discriminate|vm_compute; reflexivity|].
  destruct Hu as [-> ->]; [|done]. change (ServersForModel (disc s0) "m9") with ([] : list string).
  by intros u ?%elem_of_nil.
Defined.

Lemma queued_request_503_witness : StatusCode (route_error Canceled "m") = 503.
Proof.
  apply (queued_request_503 (sample_router 0) slot_lost 0%nat Canceled sample_cancelled "m").
  - apply sample_router_wf.
  - unfold reachable; etrans; [apply one_waiting_reachable|].
    unfold reachable; etrans; [apply about_to_send_reachable|apply slot_lost_reachable].
  - done.
  - done.
  - done.
  - intros e' [= <-]. left.
Defined.

(** The answer to a streamed request whose backend is not reached. *)
Example proxy_502 :
  let '(o, s') := @handleOpenAIProxy sample_url
    {| NewRequest_error := λ _ _, None; client_Do := λ _ _, Err Canceled |} _ _
    id sample_enqueue true Background q0 s0 in
  o = Some (respondError 502 "proxy error: proxy request: context canceled") ∧
  (bridgeReqsSuccess s', bridgeReqsError s', Inflight (server_pool s') "http://a:1") = (0, 1, 0).
Proof. vm_compute. by split. Qed.
End witnesses.
