(* ===== verification/Admin.v ===== *)
(** * The admin API: changing the configuration (src/server/server.go)

    Adding, updating and deleting servers, and reading and replacing the whole
    configuration.  The handlers work on a copy of the configuration whose
    slice shares its array with the store, so they are given on slices. *)
From Stdlib Require Import ZArith Lia.
From stdpp Require Import base tactics option list numbers strings gmap.
From S2P Require Import Prelude GoSlice GoStrings GoText GoJson GoUrl JsonRoundTrip.
From S2P Require Import Config Interfaces Backend Discovery Metrics Router Http Server.

Open Scope Z_scope.

(** ** Requests and answers *)

(** A struct of three fields with the given names. *)
Definition server_decoder (n1 n2 n3 : string) : decoder ServerConfig := into_struct
  [(n1, field URL (λ x r, mkServerConfig x (Distance r) (MaxConcurrentRequests r)) into_string);
   (n2, field Distance (λ x r, mkServerConfig (URL r) x (MaxConcurrentRequests r)) into_int);
   (n3, field MaxConcurrentRequests (λ x r, mkServerConfig (URL r) (Distance r) x) into_int)].

(** The request of [handleAddServer]. *)
Definition add_request : decoder ServerConfig :=
  server_decoder "url" "distance" "max_concurrent_requests".

(** The request of [handleUpdateServer]. *)
Record Patch : Type := mkPatch {
  p_URL : option string;
  p_Distance : option Z;
  p_MaxConcurrentRequests : option Z
}.

Definition update_request : decoder Patch := into_struct
  [("url", field p_URL (λ x r, mkPatch x (p_Distance r) (p_MaxConcurrentRequests r))
      (into_ptr EmptyString into_string));
   ("distance", field p_Distance (λ x r, mkPatch (p_URL r) x (p_MaxConcurrentRequests r))
      (into_ptr 0 into_int));
   ("max_concurrent_requests",
      field p_MaxConcurrentRequests (λ x r, mkPatch (p_URL r) (p_Distance r) x)
      (into_ptr 0 into_int))].

Definition apply_patch (r : Patch) (sc : ServerConfig) : ServerConfig :=
  mkServerConfig (default (URL sc) (p_URL r)) (default (Distance sc) (p_Distance r))
    (default (MaxConcurrentRequests sc) (p_MaxConcurrentRequests r)).

(** The configuration types have no [json] tags: their JSON names are those of
    the Go fields. *)
Definition ServerConfig_json (sc : ServerConfig) : json :=
  JObj [("URL", JStr (URL sc)); ("Distance", JInt (Distance sc));
        ("MaxConcurrentRequests", JInt (MaxConcurrentRequests sc))].

Definition GlobalConfig_json (g : GlobalConfig) : json :=
  JObj [("FallbackStrategy", JStr (FallbackStrategy g));
        ("DiscoveryIntervalSec", JInt (DiscoveryIntervalSec g));
        ("RequestTimeoutSec", JInt (RequestTimeoutSec g));
        ("QueueTimeoutSec", JInt (QueueTimeoutSec g));
        ("DrainTimeoutSec", JInt (DrainTimeoutSec g));
        ("ShutdownTimeoutSec", JInt (ShutdownTimeoutSec g));
        ("OpenCodeBaseURL", JStr (OpenCodeBaseURL g));
        ("OpenCodeContextOutput", JInt (OpenCodeContextOutput g));
        ("OpenCodeContextBuffer", JInt (OpenCodeContextBuffer g));
        ("OpenCodeContextInput", JInt (OpenCodeContextInput g))].

Definition Config_json (d : ConfigData) : json :=
  JObj [("Global", GlobalConfig_json (d_Global d));
        ("Servers", match d_Servers d with
                    | None => JNull
                    | Some svs => JArr (map ServerConfig_json svs)
                    end)].

Definition ServerConfig_decoder : decoder ServerConfig :=
  server_decoder "URL" "Distance" "MaxConcurrentRequests".

Definition GlobalConfig_decoder : decoder GlobalConfig := into_struct
  [("FallbackStrategy", field FallbackStrategy (λ x '(mkGlobalConfig _ b c d e f g h i j),
      mkGlobalConfig x b c d e f g h i j) into_string);
   ("DiscoveryIntervalSec", field DiscoveryIntervalSec (λ x '(mkGlobalConfig a _ c d e f g h i j),
      mkGlobalConfig a x c d e f g h i j) into_int);
   ("RequestTimeoutSec", field RequestTimeoutSec (λ x '(mkGlobalConfig a b _ d e f g h i j),
      mkGlobalConfig a b x d e f g h i j) into_int);
   ("QueueTimeoutSec", field QueueTimeoutSec (λ x '(mkGlobalConfig a b c _ e f g h i j),
      mkGlobalConfig a b c x e f g h i j) into_int);
   ("DrainTimeoutSec", field DrainTimeoutSec (λ x '(mkGlobalConfig a b c d _ f g h i j),
      mkGlobalConfig a b c d x f g h i j) into_int);
   ("ShutdownTimeoutSec", field ShutdownTimeoutSec (λ x '(mkGlobalConfig a b c d e _ g h i j),
      mkGlobalConfig a b c d e x g h i j) into_int);
   ("OpenCodeBaseURL", field OpenCodeBaseURL (λ x '(mkGlobalConfig a b c d e f _ h i j),
      mkGlobalConfig a b c d e f x h i j) into_string);
   ("OpenCodeContextOutput", field OpenCodeContextOutput (λ x '(mkGlobalConfig a b c d e f g _ i j),
      mkGlobalConfig a b c d e f g x i j) into_int);
   ("OpenCodeContextBuffer", field OpenCodeContextBuffer (λ x '(mkGlobalConfig a b c d e f g h _ j),
      mkGlobalConfig a b c d e f g h x j) into_int);
   ("OpenCodeContextInput", field OpenCodeContextInput (λ x '(mkGlobalConfig a b c d e f g h i _),
      mkGlobalConfig a b c d e f g h i x) into_int)].

Definition Config_decoder : decoder ConfigData := into_struct
  [("Global", field d_Global (λ x r, mkConfigData x (d_Servers r)) GlobalConfig_decoder);
   ("Servers", field d_Servers (λ x r, mkConfigData (d_Global r) x)
      (into_slice zero ServerConfig_decoder))].

(** The text of the error with which [json.Unmarshal] refuses a document. *)
Class JsonErrors : Type := json_error_text : string → string.

(** ** Handlers *)

Section handlers.
Context `{!GrowPolicy, !Yaml, !NetURL}.

(** The end that the three handlers of servers share: [Set] on the changed
    configuration, with the status of its failure; [finish] goes on with the
    stored configuration. *)
Definition commit (c : Config) (st : Store) (status : Z) (s : Server)
    (finish : Server → Response * Server) : Response * Server :=
  match Set_ c st with
  | (Some e, st') => (respondError status (Error e), set_cfg st' s)
  | (None, st') => finish (set_cfg st' s)
  end.

Definition handleAddServer (body : Body) (s : Server) : Response * Server :=
  match body with
  | BodyError => (respondError 400 "invalid JSON body", s)
  | BodyOf b =>
      match Decode add_request b zero with
      | inl _ => (respondError 400 "invalid JSON body", s)
      | inr sc =>
          if existsb (λ existing, bool_decide (URL existing = URL sc)) (configured s) then
            (respondError 409 ("server already exists: " +:+ URL sc), s)
          else
            let c := Config.Get (cfg s) in
            let '(h, sl) := append (heap (cfg s)) (Servers c) [sc] in
            commit (mkConfig (Global c) sl) (with_heap (cfg s) h) 400 s (λ s,
              (respondJSON 201 (ServerConfig_json sc), syncServers s))
      end
  end.

(** [None] is the panic of an index out of range. *)
Definition handleUpdateServer (rawID : string) (body : Body) (s : Server)
    : option Response * Server :=
  match server_id rawID with
  | inl r => (Some r, s)
  | inr id =>
      match body with
      | BodyError => (Some (respondError 400 "invalid JSON body"), s)
      | BodyOf b =>
          match Decode update_request b (mkPatch None None None) with
          | inl _ => (Some (respondError 400 "invalid JSON body"), s)
          | inr req =>
              match find_server id (configured s) with
              | None => (Some (respondError 404 ("server not found: " +:+ id)), s)
              | Some (i, sc) =>
                  let c := Config.Get (cfg s) in
                  let updated := apply_patch req sc in
                  match set_index (heap (cfg s)) (Servers c) i updated with
                  | None => (None, s)
                  | Some h =>
                      let '(r, s') := commit c (with_heap (cfg s) h) 400 s (λ s,
                        let s := if bool_decide (URL updated = id) then s
                                 else set_pool (RemoveServer id (server_pool s)) s in
                        (respondJSON 200 (ServerConfig_json updated), syncServers s)) in
                      (Some r, s')
                  end
              end
          end
      end
  end.

Definition handleDeleteServer (rawID : string) (s : Server) : Response * Server :=
  match server_id rawID with
  | inl r => (r, s)
  | inr id =>
      match find_server id (configured s) with
      | None => (respondError 404 ("server not found: " +:+ id), s)
      | Some (i, _) =>
          let c := Config.Get (cfg s) in
          let '(h, sl) := remove_at (heap (cfg s)) (Servers c) i in
          commit (mkConfig (Global c) sl) (with_heap (cfg s) h) 500 s (λ s,
            (mkResponse 204 ∅ EmptyString,
             syncServers (set_pool (RemoveServer id (server_pool s)) s)))
      end
  end.

Definition handleGetConfig (s : Server) : Response :=
  respondJSON 200 (Config_json (view (heap (cfg s)) (Config.Get (cfg s)))).

Context `{!JsonErrors}.

(** The body of [handlePutConfig], by its content type.  In the last case the
    YAML decoder goes on with what the JSON decoder has stored. *)
Definition decode_config (contentType bodyBytes : string) : Response + ConfigData :=
  if Contains contentType "json" then
    match Unmarshal Config_decoder bodyBytes zero_ConfigData with
    | inr d => inr d
    | inl _ => inl (respondError 400 ("invalid JSON: " +:+ json_error_text bodyBytes))
    end
  else if Contains contentType "yaml" || Contains contentType "yml" then
    match yaml_Unmarshal bodyBytes zero_ConfigData with
    | (None, d) => inr d
    | (Some e, _) => inl (respondError 400 ("invalid YAML: " +:+ Error e))
    end
  else
    match Unmarshal Config_decoder bodyBytes zero_ConfigData with
    | inr d => inr d
    | inl partial =>
        match yaml_Unmarshal bodyBytes partial with
        | (None, d) => inr d
        | (Some _, _) => inl (respondError 400 "unable to parse config as JSON or YAML")
        end
    end.

Definition handlePutConfig (contentType : string) (body : Body) (s : Server) : Response * Server :=
  match body with
  | BodyError => (respondError 400 "failed to read request body", s)
  | BodyOf bodyBytes =>
      match decode_config contentType bodyBytes with
      | inl r => (r, s)
      | inr d =>
          let '(h, newCfg) := materialise (heap (cfg s)) d in
          commit newCfg (with_heap (cfg s) h) 400 s (λ s,
            let s := syncServers s in
            (respondJSON 200 (Config_json (view (heap (cfg s)) (Config.Get (cfg s)))), s))
      end
  end.
End handlers.

(** ** The store under the handlers *)

(** A status code is in a list of them. *)
Ltac status_code :=
  solve [repeat (apply list_elem_of_here || apply list_elem_of_further)].

Section facts.
Context `{!GrowPolicy, !Yaml, !NetURL}.

Lemma Set_mem c st err st' :
  Set_ c st = (err, st') →
  heap st' = heap st ∧ filePath st' = filePath st ∧
  (Servers (config st') = Servers (config st) ∨ Servers (config st') = Servers c).
Proof.
  intros Hs. destruct (Set_cases c st) as [[_ [e He]]|(_ & g & _ & He)]; rewrite He in Hs.
  - injection Hs as <- <-. auto.
  - pose proof (saveLocked_mem (with_config st (mkConfig g (Servers c)))) as Hm.
    rewrite Hs in Hm. destruct Hm as (Hc & -> & ->). rewrite Hc. auto.
Qed.

Lemma Set_None c st st' :
  Set_ c st = (None, st') →
  config_ok c (servers_of st c) ∧ heap st' = heap st ∧
  ∃ g, check_opencode (Global c) = Ok g ∧ config st' = mkConfig g (Servers c).
Proof.
  intros Hs. destruct (Set_mem _ _ _ _ Hs) as (Hh & _ & _).
  destruct (Set_cases c st) as [[_ [e He]]|(Hok & g & Hg & He)]; rewrite He in Hs; [done|].
  split_and!; [done..|]. exists g. split; [done|].
  pose proof (saveLocked_mem (with_config st (mkConfig g (Servers c)))) as Hm.
  rewrite Hs in Hm. by destruct Hm as (-> & _).
Qed.

(** The servers of the store after a successful [Set]. *)
Lemma Set_None_servers c st st' :
  Set_ c st = (None, st') → servers_of st' (Config.Get st') = elems (heap st) (Servers c).
Proof.
  intros (_ & Hh & g & _ & Hc)%Set_None. unfold servers_of, Config.Get. by rewrite Hc, Hh.
Qed.

Lemma Set_wf c st err st' :
  heap_wf (heap st) → slice_wf (heap st) (Servers c) → slice_wf (heap st) (Servers (config st)) →
  Set_ c st = (err, st') → store_wf st'.
Proof.
  intros Hh Hc Hs (Hm & _ & [E|E])%Set_mem; split; rewrite ?E, Hm; done.
Qed.

(** Pool, discovery, collector and counters are as before. *)
Definition runtime_same (s s' : Server) : Prop :=
  disc s' = disc s ∧ rtr s' = rtr s ∧ mc s' = mc s ∧
  bridgeReqsSuccess s' = bridgeReqsSuccess s ∧ bridgeReqsError s' = bridgeReqsError s.

Definition success (r : Response) : Prop := StatusCode r ∈ [200; 201; 204].
Definition failure (r : Response) : Prop := StatusCode r ∈ [400; 404; 409; 500].

(** No configured server has a request in flight. *)
Definition counters_reset (s : Server) : Prop :=
  ∀ u, u ∈ urls_of (configured s) → Inflight (server_pool s) u = 0.

(** What a change of the configuration does to the whole server. *)
Definition outcome (s : Server) (r : Response) (s' : Server) : Prop :=
  server_wf s' ∧
  (success r ∧ synced s' ∧ counters_reset s' ∨ failure r ∧ runtime_same s s').

Lemma syncServers_reset s : pool_wf (server_pool s) → counters_reset (syncServers s).
Proof.
  intros Hp u Hu. destruct (sync_pool_spec (configured s) _ Hp) as [_ Hv].
  destruct (Hv u) as [_ Hi]. rewrite configured_sync in Hu. unfold server_pool at 1. simpl.
  destruct (last_with u (configured s)) eqn:Hl; [done|].
  by apply last_with_None in Hl.
Qed.

Lemma refused s r : server_wf s → failure r → outcome s r s.
Proof. intros Hs Hr. split; [done|]. by right. Qed.

Lemma set_cfg_wf st s : store_wf st → server_wf s → server_wf (set_cfg st s).
Proof. by intros Hst []. Qed.

Lemma set_pool_wf p s : pool_wf p → server_wf s → server_wf (set_pool p s).
Proof. intros Hp [? [_ ?] ? ?]. by split. Qed.

Lemma synced_outcome s r s1 :
  server_wf s1 → success r → outcome s r (syncServers s1).
Proof.
  intros Hwf Hr. assert (pool_wf (server_pool s1)) as Hp by apply Hwf.
  split; [by apply syncServers_wf|]. left.
  split_and!; [done|by apply syncServers_synced|by apply syncServers_reset].
Qed.

Lemma commit_outcome c st status s finish r s' :
  server_wf s → heap_wf (heap st) → slice_wf (heap st) (Servers c) →
  slice_wf (heap st) (Servers (config st)) → status ∈ [400; 404; 409; 500] →
  (∀ s1, server_wf s1 → outcome s (finish s1).1 (finish s1).2) →
  commit c st status s finish = (r, s') → outcome s r s'.
Proof.
  intros Hs Hh Hc Hst Hstatus Hfin Hcm. unfold commit in Hcm.
  destruct (Set_ c st) as [[e|] st'] eqn:Hset.
  - injection Hcm as <- <-. split; [apply set_cfg_wf; [exact (Set_wf _ _ _ _ Hh Hc Hst Hset)|done]|].
    right. by split.
  - specialize (Hfin (set_cfg st' s)). rewrite Hcm in Hfin. apply Hfin.
    apply set_cfg_wf; [exact (Set_wf _ _ _ _ Hh Hc Hst Hset)|done].
Qed.

Lemma find_server_lookup id svs i sc :
  find_server id svs = Some (i, sc) → svs !! i = Some sc ∧ URL sc = id.
Proof. unfold find_server. rewrite list_find_Some. tauto. Qed.

Lemma configured_length s i sc :
  server_wf s → configured s !! i = Some sc → (i < len (Servers (config (cfg s))))%nat.
Proof.
  intros [[_ Hsl] _ _ _] Hi. apply lookup_lt_Some in Hi.
  unfold configured, servers_of, Config.Get in Hi. by rewrite elems_length in Hi.
Qed.

Lemma server_id_failure rawID r : server_id rawID = inl r → failure r.
Proof.
  unfold server_id. case_bool_decide; [intros [= <-]; status_code|].
  destruct (PathUnescape rawID); [done|]. intros [= <-]. status_code.
Qed.

Lemma handleAddServer_outcome body s :
  server_wf s → outcome s (handleAddServer body s).1 (handleAddServer body s).2.
Proof.
  intros Hs. destruct (handleAddServer body s) as [r s'] eqn:Ha. unfold handleAddServer in Ha.
  destruct body as [|b]; [injection Ha as <- <-; apply refused; [done|status_code]|].
  destruct (Decode _ _ _) as [x|sc]; [injection Ha as <- <-; apply refused; [done|status_code]|].
  destruct (existsb _ _); [injection Ha as <- <-; apply refused; [done|status_code]|].
  destruct (swf_cfg s Hs) as [Hh Hsl].
  pose proof (append_spec _ _ [sc] Hh Hsl) as Hap. unfold Config.Get in Ha.
  destruct (append _ _ _) as [h sl]. destruct Hap as (? & ? & ? & _).
  eapply (commit_outcome _ _ _ _ _ _ _ Hs); [| | | | |exact Ha]; simpl; [done..|status_code|].
  intros s1 Hs1. apply synced_outcome; [done|]. status_code.
Qed.

Lemma handleUpdateServer_outcome rawID body s :
  server_wf s →
  ∃ r, (handleUpdateServer rawID body s).1 = Some r ∧
    outcome s r (handleUpdateServer rawID body s).2.
Proof.
  intros Hs. unfold handleUpdateServer.
  destruct (server_id rawID) as [r|id] eqn:Hid.
  { exists r. split; [done|]. apply refused; [done|by eapply server_id_failure]. }
  destruct body as [|b]; [eexists; split; [done|]; apply refused; [done|status_code]|].
  destruct (Decode _ _ _) as [x|req];
    [eexists; split; [done|]; apply refused; [done|status_code]|].
  destruct (find_server _ _) as [[i sc]|] eqn:Hfind;
    [|eexists; split; [done|]; apply refused; [done|status_code]].
  destruct (swf_cfg s Hs) as [Hh Hsl]. unfold Config.Get.
  apply find_server_lookup in Hfind as [Hi _]. pose proof (configured_length _ _ _ Hs Hi) as Hlt.
  destruct (set_index_total (heap (cfg s)) (Servers (config (cfg s))) i (apply_patch req sc)
    Hsl Hlt) as [h Hset].
  rewrite Hset. destruct (commit _ _ _ _ _) as [r s'] eqn:Hc. exists r. split; [done|].
  pose proof (set_index_heap_wf _ _ _ _ _ Hh Hset).
  destruct (set_index_spec _ _ _ _ _ Hsl Hset) as (_ & ? & _).
  eapply (commit_outcome _ _ _ _ _ _ _ Hs); [| | | | |exact Hc]; simpl; [done..|status_code|].
  intros s1 Hs1. apply synced_outcome; [|status_code].
  destruct (bool_decide _); [done|]. apply set_pool_wf; [|done]. apply RemoveServer_wf, Hs1.
Qed.

Lemma handleDeleteServer_outcome rawID s :
  server_wf s → outcome s (handleDeleteServer rawID s).1 (handleDeleteServer rawID s).2.
Proof.
  intros Hs. destruct (handleDeleteServer rawID s) as [r s'] eqn:Hd.
  unfold handleDeleteServer in Hd.
  destruct (server_id rawID) as [r'|id] eqn:Hid.
  { injection Hd as <- <-. apply refused; [done|by eapply server_id_failure]. }
  destruct (find_server _ _) as [[i sc]|] eqn:Hfind;
    [|injection Hd as <- <-; apply refused; [done|status_code]].
  destruct (swf_cfg s Hs) as [Hh Hsl]. unfold Config.Get in Hd.
  apply find_server_lookup in Hfind as [Hi _]. pose proof (configured_length _ _ _ Hs Hi) as Hlt.
  destruct (last (elems (heap (cfg s)) (Servers (config (cfg s))))) as [x|] eqn:Hx;
    [|apply last_None in Hx; apply lookup_lt_Some in Hi;
      unfold configured, servers_of, Config.Get in Hi; rewrite Hx in Hi; simpl in Hi; lia].
  pose proof (remove_at_spec _ _ _ _ Hh Hsl Hlt Hx) as Hrm.
  destruct (remove_at _ _ _) as [h sl]. destruct Hrm as (? & ? & ? & _).
  eapply (commit_outcome _ _ _ _ _ _ _ Hs); [| | | | |exact Hd]; simpl; [done..|status_code|].
  intros s1 Hs1. apply synced_outcome; [|status_code].
  apply set_pool_wf; [|done]. apply RemoveServer_wf, Hs1.
Qed.

(** What a decoder allocates does not touch the slices that are there. *)
Lemma materialise_frame h d t :
  heap_wf h → slice_wf h t →
  elems (materialise h d).1 t = elems h t ∧ slice_wf (materialise h d).1 t.
Proof.
  intros Hh Ht. unfold materialise. destruct (d_Servers d) as [svs|]; [|done].
  apply (alloc_frame h svs (grow 0 (length svs)) t Hh Ht).
Qed.

Context `{!JsonErrors}.

Lemma decode_config_failure ct b r : decode_config ct b = inl r → failure r.
Proof.
  unfold decode_config. repeat case_match; intros; simplify_eq; status_code.
Qed.

Lemma handlePutConfig_outcome ct body s :
  server_wf s → outcome s (handlePutConfig ct body s).1 (handlePutConfig ct body s).2.
Proof.
  intros Hs. destruct (handlePutConfig ct body s) as [r s'] eqn:Hp. unfold handlePutConfig in Hp.
  destruct body as [|b];
    [injection Hp as <- <-; apply refused; [done|status_code]|].
  destruct (decode_config ct b) as [r'|d] eqn:Hdec;
    [injection Hp as <- <-; apply refused; [done|by eapply decode_config_failure]|].
  destruct (swf_cfg s Hs) as [Hh Hsl].
  pose proof (materialise_spec (heap (cfg s)) d Hh) as Hm.
  pose proof (materialise_frame (heap (cfg s)) d (Servers (config (cfg s))) Hh Hsl) as Hfr.
  destruct (materialise _ _) as [h c]. destruct Hm as (? & ? & _), Hfr as [_ ?].
  eapply (commit_outcome _ _ _ _ _ _ _ Hs); [| | | | |exact Hp]; simpl; [done..|status_code|].
  intros s1 Hs1. apply synced_outcome; [done|]. status_code.
Qed.
End facts.

(** ** What each request does *)

Inductive AdminRequest : Type :=
  | AddReq (body : Body)
  | UpdateReq (rawID : string) (body : Body)
  | DeleteReq (rawID : string)
  | PutReq (contentType : string) (body : Body).

Section effects.
Context `{!GrowPolicy, !Yaml, !NetURL}.

(** The document [d] can be encoded, and the file can be written. *)
Definition saves (st : Store) (d : ConfigData) : Prop :=
  ∃ out, yaml_Marshal d = Ok out ∧ write_error (os st) (filePath st) out = None.

(** The encoder and the file system do their work. *)
Definition can_save (st : Store) : Prop := ∀ d, saves st d.

(** What [Set] makes of a valid configuration, depending on the file. *)
Lemma Set_saves c st g :
  config_ok c (servers_of st c) → check_opencode (Global c) = Ok g →
  let d := view (heap st) (mkConfig g (Servers c)) in
  config (Set_ c st).2 = mkConfig g (Servers c) ∧ heap (Set_ c st).2 = heap st ∧
  (saves st d → (Set_ c st).1 = None) ∧ (¬ saves st d → is_Some (Set_ c st).1).
Proof.
  intros Hok Hg d. rewrite (Set_save _ _ _ Hok Hg).
  pose proof (saveLocked_mem (with_config st (mkConfig g (Servers c)))) as Hm.
  destruct (saveLocked _) as [err st'] eqn:Hs. destruct Hm as (Hc & Hh & _).
  split_and!; [done|done|..]; unfold saveLocked in Hs; cbn [heap with_config config] in Hs;
    fold d in Hs; unfold WriteFile in Hs; cbn [os with_config filePath] in Hs.
  - intros (out & Ho & Hw). rewrite Ho, Hw in Hs. by injection Hs as <- _.
  - intros Hno. destruct (yaml_Marshal d) as [out|e] eqn:Ho; [|injection Hs as <- _; by eexists].
    destruct (write_error (os st) (filePath st) out) as [[e left]|] eqn:Hw;
      [injection Hs as <- _; by eexists|]. destruct Hno. by exists out.
Qed.

Lemma Set_succeeds c st :
  config_ok c (servers_of st c) → can_save st → ∃ st', Set_ c st = (None, st').
Proof.
  intros Hok Hsave. pose proof Hok as (_ & _ & Hoc). apply check_opencode_total in Hoc.
  destruct (check_opencode (Global c)) as [g|e] eqn:Hg; [|done].
  destruct (Set_saves c st g Hok Hg) as (_ & _ & Hs & _). specialize (Hs (Hsave _)).
  destruct (Set_ c st) as [err st']. cbn in Hs. subst err. eauto.
Qed.

(** The document that [Set] writes, if the slice of servers is not nil. *)
Lemma view_servers (h : Heap ServerConfig) g sl svs :
  elems h sl = svs → ptr sl ≠ None → view h (mkConfig g sl) = mkConfigData g (Some svs).
Proof. intros <- Hp. unfold view. cbn. by destruct (ptr sl). Qed.

(** [Set] on a configuration with the servers [svs]: in memory if it is valid,
    accepted if the file can be written, or refused with the store as it is. *)
Lemma commit_cases c st status s finish svs :
  elems (heap st) (Servers c) = svs → config_ok c svs →
  ∃ g st', check_opencode (Global c) = Ok g ∧
    configured (set_cfg st' s) = svs ∧ heap st' = heap st ∧ config st' = mkConfig g (Servers c) ∧
    (saves st (view (heap st) (mkConfig g (Servers c))) →
       commit c st status s finish = finish (set_cfg st' s)) ∧
    (¬ saves st (view (heap st) (mkConfig g (Servers c))) →
       ∃ e, commit c st status s finish = (respondError status (Error e), set_cfg st' s)).
Proof.
  intros He Hok. pose proof Hok as (_ & _ & Hoc). apply check_opencode_total in Hoc.
  destruct (check_opencode (Global c)) as [g|e] eqn:Hg; [|done].
  destruct (Set_saves c st g) as (Hc & Hh & Hyes & Hno);
    [by unfold servers_of; rewrite He|done|].
  exists g, (Set_ c st).2. unfold commit. destruct (Set_ c st) as [err st']. cbn in *.
  split_and!; [done| |done|done| |].
  - unfold configured, servers_of, Config.Get. simpl. by rewrite Hc, Hh.
  - intros Hs. by rewrite Hyes.
  - intros [e ->]%Hno. by exists e.
Qed.

Lemma commit_accepts c st status s finish svs :
  elems (heap st) (Servers c) = svs → config_ok c svs → can_save st →
  ∃ st', commit c st status s finish = finish (set_cfg st' s) ∧
    configured (set_cfg st' s) = svs ∧ heap st' = heap st ∧
    ∃ g, check_opencode (Global c) = Ok g ∧ config st' = mkConfig g (Servers c).
Proof.
  intros He Hok Hsave.
  destruct (commit_cases c st status s finish svs He Hok) as (g & st' & ? & ? & ? & ? & Hs & _).
  exists st'. split_and!; [by apply Hs|done|done|]. by exists g.
Qed.

Lemma commit_refuses c st status s finish svs :
  elems (heap st) (Servers c) = svs → ¬ config_ok c svs →
  ∃ e, commit c st status s finish = (respondError status (Error e), set_cfg st s).
Proof.
  intros He Hno. unfold commit.
  destruct (Set_cases c st) as [[_ [e ->]]|[Hok _]]; [eauto|].
  unfold servers_of in Hok. by rewrite He in Hok.
Qed.

(** The pool after a synchronisation, for servers with distinct URLs. *)
Lemma synced_GetServer s sc :
  pool_wf (server_pool s) → NoDup (urls_of (configured s)) → sc ∈ configured s →
  GetServer (server_pool (syncServers s)) (URL sc) = Some sc.
Proof.
  intros Hp Hnd Hin. destruct (syncServers_synced s Hp) as [Hs _ _]. apply Hs.
  rewrite configured_sync. by apply last_with_NoDup.
Qed.

Lemma synced_GetServer_other s u :
  pool_wf (server_pool s) → u ∉ urls_of (configured s) →
  GetServer (server_pool (syncServers s)) u = GetServer (server_pool s) u ∧
  Inflight (server_pool (syncServers s)) u = Inflight (server_pool s) u.
Proof.
  intros Hp Hu%last_with_None. destruct (sync_pool_spec (configured s) _ Hp) as [_ Hv].
  specialize (Hv u). by rewrite Hu in Hv.
Qed.

Context `{!JsonErrors}.

Definition handle_admin (q : AdminRequest) (s : Server) : option Response * Server :=
  match q with
  | AddReq body => let '(r, s') := handleAddServer body s in (Some r, s')
  | UpdateReq rawID body => handleUpdateServer rawID body s
  | DeleteReq rawID => let '(r, s') := handleDeleteServer rawID s in (Some r, s')
  | PutReq ct body => let '(r, s') := handlePutConfig ct body s in (Some r, s')
  end.

Lemma handle_admin_outcome q s :
  server_wf s →
  ∃ r, (handle_admin q s).1 = Some r ∧ outcome s r (handle_admin q s).2.
Proof.
  intros Hs. destruct q as [body|rawID body|rawID|ct body]; simpl.
  - pose proof (handleAddServer_outcome body s Hs) as Ho.
    destruct (handleAddServer body s) as [r s']. by exists r.
  - by apply handleUpdateServer_outcome.
  - pose proof (handleDeleteServer_outcome rawID s Hs) as Ho.
    destruct (handleDeleteServer rawID s) as [r s']. by exists r.
  - pose proof (handlePutConfig_outcome ct body s Hs) as Ho.
    destruct (handlePutConfig ct body s) as [r s']. by exists r.
Qed.

(** [C9] Every administrative request is answered, never panics, and keeps the
    state well formed.  Either it succeeds, and then pool, discovery and
    collector agree with the configuration and the in-flight counter of every
    configured server has been set to zero, whatever was in flight; or it fails
    with 400, 404, 409 or 500, and then discovery, pool, collector and counters
    are untouched. *)
Theorem admin_outcome q s :
  server_wf s →
  ∃ r, (handle_admin q s).1 = Some r ∧ outcome s r (handle_admin q s).2.
Proof. apply handle_admin_outcome. Qed.

(** The test of [handleAddServer] for the URL. *)
Lemma configured_has (svs : list ServerConfig) u :
  existsb (λ x, bool_decide (URL x = u)) svs = bool_decide (u ∈ urls_of svs).
Proof.
  apply eq_bool_prop_intro. rewrite bool_decide_spec, Is_true_true, existsb_exists.
  unfold urls_of. split.
  - intros (x & Hx%list_elem_of_In & Hu%bool_decide_eq_true). rewrite <- Hu.
    by apply list_elem_of_fmap_2.
  - intros (x & Hu & Hx)%list_elem_of_fmap_1. exists x. split; [by apply list_elem_of_In|].
    by apply bool_decide_eq_true.
Qed.

(** A limit that a request leaves out is zero, which no configuration may have. *)
Lemma left_out_not_ok c svs sc :
  Distance sc = 0 ∨ MaxConcurrentRequests sc = 0 → ¬ config_ok c (svs ++ [sc]).
Proof.
  intros Hz (_ & Hf & _). apply Forall_app in Hf as [_ Hf]. apply Forall_cons in Hf as [Hok _].
  destruct Hok as (_ & _ & Hd & Hm). lia.
Qed.

(** [C28] Adding a server, on every branch behind the decoder.  A URL that is
    configured already gives 409 and changes nothing.  A server that [Set] refuses
    gives 400 and leaves configuration and pool as they are; one whose distance or
    limit is zero, as the decoder leaves it when the request does not give it, is
    always refused ([add_without_defaults]).  Otherwise the file decides.  If it can be
    written the answer is 201, the server is appended to the configuration, and the
    pool serves it; if not, the answer is 400, the server is appended to the
    configuration in memory, and pool, discovery and collector are as they were. *)
Theorem handleAddServer_spec b sc s :
  server_wf s → Decode add_request b zero = inr sc →
  let '(r, s') := handleAddServer (BodyOf b) s in
  let svs := configured s ++ [sc] in
  (URL sc ∈ urls_of (configured s) → StatusCode r = 409 ∧ s' = s) ∧
  (URL sc ∉ urls_of (configured s) → ¬ config_ok (Config.Get (cfg s)) svs →
     StatusCode r = 400 ∧ configured s' = configured s ∧ runtime_same s s') ∧
  (Distance sc = 0 ∨ MaxConcurrentRequests sc = 0 → ¬ config_ok (Config.Get (cfg s)) svs) ∧
  (URL sc ∉ urls_of (configured s) → config_ok (Config.Get (cfg s)) svs →
     ∃ g, check_opencode (Global (Config.Get (cfg s))) = Ok g ∧
       (saves (cfg s) (mkConfigData g (Some svs)) →
          r = respondJSON 201 (ServerConfig_json sc) ∧ configured s' = svs ∧
          GetServer (server_pool s') (URL sc) = Some sc) ∧
       (¬ saves (cfg s) (mkConfigData g (Some svs)) →
          StatusCode r = 400 ∧ configured s' = svs ∧ runtime_same s s')).
Proof.
  intros Hs Hdec. unfold handleAddServer. rewrite Hdec, configured_has.
  case_bool_decide as Hin; [split_and!; try done; by apply left_out_not_ok|].
  destruct (swf_cfg s Hs) as [Hh Hsl]. unfold Config.Get.
  pose proof (append_spec _ _ [sc] Hh Hsl) as Hap.
  destruct (append _ _ _) as [h sl]. destruct Hap as (_ & _ & _ & Hsvs & Hold).
  set (fin := λ s, (respondJSON 201 (ServerConfig_json sc), syncServers s)).
  change (λ s : Server, _) with fin.
  destruct (commit _ _ _ _ _) as [r s'] eqn:Hc. split_and!; [done| |by apply left_out_not_ok|].
  - intros _ Hno. destruct (commit_refuses (mkConfig (Global (config (cfg s))) sl)
      (with_heap (cfg s) h) 400 s fin _ Hsvs Hno) as [e He].
    rewrite He in Hc. injection Hc as <- <-. split_and!; [done|exact Hold|done].
  - intros _ Hok.
    assert (ptr sl ≠ None) as Hp.
    { intros Hp. apply (f_equal length) in Hsvs. unfold elems in Hsvs. rewrite Hp, length_app in Hsvs.
      simpl in Hsvs. lia. }
    destruct (commit_cases (mkConfig (Global (config (cfg s))) sl)
      (with_heap (cfg s) h) 400 s fin _ Hsvs Hok)
      as (g & st' & Hg & Hcfg & _ & _ & Hyes & Hno).
    cbn [heap with_heap Servers] in Hyes, Hno. rewrite (view_servers h g sl _ Hsvs Hp) in Hyes.
    rewrite (view_servers h g sl _ Hsvs Hp) in Hno.
    exists g. split_and!; [exact Hg|..].
    + intros Hsv. rewrite (Hyes Hsv) in Hc. injection Hc as <- <-.
      split_and!; [done|by rewrite configured_sync|].
      destruct (syncServers_synced (set_cfg st' s) (proj1 (swf_rtr s Hs))) as [Hsy _ _]. apply Hsy.
      rewrite configured_sync, Hcfg, last_with_snoc. by rewrite decide_True.
    + intros Hsv. destruct (Hno Hsv) as [e He]. rewrite He in Hc. by injection Hc as <- <-.
Qed.

(** [C29] An update that the validation refuses is answered with 400 and yet
    applied: the handler has written the new values through the slice it shares
    with the store, so the configuration in memory holds the refused server,
    while the file, the pool and discovery do not know of it. *)
Theorem handleUpdateServer_rejected rawID id b req i sc s :
  server_wf s → server_id rawID = inr id →
  Decode update_request b (mkPatch None None None) = inr req →
  find_server id (configured s) = Some (i, sc) →
  ¬ config_ok (Config.Get (cfg s)) (<[i := apply_patch req sc]> (configured s)) →
  let '(o, s') := handleUpdateServer rawID (BodyOf b) s in
  (StatusCode <$> o) = Some 400 ∧
  configured s' = <[i := apply_patch req sc]> (configured s) ∧
  runtime_same s s' ∧ os (cfg s') = os (cfg s).
Proof.
  intros Hs Hid Hdec Hfind Hno. unfold handleUpdateServer. rewrite Hid, Hdec, Hfind.
  destruct (swf_cfg s Hs) as [Hh Hsl]. unfold Config.Get.
  apply find_server_lookup in Hfind as [Hi _]. pose proof (configured_length _ _ _ Hs Hi) as Hlt.
  destruct (set_index_total (heap (cfg s)) (Servers (config (cfg s))) i (apply_patch req sc)
    Hsl Hlt) as [h Hset].
  rewrite Hset. destruct (set_index_spec _ _ _ _ _ Hsl Hset) as (Hsvs & _).
  destruct (commit _ _ _ _ _) as [r s'] eqn:Hc.
  destruct (commit_refuses (config (cfg s)) (with_heap (cfg s) h) 400 s
    (λ s, (respondJSON 200 (ServerConfig_json (apply_patch req sc)), syncServers
      (if bool_decide (URL (apply_patch req sc) = id) then s
       else set_pool (RemoveServer id (server_pool s)) s))) _ Hsvs Hno) as [e He].
  assert ((r, s') = (respondError 400 (Error e), set_cfg (with_heap (cfg s) h) s)) as E
    by (rewrite <- Hc; exact He).
  injection E as -> ->. split_and!; [done|exact Hsvs|done|done].
Qed.

(** An update that is accepted replaces the server in place; the pool
    serves the new values, and no longer the old URL if that was changed. *)
Theorem handleUpdateServer_updates rawID id b req i sc s :
  server_wf s → can_save (cfg s) → server_id rawID = inr id →
  Decode update_request b (mkPatch None None None) = inr req →
  find_server id (configured s) = Some (i, sc) →
  let sc' := apply_patch req sc in
  let svs := <[i := sc']> (configured s) in
  config_ok (Config.Get (cfg s)) svs → NoDup (urls_of svs) → (URL sc' = id ∨ id ∉ urls_of svs) →
  let '(o, s') := handleUpdateServer rawID (BodyOf b) s in
  o = Some (respondJSON 200 (ServerConfig_json sc')) ∧ configured s' = svs ∧
  GetServer (server_pool s') (URL sc') = Some sc' ∧
  (URL sc' ≠ id → GetServer (server_pool s') id = None).
Proof.
  intros Hs Hsave Hid Hdec Hfind sc' svs Hok Hnd Hother. unfold handleUpdateServer.
  rewrite Hid, Hdec, Hfind. destruct (swf_cfg s Hs) as [Hh Hsl]. unfold Config.Get.
  apply find_server_lookup in Hfind as [Hi _]. pose proof (configured_length _ _ _ Hs Hi) as Hlt.
  destruct (set_index_total (heap (cfg s)) (Servers (config (cfg s))) i (apply_patch req sc)
    Hsl Hlt) as [h Hset].
  rewrite Hset. destruct (set_index_spec _ _ _ _ _ Hsl Hset) as (Hsvs & _).
  set (fin := λ s, (respondJSON 200 (ServerConfig_json sc'), syncServers
      (if bool_decide (URL sc' = id) then s
       else set_pool (RemoveServer id (server_pool s)) s))).
  change (λ s : Server, _) with fin.
  destruct (commit_accepts (config (cfg s)) (with_heap (cfg s) h) 400 s fin svs Hsvs Hok Hsave)
    as (st' & -> & Hcfg & _). cbn [fst snd fin].
  assert (pool_wf (server_pool s)) as Hp by apply Hs.
  set (s1 := if bool_decide (URL sc' = id) then set_cfg st' s
             else set_pool (RemoveServer id (server_pool (set_cfg st' s))) (set_cfg st' s)).
  assert (configured s1 = svs ∧ pool_wf (server_pool s1)) as [Hc1 Hp1].
  { unfold s1. case_bool_decide; [done|]. split; [exact Hcfg|]. by apply RemoveServer_wf. }
  split_and!; [done|exact Hc1| |].
  - apply synced_GetServer; [done| |]; rewrite Hc1; [done|].
    apply list_elem_of_insert. by apply lookup_lt_Some in Hi.
  - intros Hne. destruct Hother as [|Hother]; [done|].
    destruct (synced_GetServer_other s1 id Hp1) as [-> _]; [by rewrite Hc1|].
    unfold s1. rewrite bool_decide_false by done. unfold server_pool. simpl.
    destruct (RemoveServer_view id (pool (rtr s)) id) as [Hv _].
    by rewrite decide_True in Hv by done.
Qed.

(** Without its entry, a URL is not configured any more if it was there once. *)
Lemma delete_gone id i sc svs :
  NoDup (urls_of svs) → svs !! i = Some sc → URL sc = id → id ∉ urls_of (delete i svs).
Proof.
  intros Hnd Hi Hu. unfold urls_of in *. rewrite list_fmap_delete, delete_take_drop.
  assert (map URL svs !! i = Some id) as Hid' by (rewrite list_lookup_fmap, Hi; simpl; by rewrite Hu).
  rewrite <- (take_drop_middle _ _ _ Hid') in Hnd.
  apply NoDup_app in Hnd as (_ & Hnot & Hnd). apply NoDup_cons in Hnd as [Hn2 _].
  rewrite elem_of_app. intros [Hin|Hin]; [|done]. apply (Hnot id Hin). by left.
Qed.

Lemma config_ok_delete c sl i svs :
  config_ok c svs → config_ok (mkConfig (Global c) sl) (delete i svs).
Proof.
  intros (? & Hall & ? & ?). split_and!; [done| |done|done].
  rewrite Forall_forall in Hall |- *. intros y Hy. apply Hall.
  revert Hy. apply (sublist_subseteq _ _ (sublist_delete _ _)).
Qed.

(** A deletion from a valid configuration, depending on the file. *)
Lemma delete_cases rawID id i sc s :
  server_wf s → server_id rawID = inr id → find_server id (configured s) = Some (i, sc) →
  config_ok (Config.Get (cfg s)) (configured s) →
  let '(r, s') := handleDeleteServer rawID s in
  let svs := delete i (configured s) in
  ∃ g, check_opencode (Global (Config.Get (cfg s))) = Ok g ∧
    (saves (cfg s) (mkConfigData g (Some svs)) →
       StatusCode r = 204 ∧ configured s' = svs ∧ GetServer (server_pool s') id = last_with id svs ∧
       mc s' = Metrics.SetServers (urls_of svs) <$> mc s) ∧
    (¬ saves (cfg s) (mkConfigData g (Some svs)) →
       StatusCode r = 500 ∧ configured s' = svs ∧ runtime_same s s').
Proof.
  intros Hs Hid Hfind Hok. unfold handleDeleteServer. rewrite Hid, Hfind.
  destruct (swf_cfg s Hs) as [Hh Hsl]. unfold Config.Get.
  apply find_server_lookup in Hfind as [Hi Hu]. pose proof (configured_length _ _ _ Hs Hi) as Hlt.
  destruct (last (elems (heap (cfg s)) (Servers (config (cfg s))))) as [x|] eqn:Hx;
    [|apply last_None in Hx; unfold configured, servers_of, Config.Get in Hi;
      rewrite Hx in Hi; done].
  pose proof (remove_at_spec _ _ _ _ Hh Hsl Hlt Hx) as Hrm.
  pose proof (remove_at_ptr _ _ _ Hsl Hlt) as Hp.
  destruct (remove_at _ _ _) as [h sl]. destruct Hrm as (_ & _ & _ & Hsvs & _). cbn [snd] in Hp.
  change (elems (heap (cfg s)) (Servers (config (cfg s)))) with (configured s) in Hsvs.
  assert (config_ok (mkConfig (Global (config (cfg s))) sl) (delete i (configured s))) as Hok'
    by (by apply config_ok_delete).
  set (fin := λ s, (mkResponse 204 ∅ EmptyString,
    syncServers (set_pool (RemoveServer id (server_pool s)) s))).
  change (λ s : Server, _) with fin.
  destruct (commit_cases (mkConfig (Global (config (cfg s))) sl) (with_heap (cfg s) h) 500 s
    fin _ Hsvs Hok') as (g & st' & Hg & Hcfg & _ & _ & Hyes & Hno).
  cbn [heap with_heap Servers] in Hyes, Hno. rewrite (view_servers h g sl _ Hsvs Hp) in Hyes.
  rewrite (view_servers h g sl _ Hsvs Hp) in Hno.
  destruct (commit _ _ _ _ _) as [r s'] eqn:Hc. exists g. split_and!; [exact Hg|..].
  - intros Hsv. specialize (Hyes Hsv). injection Hyes as -> ->.
    set (s1 := set_pool (RemoveServer id (server_pool (set_cfg st' s))) (set_cfg st' s)).
    assert (configured s1 = delete i (configured s)) as Hc1 by exact Hcfg.
    assert (pool_wf (server_pool s1)) as Hp1 by (apply RemoveServer_wf, Hs).
    split_and!; [done|exact Hc1| |by rewrite <- Hc1].
    destruct (sync_pool_spec (configured s1) _ Hp1) as [_ Hv].
    destruct (Hv id) as [Hget _]. rewrite <- Hc1.
    change (GetServer (sync_pool (configured s1) (server_pool s1)) id = last_with id (configured s1)).
    rewrite Hget. destruct (last_with id (configured s1)); [done|].
    unfold s1, server_pool. simpl. destruct (RemoveServer_view id (pool (rtr s)) id) as [Hr _].
    by rewrite decide_True in Hr by done.
  - intros Hsv. destruct (Hno Hsv) as [e He]. by injection He as -> ->.
Qed.

Lemma delete_removes rawID id i sc s :
  server_wf s → can_save (cfg s) → server_id rawID = inr id →
  NoDup (urls_of (configured s)) → find_server id (configured s) = Some (i, sc) →
  config_ok (Config.Get (cfg s)) (configured s) →
  let '(r, s') := handleDeleteServer rawID s in
  StatusCode r = 204 ∧ configured s' = delete i (configured s) ∧
  id ∉ urls_of (configured s') ∧ GetServer (server_pool s') id = None ∧
  mc s' = Metrics.SetServers (urls_of (configured s')) <$> mc s.
Proof.
  intros Hs Hsave Hid Hnd Hfind Hok.
  pose proof (delete_cases rawID id i sc s Hs Hid Hfind Hok) as Hd.
  apply find_server_lookup in Hfind as [Hi Hu].
  destruct (handleDeleteServer rawID s) as [r s']. destruct Hd as (g & _ & Hyes & _).
  destruct (Hyes (Hsave _)) as (? & Hc & Hget & ?). rewrite Hget, Hc.
  pose proof (delete_gone id i sc _ Hnd Hi Hu) as Hni. split_and!; try done. by apply last_with_None.
Qed.

(** [C30] Deleting a server of a valid configuration.  The entry that was found is
    taken out of the configuration, and the others keep their order.  If the file can
    be written the answer is 204, and the pool has under that URL what the
    configuration still has: nothing, if the URLs were pairwise distinct, which
    nothing checks.  If the file cannot be written the answer is 500; the entry is
    gone from the configuration in memory, and pool, discovery and collector are as
    they were. *)
Theorem handleDeleteServer_removes rawID id i sc s :
  server_wf s → server_id rawID = inr id → find_server id (configured s) = Some (i, sc) →
  config_ok (Config.Get (cfg s)) (configured s) →
  let '(r, s') := handleDeleteServer rawID s in
  let svs := delete i (configured s) in
  (NoDup (urls_of (configured s)) → id ∉ urls_of svs ∧ last_with id svs = None) ∧
  ∃ g, check_opencode (Global (Config.Get (cfg s))) = Ok g ∧
    (saves (cfg s) (mkConfigData g (Some svs)) →
       StatusCode r = 204 ∧ configured s' = svs ∧ GetServer (server_pool s') id = last_with id svs) ∧
    (¬ saves (cfg s) (mkConfigData g (Some svs)) →
       StatusCode r = 500 ∧ configured s' = svs ∧ runtime_same s s').
Proof.
  intros Hs Hid Hfind Hok.
  pose proof (delete_cases rawID id i sc s Hs Hid Hfind Hok) as Hd.
  apply find_server_lookup in Hfind as [Hi Hu].
  destruct (handleDeleteServer rawID s) as [r s']. destruct Hd as (g & Hg & Hyes & Hno). split.
  - intros Hnd. pose proof (delete_gone id i sc _ Hnd Hi Hu). split; [done|]. by apply last_with_None.
  - exists g. split_and!; [done| |done]. intros Hsv. by destruct (Hyes Hsv) as (? & ? & ? & _).
Qed.
End effects.

(** ** Reading the configuration back *)

Definition ints_ok (d : ConfigData) : Prop :=
  Forall int64 [DiscoveryIntervalSec (d_Global d); RequestTimeoutSec (d_Global d);
    QueueTimeoutSec (d_Global d); DrainTimeoutSec (d_Global d); ShutdownTimeoutSec (d_Global d);
    OpenCodeContextOutput (d_Global d); OpenCodeContextBuffer (d_Global d);
    OpenCodeContextInput (d_Global d)] ∧
  Forall (λ sc, int64 (Distance sc) ∧ int64 (MaxConcurrentRequests sc)) (default [] (d_Servers d)).

Lemma into_int_JInt z old : int64 z → into_int (JInt z) old = (z, false).
Proof. intros Hz. unfold into_int, JInt. by rewrite Atoi_Itoa. Qed.

Lemma ServerConfig_decoder_json sc old :
  int64 (Distance sc) → int64 (MaxConcurrentRequests sc) →
  ServerConfig_decoder (ServerConfig_json sc) old = (sc, false).
Proof.
  intros Hd Hm. unfold ServerConfig_decoder, server_decoder, ServerConfig_json, into_struct.
  cbn [foldl fst snd]. change (find_field ?fs "URL") with (head (map snd fs)).
  change (find_field (?f1 :: ?f2 :: ?fs) "Distance") with (Some f2.2).
  change (find_field (?f1 :: ?f2 :: ?f3 :: ?fs) "MaxConcurrentRequests") with (Some f3.2).
  cbn [head map snd fst field into_string]. unfold field. cbn [into_string].
  rewrite !into_int_JInt by done. by destruct sc.
Qed.

Lemma GlobalConfig_decoder_json g old :
  Forall int64 [DiscoveryIntervalSec g; RequestTimeoutSec g; QueueTimeoutSec g; DrainTimeoutSec g;
    ShutdownTimeoutSec g; OpenCodeContextOutput g; OpenCodeContextBuffer g; OpenCodeContextInput g] →
  GlobalConfig_decoder (GlobalConfig_json g) old = (g, false).
Proof.
  rewrite !Forall_cons. intros (H1 & H2 & H3 & H4 & H5 & H6 & H7 & H8 & _).
  destruct g as [a b c d e f g h i j], old as [a' b' c' d' e' f' g' h' i' j'].
  cbv beta iota delta [DiscoveryIntervalSec RequestTimeoutSec QueueTimeoutSec
    DrainTimeoutSec ShutdownTimeoutSec OpenCodeContextOutput OpenCodeContextBuffer
    OpenCodeContextInput] in H1, H2, H3, H4, H5, H6, H7, H8.
  cbv -[Atoi Itoa into_int JInt wrap64 int64].
  rewrite ?into_int_JInt by done. done.
Qed.

Lemma into_elems_json svs old :
  Forall (λ sc, int64 (Distance sc) ∧ int64 (MaxConcurrentRequests sc)) svs →
  into_elems zero ServerConfig_decoder (map ServerConfig_json svs) old = (svs, false).
Proof.
  revert old. induction svs as [|sc svs IH]; intros old; [done|].
  rewrite Forall_cons. intros [[? ?] ?]. cbn [map into_elems].
  by rewrite ServerConfig_decoder_json, IH.
Qed.

(** The configuration as JSON decodes to itself. *)
Lemma Config_decoder_json d : ints_ok d → Config_decoder (Config_json d) zero_ConfigData = (d, false).
Proof.
  intros [Hg Hs]. unfold Config_decoder, Config_json, into_struct. cbn [foldl fst snd].
  change (find_field (?f1 :: ?fs) "Global") with (Some f1.2).
  change (find_field (?f1 :: ?f2 :: ?fs) "Servers") with (Some f2.2).
  unfold field. cbn [snd]. rewrite GlobalConfig_decoder_json by done.
  destruct d as [g [svs|]]; cbn [d_Servers d_Global into_slice]; [|done].
  by rewrite into_elems_json.
Qed.

(** Positive limits are taken over as they are. *)
Lemma check_opencode_id g :
  0 < OpenCodeContextOutput g → 0 < OpenCodeContextBuffer g → check_opencode g = Ok g.
Proof.
  destruct g as [a b c d e f g h i j]. cbn [OpenCodeContextOutput OpenCodeContextBuffer]. intros Hh Hi.
  unfold check_opencode. cbn [OpenCodeContextOutput OpenCodeContextBuffer].
  rewrite (proj2 (Z.eqb_neq h 0)), (proj2 (Z.eqb_neq i 0)) by lia.
  by rewrite (proj2 (Z.ltb_ge h 0)), (proj2 (Z.ltb_ge i 0)) by lia.
Qed.

Section more_effects.
Context `{!GrowPolicy, !Yaml, !NetURL, !JsonErrors}.

(** A deletion that the validation refuses (another server of the loaded
    configuration is invalid) is answered with 500 and leaves a configuration
    that is neither the old nor the new one: the server is gone, and the last
    server is there twice. *)
Theorem handleDeleteServer_rejected rawID id i sc x s :
  server_wf s → server_id rawID = inr id → find_server id (configured s) = Some (i, sc) →
  last (configured s) = Some x → ¬ config_ok (Config.Get (cfg s)) (delete i (configured s)) →
  let '(r, s') := handleDeleteServer rawID s in
  StatusCode r = 500 ∧ configured s' = delete i (configured s) ++ [x] ∧ runtime_same s s'.
Proof.
  intros Hs Hid Hfind Hx Hno. unfold handleDeleteServer. rewrite Hid, Hfind.
  destruct (swf_cfg s Hs) as [Hh Hsl]. unfold Config.Get.
  apply find_server_lookup in Hfind as [Hi Hu]. pose proof (configured_length _ _ _ Hs Hi) as Hlt.
  pose proof (remove_at_spec _ _ _ _ Hh Hsl Hlt Hx) as Hrm.
  destruct (remove_at _ _ _) as [h sl]. destruct Hrm as (_ & _ & _ & Hsvs & Hold).
  set (fin := λ s, (mkResponse 204 ∅ EmptyString,
    syncServers (set_pool (RemoveServer id (server_pool s)) s))).
  change (λ s : Server, _) with fin.
  destruct (commit_refuses (mkConfig (Global (config (cfg s))) sl) (with_heap (cfg s) h) 500 s
    fin _ Hsvs Hno) as [e ->].
  split_and!; [done|exact Hold|done].
Qed.

(** Replacing the configuration does not remove anything from the pool: a
    server that the new configuration no longer has is still there, with its
    old settings and its in-flight counter, and requests can still be routed to
    it. *)
Theorem handlePutConfig_leftovers ct body s u sc :
  server_wf s → GetServer (server_pool s) u = Some sc →
  let '(r, s') := handlePutConfig ct body s in
  StatusCode r = 200 → u ∉ urls_of (configured s') →
  GetServer (server_pool s') u = Some sc ∧
  Inflight (server_pool s') u = Inflight (server_pool s) u.
Proof.
  intros Hs Hu. destruct (handlePutConfig ct body s) as [r s'] eqn:Hp.
  unfold handlePutConfig in Hp. destruct body as [|b]; [injection Hp as <- <-; intros Hr; discriminate Hr|].
  destruct (decode_config ct b) as [r'|d] eqn:Hdec.
  { injection Hp as <- <-. apply decode_config_failure in Hdec. intros Hr.
    unfold failure in Hdec. rewrite Hr in Hdec.
    repeat (apply elem_of_cons in Hdec as [Hdec|Hdec]; [done|]). by apply elem_of_nil in Hdec. }
  destruct (materialise _ _) as [h c]. unfold commit in Hp.
  destruct (Set_ _ _) as [[e|] st']; [injection Hp as <- <-; intros Hr; discriminate Hr|].
  injection Hp as <- <-. intros _ Hnot. rewrite configured_sync in Hnot.
  destruct (synced_GetServer_other (set_cfg st' s) u) as [-> ->]; [apply Hs|done|done].
Qed.

(** A content type for which [handlePutConfig] tries JSON first. *)
Definition json_tried (ct : string) : bool :=
  Contains ct "json" || negb (Contains ct "yaml" || Contains ct "yml").

Lemma decode_config_json ct b d :
  json_tried ct = true → Unmarshal Config_decoder b zero_ConfigData = inr d →
  decode_config ct b = inr d.
Proof.
  unfold json_tried, decode_config. intros Hct ->. destruct (Contains ct "json"); [done|].
  by rewrite orb_false_l, negb_true_iff in Hct; rewrite Hct.
Qed.

(** A document that reads as the current configuration is accepted, if the file can be
    written. *)
Lemma put_view ct b s :
  server_wf s → json_tried ct = true →
  let d := view (heap (cfg s)) (Config.Get (cfg s)) in
  parse b = Some (Config_json d) → ints_ok d →
  config_ok (Config.Get (cfg s)) (configured s) →
  0 < OpenCodeContextOutput (d_Global d) → 0 < OpenCodeContextBuffer (d_Global d) →
  let '(r, s') := handlePutConfig ct (BodyOf b) s in
  view (heap (cfg s')) (Config.Get (cfg s')) = d ∧
  (saves (cfg s) d → r = handleGetConfig s) ∧
  (¬ saves (cfg s) d → StatusCode r = 400 ∧ runtime_same s s').
Proof.
  intros Hs Hct d Hb Hi Hok Ho Hbuf. unfold handlePutConfig.
  assert (Unmarshal Config_decoder b zero_ConfigData = inr d) as Hdec
    by (unfold Unmarshal, store; by rewrite Hb, (Config_decoder_json d Hi)).
  rewrite (decode_config_json ct b d Hct Hdec).
  destruct (swf_cfg s Hs) as [Hh Hsl].
  pose proof (materialise_spec (heap (cfg s)) d Hh) as Hm.
  destruct (materialise (heap (cfg s)) d) as [h c]. destruct Hm as (_ & Hc & Hv).
  assert (Global c = d_Global d) as Hg by (rewrite <- Hv; done).
  assert (elems h (Servers c) = configured s) as He.
  { pose proof (f_equal d_Servers Hv) as Hsv. unfold d, view in Hsv. cbn [d_Servers] in Hsv.
    unfold configured, servers_of. destruct (ptr (Servers c)) eqn:Hp1,
      (ptr (Servers (Config.Get (cfg s)))) eqn:Hp2; simplify_eq; [congruence|].
    unfold elems. by rewrite Hp1, Hp2. }
  assert (check_opencode (Global c) = Ok (Global c)) as Hck by (apply check_opencode_id; by rewrite Hg).
  assert (config_ok c (configured s)) as Hokc by (unfold config_ok in *; rewrite Hg; exact Hok).
  assert (mkConfig (Global c) (Servers c) = c) as Heta by by destruct c.
  destruct (Set_saves c (with_heap (cfg s) h) (Global c)) as (Hc1 & Hh1 & Hyes & Hno);
    [by unfold servers_of; cbn; rewrite He|done|].
  cbn [heap with_heap] in Hyes, Hno, Hh1. rewrite Heta, Hv in *.
  change (saves (with_heap (cfg s) h) d) with (saves (cfg s) d) in Hyes, Hno.
  unfold commit. destruct (Set_ c (with_heap (cfg s) h)) as [err st']. cbn [fst snd] in *.
  assert (view (heap st') (Config.Get st') = d) as Hst by (unfold Config.Get; by rewrite Hh1, Hc1).
  destruct err as [e|].
  - split_and!; [exact Hst|intros Hsv; by specialize (Hyes Hsv)|done].
  - split_and!; [exact Hst| |intros Hsv; by destruct (Hno Hsv)].
    intros _. unfold handleGetConfig. fold d. cbn [syncServers cfg set_cfg]. by rewrite Hst.
Qed.

(** The strings of a configuration are UTF-8. *)
Definition texts_ok (d : ConfigData) : Prop :=
  utf8_ok (FallbackStrategy (d_Global d)) = true ∧ utf8_ok (OpenCodeBaseURL (d_Global d)) = true ∧
  Forall (λ sc, utf8_ok (URL sc) = true) (default [] (d_Servers d)).

Lemma ServerConfig_json_ok sc : json_ok (ServerConfig_json sc) = true.
Proof. unfold ServerConfig_json. cbn [json_ok forallb fst snd]. by rewrite !number_ok_JInt. Qed.

(** The answers are trees the decoder takes. *)
Lemma ServerConfig_json_decodable sc : decodable (ServerConfig_json sc) = true.
Proof. unfold decodable. by rewrite ServerConfig_json_ok. Qed.

Lemma Config_json_decodable d : decodable (Config_json d) = true.
Proof.
  assert (json_ok (GlobalConfig_json (d_Global d)) = true) as Hg.
  { unfold GlobalConfig_json. cbn [json_ok forallb fst snd]. by rewrite !number_ok_JInt. }
  unfold decodable, Config_json. cbn [json_ok forallb fst snd height max_list_with].
  change (height (GlobalConfig_json (d_Global d))) with 1%nat. rewrite Hg.
  destruct (d_Servers d) as [svs|]; [|done]. cbn [json_ok height].
  rewrite forallb_map_true by (apply Forall_true; intros sc; apply ServerConfig_json_ok).
  pose proof (max_list_with_map height ServerConfig_json svs 1 ltac:(done)) as Hh.
  rewrite bool_decide_true; [done|]. unfold max_depth. lia.
Qed.

Lemma Config_json_encodable d : texts_ok d → encodable (Config_json d) = true.
Proof.
  intros (Hf & Hb & Hu). unfold encodable. rewrite Config_json_decodable. unfold Config_json.
  cbn [strings_ok forallb fst snd andb]. apply andb_true_iff. split.
  { unfold GlobalConfig_json. cbn [strings_ok forallb fst snd]. by rewrite Hf, Hb. }
  destruct (d_Servers d) as [svs|]; [|done]. cbn [strings_ok].
  rewrite forallb_map_true; [done|]. eapply Forall_impl; [exact Hu|].
  intros sc Hsc. unfold ServerConfig_json. cbn [strings_ok forallb fst snd]. by rewrite Hsc.
Qed.

(** [C34] What [GET /admin/config] answers can be put back as it is: [PUT] reads from the
    body of the answer (unless it is declared to be YAML) the configuration as it was,
    and leaves it so.  If the file can be written it answers the same, with 200;
    otherwise with 400.  The configuration has to be valid, with numbers of 64 bits,
    texts in UTF-8 and positive token limits. *)
Theorem get_put_config ct s :
  server_wf s → json_tried ct = true →
  let d := view (heap (cfg s)) (Config.Get (cfg s)) in
  ints_ok d → texts_ok d → config_ok (Config.Get (cfg s)) (configured s) →
  0 < OpenCodeContextOutput (d_Global d) → 0 < OpenCodeContextBuffer (d_Global d) →
  let '(r, s') := handlePutConfig ct (BodyOf (resp_Body (handleGetConfig s))) s in
  view (heap (cfg s')) (Config.Get (cfg s')) = d ∧
  (saves (cfg s) d → r = handleGetConfig s) ∧
  (¬ saves (cfg s) d → StatusCode r = 400 ∧ runtime_same s s').
Proof.
  intros Hs Hct d Hi Ht Hok Ho Hbuf. apply put_view; try done.
  exact (parse_marshal_same None _ (Config_json_encodable d Ht)).
Qed.
End more_effects.

(** ** Witnesses *)

Section witnesses.
#[local] Existing Instances sample_grow sample_yaml sample_url sample_range sample_probe.
#[local] Instance sample_errors : JsonErrors := λ _, "unexpected end of JSON input".

Let s0 : Server := sample_srv None.
Let id0 : string := "http%3A%2F%2Fa%3A1".

Lemma sample_can_save : can_save (cfg s0).
Proof. intros d. by exists "doc". Qed.

Lemma sample_NoDup : NoDup (urls_of (configured s0)).
Proof. vm_compute. constructor; [by intros ?%elem_of_nil|constructor]. Qed.

Lemma sample_configured_ok : config_ok (Config.Get (cfg s0)) (configured s0).
Proof. split; [reflexivity|]. split; [|done]. apply Forall_singleton. repeat split; done. Qed.

(** A server that would be accepted, and one that would not. *)
Definition new_server (distance : Z) : ServerConfig := mkServerConfig "http://b:2" distance 3.

Lemma new_config_ok d : 1 <= d <= 10 →
  config_ok (Config.Get (cfg s0)) (configured s0 ++ [new_server d]).
Proof.
  intros Hd. split; [reflexivity|]. split; [|done].
  assert (server_ok sample_server) as H0 by (repeat split; done).
  change (Forall server_ok [sample_server; new_server d]). repeat constructor; simpl; done || lia.
Qed.

Lemma admin_outcome_witness :
  ∃ r, (handle_admin (DeleteReq id0) s0).1 = Some r ∧
    outcome s0 r (handle_admin (DeleteReq id0) s0).2.
Proof. apply (admin_outcome (DeleteReq id0) s0), sample_srv_wf. Defined.

Lemma handleAddServer_spec_witness :
  let b := quoted "{'url':'http://b:2','distance':4,'max_concurrent_requests':3}" in
  let '(r, s') := handleAddServer (BodyOf b) s0 in
  r = respondJSON 201 (ServerConfig_json (new_server 4)) ∧
  configured s' = [sample_server; new_server 4] ∧
  GetServer (server_pool s') "http://b:2" = Some (new_server 4).
Proof.
  intros b. pose proof (handleAddServer_spec b (new_server 4) s0 (sample_srv_wf None)) as Hspec.
  destruct (handleAddServer (BodyOf b) s0) as [r s'].
  destruct Hspec as (_ & _ & _ & Hadd); [vm_compute; reflexivity|].
  destruct Hadd as (g & _ & Hyes & _); [|by apply new_config_ok|apply Hyes, sample_can_save].
  change (urls_of (configured s0)) with ["http://a:1"].
  intros ?%list_elem_of_singleton. discriminate.
Defined.

(** A server without the optional fields, which [docs/api.md] gives the defaults 1 and
    100. *)
Lemma add_without_defaults :
  let '(r, s') := handleAddServer (BodyOf (quoted "{'url':'http://b:2'}")) s0 in
  StatusCode r = 400 ∧ configured s' = [sample_server].
Proof. vm_compute. by split. Qed.

Lemma sample_rejected :
  ¬ config_ok (Config.Get (cfg s0)) [mkServerConfig "http://a:1" 99 2].
Proof. intros (_ & Hf & _). apply Forall_cons in Hf as [(_ & _ & Hd & _) _]. simpl in Hd. lia. Qed.

Lemma handleUpdateServer_rejected_witness :
  let '(o, s') := handleUpdateServer id0 (BodyOf (quoted "{'distance':99}")) s0 in
  (StatusCode <$> o) = Some 400 ∧ configured s' = [mkServerConfig "http://a:1" 99 2] ∧
  runtime_same s0 s' ∧ os (cfg s') = os (cfg s0).
Proof.
  apply (handleUpdateServer_rejected id0 "http://a:1" (quoted "{'distance':99}")
    (mkPatch None (Some 99) None) 0%nat sample_server s0);
    [apply sample_srv_wf|vm_compute; reflexivity..|exact sample_rejected].
Defined.

Lemma handleUpdateServer_updates_witness :
  let '(o, s') := handleUpdateServer id0 (BodyOf (quoted "{'url':'http://c:3'}")) s0 in
  let sc' := mkServerConfig "http://c:3" 1 2 in
  o = Some (respondJSON 200 (ServerConfig_json sc')) ∧ configured s' = [sc'] ∧
  GetServer (server_pool s') "http://c:3" = Some sc' ∧
  ("http://c:3" ≠ "http://a:1" → GetServer (server_pool s') "http://a:1" = None).
Proof.
  apply (handleUpdateServer_updates id0 "http://a:1" (quoted "{'url':'http://c:3'}")
    (mkPatch (Some "http://c:3") None None) 0%nat sample_server s0);
    [apply sample_srv_wf|apply sample_can_save|vm_compute; reflexivity..| | |].
  - split; [reflexivity|]. split; [|done].
    change (Forall server_ok [mkServerConfig "http://c:3" 1 2]). repeat constructor; simpl; done || lia.
  - apply NoDup_singleton.
  - right. intros ?%list_elem_of_singleton. discriminate.
Defined.

Lemma handleDeleteServer_removes_witness :
  let '(r, s') := handleDeleteServer id0 s0 in
  StatusCode r = 204 ∧ configured s' = [] ∧ GetServer (server_pool s') "http://a:1" = None.
Proof.
  pose proof (handleDeleteServer_removes id0 "http://a:1" 0%nat sample_server s0 (sample_srv_wf None)) as Hd.
  destruct (handleDeleteServer id0 s0) as [r s'].
  destruct Hd as (Hni & g & _ & Hyes & _); [vm_compute; reflexivity..|apply sample_configured_ok|].
  destruct (Hni sample_NoDup) as [_ Hl]. rewrite Hl in Hyes. exact (Hyes (sample_can_save _)).
Defined.

(** The same where the file cannot be written. *)
Example delete_unwritten :
  let '(r, s') := handleDeleteServer id0 (sample_srv (Some (Errorf "disk full", None))) in
  StatusCode r = 500 ∧ configured s' = [] ∧ is_Some (GetServer (server_pool s') "http://a:1").
Proof. vm_compute. split_and!; [done|done|by eexists]. Qed.

(** A loaded configuration whose second server has no slots. *)
Let bad : ServerConfig := mkServerConfig "http://b:2" 1 0.
Let st1 : Store :=
  let '(h, c) := materialise empty_heap (mkConfigData sample_global (Some [sample_server; bad])) in
  mkStore c "config.yaml" h (sample_os None).
Let s1 : Server := New st1 sample_disc (Router.New NewPool) None.

Lemma s1_wf : server_wf s1.
Proof.
  apply syncServers_wf. split.
  - destruct (materialise_spec empty_heap
      (mkConfigData sample_global (Some [sample_server; bad]))) as (? & ? & _); [by intros ? ?|].
    by split.
  - split; [apply NewPool_wf|]. by intros ? ? ?.
  - apply (sample_srv_wf None).
  - apply (sample_srv_wf None).
  - done.
Qed.

Lemma handleDeleteServer_rejected_witness :
  let '(r, s') := handleDeleteServer id0 s1 in
  StatusCode r = 500 ∧ configured s' = [bad; bad] ∧ runtime_same s1 s'.
Proof.
  apply (handleDeleteServer_rejected id0 "http://a:1" 0%nat sample_server bad s1);
    [apply s1_wf|vm_compute; reflexivity..|].
  intros (_ & Hf & _). change (Forall server_ok [bad]) in Hf.
  apply Forall_cons in Hf as [(_ & _ & _ & Hm) _]. simpl in Hm. lia.
Defined.

Lemma handlePutConfig_leftovers_witness :
  let b := quoted "{'Global':{'FallbackStrategy':'error'},'Servers':[]}" in
  let '(r, s') := handlePutConfig "application/json" (BodyOf b) s0 in
  GetServer (server_pool s') "http://a:1" = Some sample_server ∧
  Inflight (server_pool s') "http://a:1" = 0.
Proof.
  intros b.
  pose proof (handlePutConfig_leftovers "application/json" (BodyOf b) s0 "http://a:1" sample_server
    (sample_srv_wf None) eq_refl) as Hl.
  assert (StatusCode (handlePutConfig "application/json" (BodyOf b) s0).1 = 200) as Hr
    by (vm_compute; reflexivity).
  assert (urls_of (configured (handlePutConfig "application/json" (BodyOf b) s0).2) = []) as Hu
    by (vm_compute; reflexivity).
  destruct (handlePutConfig "application/json" (BodyOf b) s0) as [r s'].
  apply Hl; [exact Hr|]. simpl in Hu. rewrite Hu. by intros ?%elem_of_nil.
Defined.

Lemma get_put_config_witness :
  let '(r, s') := handlePutConfig "text/plain" (BodyOf (resp_Body (handleGetConfig s0))) s0 in
  view (heap (cfg s')) (Config.Get (cfg s')) = view (heap (cfg s0)) (Config.Get (cfg s0)) ∧
  r = handleGetConfig s0.
Proof.
  pose proof (get_put_config "text/plain" s0 (sample_srv_wf None)) as Hp.
  destruct (handlePutConfig _ _ _) as [r s']. destruct Hp as (Hv & Hyes & _).
  - reflexivity.
  - change (ints_ok sample_data). split; repeat constructor; done.
  - change (texts_ok sample_data). repeat split. repeat constructor.
  - apply sample_configured_ok.
  - vm_compute. reflexivity.
  - vm_compute. reflexivity.
  - split; [exact Hv|]. apply Hyes, sample_can_save.
Defined.

(** An update can give two servers the same URL: nothing checks it. *)
Example update_duplicates :
  let s := (handleAddServer (BodyOf
    (quoted "{'url':'http://b:2','distance':4,'max_concurrent_requests':3}")) s0).2 in
  urls_of (configured (handleUpdateServer id0 (BodyOf (quoted "{'url':'http://b:2'}")) s).2) =
  ["http://b:2"; "http://b:2"].
Proof. vm_compute. reflexivity. Qed.
End witnesses.
