(* ===== verification/AdminAnswers.v ===== *)
(** * What the admin API answers

    The shape of every answer of [Admin]: its status, its content type, and a
    body a JSON decoder reads. *)
From Stdlib Require Import ZArith Lia.
From stdpp Require Import base tactics option list numbers strings gmap.
From S2P Require Import Prelude GoSlice GoStrings GoUrl GoJson JsonRoundTrip.
From S2P Require Import Config Interfaces Backend Discovery Metrics Router Http Exporter Server Admin.

Open Scope Z_scope.

(** The tree of an error. *)
Definition error_json (msg : string) : json :=
  JObj [("error", JObj [("message", JStr msg); ("type", JStr "error")])].

(** The kinds of answers. *)
Inductive answer : Response → Prop :=
  | answer_error st msg : st ∈ [400; 404; 409; 500] → answer (respondError st msg)
  | answer_server st sc : st ∈ [200; 201] → answer (respondJSON st (ServerConfig_json sc))
  | answer_config d : answer (respondJSON 200 (Config_json d))
  | answer_empty : answer (mkResponse 204 ∅ EmptyString).

(** What a client sees of an answer. *)
Definition readable (r : Response) : Prop :=
  resp_Header r = {["Content-Type" := ["application/json"]]} ∧
  ((failure r ∧ ∃ msg, parse (resp_Body r) = Some (error_json (sanitize msg))) ∨
   (success r ∧ ∃ sc, parse (resp_Body r) = Some (clean (ServerConfig_json sc))) ∨
   (StatusCode r = 200 ∧ ∃ d, parse (resp_Body r) = Some (clean (Config_json d)))).

Ltac answer_error := apply answer_error; status_code.

Section answers.
Context `{!GrowPolicy, !Yaml, !NetURL}.

Lemma commit_answer c st status s finish r s' :
  status ∈ [400; 404; 409; 500] → (∀ s, answer (finish s).1) →
  commit c st status s finish = (r, s') → answer r.
Proof.
  intros Hst Hf. unfold commit. destruct (Set_ c st) as [[e|] st'].
  - intros [= <- _]. by apply answer_error.
  - intros Hr. specialize (Hf (set_cfg st' s)). by rewrite Hr in Hf.
Qed.

Lemma server_id_answer rawID r : server_id rawID = inl r → answer r.
Proof.
  unfold server_id. case_bool_decide; [intros [= <-]; answer_error|].
  destruct (PathUnescape rawID); [done|]. intros [= <-]. answer_error.
Qed.

Lemma handleAddServer_answer body s : answer (handleAddServer body s).1.
Proof.
  unfold handleAddServer. destruct body as [|b]; [answer_error|].
  destruct (Decode _ _ _) as [x|sc]; [answer_error|]. destruct (existsb _ _); [answer_error|].
  destruct (append _ _ _) as [h sl]. destruct (commit _ _ _ _ _) as [r s'] eqn:Hc.
  eapply commit_answer; [| |exact Hc]; [status_code|]. intros s1. apply answer_server. status_code.
Qed.

Lemma handleUpdateServer_answer rawID body s r :
  (handleUpdateServer rawID body s).1 = Some r → answer r.
Proof.
  unfold handleUpdateServer. destruct (server_id rawID) as [r'|id] eqn:Hid.
  { intros [= <-]. by eapply server_id_answer. }
  destruct body as [|b]; [intros [= <-]; answer_error|].
  destruct (Decode _ _ _) as [x|req]; [intros [= <-]; answer_error|].
  destruct (find_server _ _) as [[i sc]|]; [|intros [= <-]; answer_error].
  destruct (set_index _ _ _ _) as [h|]; [|done].
  destruct (commit _ _ _ _ _) as [r' s'] eqn:Hc. intros [= <-].
  eapply commit_answer; [| |exact Hc]; [status_code|]. intros s1. apply answer_server. status_code.
Qed.

Lemma handleDeleteServer_answer rawID s : answer (handleDeleteServer rawID s).1.
Proof.
  unfold handleDeleteServer. destruct (server_id rawID) as [r'|id] eqn:Hid.
  { by eapply server_id_answer. }
  destruct (find_server _ _) as [[i sc]|]; [|answer_error].
  destruct (remove_at _ _ _) as [h sl]. destruct (commit _ _ _ _ _) as [r s'] eqn:Hc.
  eapply commit_answer; [| |exact Hc]; [status_code|]. intros s1. apply answer_empty.
Qed.

Context `{!JsonErrors}.

Lemma handlePutConfig_answer ct body s : answer (handlePutConfig ct body s).1.
Proof.
  unfold handlePutConfig. destruct body as [|b]; [answer_error|].
  destruct (decode_config ct b) as [r|d] eqn:Hd.
  { revert Hd. unfold decode_config. repeat case_match; intros; simplify_eq; answer_error. }
  destruct (materialise _ _) as [h c]. destruct (commit _ _ _ _ _) as [r s'] eqn:Hc.
  eapply commit_answer; [| |exact Hc]; [status_code|]. intros s1. apply answer_config.
Qed.

Lemma handle_admin_answer q s r : (handle_admin q s).1 = Some r → answer r.
Proof.
  destruct q as [body|rawID body|rawID|ct body]; simpl.
  - pose proof (handleAddServer_answer body s) as Ha.
    destruct (handleAddServer body s). by intros [= <-].
  - apply handleUpdateServer_answer.
  - pose proof (handleDeleteServer_answer rawID s) as Ha.
    destruct (handleDeleteServer rawID s). by intros [= <-].
  - pose proof (handlePutConfig_answer ct body s) as Ha.
    destruct (handlePutConfig ct body s). by intros [= <-].
Qed.

Lemma answer_readable r :
  answer r → r = mkResponse 204 ∅ EmptyString ∨ readable r.
Proof.
  intros [st msg Hst|st sc Hst|d|]; [right..|by left]; split; try done.
  - left. split; [exact Hst|]. exists msg. exact (parse_marshal_end None (error_json msg) eq_refl).
  - right. left. split; [unfold success; set_solver|]. exists sc.
    exact (parse_marshal_end None _ (ServerConfig_json_decodable sc)).
  - right. right. split; [done|]. exists d.
    exact (parse_marshal_end None _ (Config_json_decodable d)).
Qed.

(** [C33] Every answer of the admin API that changes something, whatever bytes the
    request has, is either an empty 204 or JSON: its content type says so, and
    its body parses, for an error (400, 404, 409, 500) to an object with the
    message, for a success to the server or the configuration, each with the
    bytes replaced that are not UTF-8. *)
Theorem admin_answers_json q s r :
  (handle_admin q s).1 = Some r → r = mkResponse 204 ∅ EmptyString ∨ readable r.
Proof. intros Hr. eapply answer_readable, handle_admin_answer, Hr. Qed.
End answers.

(** ** Witnesses *)

Section witnesses.
#[local] Existing Instances sample_grow sample_yaml sample_url sample_range sample_probe.
#[local] Instance no_text : JsonErrors := λ _, "unexpected end of JSON input".

(** A server id with a byte that is not UTF-8 is echoed in the message. *)
Lemma admin_answers_json_witness :
  let q := DeleteReq "%ff" in
  let r := default (mkResponse 0 ∅ EmptyString) (handle_admin q (sample_srv None)).1 in
  (r = mkResponse 204 ∅ EmptyString ∨ readable r) ∧
  parse (resp_Body r) = Some (error_json ("server not found: " +:+ replacement)).
Proof.
  intros q r. split; [|vm_compute; reflexivity].
  apply (admin_answers_json q (sample_srv None)). vm_compute. reflexivity.
Defined.
End witnesses.
