(* ===== verification/AdminConcurrent.v ===== *)
(** * Concurrent requests to the admin API (src/server/server.go)

    [Admin] gives a request that changes the configuration as one function of
    the state of the server.  [net/http] runs every request in a goroutine of its
    own, and the handlers of server.go hold no lock across their calls: each
    takes a copy of the configuration, looks through its servers, changes them,
    calls [Set], and copies the servers that are then configured to the pool, to
    discovery and to the collector.  Here a request is a sequence of steps,
    between which other requests go on, servers are polled and connections come
    and go.  A step is one call of a method that locks, or one access to an
    element of the slice of servers; [Set] is one step, including its reading of
    the elements. *)
From Stdlib Require Import ZArith Lia.
From stdpp Require Import base tactics option list numbers strings gmap relations.
From S2P Require Import Prelude GoSlice GoStrings GoText GoJson GoUrl JsonRoundTrip.
From S2P Require Import Config Interfaces Backend Discovery Metrics Router Http Server Admin.

Open Scope Z_scope.

(** ** A request in steps *)

(** What has been asked for, from [Set] on. *)
Inductive Finish : Type :=
  | Added (sc : ServerConfig)
  | Updated (updated : ServerConfig) (id : string)
  | Deleted (id : string)
  | Replaced.

(** Where a handler is.  [c] is its copy of the configuration, [i] the index of a
    loop over the servers in it. *)
Inductive Stage : Type :=
  | Arrived (q : AdminRequest)
  | Checking (sc : ServerConfig) (c : Config) (i : nat)
  | Appending (sc : ServerConfig) (c : Config)
  | Finding (id : string) (req : Patch) (c : Config) (i : nat)
  | Writing (id : string) (updated : ServerConfig) (c : Config) (i : nat)
  | Seeking (id : string) (c : Config) (i : nat)
  | Removing (id : string) (c : Config) (i : nat)
  | Setting (c : Config) (status : Z) (fin : Finish)
  | Dropping (id : string) (fin : Finish)
  | Syncing (fin : Finish)
  | Pooling (c : Config) (i : nat) (fin : Finish)
  | Listing (c : Config) (i : nat) (urls : list string) (fin : Finish)
  | Telling (urls : list string) (fin : Finish)
  | Measuring (urls : list string) (fin : Finish)
  | Answering (fin : Finish)
  | Done (r : option Response).   (* [None] is a panic *)

Definition set_heap (h : Heap ServerConfig) (s : Server) : Server := set_cfg (with_heap (cfg s) h) s.

(** ** Slices that other goroutines hold *)

Section frame.
Context {A : Type} `{!GoZero A} `{!GrowPolicy}.
Implicit Types (h : Heap A) (sl t : Slice).

(** Every slice of [h] is one of [h']. *)
Definition heap_le h h' : Prop := ∀ t, slice_wf h t → slice_wf h' t.

Lemma append_le h sl xs : heap_wf h → heap_le h (append h sl xs).1.
Proof.
  intros Hh t Ht. unfold append. case_decide.
  - destruct (ptr sl); [exact (write_slice_wf h _ _ xs t Ht)|exact Ht].
  - pose proof (alloc_frame h (elems h sl ++ xs) (grow (cap sl) (len sl + length xs)) t Hh Ht) as Hf.
    exact (proj2 Hf).
Qed.

Lemma set_index_le h sl i x h' : set_index h sl i x = Some h' → heap_le h h'.
Proof.
  unfold set_index. case_decide; [|done]. destruct (ptr sl); [|done]. intros [= <-] t.
  apply write_slice_wf.
Qed.

Lemma remove_at_wf h sl i :
  heap_wf h → slice_wf h sl → (i < len sl)%nat →
  heap_wf (remove_at h sl i).1 ∧ slice_wf (remove_at h sl i).1 (remove_at h sl i).2 ∧
  heap_le h (remove_at h sl i).1.
Proof.
  intros Hh Hs Hi. unfold remove_at.
  assert (slice_wf h (slice_to sl i)) as Hto by (destruct Hs; split; [simpl; lia|done]).
  pose proof (append_spec h (slice_to sl i) (elems h (slice_from sl (S i))) Hh Hto) as Ha.
  split_and!; [| |by apply append_le]; by destruct (append _ _ _); destruct Ha as (? & ? & _).
Qed.
End frame.

Section steps.
Context `{!GrowPolicy, !Yaml, !NetURL, !JsonErrors}.

(** [for i, sc := range c.Servers] at index [i]: [body] with the element, or
    [after] behind the last one. *)
Definition range_at (s : Server) (c : Config) (i : nat) (body : ServerConfig → Stage * Server)
    (after : Stage) : Stage * Server :=
  if decide (i < len (Servers c))%nat then
    match elems (heap (cfg s)) (Servers c) !! i with
    | None => (Done None, s)
    | Some sc => body sc
    end
  else (after, s).

(** Up to the loop of the handler: the request is decoded, the configuration
    is fetched. *)
Definition arrive (q : AdminRequest) (s : Server) : Stage * Server :=
  match q with
  | AddReq BodyError => (Done (Some (respondError 400 "invalid JSON body")), s)
  | AddReq (BodyOf b) =>
      match Decode add_request b zero with
      | inl _ => (Done (Some (respondError 400 "invalid JSON body")), s)
      | inr sc => (Checking sc (Config.Get (cfg s)) 0, s)
      end
  | UpdateReq rawID body =>
      match server_id rawID with
      | inl r => (Done (Some r), s)
      | inr id =>
          match body with
          | BodyError => (Done (Some (respondError 400 "invalid JSON body")), s)
          | BodyOf b =>
              match Decode update_request b (mkPatch None None None) with
              | inl _ => (Done (Some (respondError 400 "invalid JSON body")), s)
              | inr req => (Finding id req (Config.Get (cfg s)) 0, s)
              end
          end
      end
  | DeleteReq rawID =>
      match server_id rawID with
      | inl r => (Done (Some r), s)
      | inr id => (Seeking id (Config.Get (cfg s)) 0, s)
      end
  | PutReq ct BodyError => (Done (Some (respondError 400 "failed to read request body")), s)
  | PutReq ct (BodyOf b) =>
      match decode_config ct b with
      | inl r => (Done (Some r), s)
      | inr d =>
          let '(h, newCfg) := materialise (heap (cfg s)) d in
          (Setting newCfg 400 Replaced, set_heap h s)
      end
  end.

(** Behind a successful [Set]. *)
Definition after_set (fin : Finish) : Stage :=
  match fin with
  | Updated updated id => if bool_decide (URL updated = id) then Syncing fin else Dropping id fin
  | Deleted id => Dropping id fin
  | _ => Syncing fin
  end.

Definition answer (fin : Finish) (s : Server) : Response :=
  match fin with
  | Added sc => respondJSON 201 (ServerConfig_json sc)
  | Updated updated _ => respondJSON 200 (ServerConfig_json updated)
  | Deleted _ => mkResponse 204 ∅ EmptyString
  | Replaced => respondJSON 200 (Config_json (view (heap (cfg s)) (Config.Get (cfg s))))
  end.

(** One step of a request. *)
Definition admin_step (w : Stage) (s : Server) : Stage * Server :=
  match w with
  | Arrived q => arrive q s
  | Checking sc c i =>
      range_at s c i (λ existing,
        if bool_decide (URL existing = URL sc)
        then (Done (Some (respondError 409 ("server already exists: " +:+ URL sc))), s)
        else (Checking sc c (S i), s))
      (Appending sc c)
  | Appending sc c =>
      let '(h, sl) := append (heap (cfg s)) (Servers c) [sc] in
      (Setting (mkConfig (Global c) sl) 400 (Added sc), set_heap h s)
  | Finding id req c i =>
      range_at s c i (λ sc,
        if bool_decide (URL sc = id) then (Writing id (apply_patch req sc) c i, s)
        else (Finding id req c (S i), s))
      (Done (Some (respondError 404 ("server not found: " +:+ id))))
  | Writing id updated c i =>
      match set_index (heap (cfg s)) (Servers c) i updated with
      | None => (Done None, s)
      | Some h => (Setting c 400 (Updated updated id), set_heap h s)
      end
  | Seeking id c i =>
      range_at s c i (λ sc,
        if bool_decide (URL sc = id) then (Removing id c i, s) else (Seeking id c (S i), s))
      (Done (Some (respondError 404 ("server not found: " +:+ id))))
  | Removing id c i =>
      let '(h, sl) := remove_at (heap (cfg s)) (Servers c) i in
      (Setting (mkConfig (Global c) sl) 500 (Deleted id), set_heap h s)
  | Setting c status fin =>
      match Set_ c (cfg s) with
      | (Some e, st) => (Done (Some (respondError status (Error e))), set_cfg st s)
      | (None, st) => (after_set fin, set_cfg st s)
      end
  | Dropping id fin => (Syncing fin, set_pool (RemoveServer id (server_pool s)) s)
  | Syncing fin => (Pooling (Config.Get (cfg s)) 0 fin, s)
  | Pooling c i fin =>
      range_at s c i (λ sc, (Pooling c (S i) fin, set_pool (AddServer sc (server_pool s)) s))
      (Listing c 0 [] fin)
  | Listing c i urls fin =>
      range_at s c i (λ sc, (Listing c (S i) (urls ++ [URL sc]) fin, s)) (Telling urls fin)
  | Telling urls fin => (Measuring urls fin, set_disc (Discovery.SetServers urls (disc s)) s)
  | Measuring urls fin => (Answering fin, set_mc (Metrics.SetServers urls <$> mc s) s)
  | Answering fin => (Done (Some (answer fin s)), s)
  | Done r => (Done r, s)
  end.

(** ** A request on its own *)

(** The steps of one request with nothing in between. *)
Definition alone : relation (Stage * Server) := λ x y, y = admin_step x.1 x.2.

Definition answered (x : option Response * Server) : Stage * Server := (Done x.1, x.2).

Lemma alone_next w s y : rtc alone (admin_step w s) y → rtc alone (w, s) y.
Proof. intros Hr. by eapply rtc_l; [|exact Hr]. Qed.

(** A loop over the servers of [c] does what it says of the elements. *)
Lemma range_at_spec s c i body after :
  slice_wf (heap (cfg s)) (Servers c) →
  range_at s c i body after =
    match elems (heap (cfg s)) (Servers c) !! i with Some sc => body sc | None => (after, s) end.
Proof.
  intros Hsl. pose proof (elems_length _ _ Hsl) as Hlen. unfold range_at.
  case_decide as Hi.
  - by destruct (lookup_lt_is_Some_2 (elems (heap (cfg s)) (Servers c)) i) as [sc ->]; [lia|].
  - by rewrite lookup_ge_None_2 by lia.
Qed.

Lemma range_ind {A} (svs : list A) (Q : nat → Prop) :
  (∀ i, svs !! i = None → Q i) → (∀ i x, svs !! i = Some x → Q (S i) → Q i) → ∀ i, Q i.
Proof.
  intros Hnil Hcons i. remember (length svs - i)%nat as n eqn:Hn.
  revert i Hn. induction n as [|n IH]; intros i Hn.
  - apply Hnil, lookup_ge_None_2. lia.
  - destruct (svs !! i) as [x|] eqn:Hx; [|by apply Hnil].
    apply (Hcons i x Hx), IH. lia.
Qed.

Section loops.
Variables (s : Server) (c : Config) (y : Stage * Server).
Hypothesis Hc : slice_wf (heap (cfg s)) (Servers c).
Notation svs := (elems (heap (cfg s)) (Servers c)).

Lemma alone_checking sc i :
  rtc alone (if existsb (λ existing, bool_decide (URL existing = URL sc)) (drop i svs)
             then Done (Some (respondError 409 ("server already exists: " +:+ URL sc)))
             else Appending sc c, s) y →
  rtc alone (Checking sc c i, s) y.
Proof.
  revert i. refine (range_ind svs _ _ _); intros i.
  - intros Hi Hr. apply alone_next. cbn [admin_step]. rewrite range_at_spec, Hi by done.
    by rewrite drop_ge in Hr by by apply lookup_ge_None.
  - intros x Hi IH Hr. apply alone_next. cbn [admin_step]. rewrite range_at_spec, Hi by done.
    rewrite (drop_S _ _ _ Hi) in Hr. cbn [existsb] in Hr.
    destruct (bool_decide (URL x = URL sc)); [done|by apply IH].
Qed.

(** The two loops that look for a server; [found] is where they go on. *)
Lemma alone_looking id (at_ : nat → Stage) (found : ServerConfig → nat → Stage) i :
  (∀ i, admin_step (at_ i) s = range_at s c i (λ sc,
    if bool_decide (URL sc = id) then (found sc i, s) else (at_ (S i), s))
    (Done (Some (respondError 404 ("server not found: " +:+ id))))) →
  rtc alone (match find_server id (drop i svs) with
             | Some (j, sc) => found sc (i + j)%nat
             | None => Done (Some (respondError 404 ("server not found: " +:+ id)))
             end, s) y →
  rtc alone (at_ i, s) y.
Proof.
  intros Hat. revert i. refine (range_ind svs _ _ _); intros i.
  - intros Hi Hr. apply alone_next. rewrite Hat, range_at_spec, Hi by done.
    by rewrite drop_ge in Hr by by apply lookup_ge_None.
  - intros x Hi IH Hr. apply alone_next. rewrite Hat, range_at_spec, Hi by done.
    rewrite (drop_S _ _ _ Hi) in Hr. unfold find_server in *. cbn [list_find] in Hr.
    destruct (decide (URL x = id)) as [Hx|Hx].
    + rewrite bool_decide_true by done. by rewrite Nat.add_0_r in Hr.
    + rewrite bool_decide_false by done. apply IH.
      destruct (list_find _ (drop (S i) svs)) as [[j sc]|]; [|done].
      simpl in Hr. by rewrite Nat.add_succ_r in Hr.
Qed.

Lemma alone_pooling fin p i :
  rtc alone (Listing c 0 [] fin, set_pool (sync_pool (drop i svs) p) s) y →
  rtc alone (Pooling c i fin, set_pool p s) y.
Proof.
  revert i p. refine (range_ind svs _ _ _); intros i.
  - intros Hi p Hr. apply alone_next. cbn [admin_step]. rewrite range_at_spec by done.
    change (heap (cfg (set_pool p s))) with (heap (cfg s)). rewrite Hi.
    by rewrite drop_ge in Hr by by apply lookup_ge_None.
  - intros x Hi IH p Hr. apply alone_next. cbn [admin_step]. rewrite range_at_spec by done.
    change (heap (cfg (set_pool p s))) with (heap (cfg s)). rewrite Hi.
    rewrite (drop_S _ _ _ Hi) in Hr. by apply (IH (AddServer x p)).
Qed.

Lemma alone_listing fin urls i :
  rtc alone (Telling (urls ++ map URL (drop i svs)) fin, s) y →
  rtc alone (Listing c i urls fin, s) y.
Proof.
  revert i urls. refine (range_ind svs _ _ _); intros i.
  - intros Hi urls Hr. apply alone_next. cbn [admin_step]. rewrite range_at_spec, Hi by done.
    rewrite drop_ge in Hr by by apply lookup_ge_None. by rewrite app_nil_r in Hr.
  - intros x Hi IH urls Hr. apply alone_next. cbn [admin_step]. rewrite range_at_spec, Hi by done.
    rewrite (drop_S _ _ _ Hi) in Hr. apply IH. by rewrite <- app_assoc.
Qed.
End loops.

Lemma alone_telling fin s y :
  store_wf (cfg s) →
  rtc alone (Telling (urls_of (configured s)) fin,
             set_pool (sync_pool (configured s) (server_pool s)) s) y →
  rtc alone (Syncing fin, s) y.
Proof.
  intros [_ Hsl] Hr. apply alone_next. cbn [admin_step].
  assert (s = set_pool (server_pool s) s) as E by by destruct s as [? ? [] ? ? ?].
  rewrite E at 2. apply alone_pooling; [done|]. rewrite drop_0.
  apply alone_listing; [done|]. rewrite drop_0. exact Hr.
Qed.

Lemma alone_syncing fin s y :
  store_wf (cfg s) →
  rtc alone (Done (Some (answer fin (syncServers s))), syncServers s) y →
  rtc alone (Syncing fin, s) y.
Proof.
  intros Hs Hr. apply alone_telling; [done|].
  do 3 (apply alone_next; cbn [admin_step]). exact Hr.
Qed.

(** From [Set] on, a request does what [commit] does. *)
Lemma alone_setting c status fin s st finish y :
  heap_wf (heap st) → slice_wf (heap st) (Servers c) → slice_wf (heap st) (Servers (config st)) →
  (∀ s1, finish s1 = (answer fin (syncServers s1), syncServers s1)) →
  rtc alone (let '(r, s') := commit c st status s (λ s1, finish (match fin with
      | Updated updated id => if bool_decide (URL updated = id) then s1
                              else set_pool (RemoveServer id (server_pool s1)) s1
      | Deleted id => set_pool (RemoveServer id (server_pool s1)) s1
      | _ => s1 end)) in (Done (Some r), s')) y →
  rtc alone (Setting c status fin, set_cfg st s) y.
Proof.
  intros Hh Hc Hst Hfin Hr. apply alone_next. cbn [admin_step]. cbn [cfg set_cfg]. unfold commit in Hr.
  destruct (Set_ c st) as [[e|] st'] eqn:Hset; [exact Hr|].
  pose proof (Set_wf _ _ _ _ Hh Hc Hst Hset) as Hwf. rewrite Hfin in Hr.
  change (set_cfg st' (set_cfg st s)) with (set_cfg st' s).
  destruct fin as [sc|updated id|id|]; cbn [after_set].
  - by apply alone_syncing.
  - destruct (bool_decide (URL updated = id)); [by apply alone_syncing|].
    apply alone_next. cbn [admin_step]. by apply alone_syncing.
  - apply alone_next. cbn [admin_step]. by apply alone_syncing.
  - by apply alone_syncing.
Qed.

Lemma alone_put ct b s :
  server_wf s →
  rtc alone (arrive (PutReq ct (BodyOf b)) s) (answered (handle_admin (PutReq ct (BodyOf b)) s)).
Proof.
  intros Hs. pose proof (swf_cfg s Hs) as [Hh Hsl]. cbn [arrive handle_admin]. unfold handlePutConfig.
  destruct (decode_config ct b) as [r|d]; [apply rtc_refl|].
  pose proof (materialise_spec (heap (cfg s)) d Hh) as Hm.
  pose proof (materialise_frame (heap (cfg s)) d (Servers (config (cfg s))) Hh Hsl) as Hfr.
  destruct (materialise _ _) as [h c]. destruct Hm as (? & ? & _), Hfr as [_ ?].
  eapply (alone_setting c 400 Replaced s (with_heap (cfg s) h)); [done..|intros s1; reflexivity|].
  cbn. destruct (commit _ _ _ _ _) as [r s']. apply rtc_refl.
Qed.

Lemma alone_add b s :
  server_wf s →
  rtc alone (arrive (AddReq (BodyOf b)) s) (answered (handle_admin (AddReq (BodyOf b)) s)).
Proof.
  intros Hs. pose proof (swf_cfg s Hs) as [Hh Hsl]. cbn [arrive handle_admin]. unfold handleAddServer.
  destruct (Decode add_request b zero) as [|sc]; [apply rtc_refl|].
  apply alone_checking; [done|]. rewrite drop_0. fold (servers_of (cfg s) (Config.Get (cfg s))).
  fold (configured s). destruct (existsb _ _); [apply rtc_refl|].
  apply alone_next. cbn [admin_step].
  pose proof (append_spec (heap (cfg s)) (Servers (Config.Get (cfg s))) [sc] Hh Hsl) as Ha.
  destruct (append _ _ [sc]) as [h sl]. destruct Ha as (? & ? & ? & _).
  eapply (alone_setting _ 400 (Added sc) s (with_heap (cfg s) h)); [done..|intros s1; reflexivity|].
  cbn. destruct (commit _ _ _ _ _) as [r s']. apply rtc_refl.
Qed.

Lemma alone_update rawID body s :
  server_wf s →
  rtc alone (arrive (UpdateReq rawID body) s) (answered (handle_admin (UpdateReq rawID body) s)).
Proof.
  intros Hs. pose proof (swf_cfg s Hs) as [Hh Hsl]. cbn [arrive handle_admin].
  unfold handleUpdateServer. destruct (server_id rawID) as [r|id]; [apply rtc_refl|].
  destruct body as [|b]; [apply rtc_refl|].
  destruct (Decode update_request b _) as [|req]; [apply rtc_refl|].
  apply (alone_looking s _ _ Hsl id (Finding id req _)
    (λ sc i, Writing id (apply_patch req sc) (Config.Get (cfg s)) i)); [done|].
  rewrite drop_0. change (elems (heap (cfg s)) _) with (configured s).
  destruct (find_server id (configured s)) as [[i sc]|] eqn:Hf; [|apply rtc_refl].
  rewrite Nat.add_0_l. apply alone_next. cbn [admin_step].
  destruct (set_index _ _ i _) as [h|] eqn:Hset; [|apply rtc_refl].
  pose proof (set_index_heap_wf _ _ _ _ _ Hh Hset).
  destruct (set_index_spec _ _ _ _ _ Hsl Hset) as (_ & ? & _).
  eapply (alone_setting (Config.Get (cfg s)) 400 (Updated (apply_patch req sc) id) s
    (with_heap (cfg s) h)); [done..|intros s1; reflexivity|].
  cbn [answer]. cbv zeta. destruct (commit _ _ _ _ _) as [r s']. apply rtc_refl.
Qed.

Lemma alone_delete rawID s :
  server_wf s →
  rtc alone (arrive (DeleteReq rawID) s) (answered (handle_admin (DeleteReq rawID) s)).
Proof.
  intros Hs. pose proof (swf_cfg s Hs) as [Hh Hsl]. cbn [arrive handle_admin].
  unfold handleDeleteServer. destruct (server_id rawID) as [r|id]; [apply rtc_refl|].
  apply (alone_looking s _ _ Hsl id (Seeking id _) (λ sc i, Removing id (Config.Get (cfg s)) i));
    [done|].
  rewrite drop_0. change (elems (heap (cfg s)) _) with (configured s).
  destruct (find_server id (configured s)) as [[i sc]|] eqn:Hf; [|apply rtc_refl].
  rewrite Nat.add_0_l. apply alone_next. cbn [admin_step].
  apply find_server_lookup in Hf as [Hi _]. pose proof (configured_length _ _ _ Hs Hi) as Hlt.
  destruct (remove_at_wf _ _ _ Hh Hsl Hlt) as (? & ? & Hall).
  destruct (remove_at _ _ i) as [h sl].
  eapply (alone_setting _ 500 (Deleted id) s (with_heap (cfg s) h));
    [done|done|by apply Hall|intros s1; reflexivity|].
  cbn [answer]. cbv zeta. destruct (commit _ _ _ _ _) as [r s']. apply rtc_refl.
Qed.

(** [C12] A request to the admin API whose steps no other request interrupts
    does what [Admin] says of it as a whole: the same answer, in the same
    state. *)
Theorem admin_steps_refine q s :
  server_wf s → rtc alone (Arrived q, s) (answered (handle_admin q s)).
Proof.
  intros Hs. apply alone_next. cbn [admin_step].
  destruct q as [[|b]|rawID body|rawID|ct [|b]]; try apply rtc_refl.
  - by apply alone_add.
  - by apply alone_update.
  - by apply alone_delete.
  - by apply alone_put.
Qed.
End steps.

(** ** Every request ends *)

Section termination.
Context `{!GrowPolicy, !Yaml, !NetURL, !JsonErrors}.

(** The stage after [n] steps of a request that finds the server in the state
    [env k] at its [k]-th step, whatever others have made of it. *)
Fixpoint own_steps (env : nat → Server) (n : nat) (w : Stage) : Stage :=
  match n with
  | O => w
  | S n' => own_steps (λ k, env (S k)) n' (admin_step w (env O)).1
  end.

(** The steps that are left, with at most [L] servers configured. *)
Definition steps_left (L : nat) (w : Stage) : nat :=
  match w with
  | Arrived _ => 3 * L + 11
  | Checking _ c i | Finding _ _ c i | Seeking _ c i => (len (Servers c) - i) + 2 * L + 10
  | Appending _ _ | Writing _ _ _ _ | Removing _ _ _ => 2 * L + 9
  | Setting _ _ _ => 2 * L + 8
  | Dropping _ _ => 2 * L + 7
  | Syncing _ => 2 * L + 6
  | Pooling c i _ => (len (Servers c) - i) + len (Servers c) + 5
  | Listing c i _ _ => (len (Servers c) - i) + 4
  | Telling _ _ => 3
  | Measuring _ _ => 2
  | Answering _ => 1
  | Done _ => 0
  end%nat.

Lemma range_at_left L s c i body after n :
  (steps_left L after < n)%nat → (0 < n)%nat →
  (∀ sc, (i < len (Servers c))%nat → (steps_left L (body sc).1 < n)%nat) →
  (steps_left L (range_at s c i body after).1 < n)%nat.
Proof.
  intros Ha Hn Hb. unfold range_at. case_decide; [|done].
  destruct (_ !! i); [by apply Hb|exact Hn].
Qed.

Lemma arrive_left L q s :
  (len (Servers (Config.Get (cfg s))) ≤ L)%nat → (steps_left L (arrive q s).1 < 3 * L + 11)%nat.
Proof.
  intros HL. destruct q as [[|b]|rawID body|rawID|ct [|b]]; cbn [arrive]; try (simpl; lia).
  - destruct (Decode add_request b zero); simpl; lia.
  - destruct (server_id rawID); [simpl; lia|]. destruct body as [|b]; [simpl; lia|].
    destruct (Decode update_request b _); simpl; lia.
  - destruct (server_id rawID); simpl; lia.
  - destruct (decode_config ct b); [simpl; lia|]. destruct (materialise _ _). simpl. lia.
Qed.

Lemma admin_step_left L w s :
  (len (Servers (Config.Get (cfg s))) ≤ L)%nat →
  (∃ r, w = Done r) ∨ (steps_left L (admin_step w s).1 < steps_left L w)%nat.
Proof.
  intros HL.
  destruct w as [q|sc c i|sc c|id req c i|id u c i|id c i|id c i|c status fin|id fin|fin|c i fin
    |c i urls fin|urls fin|urls fin|fin|r]; [right..|by left; eexists]; cbn [admin_step].
  - by apply arrive_left.
  - apply range_at_left; [simpl; lia..|]. intros x Hi. destruct (bool_decide _); simpl; lia.
  - destruct (append _ _ _). simpl. lia.
  - apply range_at_left; [simpl; lia..|]. intros x Hi. destruct (bool_decide _); simpl; lia.
  - destruct (set_index _ _ _ _); simpl; lia.
  - apply range_at_left; [simpl; lia..|]. intros x Hi. destruct (bool_decide _); simpl; lia.
  - destruct (remove_at _ _ _). simpl. lia.
  - destruct (Set_ c (cfg s)) as [[e|] st]; [simpl; lia|]. destruct fin; simpl; try lia.
    destruct (bool_decide _); simpl; lia.
  - simpl. lia.
  - simpl in *. lia.
  - apply range_at_left; [simpl; lia..|]. intros x Hi. simpl. lia.
  - apply range_at_left; [simpl; lia..|]. intros x Hi. simpl. lia.
  - simpl. lia.
  - simpl. lia.
  - simpl. lia.
Qed.

(** [C21] Every request to the admin API ends, whatever others do to the server
    between its steps: while no more than [L] servers are configured, it takes
    at most [3 L + 11] steps. *)
Theorem admin_request_ends env q L :
  (∀ k, (len (Servers (Config.Get (cfg (env k)))) ≤ L)%nat) →
  ∃ n r, (n ≤ 3 * L + 11)%nat ∧ own_steps env n (Arrived q) = Done r.
Proof.
  assert (∀ m w env, (steps_left L w ≤ m)%nat →
    (∀ k, (len (Servers (Config.Get (cfg (env k)))) ≤ L)%nat) →
    ∃ n r, (n ≤ m)%nat ∧ own_steps env n w = Done r) as Hall.
  { induction m as [|m IH]; intros w env' Hm HL;
      (destruct (admin_step_left L w (env' 0%nat) (HL 0%nat)) as [[r ->]|Hlt];
       [exists 0%nat, r; split; [lia|done]|]); [lia|].
    destruct (IH (admin_step w (env' 0%nat)).1 (λ k, env' (S k))) as (n & r & Hn & Hr);
      [lia|done|]. exists (S n), r. split; [lia|done]. }
  intros HL. by apply Hall.
Qed.
End termination.

(** ** The system *)

(** The server and the requests that have arrived, each where it is. *)
Record AdminSys : Type := mkAdminSys {
  a_server : Server;
  a_stages : list Stage
}.

Section system.
Context `{!GrowPolicy, !Yaml, !NetURL, !JsonErrors, !MapRange, !MapRangeLaw, !Backends}.

(** A request arrives, a request goes on, the poller gets the answer of a server,
    a connection is taken or given back. *)
Inductive asys_step : AdminSys → AdminSys → Prop :=
  | as_arrive s ws q : asys_step (mkAdminSys s ws) (mkAdminSys s (ws ++ [Arrived q]))
  | as_run s ws i w w' s' :
      ws !! i = Some w → admin_step w s = (w', s') →
      asys_step (mkAdminSys s ws) (mkAdminSys s' (<[i := w']> ws))
  | as_poll s ws u : asys_step (mkAdminSys s ws) (mkAdminSys (set_disc (poll u (disc s)) s) ws)
  | as_acquire s ws ctx u r p :
      Acquire ctx u (server_pool s) = (r, p) →
      asys_step (mkAdminSys s ws) (mkAdminSys (set_pool p s) ws)
  | as_release s ws conn :
      asys_step (mkAdminSys s ws) (mkAdminSys (set_pool (Release conn (server_pool s)) s) ws).

(** What holds of a request at its stage: its slice is one of the heap, its
    index is in range, it did not panic, and its answer is a success or a
    refusal. *)
Definition stage_ok (h : Heap ServerConfig) (w : Stage) : Prop :=
  match w with
  | Checking _ c _ | Appending _ c | Finding _ _ c _ | Seeking _ c _ | Pooling c _ _
  | Listing c _ _ _ => slice_wf h (Servers c)
  | Writing _ _ c i | Removing _ c i => slice_wf h (Servers c) ∧ (i < len (Servers c))%nat
  | Setting c status _ => slice_wf h (Servers c) ∧ status ∈ [400; 404; 409; 500]
  | Done None => False
  | Done (Some r) => success r ∨ failure r
  | _ => True
  end.

Lemma stage_ok_le h h' w : heap_le h h' → stage_ok h w → stage_ok h' w.
Proof. intros Hle. destruct w; simpl; try tauto; intros; destruct_and?; split_and?; auto. Qed.

(** A step keeps the server well formed, the slices of the others, and leads
    to a stage that is in order. *)
Definition step_ok (s : Server) (x : Stage * Server) : Prop :=
  server_wf x.2 ∧ heap_le (heap (cfg s)) (heap (cfg x.2)) ∧ stage_ok (heap (cfg x.2)) x.1.

Lemma step_ok_same s w : server_wf s → stage_ok (heap (cfg s)) w → step_ok s (w, s).
Proof. intros Hs Hw. by split_and!; [|intros t|]. Qed.

Lemma range_at_ok s c i body after :
  server_wf s → slice_wf (heap (cfg s)) (Servers c) →
  (∀ sc, (i < len (Servers c))%nat → step_ok s (body sc)) → stage_ok (heap (cfg s)) after →
  step_ok s (range_at s c i body after).
Proof.
  intros Hs Hc Hb Ha. unfold range_at. case_decide as Hi; [|by apply step_ok_same].
  pose proof (elems_length _ _ Hc) as Hlen.
  destruct (lookup_lt_is_Some_2 (elems (heap (cfg s)) (Servers c)) i) as [sc ->]; [lia|]. by apply Hb.
Qed.

(** The handlers write to the heap in front of [Set]. *)
Lemma set_heap_ok s h c status fin :
  server_wf s → heap_wf h → heap_le (heap (cfg s)) h → slice_wf h (Servers c) →
  status ∈ [400; 404; 409; 500] → step_ok s (Setting c status fin, set_heap h s).
Proof.
  intros Hs Hh Hle Hc Hst. split; [|by split].
  apply set_cfg_wf; [|done]. split; [done|]. apply Hle, Hs.
Qed.

Lemma arrive_ok q s : server_wf s → step_ok s (arrive q s).
Proof.
  intros Hs. pose proof (swf_cfg s Hs) as [Hh Hsl].
  assert (∀ r, failure r → step_ok s (Done (Some r), s)) as Hfail
    by (intros r Hr; apply step_ok_same; [done|by right]).
  destruct q as [[|b]|rawID body|rawID|ct [|b]]; cbn [arrive]; try (apply Hfail; status_code).
  - destruct (Decode add_request b zero); [apply Hfail; status_code|by apply step_ok_same].
  - destruct (server_id rawID) as [r|id] eqn:Hid; [by eapply Hfail, server_id_failure|].
    destruct body as [|b]; [apply Hfail; status_code|].
    destruct (Decode update_request b _); [apply Hfail; status_code|by apply step_ok_same].
  - destruct (server_id rawID) as [r|id] eqn:Hid; [by eapply Hfail, server_id_failure|].
    by apply step_ok_same.
  - destruct (decode_config ct b) as [r|d] eqn:Hd; [by eapply Hfail, decode_config_failure|].
    pose proof (materialise_spec (heap (cfg s)) d Hh) as Hm.
    pose proof (materialise_frame (heap (cfg s)) d) as Hfr.
    destruct (materialise _ _) as [h c]. destruct Hm as (? & ? & _).
    apply set_heap_ok; [done..|intros t Ht; by apply Hfr|done|status_code].
Qed.

Lemma admin_step_ok w s :
  server_wf s → stage_ok (heap (cfg s)) w → step_ok s (admin_step w s).
Proof.
  intros Hs Hw. pose proof (swf_cfg s Hs) as [Hh Hsl].
  destruct w as [q|sc c i|sc c|id req c i|id u c i|id c i|id c i|c status fin|id fin|fin|c i fin
    |c i urls fin|urls fin|urls fin|fin|r]; cbn [admin_step].
  - by apply arrive_ok.
  - apply range_at_ok; [done..| |done]. intros x Hi.
    destruct (bool_decide _); apply step_ok_same; try done. right. status_code.
  - pose proof (append_spec _ _ [sc] Hh Hw) as Ha.
    pose proof (append_le _ (Servers c) [sc] Hh) as Hle.
    destruct (append _ _ _) as [h sl]. destruct Ha as (? & ? & _).
    apply set_heap_ok; [done..|status_code].
  - apply range_at_ok; [done..| |right; status_code]. intros x Hi.
    destruct (bool_decide _); by apply step_ok_same.
  - destruct Hw as [Hc Hi]. destruct (set_index_total _ _ i u Hc Hi) as [h Hset]. rewrite Hset.
    apply set_heap_ok; [done|by eapply set_index_heap_wf|by eapply set_index_le| |status_code].
    by eapply set_index_le.
  - apply range_at_ok; [done..| |right; status_code]. intros x Hi.
    destruct (bool_decide _); by apply step_ok_same.
  - destruct Hw as [Hc Hi]. destruct (remove_at_wf _ _ _ Hh Hc Hi) as (? & ? & ?).
    destruct (remove_at _ _ _) as [h sl]. apply set_heap_ok; [done..|status_code].
  - destruct Hw as [Hc Hst]. destruct (Set_ c (cfg s)) as [e st] eqn:Hset.
    pose proof (Set_wf _ _ _ _ Hh Hc Hsl Hset) as Hwf.
    destruct (Set_mem _ _ _ _ Hset) as (Hm & _).
    destruct e; (split; [by apply set_cfg_wf|]); (split; [cbn; rewrite Hm; by intros t|]).
    + by right.
    + by destruct fin as [sc|u id|id|]; cbn; [|case_bool_decide|..].
  - split; [|by split; [intros t|]]. apply set_pool_wf; [|done]. apply RemoveServer_wf, Hs.
  - by apply step_ok_same.
  - apply range_at_ok; [done..| |done]. intros x _. split; [|by split; [intros t|]].
    apply set_pool_wf; [|done]. apply AddServer_wf, Hs.
  - apply range_at_ok; [done..| |done]. intros x _. by apply step_ok_same.
  - split; [|by split; [intros t|]]. by destruct Hs.
  - split; [|by split; [intros t|]]. destruct Hs as [? ? ? ? Hm]. split; [done..|].
    intros c. cbn. destruct (mc s) as [c0|]; [|done]. intros [= <-]. by apply SetServers_ok, Hm.
  - apply step_ok_same; [done|]. left. destruct fin; status_code.
  - by apply step_ok_same.
Qed.

(** The invariant of the system. *)
Definition asys_wf (x : AdminSys) : Prop :=
  server_wf (a_server x) ∧ Forall (stage_ok (heap (cfg (a_server x)))) (a_stages x).

Lemma asys_step_wf x y : asys_wf x → asys_step x y → asys_wf y.
Proof.
  intros [Hs Hws] Hstep. destruct Hstep as [s ws q|s ws i w w' s' Hi Hst|s ws u|s ws ctx u r p Ha|s ws c];
    cbn [a_server a_stages] in *.
  - split; [done|]. apply Forall_app. split; [done|]. by apply Forall_singleton.
  - destruct (admin_step_ok w s Hs (Forall_lookup_1 _ _ _ _ Hws Hi)) as (Hs' & Hle & Hw').
    rewrite Hst in Hs', Hle, Hw'. split; [done|]. apply Forall_insert; [|done].
    eapply Forall_impl; [exact Hws|]. intros v. by apply stage_ok_le.
  - split; [|done]. destruct Hs as [Hc Hr Hd Hk Hm].
    split; [done..|by apply poll_wf|by apply poll_details_ok|done].
  - split; [|done]. apply set_pool_wf; [|done].
    pose proof (Acquire_wf ctx u (server_pool s) ltac:(apply Hs)) as Hp. by rewrite Ha in Hp.
  - split; [|done]. apply set_pool_wf; [|done]. apply Release_wf, Hs.
Qed.

(** However requests to the admin API interleave, with each other and with
    polls and proxied requests: the state of the server stays well formed, no
    handler reads or writes out of the range of its slice, and a request that is
    answered is answered with a success or with 400, 404, 409 or 500. *)
Theorem concurrent_admin_safe s x :
  server_wf s → rtc asys_step (mkAdminSys s []) x →
  server_wf (a_server x) ∧ Done None ∉ a_stages x ∧
  ∀ r, Done (Some r) ∈ a_stages x → success r ∨ failure r.
Proof.
  intros Hs Hr. assert (asys_wf x) as [Hw Hall].
  { assert (asys_wf (mkAdminSys s [])) as Hini by (by split).
    clear Hs. induction Hr as [|x y z Hxy _ IH]; [done|]. by apply IH, (asys_step_wf x). }
  rewrite Forall_forall in Hall. split; [done|]. split; [by intros ?%Hall|].
  intros r Hin. exact (Hall _ Hin).
Qed.
End system.

(** ** What goes wrong *)

Section races.
Context `{!GrowPolicy, !Yaml, !NetURL, !JsonErrors, !MapRange, !MapRangeLaw, !Backends}.

(** A request that runs for a while without interruption. *)
Lemma asys_alone i w s w' s' ws ws' :
  rtc alone (w, s) (w', s') → ws !! i = Some w → <[i := w']> ws = ws' →
  rtc asys_step (mkAdminSys s ws) (mkAdminSys s' ws').
Proof.
  intros Hr Hi <-. remember (w, s) as x eqn:Hx. remember (w', s') as y eqn:Hy.
  revert w s ws Hx Hi. induction Hr as [x|x y z Hxy _ IH]; intros w s ws -> Hi.
  - injection Hy as <- <-. by rewrite list_insert_id.
  - unfold alone in Hxy. cbn [fst snd] in Hxy. destruct y as [w1 s1].
    eapply rtc_l; [by eapply (as_run _ _ i)|].
    assert (i < length ws)%nat as Hlt by by eapply lookup_lt_Some.
    specialize (IH Hy w1 s1 (<[i := w1]> ws) eq_refl). rewrite list_insert_insert_eq in IH.
    apply IH. by apply list_lookup_insert_eq.
Qed.

Lemma asys_arrive2 s q1 q2 :
  rtc asys_step (mkAdminSys s []) (mkAdminSys s [Arrived q1; Arrived q2]).
Proof. eapply rtc_l; [apply as_arrive|]. eapply rtc_l; [apply as_arrive|]. apply rtc_refl. Qed.

Lemma Set_can_save c st err st' : Set_ c st = (err, st') → can_save st → can_save st'.
Proof.
  intros Hset Hsave. destruct (Set_cases c st) as [[_ [e He]]|(_ & g & _ & He)]; rewrite He in Hset.
  { by injection Hset as _ <-. }
  unfold saveLocked in Hset. destruct (yaml_Marshal _); [|by injection Hset as _ <-].
  unfold WriteFile in Hset.
  destruct (write_error _ _ _) as [[e r]|]; injection Hset as _ <-; exact Hsave.
Qed.

(** What [Set] accepts, it accepts with the global section it has stored. *)
Lemma config_ok_stored c g sl svs svs' :
  config_ok c svs → check_opencode (Global c) = Ok g → Forall server_ok svs' →
  config_ok (mkConfig g sl) svs'.
Proof.
  intros (Hv & _) (Ho & Hb & Hfb)%check_opencode_Ok Hf. split; [simpl; by rewrite Hfb|].
  split; [done|]. simpl. lia.
Qed.
(** Up to the change of the configuration, a request to add only reads. *)
Lemma alone_reads b sc s :
  server_wf s → Decode add_request b zero = inr sc → URL sc ∉ urls_of (configured s) →
  rtc alone (Arrived (AddReq (BodyOf b)), s) (Appending sc (Config.Get (cfg s)), s).
Proof.
  intros Hs Hd Hn. pose proof (swf_cfg s Hs) as [Hh Hsl]. apply alone_next. cbn [admin_step arrive].
  rewrite Hd. apply alone_checking; [done|]. rewrite drop_0.
  change (elems (heap (cfg s)) _) with (configured s).
  assert (existsb (λ existing, bool_decide (URL existing = URL sc)) (configured s) = false) as ->;
    [|apply rtc_refl].
  apply not_true_iff_false. rewrite existsb_exists. intros (x & Hx & He%bool_decide_eq_true).
  apply Hn. rewrite <- He. apply list_elem_of_fmap_2. by apply list_elem_of_In.
Qed.

(** From behind [Set] to the end. *)
Lemma alone_rest sc s :
  store_wf (cfg s) →
  rtc alone (Syncing (Added sc), s)
    (Done (Some (respondJSON 201 (ServerConfig_json sc))), syncServers s).
Proof. intros Hs. apply alone_syncing; [done|]. apply rtc_refl. Qed.

(** Two appends to the same slice: the second result is as if the first had
    not been, and the first result is either intact or shows the second. *)
Lemma two_appends (h : Heap ServerConfig) sl sc1 sc2 :
  heap_wf h → slice_wf h sl →
  let '(h1, sl1) := append h sl [sc1] in
  let '(h2, sl2) := append h1 sl [sc2] in
  heap_wf h1 ∧ heap_wf h2 ∧ slice_wf h1 sl1 ∧ slice_wf h2 sl1 ∧ slice_wf h2 sl2 ∧
  heap_le h h1 ∧ heap_le h1 h2 ∧
  elems h2 sl2 = elems h sl ++ [sc2] ∧
  (elems h2 sl1 = elems h sl ++ [sc1] ∨ elems h2 sl1 = elems h sl ++ [sc2]).
Proof.
  intros Hh Hsl. pose proof (append_spec h sl [sc1] Hh Hsl) as Ha1.
  pose proof (append_le h sl [sc1] Hh) as Hle1.
  destruct (append h sl [sc1]) as [h1 sl1] eqn:E1. destruct Ha1 as (Hh1 & Hsl1 & Hsl0 & He1 & He0).
  pose proof (append_spec h1 sl [sc2] Hh1 Hsl0) as Ha2.
  pose proof (append_le h1 sl [sc2] Hh1) as Hle2.
  destruct (append h1 sl [sc2]) as [h2 sl2] eqn:E2. destruct Ha2 as (Hh2 & Hsl2 & _ & He2 & _).
  rewrite He0 in He2. cbn [fst] in Hle1, Hle2.
  split_and!; [done|done|done|by apply Hle2|done|done|done|done|].
  unfold append in E1, E2. cbn [length] in E1, E2.
  destruct (decide (len sl + 1 <= cap sl)%nat) as [Hc|Hc].
  - destruct (ptr sl) as [l|] eqn:Hp; [|destruct Hsl as [_ Hcap]; rewrite Hp in Hcap; lia].
    injection E1 as <- <-. injection E2 as <- <-. by right.
  - left. rewrite He0 in E2.
    pose proof (alloc_frame h1 (elems h sl ++ [sc2]) (grow (cap sl) (len sl + 1)) sl1 Hh1 Hsl1) as Hf.
    rewrite E2 in Hf. destruct Hf as [-> _]. exact He1.
Qed.

Lemma alone_once w s w' s' : admin_step w s = (w', s') → rtc alone (w, s) (w', s').
Proof. intros Hst. by apply rtc_once. Qed.

(** Two requests that add a server, step by step in turn, up to behind [Set]. *)
Lemma adds_in_turn b1 b2 sc1 sc2 s h1 sl1 h2 sl2 st1 st2 :
  server_wf s →
  Decode add_request b1 zero = inr sc1 → Decode add_request b2 zero = inr sc2 →
  URL sc1 ∉ urls_of (configured s) → URL sc2 ∉ urls_of (configured s) →
  let c := Config.Get (cfg s) in
  append (heap (cfg s)) (Servers c) [sc1] = (h1, sl1) →
  append h1 (Servers c) [sc2] = (h2, sl2) →
  Set_ (mkConfig (Global c) sl1) (with_heap (with_heap (cfg s) h1) h2) = (None, st1) →
  Set_ (mkConfig (Global c) sl2) st1 = (None, st2) →
  rtc asys_step (mkAdminSys s [])
    (mkAdminSys (set_cfg st2 s) [Syncing (Added sc1); Syncing (Added sc2)]).
Proof.
  intros Hs Hd1 Hd2 Hn1 Hn2 c E1 E2 Hset1 Hset2. etrans; [apply asys_arrive2|].
  etrans; [by eapply (asys_alone 0 _ _ _ _ _ _ (alone_reads b1 sc1 s Hs Hd1 Hn1))|].
  etrans; [by eapply (asys_alone 1 _ _ _ _ _ _ (alone_reads b2 sc2 s Hs Hd2 Hn2))|].
  etrans; [eapply (asys_alone 0 _ _ (Setting (mkConfig (Global c) sl1) 400 (Added sc1))
    (set_heap h1 s)); [apply alone_once|done..]; cbn [admin_step]; fold c; by rewrite E1|].
  etrans; [eapply (asys_alone 1 _ _ (Setting (mkConfig (Global c) sl2) 400 (Added sc2))
    (set_heap h2 (set_heap h1 s))); [apply alone_once|done..]; cbn [admin_step];
    change (heap (cfg (set_heap h1 s))) with h1; fold c; by rewrite E2|].
  etrans; [eapply (asys_alone 0 _ _ (Syncing (Added sc1)) (set_cfg st1 s));
    [apply alone_once|done..]; cbn [admin_step];
    change (cfg (set_heap h2 (set_heap h1 s))) with (with_heap (with_heap (cfg s) h1) h2);
    by rewrite Hset1|].
  etrans; [eapply (asys_alone 1 _ _ (Syncing (Added sc2)) (set_cfg st2 s));
    [apply alone_once|done..]; cbn [admin_step cfg set_cfg]; by rewrite Hset2|].
  apply rtc_refl.
Qed.

(** Two requests finish, one after the other. *)
Lemma adds_finish sc1 sc2 s :
  store_wf (cfg s) →
  rtc asys_step (mkAdminSys s [Syncing (Added sc1); Syncing (Added sc2)])
    (mkAdminSys (syncServers (syncServers s))
      [Done (Some (respondJSON 201 (ServerConfig_json sc1)));
       Done (Some (respondJSON 201 (ServerConfig_json sc2)))]).
Proof.
  intros Hs. etrans; [by eapply (asys_alone 0 _ _ _ _ _ _ (alone_rest sc1 s Hs))|].
  by eapply (asys_alone 1 _ _ _ _ _ _ (alone_rest sc2 (syncServers s) Hs)).
Qed.

(** [C11] Updates can be lost.  Two requests add two new servers with different URLs,
    each of which would be accepted on its own, and the file can be written.  Then
    there is an interleaving of their steps in which both are answered with 201, and
    yet at its end only the second has been added to the configuration: the first is
    neither configured nor known to discovery and collector, which have the servers of
    the configuration.
    (In the interleaving of the proof both fetch the configuration before either calls
    [Set]; in another order it is the second server that is lost, or none.) *)
Theorem concurrent_adds_lose b1 b2 sc1 sc2 s :
  server_wf s → can_save (cfg s) →
  Decode add_request b1 zero = inr sc1 → Decode add_request b2 zero = inr sc2 →
  URL sc1 ∉ urls_of (configured s) → URL sc2 ∉ urls_of (configured s) → URL sc1 ≠ URL sc2 →
  config_ok (Config.Get (cfg s)) (configured s ++ [sc1]) →
  config_ok (Config.Get (cfg s)) (configured s ++ [sc2]) →
  ∃ s', rtc asys_step (mkAdminSys s [])
      (mkAdminSys s' [Done (Some (respondJSON 201 (ServerConfig_json sc1)));
                      Done (Some (respondJSON 201 (ServerConfig_json sc2)))]) ∧
    configured s' = configured s ++ [sc2] ∧ synced s' ∧
    URL sc1 ∉ urls_of (configured s').
Proof.
  intros Hs Hsave Hd1 Hd2 Hn1 Hn2 Hne Hok1 Hok2. pose proof (swf_cfg s Hs) as [Hh Hsl].
  set (c := Config.Get (cfg s)) in *.
  pose proof (two_appends (heap (cfg s)) (Servers c) sc1 sc2 Hh Hsl) as Ha.
  destruct (append (heap (cfg s)) (Servers c) [sc1]) as [h1 sl1] eqn:E1.
  destruct (append h1 (Servers c) [sc2]) as [h2 sl2] eqn:E2.
  destruct Ha as (_ & Hh2 & _ & Hs21 & Hs22 & _ & _ & He2 & He1).
  set (st := with_heap (with_heap (cfg s) h1) h2).
  destruct (Set_succeeds (mkConfig (Global c) sl1) st) as [st1 Hset1]; [|exact Hsave|].
  { destruct He1 as [He1|He1]; unfold servers_of; cbn; rewrite He1; done. }
  destruct (Set_None _ _ _ Hset1) as (_ & Hm1 & g & Hg & Hc1).
  destruct (Set_succeeds (mkConfig (Global c) sl2) st1) as [st2 Hset2];
    [unfold servers_of; cbn; rewrite Hm1; cbn; by rewrite He2|by eapply Set_can_save|].
  pose proof (Set_None_servers _ _ _ Hset2) as Hsv. rewrite Hm1 in Hsv.
  change (servers_of st2 (Config.Get st2) = elems h2 sl2) in Hsv. rewrite He2 in Hsv.
  assert (store_wf st2) as Hwf2
    by (apply (Set_wf (mkConfig (Global c) sl2) st1 None); rewrite ?Hm1, ?Hc1; done).
  set (s3 := set_cfg st2 s). exists (syncServers (syncServers s3)). split.
  { etrans; [by apply (adds_in_turn b1 b2 sc1 sc2 s h1 sl1 h2 sl2 st1 st2)|by apply adds_finish]. }
  assert (configured (syncServers (syncServers s3)) = configured s ++ [sc2]) as Hcf by exact Hsv.
  split; [done|]. split.
  - apply syncServers_synced. apply sync_pool_spec. apply Hs.
  - rewrite Hcf. unfold urls_of in *. rewrite map_app, elem_of_app. simpl.
    intros [?|?%list_elem_of_singleton]; done.
Qed.

(** An addition that is accepted, up to behind [Set]. *)
Lemma alone_accepted b sc s :
  server_wf s → can_save (cfg s) → Decode add_request b zero = inr sc →
  URL sc ∉ urls_of (configured s) →
  config_ok (Config.Get (cfg s)) (configured s ++ [sc]) →
  ∃ st, rtc alone (Arrived (AddReq (BodyOf b)), s) (Syncing (Added sc), set_cfg st s) ∧
    server_wf (set_cfg st s) ∧ can_save st ∧
    configured (set_cfg st s) = configured s ++ [sc] ∧
    ∀ svs, Forall server_ok svs → config_ok (Config.Get st) svs.
Proof.
  intros Hs Hsave Hd Hn Hok. pose proof (swf_cfg s Hs) as [Hh Hsl].
  pose proof (append_spec (heap (cfg s)) (Servers (Config.Get (cfg s))) [sc] Hh Hsl) as Ha.
  destruct (append _ _ [sc]) as [h sl] eqn:E. destruct Ha as (Hh' & Hsl' & Hsl0 & He & _).
  set (c := mkConfig (Global (Config.Get (cfg s))) sl).
  destruct (Set_succeeds c (with_heap (cfg s) h)) as [st Hset];
    [unfold servers_of; cbn; by rewrite He|done|].
  exists st. split.
  { etrans; [by apply (alone_reads b sc)|].
    apply alone_next. cbn [admin_step]. rewrite E. apply alone_next. cbn [admin_step].
    change (cfg (set_heap h s)) with (with_heap (cfg s) h). fold c. rewrite Hset. apply rtc_refl. }
  destruct (Set_None _ _ _ Hset) as (Hc & _ & g & Hg & Hst).
  split; [apply set_cfg_wf; [by apply (Set_wf c (with_heap (cfg s) h) None)|done]|].
  split; [by eapply Set_can_save|]. split.
  - unfold configured. cbn [cfg set_cfg]. by rewrite (Set_None_servers _ _ _ Hset).
  - intros svs Hf. unfold Config.Get. rewrite Hst. by eapply config_ok_stored.
Qed.

(** Overlapping requests can leave discovery behind the configuration: of
    two requests that add a server, each accepted, the first can tell discovery
    and the collector the servers it has listed after the second has been
    answered.  Then the second server is configured and in the pool, but neither
    discovery nor the collector polls it. *)
Theorem overlapping_adds_disagree b1 b2 sc1 sc2 s :
  server_wf s → can_save (cfg s) →
  Decode add_request b1 zero = inr sc1 → Decode add_request b2 zero = inr sc2 →
  URL sc1 ∉ urls_of (configured s) → URL sc2 ∉ urls_of (configured s ++ [sc1]) →
  config_ok (Config.Get (cfg s)) (configured s ++ [sc1]) → server_ok sc2 →
  ∃ s', rtc asys_step (mkAdminSys s [])
      (mkAdminSys s' [Done (Some (respondJSON 201 (ServerConfig_json sc1)));
                      Done (Some (respondJSON 201 (ServerConfig_json sc2)))]) ∧
    configured s' = configured s ++ [sc1; sc2] ∧
    GetServer (server_pool s') (URL sc2) = Some sc2 ∧
    URL sc2 ∉ Discovery.servers (disc s') ∧
    ∀ c, mc s' = Some c → data c !! URL sc2 = None.
Proof.
  intros Hs Hsave Hd1 Hd2 Hn1 Hn2 Hok1 Hok2.
  destruct (alone_accepted b1 sc1 s Hs Hsave Hd1 Hn1 Hok1) as (st1 & Hr1 & Hs1 & Hsave1 & Hc1 & Hg1).
  set (sa := set_pool (sync_pool (configured (set_cfg st1 s)) (server_pool s)) (set_cfg st1 s)).
  assert (server_wf sa) as Hsa by (apply set_pool_wf; [apply sync_pool_spec, Hs|done]).
  assert (configured sa = configured s ++ [sc1]) as Hca by exact Hc1.
  destruct (alone_accepted b2 sc2 sa Hsa Hsave1 Hd2) as (st2 & Hr2 & Hs2 & _ & Hc2 & _).
  { by rewrite Hca. }
  { apply Hg1. rewrite Hca. apply Forall_app. split; [apply Hok1|by apply Forall_singleton]. }
  set (sb := syncServers (set_cfg st2 sa)).
  assert (configured sb = configured s ++ [sc1; sc2]) as Hcb
    by (unfold sb; rewrite configured_sync, Hc2, Hca, <- app_assoc; done).
  set (urls := urls_of (configured (set_cfg st1 s))).
  exists (set_mc (Metrics.SetServers urls <$> mc sb) (set_disc (Discovery.SetServers urls (disc sb)) sb)).
  split.
  { etrans; [apply asys_arrive2|].
    etrans; [eapply (asys_alone 0 _ _ (Telling urls (Added sc1)) sa); [|done..];
      etrans; [exact Hr1|]; apply alone_telling; [apply Hs1|apply rtc_refl]|].
    etrans; [eapply (asys_alone 1 _ _ (Done (Some (respondJSON 201 (ServerConfig_json sc2)))) sb);
      [|done..]; etrans; [exact Hr2|]; apply alone_rest, Hs2|].
    eapply (asys_alone 0); [|done..]. do 3 (apply alone_next; cbn [admin_step]). apply rtc_refl. }
  unfold urls. rewrite Hc1. split; [exact Hcb|]. split; [|split; [exact Hn2|]].
  - apply (synced_pool sb). { apply syncServers_synced, Hs2. }
    rewrite Hcb. change [sc1; sc2] with ([sc1] ++ [sc2]). rewrite app_assoc, last_with_snoc.
    by rewrite decide_True.
  - intros c Hc. cbn [mc set_mc] in Hc. destruct (mc sb) as [c0|]; [|done]. injection Hc as <-.
    rewrite SetServers_lookup, decide_False; done.
Qed.
End races.

(** ** Witnesses *)

Section witnesses.
#[local] Existing Instances sample_grow sample_yaml sample_url sample_range sample_probe sample_errors.
#[local] Instance range_law : MapRangeLaw.
Proof. by intros X. Qed.

Let s0 : Server := sample_srv None.
Let id0 : string := "http%3A%2F%2Fa%3A1".

Definition body_b : string := quoted "{'url':'http://b:2','distance':4,'max_concurrent_requests':3}".
Definition body_c : string := quoted "{'url':'http://c:3','distance':4,'max_concurrent_requests':3}".
Definition server_c : ServerConfig := mkServerConfig "http://c:3" 4 3.

Lemma server_c_ok : server_ok server_c.
Proof. by repeat split. Qed.

Lemma sample_fresh u : u ≠ "http://a:1" → u ∉ urls_of (configured s0).
Proof. change (urls_of (configured s0)) with ["http://a:1"]. by intros ? ?%list_elem_of_singleton. Qed.

Lemma admin_steps_refine_witness :
  rtc alone (Arrived (DeleteReq id0), s0) (answered (handle_admin (DeleteReq id0) s0)).
Proof. apply (admin_steps_refine (DeleteReq id0) s0), sample_srv_wf. Defined.

Lemma admin_request_ends_witness :
  ∃ n r, (n ≤ 14)%nat ∧ own_steps (λ _, s0) n (Arrived (DeleteReq id0)) = Done r.
Proof. apply (admin_request_ends (λ _, s0) (DeleteReq id0) 1). intros k. by vm_compute. Defined.

Lemma concurrent_admin_safe_witness :
  let '(r, s') := handle_admin (DeleteReq id0) s0 in
  server_wf s' ∧ Done None ∉ [Done r] ∧
  ∀ r', Done (Some r') ∈ [Done r] → success r' ∨ failure r'.
Proof.
  destruct (handle_admin (DeleteReq id0) s0) as [r s'] eqn:E.
  apply (concurrent_admin_safe s0 (mkAdminSys s' [Done r])); [apply sample_srv_wf|].
  eapply rtc_l; [apply as_arrive|].
  eapply (asys_alone 0 _ _ (Done r)); [|done..]. apply alone_next. cbn [admin_step].
  pose proof (alone_delete id0 s0 (sample_srv_wf None)) as Hr. by rewrite E in Hr.
Defined.

Lemma concurrent_adds_lose_witness :
  ∃ s', rtc asys_step (mkAdminSys s0 [])
      (mkAdminSys s' [Done (Some (respondJSON 201 (ServerConfig_json (new_server 4))));
                      Done (Some (respondJSON 201 (ServerConfig_json server_c)))]) ∧
    configured s' = [sample_server; server_c] ∧ synced s' ∧ "http://b:2" ∉ urls_of (configured s').
Proof.
  apply (concurrent_adds_lose body_b body_c (new_server 4) server_c s0);
    [apply sample_srv_wf|apply sample_can_save|vm_compute; reflexivity..| | |done| |].
  - by apply sample_fresh.
  - by apply sample_fresh.
  - by apply new_config_ok.
  - destruct (new_config_ok 4 ltac:(lia)) as (Hv & Hf & Ho). split; [done|]. split; [|done].
    apply Forall_app in Hf as [Hf _]. apply Forall_app. split; [done|].
    apply Forall_singleton, server_c_ok.
Defined.

Lemma overlapping_adds_disagree_witness :
  ∃ s', rtc asys_step (mkAdminSys s0 [])
      (mkAdminSys s' [Done (Some (respondJSON 201 (ServerConfig_json (new_server 4))));
                      Done (Some (respondJSON 201 (ServerConfig_json server_c)))]) ∧
    configured s' = [sample_server; new_server 4; server_c] ∧
    GetServer (server_pool s') "http://c:3" = Some server_c ∧
    "http://c:3" ∉ Discovery.servers (disc s') ∧
    ∀ c, mc s' = Some c → data c !! "http://c:3" = None.
Proof.
  apply (overlapping_adds_disagree body_b body_c (new_server 4) server_c s0);
    [apply sample_srv_wf|apply sample_can_save|vm_compute; reflexivity..| | | |apply server_c_ok].
  - by apply sample_fresh.
  - change (urls_of (configured s0 ++ [new_server 4])) with ["http://a:1"; "http://b:2"].
    by intros [?|?%list_elem_of_singleton]%elem_of_cons.
  - by apply new_config_ok.
Defined.
End witnesses.
