(* ===== verification/Main.v ===== *)
(** * The program (src/cmd/llm-bridge/main.go)

    Start-up, the dispatch of requests to the handlers, the background
    activities, and the shutdown sequence; the invariants of the whole. *)
From Stdlib Require Import ZArith Lia.
From stdpp Require Import base tactics option list numbers strings gmap relations.
From S2P Require Import Prelude GoSlice GoStrings GoNum GoJson Config Interfaces Backend Discovery.
From S2P Require Import Metrics Router Queue RouterPool QueuePool Http OpenCode Server StatusPage Proxy Admin.

Open Scope Z_scope.

(** ** Start-up *)

Definition envOrDefault (o : OS) (key defaultVal : string) : string :=
  let v := Getenv o key in if bool_decide (v = EmptyString) then defaultVal else v.

(** The flags [-config] and [-port]: [None] if they are not given. *)
Definition config_path (o : OS) (flag : option string) : string :=
  default (envOrDefault o "CONFIG_PATH" "config.yaml") flag.
Definition listen_addr (o : OS) (flag : option string) : string :=
  ":" +:+ default (envOrDefault o "PORT" "8080") flag.

(** [time.Duration(sec) * time.Second]. *)
Definition seconds (sec : Z) : Z := wrap64 (sec * 10 ^ 9).

(** The running process: the server, and the URLs the collector polls, which
    are those of the configuration it was started with. *)
Record Process : Type := mkProcess {
  p_server : Server;
  p_urls : list string
}.

Inductive Startup : Type :=
  | Exited (e : error)
  | Crashed
  | Running (p : Process).

Section startup.
Context `{!GrowPolicy, !Yaml, !NetURL, !IntConversion}.

(** [main] up to [srv.Start].  [time.NewTicker], which both polling goroutines
    call, panics if its interval is not positive. *)
Definition startup (o : OS) (path : string) (ctx : nat → option error)
    (scrape : nat → string → Scrape) : Startup :=
  match Load (NewStore o path) with
  | (Some e, _) => Exited e
  | (None, store) =>
      let ival := seconds (DiscoveryIntervalSec (Global (Config.Get store))) in
      let urls := map URL (servers_of store (Config.Get store)) in
      let d := Discovery.SetServers urls (Discovery.New ival) in
      let srv := Server.New store d (Router.New NewPool) (Some (Metrics.New ival)) in
      let '(_, d) := Discovery.Start (disc srv) in
      match mc srv ≫= Metrics.Start ctx scrape urls with
      | None => Crashed
      | Some c =>
          if 0 <? ival then Running (mkProcess (set_mc (Some c) (set_disc d srv)) urls)
          else Crashed
      end
  end.
End startup.

(** ** Requests *)

(** What the handlers see of a request; [q_rawID] is what chi matched with the
    star of the route. *)
Record HttpReq : Type := mkHttpReq {
  q_proxy : ProxyReq;
  q_ctx : Context;
  q_rawID : string;
  q_contentType : string;
  q_opencode : OCRequest
}.

Section serve.
Context `{!GrowPolicy, !Yaml, !NetURL, !HttpClient, !MapRange, !SortSlice, !JsonErrors,
  !TimeText}.
Variable io_Copy : string → string.
Variable enqueue : Context → string → Server → Result Conn * Server.

(** The handler of each endpoint. *)
Definition serve (e : endpoint) (q : HttpReq) (s : Server) : option Response * Server :=
  let body := r_Body (q_proxy q) in
  let g := Global (Config.Get (cfg s)) in
  let read (r : Response) := (Some r, s) in
  match e with
  | ChatCompletions => handleChatCompletions io_Copy enqueue (q_ctx q) (q_proxy q) s
  | Completions => handleCompletions io_Copy enqueue (q_ctx q) (q_proxy q) s
  | Embeddings => handleEmbeddings io_Copy enqueue (q_ctx q) (q_proxy q) s
  | ListModels => read (handleModels s)
  | ListServers => read (handleListServers s)
  | AddServerE => handle_admin (AddReq body) s
  | GetServerE => read (handleGetServer (q_rawID q) s)
  | UpdateServer => handle_admin (UpdateReq (q_rawID q) body) s
  | DeleteServer => handle_admin (DeleteReq (q_rawID q)) s
  | GetConfig => read (handleGetConfig s)
  | PutConfig => handle_admin (PutReq (q_contentType q) body) s
  | Status => read (handleStatus s)
  | OpenCodeGet => read (handleOpenCodeConfig g (disc s) (q_opencode q))
  | MetricsE => read (handleMetrics s)
  | OpenCodePost => read (handlePostOpenCodeConfig g (disc s) (q_opencode q) body)
  end.

Definition proxies (e : endpoint) : bool :=
  match e with ChatCompletions | Completions | Embeddings => true | _ => false end.
End serve.

(** ** The running program *)

Section system.
Context `{!GrowPolicy, !Yaml, !NetURL, !HttpClient, !MapRange, !SortSlice, !JsonErrors,
  !TimeText}.
Context `{!IntConversion}.
Variable io_Copy : string → string.
Variable enqueue : Context → string → Server → Result Conn * Server.

(** One request, one round of discovery, or one round of the collector.  The
    backends may answer differently in every round. *)
Inductive system_step : Process → Process → Prop :=
  | sys_request e q o s' p :
      serve io_Copy enqueue e q (p_server p) = (o, s') →
      system_step p (mkProcess s' (p_urls p))
  | sys_discover (backends : Backends) ctx err d' p :
      Discover ctx (disc (p_server p)) = (err, d') →
      system_step p (mkProcess (set_disc d' (p_server p)) (p_urls p))
  | sys_collect ctx scrape c c' p :
      mc (p_server p) = Some c → fetchAll ctx scrape 0 (p_urls p) c = Some c' →
      system_step p (mkProcess (set_mc (Some c') (p_server p)) (p_urls p)).
End system.

(** ** Shutdown *)

(** The steps of [main] behind [srv.Start]; the HTTP server is last, so requests
    are still accepted while they run.  [None]: [mc.Stop] closes the channel of a
    collector that was stopped before, or a send blocks.  This is what the sequence
    does to the state.  Its waits, for the polling goroutines in [disc.Stop] and
    [mc.Stop] and for the requests in [srv.Shutdown], change nothing here; they are
    steps of [Whole.main_step], and [Whole] shows that they end. *)
Definition shutdown (p : Process) (qs : QState Pool) : option (Process * QState Pool) :=
  let '(_, d) := Discovery.Stop (disc (p_server p)) in
  c ← mc (p_server p) ≫= Metrics.Stop;
  chans ← drain_items (q_queue qs) (q_chans qs);
  Some (mkProcess (set_mc (Some c) (set_disc d (p_server p))) (p_urls p),
        stop (set_queue (λ _, []) (set_chans chans qs))).

(** ** Facts *)

Lemma seconds_small sec : 0 < sec <= 9223372036 → seconds sec = sec * 10 ^ 9.
Proof. intros Hs. apply wrap64_id. unfold int64. lia. Qed.

Lemma seconds_overflow sec : 9223372036 < sec <= 18446744073 → seconds sec < 0.
Proof.
  intros Hs. unfold seconds, wrap64.
  replace (sec * 10 ^ 9 + 2 ^ 63) with (sec * 10 ^ 9 - 2 ^ 63 + 1 * 2 ^ 64) by lia.
  rewrite Z.mod_add, Z.mod_small by lia. lia.
Qed.

Section facts.
Context `{!GrowPolicy, !Yaml, !NetURL, !IntConversion}.

(** The collector's entries after a round: those before, and polled servers. *)
Lemma fetch_one_dom u sc c c' :
  fetch_one u sc c = Some c' → dom (data c) ⊆ dom (data c') ⊆ dom (data c) ∪ {[u]}.
Proof.
  unfold fetch_one. destruct (fetchOne sc) as [m|]; [|intros [= <-]; set_solver].
  destruct (match prev c !! u with Some _ => _ | None => _ end) as [m'|]; [|done].
  intros [= <-]. simpl. set_solver.
Qed.

Lemma fetchAll_dom ctx scrape n urls c c' :
  fetchAll ctx scrape n urls c = Some c' →
  dom (data c) ⊆ dom (data c') ⊆ dom (data c) ∪ list_to_set urls.
Proof.
  revert n c. induction urls as [|u urls IH]; intros n c; simpl; [intros [= <-]; set_solver|].
  destruct (ctx n); [intros [= <-]; set_solver|].
  destruct (fetch_one u (scrape n u) c) as [c1|] eqn:Hf; [|done]. simpl.
  intros [? ?]%IH. apply fetch_one_dom in Hf. set_solver.
Qed.

(** The first round of the collector does not fail. *)
Lemma Start_new ctx scrape urls ival :
  ∃ c, Metrics.Start ctx scrape urls (Metrics.SetServers urls (Metrics.New ival)) = Some c ∧
    dom (data c) = list_to_set urls.
Proof.
  unfold Metrics.Start. set (c0 := with_data _ _).
  destruct (fetchAll_wf ctx scrape 0 urls c0) as (c & Hc & _).
  { unfold collector_wf. simpl. by rewrite dom_empty. }
  exists c. split; [done|]. apply fetchAll_dom in Hc.
  assert (dom (data c0) = (list_to_set urls : gset string)) as Hd; [|set_solver].
  apply set_eq. intros u. rewrite elem_of_dom, elem_of_list_to_set. unfold c0. cbn [data with_data].
  rewrite add_entries_lookup.
  pose proof (SetServers_lookup urls (Metrics.New ival) u) as Hl. rewrite Hl.
  case_decide; [split; [done|eauto]|]. split; [by intros [? ?]|done].
Qed.
End facts.

Section serve_facts.
Context `{!GrowPolicy, !Yaml, !NetURL, !HttpClient, !MapRange, !MapRangeLaw, !SortSlice,
  !SortSliceLaws, !JsonErrors, !TimeText}.
Variable io_Copy : string → string.
Variable enqueue : Context → string → Server → Result Conn * Server.

Lemma route_wf ctx g d model (st : RouterState Pool) :
  router_wf (ok := pool_wf) st →
  router_wf (ok := pool_wf) (Route ctx g d model st).2 ∧ (Route ctx g d model st).1 ≠ RoutePanic.
Proof.
  intros Hwf.
  pose proof (tracked_nil (ok := pool_wf) st Hwf) as Ht.
  destruct (Route ctx g d model st) as [r st'] eqn:Hr.
  destruct (route_tracked (ok := pool_wf) _ _ _ _ _ _ _ _ _ [] Hwf Ht Hr) as (? & _ & ? & _).
  done.
Qed.

Lemma set_rtr_wf st s : router_wf (ok := pool_wf) st → server_wf s → server_wf (set_rtr st s).
Proof. by intros Hst []. Qed.

Lemma release_wf c s : server_wf s → server_wf (release c s).
Proof. intros Hs. apply set_pool_wf; [|done]. apply Release_wf, Hs. Qed.

(** The answers of backends as [net/http] describes them. *)
Definition sane_backends : Prop :=
  ∀ ctx req resp, client_Do ctx req = Ok resp →
    valid_code (StatusCode resp) = true ∧ ∀ k, resp_Header resp !! k ≠ Some [].

Lemma forward_wf ctx c q b stream s :
  server_wf s → server_wf (forward io_Copy ctx c q b stream s).2.
Proof.
  intros []. pose proof (forward_state io_Copy ctx c q b stream s) as Hf.
  destruct (forward _ _ _ _ _ _ _) as [o s']. destruct Hf as (Hr & Hc & Hd & Hm).
  split; simpl; by rewrite ?Hr, ?Hc, ?Hd, ?Hm.
Qed.

Lemma forward_answers ctx c q b stream s :
  sane_backends → is_Some (forward io_Copy ctx c q b stream s).1.
Proof.
  intros Hsane. unfold forward. destruct (ProxyRequest _ _ _ _ _ _ _ _) as [resp|e] eqn:Hp; [|done].
  assert (valid_code (StatusCode resp) = true ∧ ∀ k, resp_Header resp !! k ≠ Some []) as [Hv Hk].
  { unfold ProxyRequest in Hp. repeat case_match; simplify_eq. by eapply Hsane. }
  match goal with |- context [foldl ?f (Some ?h) ?o] =>
    destruct (copy_header_total stream (resp_Header resp) o h) as [h' ->] end; [done| |].
  - intros k. by rewrite range_keys_perm, elem_of_elements.
  - by rewrite Hv.
Qed.

Lemma proxy_wf check ctx q s :
  (∀ ctx model s, server_wf s → server_wf (enqueue ctx model s).2) →
  server_wf s →
  server_wf (handleOpenAIProxy io_Copy enqueue check ctx q s).2 ∧
  (sane_backends → is_Some (handleOpenAIProxy io_Copy enqueue check ctx q s).1).
Proof.
  intros Henq Hs. unfold handleOpenAIProxy.
  destruct (admit_request (r_Body q)) as [r|[b req]]; [done|]. unfold call_Route.
  destruct (route_wf ctx (Global (Config.Get (cfg s))) (disc s) (Model req) (rtr s)) as [Hw Hp];
    [apply Hs|].
  assert (∀ c s1, server_wf s1 →
    let '(o, s2) := forward io_Copy ctx c q b (check && Stream req) s1 in
    server_wf (release c s2) ∧ (sane_backends → is_Some o)) as Hfin.
  { intros c s1 Hs1. pose proof (forward_wf ctx c q b (check && Stream req) s1 Hs1) as Hf.
    pose proof (forward_answers ctx c q b (check && Stream req) s1) as Ha.
    destruct (forward _ _ _ _ _ _ _) as [o s2]. split; [by apply release_wf|done]. }
  destruct (Route _ _ _ _ _) as [out st]. simpl in Hw, Hp.
  assert (server_wf (set_rtr st s)) as Hs1 by by apply set_rtr_wf.
  destruct out as [c|e| |]; [|done| |done].
  - specialize (Hfin c _ Hs1). by destruct (forward _ _ _ _ _ _ _).
  - specialize (Henq ctx (Model req) _ Hs1). destruct (enqueue _ _ _) as [[c|e] s2]; [|done].
    specialize (Hfin c s2 Henq). by destruct (forward _ _ _ _ _ _ _).
Qed.

Lemma serve_wf e q s :
  (∀ ctx model s, server_wf s → server_wf (enqueue ctx model s).2) →
  server_wf s →
  server_wf (serve io_Copy enqueue e q s).2 ∧
  ((proxies e = true → sane_backends) → is_Some (serve io_Copy enqueue e q s).1).
Proof.
  intros Henq Hs.
  assert (∀ a, server_wf (handle_admin a s).2 ∧ is_Some (handle_admin a s).1) as Hadm.
  { intros a. destruct (handle_admin_outcome a s Hs) as (r & -> & Hw & _). by split. }
  destruct e; unfold serve;
    try (split; [exact (proj1 (Hadm _))|intros _; exact (proj2 (Hadm _))]);
    try (split; [exact Hs|intros _; eexists; reflexivity]);
    (split; [by apply proxy_wf|intros Hsane; apply proxy_wf; [done|done|by apply Hsane]]).
Qed.
End serve_facts.

(** ** Theorems *)

Section startup_theorems.
Context `{!GrowPolicy, !Yaml, !NetURL, !IntConversion}.

(** [C35] What becomes of a start.  A configuration that cannot be loaded ends the
    program with that error.  Otherwise the discovery interval decides, as a
    [Duration], which is [int64] nanoseconds.  If it is positive the program runs: the
    server state is well formed, pool, discovery and collector agree with the
    configuration, nothing else is in the pool, nothing is in flight, discovery has
    been started, and the collector polls the configured servers.  If it is not, the
    program crashes.  It is the configured number of seconds from one up to
    9223372036; from there up to 18446744073 seconds it is negative; longer intervals
    wrap around, so that 18446744074 seconds are 290448384 nanoseconds. *)
Theorem startup_outcome o path ctx scrape :
  let '(err, store) := Load (NewStore o path) in
  let sec := DiscoveryIntervalSec (Global (Config.Get store)) in
  match err with
  | Some e => startup o path ctx scrape = Exited e
  | None =>
      (0 < seconds sec → ∃ p, startup o path ctx scrape = Running p ∧
         server_wf (p_server p) ∧ synced (p_server p) ∧ pool_exact (p_server p) ∧
         (∀ u, Inflight (server_pool (p_server p)) u = 0) ∧
         Discovery.started (disc (p_server p)) = true ∧
         p_urls p = urls_of (configured (p_server p))) ∧
      (seconds sec <= 0 → startup o path ctx scrape = Crashed) ∧
      (0 < sec <= 9223372036 → seconds sec = sec * 10 ^ 9) ∧
      (9223372036 < sec <= 18446744073 → seconds sec < 0) ∧
      (sec = 18446744074 → seconds sec = 290448384)
  end.
Proof.
  unfold startup. pose proof (NewStore_wf o path) as Hwf0.
  pose proof (Load_store_wf (NewStore o path) Hwf0) as Hwf.
  destruct (Load (NewStore o path)) as [[e|] store]; [done|]. cbn [snd] in Hwf.
  set (sec := DiscoveryIntervalSec _). set (urls := map URL _).
  set (srv := Server.New store _ _ _).

  destruct (Start_new ctx scrape urls (seconds sec)) as (c & Hc & Hdom).
  change (mc srv) with (Some (Metrics.SetServers urls (Metrics.New (seconds sec)))).
  cbn [Discovery.Start disc Discovery.started srv Server.New syncServers Discovery.SetServers
    Discovery.New mbind option_bind]. rewrite Hc.
  split_and!; [| |apply seconds_small|apply seconds_overflow|by intros ->].
  - intros Hs. rewrite (proj2 (Z.ltb_lt 0 _)) by exact Hs.
    eexists. split; [reflexivity|]. cbn [p_server p_urls].
    destruct (New_facts store (Discovery.SetServers urls (Discovery.New (seconds sec))) ∅
      (Some (Metrics.New (seconds sec)))) as (Hsync & Hex & Hin).
    split_and!; [|split|exact Hex|exact Hin|done|reflexivity].
    + split; [done|split; [by apply sync_pool_spec, NewPool_wf|by intros ? ?]| |by intros ? ?|].
      * split; [by intros ? ?|]. simpl. by rewrite !dom_empty_L.
      * intros c' [= <-]. eapply Start_ok; [exact Hc|]. apply SetServers_ok, New_ok.
    + apply Hsync.
    + done.
    + intros c' [= <-]. exact Hdom.
  - intros Hs. by rewrite (proj2 (Z.ltb_ge 0 _)) by exact Hs.
Qed.
End startup_theorems.

Section system_theorems.
Context `{!GrowPolicy, !Yaml, !NetURL, !HttpClient, !MapRange, !MapRangeLaw, !SortSlice,
  !SortSliceLaws, !JsonErrors, !IntConversion, !TimeText}.
Variable io_Copy : string → string.
Variable enqueue : Context → string → Server → Result Conn * Server.

Abbreviation step := (system_step io_Copy enqueue).

Lemma step_wf p p' :
  (∀ ctx model s, server_wf s → server_wf (enqueue ctx model s).2) →
  step p p' → server_wf (p_server p) → server_wf (p_server p').
Proof.
  intros Henq Hstep Hs. destruct Hstep as [e q o s' p Hserve|b ctx err d' p Hd|ctx sc c c' p Hc Hf].
  - destruct (serve_wf io_Copy enqueue e q (p_server p) Henq Hs) as [Hw _].
    by rewrite Hserve in Hw.
  - pose proof (Discover_ind disc_wf ctx (disc (p_server p)) poll_wf (swf_disc _ Hs)) as Hw.
    pose proof (Discover_ind details_ok ctx (disc (p_server p)) poll_details_ok
      (swf_details _ Hs)) as Hk.
    rewrite Hd in Hw, Hk. by destruct Hs.
  - apply set_mc_wf; [done|]. eapply fetchAll_ok; [exact Hf|]. by apply (swf_mc _ Hs).
Qed.

(** Whatever requests arrive, whatever the backends answer to them and to
    the polls, and in whatever order: the state of the program stays well formed,
    and every request is answered, with the one exception of a proxied request
    whose backend breaks the rules of HTTP. *)
Theorem system_safe p0 p e q :
  (∀ ctx model s, server_wf s → server_wf (enqueue ctx model s).2) →
  server_wf (p_server p0) → rtc step p0 p →
  server_wf (p_server p) ∧ p_urls p = p_urls p0 ∧
  ((proxies e = true → sane_backends) →
     is_Some (serve io_Copy enqueue e q (p_server p)).1).
Proof.
  intros Henq Hp0 Hr. assert (server_wf (p_server p) ∧ p_urls p = p_urls p0) as [Hw Hu].
  { induction Hr as [p|p p1 p2 Hs _ IH]; [done|].
    destruct IH as [Hw Hu]; [by eapply step_wf|]. split; [done|].
    rewrite Hu. by destruct Hs. }
  split_and!; [done|done|]. by apply serve_wf.
Qed.

(** [C36] Deleting a server through the admin API can crash the program: the
    collector still polls it, and the next answer of the deleted server is
    compared with an entry that is gone. *)
Theorem delete_then_scrape_panics q id i sc s c body now :
  server_wf s → can_save (cfg s) → server_id (q_rawID q) = inr id →
  NoDup (urls_of (configured s)) → find_server id (configured s) = Some (i, sc) →
  config_ok (Config.Get (cfg s)) (configured s) →
  mc s = Some c → is_Some (prev c !! id) →
  let '(o, s') := serve io_Copy enqueue DeleteServer q s in
  (StatusCode <$> o) = Some 204 ∧
  ∃ c', mc s' = Some c' ∧ fetch_one id (Scraped body now) c' = None.
Proof.
  intros Hs Hsave Hid Hnd Hfind Hok Hc [pc Hp]. unfold serve, handle_admin.
  pose proof (delete_removes (q_rawID q) id i sc s Hs Hsave Hid Hnd Hfind Hok) as Hdel.
  destruct (handleDeleteServer (q_rawID q) s) as [r s'].
  destruct Hdel as (Hr & _ & Hni & _ & Hmc). split; [exact (f_equal Some Hr)|].
  rewrite Hc in Hmc. eexists. split; [exact Hmc|].
  unfold fetch_one, fetchOne. destruct (parsePrometheus body).
  change (prev (Metrics.SetServers (urls_of (configured s')) c)) with (prev c). rewrite Hp.
  rewrite SetServers_lookup, decide_False by done. done.
Qed.
End system_theorems.

(** [C37] The shutdown sequence of [main], once, with the mutex of the queue free:
    it ends; every queued request is told that it is cancelled and nobody else is,
    the queue is empty, discovery and collector are told to stop, and the queue
    goroutine has been stopped exactly if it was in its [select]. *)
Theorem shutdown_drains p qs c :
  mc (p_server p) = Some c → stopCh_closed c = false →
  NoDup (map item_id (q_queue qs)) → fresh_chans (q_queue qs) (q_chans qs) →
  ∃ p' qs', shutdown p qs = Some (p', qs') ∧ q_queue qs' = [] ∧
    (∀ id, q_chans qs' !! id =
       if decide (id ∈ map item_id (q_queue qs)) then Some (RErr Canceled) else q_chans qs !! id) ∧
    Discovery.started (disc (p_server p')) = false ∧
    (stopCh_closed <$> mc (p_server p')) = Some true ∧
    q_runner qs' = match q_runner qs with Idle => Stopped | r => r end.
Proof.
  intros Hc Hopen Hnd Hfresh. unfold shutdown. rewrite Hc. cbn [mbind option_bind].
  unfold Metrics.Stop. rewrite Hopen.
  destruct (drain_items_spec (q_queue qs) (q_chans qs) Hnd Hfresh) as (chans & -> & Hl).
  cbn [mbind option_bind]. do 2 eexists. split; [reflexivity|].
  destruct qs as [que sta sig run ws cs ch nx rt out].
  destruct run; split_and!; try reflexivity; exact Hl.
Qed.

(** ** Witnesses *)

Section witnesses.
#[local] Existing Instances sample_grow sample_yaml sample_url sample_range sample_http.
#[local] Existing Instances insertion_sort insertion_sort_laws sample_conversion sample_time.
#[local] Instance main_errors : JsonErrors := λ _, "unexpected end of JSON input".
#[local] Instance main_range_ok : MapRangeLaw.
Proof. by intros X. Qed.

Let os0 (sec : Z) : OS :=
  mkOS {["DISCOVERY_INTERVAL_SEC" := Itoa sec]} {["c.yaml" := "doc"]} (λ _, None) (λ _ _, None).

(** The YAML document of the sample has one server. *)
Lemma startup_outcome_witness :
  ∃ p, startup (os0 20) "c.yaml" (λ _, None) (λ _ _, ScrapeFailed) = Running p ∧
    urls_of (configured (p_server p)) = ["http://a:1"].
Proof.
  pose proof (startup_outcome (os0 20) "c.yaml" (λ _, None) (λ _ _, ScrapeFailed)) as Ho.
  destruct (Load (NewStore (os0 20) "c.yaml")) as [[e|] st] eqn:Hl; [vm_compute in Hl; discriminate Hl|].
  destruct Ho as [(p & Hp & _ & _ & _ & _ & _ & Hu) _].
  - assert (DiscoveryIntervalSec (Global (Config.Get (Load (NewStore (os0 20) "c.yaml")).2)) = 20) as E
      by (vm_compute; reflexivity).
    rewrite Hl in E. cbn [snd] in E. by rewrite E.
  - exists p. split; [exact Hp|]. rewrite <- Hu.
    assert (match startup (os0 20) "c.yaml" (λ _, None) (λ _ _, ScrapeFailed) with
            | Running p => p_urls p | _ => [] end = ["http://a:1"]) as E by (vm_compute; reflexivity).
    by rewrite Hp in E.
Defined.

Example startup_overflow :
  startup (os0 9223372037) "c.yaml" (λ _, None) (λ _ _, ScrapeFailed) = Crashed ∧
  match startup (os0 18446744074) "c.yaml" (λ _, None) (λ _ _, ScrapeFailed) with
  | Running p => Some (Discovery.interval (disc (p_server p))) | _ => None end = Some 290448384.
Proof. split; vm_compute; reflexivity. Qed.

Let p0 : Process := mkProcess (sample_srv None) ["http://a:1"].
Let q0 : HttpReq :=
  mkHttpReq (mkProxyReq "DELETE" "" ∅ (BodyOf EmptyString)) Background "http%3A%2F%2Fa%3A1"
    EmptyString (mkOCRequest EmptyString false "localhost").

Lemma sample_enqueue_wf ctx model s : server_wf s → server_wf (sample_enqueue ctx model s).2.
Proof. done. Qed.

Lemma system_safe_witness :
  let p := mkProcess (serve id sample_enqueue DeleteServer q0 (sample_srv None)).2
    ["http://a:1"] in
  server_wf (p_server p) ∧ p_urls p = ["http://a:1"] ∧
  ((proxies ListModels = true → sane_backends) →
     is_Some (serve id sample_enqueue ListModels q0 (p_server p)).1).
Proof.
  apply (system_safe id sample_enqueue p0
    (mkProcess (serve id sample_enqueue DeleteServer q0 (sample_srv None)).2 ["http://a:1"])
    ListModels q0 sample_enqueue_wf (sample_srv_wf None)).
  apply rtc_once.
  refine (sys_request id sample_enqueue DeleteServer q0 _ _ p0 _).
  apply surjective_pairing.
Defined.

Lemma delete_then_scrape_panics_witness :
  let '(o, s') := serve id sample_enqueue DeleteServer q0 (sample_srv None) in
  (StatusCode <$> o) = Some 204 ∧
  ∃ c', mc s' = Some c' ∧ fetch_one "http://a:1" (Scraped nan_body 2000) c' = None.
Proof.
  refine (delete_then_scrape_panics id sample_enqueue q0 "http://a:1" 0%nat sample_server
    (sample_srv None) _ nan_body 2000 (sample_srv_wf None) sample_can_save _ sample_NoDup _ _ _ _).
  - vm_compute. reflexivity.
  - vm_compute. reflexivity.
  - apply sample_configured_ok.
  - reflexivity.
  - vm_compute. eexists. reflexivity.
Defined.

Lemma shutdown_drains_witness :
  ∃ p' qs', shutdown p0 one_waiting = Some (p', qs') ∧ q_queue qs' = [] ∧
    (∀ id, q_chans qs' !! id =
       if decide (id ∈ [0%nat]) then Some (RErr Canceled) else q_chans one_waiting !! id) ∧
    Discovery.started (disc (p_server p')) = false ∧
    (stopCh_closed <$> mc (p_server p')) = Some true ∧ q_runner qs' = Stopped.
Proof.
  refine (shutdown_drains p0 one_waiting _ _ _ _ _).
  - reflexivity.
  - reflexivity.
  - apply NoDup_singleton.
  - intros it Hit. reflexivity.
Defined.
End witnesses.
