(* ===== verification/Whole.v ===== *)
(** * The whole program as interleaved steps

    [Main] composes the program of handlers that run without interruption.  Here
    everything runs at once, in the steps that other goroutines can observe: each
    request in the steps of its handler (a proxied one in those of [route], of
    [enqueue] and of the forwarding, a change of the configuration in those of
    [AdminConcurrent]), the goroutine of the wait queue in the steps of [Queue],
    the polling goroutines of discovery and of the collector one server at a time,
    and the shutdown sequence of [main], which waits for these two.  They share one
    [Server] and one queue. *)
From Stdlib Require Import ZArith Lia.
From stdpp Require Import base tactics option list numbers strings gmap relations.
From S2P Require Import Prelude GoSlice GoStrings GoNum GoJson Config Interfaces Backend Discovery.
From S2P Require Import Metrics Router RouterConcurrent Queue RouterPool Http OpenCode Server.
From S2P Require Import StatusPage Proxy Admin AdminConcurrent Main.

Open Scope Z_scope.

(** ** Requests in steps *)

(** What a proxied request carries from its admission on. *)
Record Job : Type := mkJob {
  j_check : bool;            (* the endpoint can stream *)
  j_ctx : Context;
  j_req : ProxyReq;
  j_body : string;
  j_openai : openAIRequest
}.

(** Where the goroutine of a request is. *)
Inductive Handler : Type :=
  | Reading (e : endpoint) (q : HttpReq)
  | Accepted (check : bool) (ctx : Context) (q : ProxyReq)
  | Routing (j : Job) (strategy : string) (servers : list string) (pr : Progress)
  | Enqueuing (j : Job)                       (* before [ensureStarted] *)
  | Queued (j : Job) (id : nat)               (* in [enqueue] *)
  | Connected (j : Job) (c : Conn)
  | Releasing (c : Conn) (o : option Response)
  | Changing (w : Stage)                      (* answered when it is [Done] *)
  | Ended (o : option Response).              (* [None] is a panic *)

(** Where [main] is.  [Discovery.Stop] and [Collector.Stop] take two steps each: the
    second is [wg.Wait]. *)
Inductive MainPhase : Type :=
  | Listening | StoppingDiscovery | WaitingDiscovery | StoppingMetrics | WaitingMetrics
  | Draining | StoppingQueue | ClosingHTTP | Exit | Crash.

(** Where a polling goroutine is: in its [select], in a round with these servers
    still to go, or gone. *)
Inductive Poller : Type :=
  | Selecting
  | Polling (todo : list string)
  | Gone.

(** The two polling goroutines, and what their [select] listens to. *)
Record Polls : Type := mkPolls {
  signalled : bool;             (* the context of [signal.NotifyContext] has ended *)
  disc_cancelled : bool;        (* [Discovery.Stop] has ended the one made from it *)
  disc_goroutine : Poller;
  mc_goroutine : Poller
}.

Record World : Type := mkWorld {
  w_server : Server;
  w_queue : QState Pool;        (* its router and its [q_out] are not used *)
  w_handlers : list Handler;
  w_urls : list string;         (* those the collector polls *)
  w_polls : Polls;
  w_main : MainPhase
}.

(** The connections that the goroutine of a request holds. *)
Definition handler_conns (h : Handler) : list Conn :=
  match h with Connected _ c | Releasing c _ => [c] | _ => [] end.

Definition out_conns (hs : list Handler) : list Conn := concat (map handler_conns hs).

(** The queue as [Queue] sees it: with the router, and with the connections that
    are in the hands of handlers. *)
Definition queue_view (w : World) : QState Pool :=
  set_out (out_conns (w_handlers w)) (set_router (rtr (w_server w)) (w_queue w)).

Definition set_handler (i : nat) (h : Handler) (s : Server) (w : World) : World :=
  mkWorld s (w_queue w) (<[i := h]> (w_handlers w)) (w_urls w) (w_polls w) (w_main w).

Definition put_queue (qs : QState Pool) (hs : list Handler) (w : World) : World :=
  mkWorld (set_rtr (q_router qs) (w_server w)) qs hs (w_urls w) (w_polls w) (w_main w).

Definition set_server (s : Server) (m : MainPhase) (w : World) : World :=
  mkWorld s (w_queue w) (w_handlers w) (w_urls w) (w_polls w) m.

Definition set_polls (ps : Polls) (w : World) : World :=
  mkWorld (w_server w) (w_queue w) (w_handlers w) (w_urls w) ps (w_main w).

Definition disc_at (g : Poller) (w : World) : World :=
  set_polls (mkPolls (signalled (w_polls w)) (disc_cancelled (w_polls w)) g
    (mc_goroutine (w_polls w))) w.

Definition mc_at (g : Poller) (w : World) : World :=
  set_polls (mkPolls (signalled (w_polls w)) (disc_cancelled (w_polls w))
    (disc_goroutine (w_polls w)) g) w.

(** The context of the discovery goroutine has ended; that of the collector is the
    one of the signal. *)
Definition disc_done (w : World) : bool := signalled (w_polls w) || disc_cancelled (w_polls w).

(** One of the channels at which the collector goroutine returns is ready. *)
Definition mc_done (w : World) : bool :=
  signalled (w_polls w) || match mc (w_server w) with Some c => stopCh_closed c | None => false end.

(** The endpoints whose handlers only read. *)
Definition reads (e : endpoint) : bool :=
  match e with
  | ChatCompletions | Completions | Embeddings | AddServerE | UpdateServer | DeleteServer
  | PutConfig => false
  | _ => true
  end.

(** A request that has just come in. *)
Definition arriving (h : Handler) : bool :=
  match h with
  | Reading e _ => reads e
  | Accepted _ _ _ | Changing (Arrived _) => true
  | _ => false
  end.

(** The context of a request, and what its end makes of the handler. *)
Definition end_context (ctx : Context) (e : error) : Context := mkContext (Some e) (ctx_Deadline ctx).

Definition end_job (j : Job) (e : error) : Job :=
  mkJob (j_check j) (end_context (j_ctx j) e) (j_req j) (j_body j) (j_openai j).

Definition handler_ctx (h : Handler) : option Context :=
  match h with
  | Accepted _ ctx _ => Some ctx
  | Routing j _ _ _ | Enqueuing j | Queued j _ | Connected j _ => Some (j_ctx j)
  | _ => None
  end.

Definition end_handler (e : error) (h : Handler) : Handler :=
  match h with
  | Accepted check ctx q => Accepted check (end_context ctx e) q
  | Routing j strategy servers pr => Routing (end_job j e) strategy servers pr
  | Enqueuing j => Enqueuing (end_job j e)
  | Queued j id => Queued (end_job j e) id
  | Connected j c => Connected (end_job j e) c
  | h => h
  end.

Section handlers.
Context `{!GrowPolicy, !Yaml, !NetURL, !MapRange, !SortSlice, !JsonErrors, !TimeText}.
Variable io_Copy : string → string.

Definition job_call (j : Job) (servers : list string) : Call :=
  mkCall (j_ctx j) servers (Model (j_openai j)) true.

(** The handler after [Route] has come to [pr]. *)
Definition after_route (j : Job) (strategy : string) (servers : list string) (pr : Progress)
    : Handler :=
  match pr with
  | Finished (Routed c) => Connected j c
  | Finished (RouteErr e) => Ended (Some (route_error e (Model (j_openai j))))
  | Finished Enqueue => Enqueuing j
  | Finished RoutePanic => Ended None
  | pr => Routing j strategy servers pr
  end.

(** The handler after a step of its [enqueue]. *)
Definition after_wait (j : Job) (id : nat) (w : option Waiter) : Handler :=
  match w with
  | Some (Returned (Ok c)) => Connected j c
  | Some (Returned (Err e)) => Ended (Some (route_error e (Model (j_openai j))))
  | _ => Queued j id
  end.

(** A step of the goroutine of a request in which the queue has no part; the
    backend behind [client] answers.  [route] fetches the configuration and the
    servers of the model first. *)
Definition handler_step (client : HttpClient) (h : Handler) (s : Server) : option (Handler * Server) :=
  match h with
  | Reading e q =>
      Some (Ended (serve io_Copy (λ _ _ s, (Err ErrAllBusy, s)) e q s).1, s)
  | Accepted check ctx q =>
      match admit_request (r_Body q) with
      | inl r => Some (Ended (Some r), s)
      | inr (b, req) =>
          let j := mkJob check ctx q b req in
          let servers := index_ServersForModel (disc s) (Model req) in
          Some (after_route j (FallbackStrategy (Global (Config.Get (cfg s)))) servers
                  (start (job_call j servers)), s)
      end
  | Routing j strategy servers pr =>
      let '(pr', st) := route_step strategy (job_call j servers) pr (rtr s) in
      Some (after_route j strategy servers pr', set_rtr st s)
  | Connected j c =>
      let '(o, s') := forward io_Copy (j_ctx j) c (j_req j) (j_body j)
                        (j_check j && Stream (j_openai j)) s in
      Some (Releasing c o, s')
  | Releasing c o => Some (Ended o, release c s)
  | Changing (Done _) | Enqueuing _ | Queued _ _ | Ended _ => None
  | Changing w => let '(w', s') := admin_step w s in Some (Changing w', s')
  end.
End handlers.

(** ** The steps *)

Section world.
Context `{!GrowPolicy, !Yaml, !NetURL, !MapRange, !SortSlice, !JsonErrors, !TimeText}.
Context `{!IntConversion}.

(** A step of the queue's goroutine: one of those of [Queue] that move it, but the
    one that starts and the one that stops it. *)
Definition runner_step (s s' : QState Pool) : Prop :=
  queue_step (D := Discovery) s s' ∧ q_next s' = q_next s ∧
  q_runner s' ≠ q_runner s ∧ q_runner s' ≠ Stopped.

(** A step of the goroutine that waits as number [id]. *)
Definition waiter_step (id : nat) (s s' : QState Pool) : Prop :=
  queue_step (D := Discovery) s s' ∧ q_next s' = q_next s ∧
  q_waiters s' !! id ≠ q_waiters s !! id.

Variable io_Copy : string → string.

(** The clients that [net/http] may turn out to be, and whether requests to
    change the configuration come in. *)
Variable clients : HttpClient → Prop.
Variable changes : bool.

(** Requests: they come in, their handlers step, their contexts end. *)
Inductive request_step : World → World → Prop :=
  | world_arrive h w :
      arriving h = true → (changes = false → ∀ q, h ≠ Changing (Arrived q)) →
      request_step w
        (mkWorld (w_server w) (w_queue w) (w_handlers w ++ [h]) (w_urls w) (w_polls w) (w_main w))
  | world_handler client i h h' s' w :
      clients client → w_handlers w !! i = Some h →
      handler_step io_Copy client h (w_server w) = Some (h', s') →
      request_step w (set_handler i h' s' w)
  | world_enqueue i j w :
      w_handlers w !! i = Some (Enqueuing j) → mu_free (w_queue w) →
      request_step w
        (put_queue (ensureStarted (fresh_waiter (j_ctx j) (Model (j_openai j)) (queue_view w)))
          (<[i := Queued j (q_next (w_queue w))]> (w_handlers w)) w)
  | world_wait i j id qs w :
      w_handlers w !! i = Some (Queued j id) → waiter_step id (queue_view w) qs →
      request_step w
        (put_queue qs (<[i := after_wait j id (q_waiters qs !! id)]> (w_handlers w)) w)
  | world_cancel i h ctx e w :
      w_handlers w !! i = Some h → handler_ctx h = Some ctx → ctx_Err ctx = None →
      request_step w
        (mkWorld (w_server w)
          (match h with Queued _ id => set_ctx id (end_context ctx e) (w_queue w) | _ => w_queue w end)
          (<[i := end_handler e h]> (w_handlers w)) (w_urls w) (w_polls w) (w_main w)).

(** The polling goroutine of discovery, when the servers answer [backends].  It selects
    between its ticker and the end of its context; if both are ready it may take
    either.  A round of [Discover] looks at the context before every server, and polls
    a copy of the URLs. *)
Inductive disc_step (backends : Backends) : World → World → Prop :=
  | disc_tick w :
      disc_goroutine (w_polls w) = Selecting →
      disc_step backends w
        (disc_at (Polling (if disc_done w then [] else Discovery.servers (disc (w_server w)))) w)
  | disc_poll u todo w :
      disc_goroutine (w_polls w) = Polling (u :: todo) → disc_done w = false →
      disc_step backends w
        (disc_at (Polling todo)
          (set_server (set_disc (poll u (disc (w_server w))) (w_server w)) (w_main w) w))
  | disc_round todo w :
      disc_goroutine (w_polls w) = Polling todo → todo = [] ∨ disc_done w = true →
      disc_step backends w (disc_at Selecting w)
  | disc_return w :
      disc_goroutine (w_polls w) = Selecting → disc_done w = true →
      disc_step backends w (disc_at Gone w).

(** That of the collector, when the servers answer [scrape].  A round of [fetchAll]
    looks at the context only, not at [stopCh], and polls the URLs it was started
    with; if it finds the entry of a server gone it crashes the program. *)
Inductive mc_step (scrape : string → Scrape) : World → World → Prop :=
  | mc_tick w :
      mc_goroutine (w_polls w) = Selecting →
      mc_step scrape w (mc_at (Polling (w_urls w)) w)
  | mc_fetch u todo c c' w :
      mc_goroutine (w_polls w) = Polling (u :: todo) → signalled (w_polls w) = false →
      mc (w_server w) = Some c → fetch_one u (scrape u) c = Some c' →
      mc_step scrape w
        (mc_at (Polling todo) (set_server (set_mc (Some c') (w_server w)) (w_main w) w))
  | mc_crash u todo c w :
      mc_goroutine (w_polls w) = Polling (u :: todo) → signalled (w_polls w) = false →
      mc (w_server w) = Some c → fetch_one u (scrape u) c = None →
      mc_step scrape w (set_server (w_server w) Crash w)
  | mc_round todo w :
      mc_goroutine (w_polls w) = Polling todo → todo = [] ∨ signalled (w_polls w) = true →
      mc_step scrape w (mc_at Selecting w)
  | mc_return w :
      mc_goroutine (w_polls w) = Selecting → mc_done w = true →
      mc_step scrape w (mc_at Gone w).

Inductive poll_step (backends : Backends) (scrape : string → Scrape) : World → World → Prop :=
  | poll_disc w w' : disc_step backends w w' → poll_step backends scrape w w'
  | poll_mc w w' : mc_step scrape w w' → poll_step backends scrape w w'.

(** [main] behind [srv.Start]: [Discovery.Stop], which cancels and waits,
    [Collector.Stop], which closes the channel and waits, [Drain] and [Stop] of the
    queue, and [srv.Shutdown], which returns when no request is left or when
    [drain_timeout_sec] is over, whichever comes first. *)
Inductive main_step : World → World → Prop :=
  | world_stop_discovery w :
      w_main w = StoppingDiscovery →
      main_step w
        (set_polls (mkPolls (signalled (w_polls w))
            (disc_cancelled (w_polls w) || (Discovery.Stop (disc (w_server w))).1)
            (disc_goroutine (w_polls w)) (mc_goroutine (w_polls w)))
          (set_server (set_disc (Discovery.Stop (disc (w_server w))).2 (w_server w))
            WaitingDiscovery w))
  | world_wait_discovery w :
      w_main w = WaitingDiscovery → disc_goroutine (w_polls w) = Gone →
      main_step w (set_server (w_server w) StoppingMetrics w)
  | world_stop_metrics c c' w :
      w_main w = StoppingMetrics → mc (w_server w) = Some c → Metrics.Stop c = Some c' →
      main_step w (set_server (set_mc (Some c') (w_server w)) WaitingMetrics w)
  | world_wait_metrics w :
      w_main w = WaitingMetrics → mc_goroutine (w_polls w) = Gone →
      main_step w (set_server (w_server w) Draining w)
  | world_drain chans w :
      w_main w = Draining → mu_free (w_queue w) →
      drain_items (q_queue (w_queue w)) (q_chans (w_queue w)) = Some chans →
      main_step w
        (mkWorld (w_server w) (set_queue (λ _, []) (set_chans chans (w_queue w)))
          (w_handlers w) (w_urls w) (w_polls w) StoppingQueue)
  | world_stop_queue w :
      w_main w = StoppingQueue →
      main_step w
        (mkWorld (w_server w) (stop (w_queue w)) (w_handlers w) (w_urls w) (w_polls w) ClosingHTTP)
  | world_exit w :
      w_main w = ClosingHTTP → main_step w (set_server (w_server w) Exit w).

(** Everything; and what comes from outside: the signal, which ends the context of
    [signal.NotifyContext] but does not make [ListenAndServe] return, and its return,
    for an error of the listener. *)
Inductive world_step : World → World → Prop :=
  | world_request w w' : request_step w w' → world_step w w'
  | world_runner qs w :
      runner_step (queue_view w) qs → world_step w (put_queue qs (w_handlers w) w)
  | world_poll backends scrape w w' : poll_step backends scrape w w' → world_step w w'
  | world_main w w' : main_step w w' → world_step w w'
  | world_signal w :
      world_step w
        (set_polls (mkPolls true (disc_cancelled (w_polls w)) (disc_goroutine (w_polls w))
          (mc_goroutine (w_polls w))) w)
  | world_listen w :
      w_main w = Listening → world_step w (set_server (w_server w) StoppingDiscovery w).

(** The steps that the shutdown consists of: those of [main], of the two goroutines it
    waits for, whose servers answer [backends] and [scrape], and of the goroutine
    whose mutex it needs. *)
Inductive shutdown_step (backends : Backends) (scrape : string → Scrape) : World → World → Prop :=
  | shutdown_main w w' : main_step w w' → shutdown_step backends scrape w w'
  | shutdown_poll w w' : poll_step backends scrape w w' → shutdown_step backends scrape w w'
  | shutdown_runner qs w :
      runner_step (queue_view w) qs →
      shutdown_step backends scrape w (put_queue qs (w_handlers w) w).

(** Nothing runs any more when the process has ended. *)
Definition world_next (w w' : World) : Prop :=
  w_main w ≠ Exit ∧ w_main w ≠ Crash ∧ world_step w w'.

(** [main] when it calls [srv.Start]: the process of [Main.startup], nobody served
    yet. *)
Definition started_world (p : Process) : World :=
  mkWorld (p_server p) (newQueueManager (rtr (p_server p))) [] (p_urls p)
    (mkPolls false false Selecting Selecting) Listening.
End world.

(** How many steps are left: of the sequence, of the rounds that are under way, and
    of the pass through the queue. *)
Definition phase_left (m : MainPhase) : nat :=
  match m with
  | Listening => 8 | StoppingDiscovery => 7 | WaitingDiscovery => 6 | StoppingMetrics => 5
  | WaitingMetrics => 4 | Draining => 3 | StoppingQueue => 2 | ClosingHTTP => 1
  | Exit | Crash => 0
  end.

Definition poller_left (g : Poller) : nat :=
  match g with Selecting => 1 | Polling todo => 2 + length todo | Gone => 0 end.

Definition runner_left (r : Runner) : nat :=
  match r with
  | Scanning _ todo _ => 1 + 2 * length todo
  | Sending _ _ _ todo _ => 2 + 2 * length todo
  | _ => 0
  end.

Definition steps_left (w : World) : nat :=
  phase_left (w_main w) + poller_left (disc_goroutine (w_polls w)) +
  poller_left (mc_goroutine (w_polls w)) + runner_left (q_runner (w_queue w)).

(** ** One step of [route] while everything else changes *)

Section route.
Context {P : Type} `{!PoolOps P} {ok : P → Prop} `{!PoolLaws P ok}.
Context `{!SortSlice, !SortSliceLaws}.

(** What keeps [route] from a panic. *)
Definition shape_ok (pr : Progress) : Prop :=
  Forall (λ g, g ≠ []) (groups_of pr) ∧
  match pr with
  | RouterConcurrent.Scanning _ idx _ _ _ => 0 <= idx
  | Finished r => r ≠ RoutePanic
  | _ => True
  end.

Definition progress_conns (pr : Progress) : list Conn :=
  match pr with Finished r => routed_conns r | _ => [] end.

(** An attempt to take a slot. *)
Lemma acquire_tracked base ctx u (p : P) l r q :
  ok p → tracked base p l → pool_Acquire ctx u p = (r, q) →
  ok q ∧ tracked base q ((match r with Ok c => [c] | Err _ => [] end) ++ l).
Proof.
  intros Hp Ht Ha. destruct (acquire_cases ctx u p Hp)
    as [(e & q' & Hq & Hok & Heq)|(q' & Hq & Hs & Hok & Hc)]; rewrite Hq in Ha; injection Ha as <- <-.
  - split; [done|]. simpl. by rewrite <- Heq.
  - split; [done|]. by eapply tracked_acquire.
Qed.

Lemma fallback_tracked base ctx strategy allowQueue infos (st : RouterState P) l r st' :
  router_wf (ok := ok) st → tracked base (pool st) l →
  fallback ctx strategy allowQueue infos st = (r, st') →
  router_wf (ok := ok) st' ∧ r ≠ RoutePanic ∧ tracked base (pool st') (routed_conns r ++ l).
Proof.
  intros [Hp Hrr] Ht. unfold fallback.
  destruct (bool_decide (strategy = FallbackBestEffort)).
  - destruct (best_of infos) as [b|].
    + destruct (pool_Acquire ctx (url b) (pool st)) as [o q] eqn:Ha.
      destruct (acquire_tracked base _ _ _ _ _ _ Hp Ht Ha) as [Hq Htq].
      destruct o as [c|e]; [by intros [= <- <-]|]. by destruct (_ && _); intros [= <- <-].
    + by destruct (_ && _); intros [= <- <-].
  - by destruct (_ && _); intros [= <- <-].
Qed.

(** A step keeps the router well formed, does not panic, and takes a slot from the
    pool only for the connection it ends with, however servers were added, removed
    and polled since the call began. *)
Lemma route_step_tracked base strategy call pr (st : RouterState P) l pr' st' :
  router_wf (ok := ok) st → shape_ok pr → (∀ r, pr ≠ Finished r) → tracked base (pool st) l →
  route_step strategy call pr st = (pr', st') →
  router_wf (ok := ok) st' ∧ shape_ok pr' ∧ tracked base (pool st') (progress_conns pr' ++ l).
Proof.
  intros Hwf Hsh Hnf Ht Hstep. pose proof Hwf as [Hp Hrr].
  destruct pr as [todo infos|gs infos|g idx ks gs infos|infos|r]; [| | | |by destruct (Hnf r)];
    cbn [route_step] in Hstep.
  - destruct todo as [|u todo]; [|by injection Hstep as <- <-].
    destruct (bool_decide (infos = [])); injection Hstep as <- <-; [by split_and!|].
    split_and!; [done| |done]. split; [|done]. apply groups_nonempty.
  - destruct gs as [|g gs]; [by injection Hstep as <- <-|].
    destruct Hsh as [Hg _]. cbn [groups_of] in Hg. pose proof Hg as [Hne _]%Forall_cons.
    rewrite bool_decide_false in Hstep by done.
    destruct (rr_step st (c_model call) g Hrr Hne) as (_ & Hidx & Hrr').
    injection Hstep as <- <-. split_and!; [done| |done]. split; [done|lia].
  - destruct Hsh as [Hg Hidx]. cbn [groups_of] in Hg. pose proof Hg as [Hne Hgs]%Forall_cons.
    destruct ks as [|k ks]; [by injection Hstep as <- <-|].
    destruct (go_index_rem g idx k Hidx Hne) as (si & Hsi & _ & _). rewrite Hsi in Hstep.
    destruct (available si); [|by injection Hstep as <- <-].
    destruct (pool_Acquire _ _ _) as [o q] eqn:Ha.
    destruct (acquire_tracked base _ _ _ _ _ _ Hp Ht Ha) as [Hq Htq].
    by destruct o as [c|e]; injection Hstep as <- <-.
  - destruct (fallback _ _ _ _ _) as [r st1] eqn:Hf. injection Hstep as <- <-.
    by destruct (fallback_tracked base _ _ _ _ _ _ _ _ Hwf Ht Hf) as (? & ? & ?).
Qed.

Lemma start_shape call : shape_ok (start call) ∧ progress_conns (start call) = [].
Proof. unfold start. by case_bool_decide. Qed.
End route.

(** ** The queue while everything else changes *)

Section queue.
Context `{!SortSlice, !SortSliceLaws}.
Implicit Types s : QState Pool.

(** The steps of the queue keep router and goroutine in order, even when servers
    have been removed whose connections are out. *)
Lemma queue_step_safe s s' :
  queue_step (D := Discovery) s s' → router_wf (ok := pool_wf) (q_router s) →
  q_runner s ≠ Panicked → router_wf (ok := pool_wf) (q_router s') ∧ q_runner s' ≠ Panicked.
Proof.
  intros Hstep Hwf Hp. pose proof (tracked_nil (ok := pool_wf) _ Hwf) as Ht.
  destruct Hstep; simpl; try by split.
  - unfold ensureStarted. by case_match.
  - destruct Hwf as [Hok Hrr]. split; [|done]. split; [|done]. simpl.
    destruct r as [c|]; simpl; [by apply Release_wf|done].
  - select (process_item _ _ _ _ _ _ = _) (fun Hi =>
      by destruct (process_item_tracked (ok := pool_wf) _ _ _ _ _ _ _ _ _ _ Hwf Ht Hi) as (_ & ? & _)).
  - select (process_item _ _ _ _ _ _ = _) (fun Hi =>
      by destruct (process_item_tracked (ok := pool_wf) _ _ _ _ _ _ _ _ _ _ Hwf Ht Hi) as (_ & ? & _)).
  - select (process_item _ _ _ _ _ _ = _) (fun Hi =>
      by destruct (process_item_tracked (ok := pool_wf) _ _ _ _ _ _ _ _ _ _ Hwf Ht Hi) as ([] & _)).
  - unfold stop. destruct (q_runner s) eqn:Hr; simpl; by rewrite ?Hr.
  - select (route _ _ _ _ _ _ = _) (fun Hr =>
      by destruct (route_tracked (ok := pool_wf) _ _ _ _ _ _ _ _ _ _ Hwf Ht Hr) as (? & _)).
  - destruct Hwf as [Hok Hrr]. split; [|done]. split; [|done]. by apply Release_wf.
Qed.

(** The step of a waiter moves that waiter only; its connection, if it gets one,
    goes to its handler. *)
Lemma waiter_step_moves id s s' :
  waiter_step id s s' →
  ∃ v, q_waiters s' = <[id := v]> (q_waiters s) ∧ q_ctxs s' = q_ctxs s ∧
    q_out s' = (match v with Returned (Ok c) => [c] | _ => [] end) ++ q_out s ∧
    q_runner s' = q_runner s.
Proof.
  intros (Hstep & Hn & Hw).
  assert (∀ k v, q_waiters s' = <[k := v]> (q_waiters s) → k = id) as Hk.
  { intros k v E. destruct (decide (k = id)) as [|Hne]; [done|].
    rewrite E, lookup_insert_ne in Hw by done. done. }
  destruct Hstep; simpl in *; try done.
  - unfold ensureStarted in Hn. case_match; simpl in Hn; lia.
  - assert (id0 = id) as -> by by eapply Hk. by eexists.
  - assert (id0 = id) as -> by by eapply Hk. by eexists.
  - assert (id0 = id) as -> by by eapply Hk. eexists. split_and!; [done|done| |done]. by destruct r.
  - assert (id0 = id) as -> by by eapply Hk. by eexists.
  - assert (id0 = id) as -> by by eapply Hk. by eexists.
  - assert (id0 = id) as -> by by eapply Hk. by eexists.
  - unfold stop in Hw. by destruct (q_runner s).
Qed.

Lemma runner_step_others s s' :
  runner_step s s' →
  q_waiters s' = q_waiters s ∧ q_ctxs s' = q_ctxs s ∧ q_out s' = q_out s.
Proof.
  intros (Hstep & Hn & Hr & Hs). destruct Hstep; simpl in *; try done.
  - unfold ensureStarted in Hn. case_match; simpl in Hn; lia.
  - unfold stop in *. by destruct (q_runner s).
Qed.

(** Whoever holds the mutex of the queue can go on, towards giving it back. *)
Lemma runner_goes_on s :
  router_wf (ok := pool_wf) (q_router s) → q_runner s ≠ Panicked → ids_inv s → ¬ mu_free s →
  ∃ s', runner_step s s' ∧ (runner_left (q_runner s') < runner_left (q_runner s))%nat.
Proof.
  intros Hwf Hp Hi Hf. unfold mu_free in Hf.
  assert (∀ s', queue_step (D := Discovery) s s' → q_next s' = q_next s → q_runner s' ≠ Stopped →
    (runner_left (q_runner s') < runner_left (q_runner s))%nat →
    ∃ s', runner_step s s' ∧ (runner_left (q_runner s') < runner_left (q_runner s))%nat) as Hgo.
  { intros s' Hs Hn Hst Hlt. exists s'. split_and!; [|done]. split_and!; [done|done| |done].
    intros E. rewrite E in Hlt. lia. }
  pose proof (ids_live _ Hi) as Hl. unfold live_items in Hl.
  destruct (q_runner s) as [| | |now [|it todo] rem|now it r todo rem| |] eqn:Hr;
    try (by destruct Hf).
  - eapply Hgo; [by eapply step_unlock|done|done|simpl; lia].
  - destruct (Hl it) as (_ & v & Hv & _); [set_solver|].
    destruct (ids_known _ Hi _ _ Hv) as [_ [ctx Hctx]].
    destruct (process_item now ctx (sample_strategy EmptyString) (sample_index []) it (q_router s))
      as [o st] eqn:Ho.
    destruct (process_item_tracked (ok := pool_wf) _ _ _ _ _ _ _ _ _ [] Hwf
      (tracked_nil (ok := pool_wf) _ Hwf) Ho) as (Hnp & _).
    destruct o as [r| |]; [| |done].
    + eapply Hgo; [by eapply step_decide|done|done|simpl; lia].
    + eapply Hgo; [by eapply step_keep|done|done|simpl; lia].
  - destruct (Hl it) as (Hn & _); [set_solver|].
    eapply Hgo; [by eapply step_send; [exact Hr|unfold send; by rewrite Hn]|done|done|simpl; lia].
Qed.

(** Where a goroutine in [enqueue] can be: it can go on, it needs the mutex, or it
    waits for an answer that has not been sent, and is in the queue. *)
Lemma waiter_goes_on s id ctx v :
  ids_inv s → kept s → q_ctxs s !! id = Some ctx → q_waiters s !! id = Some v →
  (∀ r, v ≠ Returned r) → mu_free s →
  (∃ s', waiter_step id s s') ∨
  (v = Waiting ∧ ctx_Err ctx = None ∧ q_chans s !! id = None ∧ id ∈ map item_id (live_items s)).
Proof.
  intros Hi Hk Hctx Hv Hnr Hf.
  assert (∀ s', queue_step (D := Discovery) s s' → q_next s' = q_next s →
    (∃ v', q_waiters s' !! id = Some v' ∧ v' ≠ v) → ∃ s', waiter_step id s s') as Hgo.
  { intros s' Hs Hn (v' & Hv' & Hne). exists s'. split_and!; [done|done|]. rewrite Hv', Hv. congruence. }
  destruct v as [m| | |e|r]; [| | | |by destruct (Hnr r)].
  - left. eapply Hgo; [by eapply (step_append id m ctx (sample_strategy EmptyString) 0)|done|].
    simpl. rewrite lookup_insert_eq. by eexists.
  - left. eapply Hgo; [by apply (step_notify id)|done|]. simpl. rewrite lookup_insert_eq. by eexists.
  - destruct (q_chans s !! id) as [r|] eqn:Hc.
    { left. eapply Hgo; [by eapply (step_result id r)|done|]. simpl. rewrite lookup_insert_eq.
      by eexists. }
    destruct (ctx_Err ctx) as [e|] eqn:He.
    { left. eapply Hgo; [by eapply (step_done_default id ctx e)|done|]. simpl.
      rewrite lookup_insert_eq. by eexists. }
    right. split_and!; [done..|]. destruct (Hk id Waiting Hv I) as [[r Hr]|]; [|done].
    by rewrite Hc in Hr.
  - left. eapply Hgo; [by eapply (step_removeItem id e)|done|]. simpl. rewrite lookup_insert_eq.
    by eexists.
Qed.
End queue.

(** ** Every world is in order *)

Section safety.
Context `{!GrowPolicy, !Yaml, !NetURL, !MapRange, !MapRangeLaw, !SortSlice, !SortSliceLaws}.
Context `{!JsonErrors, !TimeText, !IntConversion}.
Variable io_Copy : string → string.
Variable clients : HttpClient → Prop.
Hypothesis clients_sane : ∀ client, clients client → @sane_backends client.
Variable changes : bool.

Abbreviation step := (world_step io_Copy clients changes).
Abbreviation next := (world_next io_Copy clients changes).

(** A handler in order: it has not panicked, and the goroutine that waits for it in
    the queue is there. *)
Definition handler_ok (hp : Heap ServerConfig) (qs : QState Pool) (h : Handler) : Prop :=
  match h with
  | Reading e _ => reads e = true
  | Routing _ _ _ pr => shape_ok pr ∧ ∀ r, pr ≠ Finished r
  | Queued j id => q_ctxs qs !! id = Some (j_ctx j) ∧
      ∃ v, q_waiters qs !! id = Some v ∧ ∀ r, v ≠ Returned r
  | Changing w => stage_ok hp w
  | Releasing _ o | Ended o => is_Some o
  | _ => True
  end.

(** No two handlers wait with the same number. *)
Definition waiters_apart (hs : list Handler) : Prop :=
  ∀ i k j j' id, hs !! i = Some (Queued j id) → hs !! k = Some (Queued j' id) → i = k.

Record world_wf (w : World) : Prop := {
  ww_server : server_wf (w_server w);
  ww_runner : q_runner (w_queue w) ≠ Panicked;
  ww_ids : ids_inv (w_queue w);
  ww_handlers : Forall (handler_ok (heap (cfg (w_server w))) (w_queue w)) (w_handlers w);
  ww_apart : waiters_apart (w_handlers w)
}.

(** The goroutine [id] has been left alone. *)
Definition same_waiter (qs qs' : QState Pool) (id : nat) : Prop :=
  q_ctxs qs' !! id = q_ctxs qs !! id ∧ q_waiters qs' !! id = q_waiters qs !! id.

Lemma handlers_kept hp hp' qs qs' hs :
  Forall (handler_ok hp qs) hs → heap_le hp hp' →
  (∀ k j id, hs !! k = Some (Queued j id) → same_waiter qs qs' id) →
  Forall (handler_ok hp' qs') hs.
Proof.
  intros Hall Hle Hq. apply Forall_lookup. intros k h Hk.
  pose proof (Forall_lookup_1 _ _ _ _ Hall Hk) as Hh. destruct h; try exact Hh.
  - destruct (Hq k j id Hk) as [Hc Hv]. cbn [handler_ok] in *. by rewrite Hc, Hv.
  - by eapply stage_ok_le.
Qed.

Lemma handlers_update i h' hp hp' qs qs' hs :
  Forall (handler_ok hp qs) hs → heap_le hp hp' →
  (∀ k j id, k ≠ i → hs !! k = Some (Queued j id) → same_waiter qs qs' id) →
  handler_ok hp' qs' h' → Forall (handler_ok hp' qs') (<[i := h']> hs).
Proof.
  intros Hall Hle Hq Hh. apply Forall_lookup. intros k h.
  rewrite list_lookup_insert. case_decide as Hd; [by intros [= <-]|]. intros Hk.
  destruct (decide (k = i)) as [->|Hne].
  { apply lookup_lt_Some in Hk. by destruct Hd. }
  pose proof (Forall_lookup_1 _ _ _ _ Hall Hk) as Hh0. destruct h; try exact Hh0.
  - destruct (Hq k j id Hne Hk) as [Hc Hv]. cbn [handler_ok] in *. by rewrite Hc, Hv.
  - by eapply stage_ok_le.
Qed.

(** The numbers stay apart when a handler gets a new one, keeps its own, or has
    none. *)
Lemma waiters_apart_insert i h' hs :
  waiters_apart hs →
  (∀ j id, h' = Queued j id → ∀ k j', k ≠ i → hs !! k ≠ Some (Queued j' id)) →
  waiters_apart (<[i := h']> hs).
Proof.
  intros Ha Hh k1 k2 j1 j2 id. rewrite !list_lookup_insert.
  case_decide as Hd1; case_decide as Hd2; intros E1 E2.
  - destruct Hd1 as [<- _], Hd2 as [<- _]. done.
  - injection E1 as ->. destruct Hd1 as [-> Hlt]. exfalso.
    apply (Hh j1 id eq_refl k2 j2); [|done]. intros ->. by destruct Hd2.
  - injection E2 as ->. destruct Hd2 as [-> Hlt]. exfalso.
    apply (Hh j2 id eq_refl k1 j1); [|done]. intros ->. by destruct Hd1.
  - by apply (Ha k1 k2 j1 j2 id).
Qed.

(** ** The handlers *)

Lemma after_route_ok hp qs j strategy servers pr :
  shape_ok pr → handler_ok hp qs (after_route j strategy servers pr).
Proof.
  intros [Hg Hp]. destruct pr as [| | | |[]]; try (split; [by split|done]); try done.
  simpl. by eexists.
Qed.

Lemma after_route_not_queued j strategy servers pr j' id :
  after_route j strategy servers pr ≠ Queued j' id.
Proof. by destruct pr as [| | | |[]]. Qed.

Lemma read_answer (client : HttpClient) e q s :
  reads e = true → server_wf s →
  is_Some (serve io_Copy (λ _ _ s, (Err ErrAllBusy, s)) e q s).1.
Proof. intros He Hs. destruct e; try done; by eexists. Qed.

(** A step of a handler keeps the server in order, and the handler. *)
Lemma handler_step_ok client h s h' s' qs :
  clients client → handler_step io_Copy client h s = Some (h', s') →
  server_wf s → handler_ok (heap (cfg s)) qs h →
  server_wf s' ∧ heap_le (heap (cfg s)) (heap (cfg s')) ∧ handler_ok (heap (cfg s')) qs h' ∧
  ∀ j id, h' ≠ Queued j id.
Proof.
  intros Hcl Hstep Hs Hh.
  destruct h as [e q|check ctx q|j strategy servers pr|j|j id|j c|c o|w|o];
    cbn [handler_step] in Hstep; try discriminate Hstep.
  - injection Hstep as <- <-. split_and!; [done|by intros t|by apply read_answer|done].
  - destruct (admit_request (r_Body q)) as [r|[b req]]; injection Hstep as <- <-.
    + split_and!; [done|by intros t|by eexists|done].
    + split_and!; [done|by intros t| |intros; apply after_route_not_queued].
      apply after_route_ok, start_shape.
  - destruct (route_step _ _ _ _) as [pr' st] eqn:Hr. injection Hstep as <- <-.
    destruct Hh as [Hsh Hnf]. pose proof (swf_rtr s Hs) as Hwf.
    destruct (route_step_tracked (ok := pool_wf) _ _ _ _ _ _ _ _ Hwf Hsh Hnf
      (tracked_nil (ok := pool_wf) _ Hwf) Hr) as (Hwf' & Hsh' & _).
    split_and!; [by apply set_rtr_wf|by intros t|by apply after_route_ok|].
    intros; apply after_route_not_queued.
  - pose proof (forward_wf io_Copy (j_ctx j) c (j_req j) (j_body j)
      (j_check j && Stream (j_openai j)) s Hs) as Hf.
    pose proof (forward_state io_Copy (j_ctx j) c (j_req j) (j_body j)
      (j_check j && Stream (j_openai j)) s) as Hst.
    pose proof (forward_answers io_Copy (j_ctx j) c (j_req j) (j_body j)
      (j_check j && Stream (j_openai j)) s (clients_sane client Hcl)) as Ha.
    destruct (forward _ _ _ _ _ _ _) as [o s1]. injection Hstep as <- <-.
    destruct Hst as (_ & Hc & _). split_and!; [done|rewrite Hc; by intros t|done|done].
  - injection Hstep as <- <-. split_and!; [by apply release_wf|by intros t|done|done].
  - cbn [handler_ok] in Hh. pose proof (admin_step_ok w s Hs Hh) as (Hs' & Hle & Hw').
    destruct (admin_step w s) as [w' s1]. assert (h' = Changing w' ∧ s' = s1) as [-> ->].
    { destruct w; try (injection Hstep as <- <-; done). discriminate Hstep. }
    by split_and!.
Qed.
(** ** The steps *)

Lemma view_ids w : ids_inv (w_queue w) → ids_inv (queue_view w).
Proof. intros Hi. by apply (ids_inv_same (w_queue w)). Qed.

(** A step of the queue in which no goroutine but [id] moves. *)
Lemma queue_world_wf w qs hs :
  queue_step (D := Discovery) (queue_view w) qs → world_wf w →
  Forall (handler_ok (heap (cfg (w_server w))) qs) hs → waiters_apart hs →
  world_wf (put_queue qs hs w).
Proof.
  intros Hstep [Hs Hr Hi Hh Ha] Hh' Ha'.
  destruct (queue_step_safe _ _ Hstep (swf_rtr _ Hs) Hr) as [Hwf Hr'].
  split; cbn [put_queue w_server w_queue w_handlers]; [by apply set_rtr_wf|done| |done|done].
  eapply queue_step_ids; [exact Hstep|done|by apply view_ids].
Qed.

(** The numbers of the goroutines that wait are old. *)
Lemma queued_old w i j id :
  world_wf w → w_handlers w !! i = Some (Queued j id) → (id < q_next (w_queue w))%nat.
Proof.
  intros Hw Hi. destruct (Forall_lookup_1 _ _ _ _ (ww_handlers _ Hw) Hi) as (_ & v & Hv & _).
  by apply (ids_known _ (ww_ids _ Hw) id v).
Qed.

Lemma world_wf_enqueue i j w :
  w_handlers w !! i = Some (Enqueuing j) → mu_free (w_queue w) → world_wf w →
  world_wf (put_queue (ensureStarted (fresh_waiter (j_ctx j) (Model (j_openai j)) (queue_view w)))
    (<[i := Queued j (q_next (w_queue w))]> (w_handlers w)) w).
Proof.
  intros Hi Hf Hw. pose proof Hw as [Hs Hr Hid Hh Ha].
  set (qs := fresh_waiter _ _ _).
  assert (∀ id, id ≠ q_next (w_queue w) → same_waiter (w_queue w) (ensureStarted qs) id) as Hsame.
  { intros id Hne. unfold ensureStarted, qs. case_match; by split; apply lookup_insert_ne. }
  assert (∀ k j' id, w_handlers w !! k = Some (Queued j' id) → id ≠ q_next (w_queue w)) as Hold
    by (intros k j' id Hk; pose proof (queued_old w k j' id Hw Hk); lia).
  apply queue_world_wf; [by apply step_start|done| |].
  - eapply handlers_update; [exact Hh|by intros t| |].
    + intros k j' id _ Hk. apply Hsame. by eapply Hold.
    + assert (q_ctxs (ensureStarted qs) = q_ctxs qs ∧ q_waiters (ensureStarted qs) = q_waiters qs)
        as [Ec Ew] by (unfold ensureStarted; by case_match).
      cbn [handler_ok]. rewrite Ec, Ew. unfold qs. cbn [fresh_waiter q_ctxs q_waiters queue_view
        set_out set_router q_next]. rewrite !lookup_insert_eq. by split; [|eexists].
  - apply waiters_apart_insert; [done|]. intros j' id [= <- <-] k j'' _ Hk. by eapply Hold.
Qed.

Lemma after_wait_ok hp qs j id v :
  q_ctxs qs !! id = Some (j_ctx j) → q_waiters qs !! id = Some v →
  handler_ok hp qs (after_wait j id (Some v)).
Proof.
  intros Hc Hv. destruct v as [m| | |e|[c|e]]; simpl; try done; by split; [|eexists].
Qed.

Lemma world_wf_wait i j id qs w :
  w_handlers w !! i = Some (Queued j id) → waiter_step id (queue_view w) qs → world_wf w →
  world_wf (put_queue qs (<[i := after_wait j id (q_waiters qs !! id)]> (w_handlers w)) w).
Proof.
  intros Hi Hq Hw. pose proof Hw as [Hs Hr Hid Hh Ha].
  destruct (waiter_step_moves _ _ _ Hq) as (v & Hv & Hc & _). cbn in Hv, Hc.
  destruct (Forall_lookup_1 _ _ _ _ Hh Hi) as (Hctx & v0 & Hv0 & _).
  apply queue_world_wf; [apply Hq|done| |].
  - eapply handlers_update; [exact Hh|by intros t| |].
    + intros k j' id' Hne Hk. unfold same_waiter. rewrite Hc, Hv. split; [done|].
      apply lookup_insert_ne. intros <-. by destruct (Ha _ _ _ _ _ Hi Hk).
    + rewrite Hv, lookup_insert_eq. apply after_wait_ok; [by rewrite Hc|].
      by rewrite Hv, lookup_insert_eq.
  - apply waiters_apart_insert; [done|]. intros j' id' Hj k j'' Hne Hk. apply Hne.
    assert (id' = id) as -> by (destruct (q_waiters qs !! id) as [[| | | |[]]|]; by simplify_eq/=).
    by eapply Ha.
Qed.

Lemma world_wf_runner qs w :
  runner_step (queue_view w) qs → world_wf w → world_wf (put_queue qs (w_handlers w) w).
Proof.
  intros Hq Hw. destruct (runner_step_others _ _ Hq) as (Hv & Hc & _).
  apply queue_world_wf; [apply Hq|done| |apply Hw].
  eapply handlers_kept; [apply Hw|by intros t|]. intros k j id _. unfold same_waiter.
  by rewrite Hv, Hc.
Qed.

(** The end of a context. *)
Lemma world_wf_cancel i h ctx e w :
  w_handlers w !! i = Some h → handler_ctx h = Some ctx → world_wf w →
  world_wf (mkWorld (w_server w)
    (match h with Queued _ id => set_ctx id (end_context ctx e) (w_queue w) | _ => w_queue w end)
    (<[i := end_handler e h]> (w_handlers w)) (w_urls w) (w_polls w) (w_main w)).
Proof.
  intros Hi Hctx Hw. pose proof Hw as [Hs Hr Hid Hh Ha].
  pose proof (Forall_lookup_1 _ _ _ _ Hh Hi) as Hok.
  destruct h as [|check ctx0 q|j strategy servers pr|j|j id|j c| | |]; try discriminate Hctx;
    injection Hctx as <-; cbn [end_handler].
  4: { split; cbn [w_server w_queue w_handlers]; [done|done| | |].
    - apply (ids_inv_same (w_queue w)); try done. intros id'. simpl. rewrite lookup_insert.
      case_decide; [by eexists|done].
    - eapply handlers_update; [exact Hh|by intros t| |].
      + intros k j' id' Hne Hk. split; [|done]. apply lookup_insert_ne. intros <-.
        by destruct (Ha _ _ _ _ _ Hi Hk).
      + destruct Hok as (_ & v & Hv). split; [by apply lookup_insert_eq|by exists v].
    - apply waiters_apart_insert; [exact Ha|]. intros j' id' [= <- <-] k j'' Hne Hk. apply Hne.
      by eapply Ha. }
  all: split; cbn [w_server w_queue w_handlers]; [done..| |].
  all: first [by apply waiters_apart_insert
    | eapply handlers_update; [exact Hh|by intros t|by intros|exact Hok]].
Qed.
(** A change of the server that the requests do not notice. *)
Lemma world_wf_server s m w :
  server_wf s → heap_le (heap (cfg (w_server w))) (heap (cfg s)) → world_wf w →
  world_wf (set_server s m w).
Proof.
  intros Hs Hle [_ Hr Hid Hh Ha]. split; [done|done|done| |done].
  eapply handlers_kept; [exact Hh|exact Hle|done].
Qed.

(** The polling goroutines are nobody's concern but their own. *)
Lemma world_wf_polls ps w : world_wf w → world_wf (set_polls ps w).
Proof. by intros []. Qed.

Lemma request_step_wf w w' :
  request_step io_Copy clients changes w w' → world_wf w → world_wf w'.
Proof.
  intros Hstep Hw. pose proof Hw as [Hs Hr Hid Hh Ha].
  destruct Hstep as [h w Harr _|client i h h' s' w Hcl Hi Hstep|i j w Hi Hf|i j id qs w Hi Hq
    |i h ctx e w Hi Hctx _].
  - split; cbn [w_server w_queue w_handlers]; [done..| |].
    + apply Forall_app. split; [done|]. apply Forall_singleton.
      by destruct h as [| | | | | | |[]|].
    + intros i k j j' id Hi Hk. assert (∀ i j, (w_handlers w ++ [h]) !! i = Some (Queued j id) →
        w_handlers w !! i = Some (Queued j id)) as Hold; [|by eapply Ha; apply Hold].
      intros i0 j0 [?|[_ E]]%lookup_app_Some; [done|].
      apply list_lookup_singleton_Some in E as [_ ->]. discriminate Harr.
  - destruct (handler_step_ok client h (w_server w) h' s' (w_queue w) Hcl Hstep Hs
      (Forall_lookup_1 _ _ _ _ Hh Hi)) as (Hs' & Hle & Hok & Hnq).
    split; cbn [set_handler w_server w_queue w_handlers]; [done..| |].
    + eapply handlers_update; [exact Hh|exact Hle|done|exact Hok].
    + apply waiters_apart_insert; [done|]. intros j id E. by destruct (Hnq j id).
  - by apply world_wf_enqueue.
  - by apply world_wf_wait.
  - by eapply world_wf_cancel.
Qed.

Lemma poll_step_wf backends scrape w w' :
  poll_step backends scrape w w' → world_wf w → world_wf w'.
Proof.
  intros Hstep Hw. pose proof (ww_server _ Hw) as Hs.
  destruct Hstep as [w0 w1 [w Hg|u todo w Hg Hd|todo w Hg Ht|w Hg Hd]|w0 w1 [w Hg|u todo c c' w Hg Hd Hc Hf
    |u todo c w Hg Hd Hc Hf|todo w Hg Ht|w Hg Hd]]; try by apply world_wf_polls.
  - apply world_wf_polls, world_wf_server; [|by intros t|done]. destruct Hs as [? ? Hp Hk ?].
    split; [done|done|by apply poll_wf|by apply poll_details_ok|done].
  - apply world_wf_polls, world_wf_server; [|by intros t|done]. apply set_mc_wf; [done|].
    eapply fetch_one_ok; [exact Hf|]. by apply (swf_mc _ Hs).
  - by apply world_wf_server; [|intros t|].
Qed.

Lemma main_step_wf w w' : main_step w w' → world_wf w → world_wf w'.
Proof.
  intros Hstep Hw. pose proof Hw as [Hs Hr Hid Hh Ha].
  destruct Hstep as [w Hm|w Hm Hg|c c' w Hm Hc Hst|w Hm Hg|chans w Hm Hf Hd|w Hm|w Hm];
    try by apply world_wf_server; [|intros t|].
  - apply world_wf_polls, world_wf_server; [|by intros t|done]. by destruct Hs.
  - apply world_wf_server; [|by intros t|done]. apply set_mc_wf; [done|].
    unfold Metrics.Stop in Hst. destruct (stopCh_closed c); [done|]. injection Hst as <-.
    exact (swf_mc _ Hs c Hc).
  - split; cbn [w_server w_queue w_handlers]; [done|done|by apply ids_inv_drain|done|done].
  - assert (queue_step (D := Discovery) (w_queue w) (stop (w_queue w))) as Hq by apply step_stop.
    assert (q_runner (stop (w_queue w)) ≠ Panicked) as Hr'
      by (unfold stop; destruct (q_runner (w_queue w)) eqn:E; simpl; by rewrite ?E).
    split; cbn [w_server w_queue w_handlers]; [done|done|by eapply queue_step_ids| |done].
    eapply handlers_kept; [exact Hh|by intros t|]. intros k j id _. unfold stop.
    by destruct (q_runner (w_queue w)).
Qed.

Lemma world_step_wf w w' : step w w' → world_wf w → world_wf w'.
Proof.
  intros Hstep Hw. destruct Hstep as [w w' Hst|qs w Hst|backends scrape w w' Hst|w w' Hst|w|w Hm].
  - by eapply request_step_wf.
  - by apply world_wf_runner.
  - by eapply poll_step_wf.
  - by eapply main_step_wf.
  - by apply world_wf_polls.
  - by apply world_wf_server; [apply Hw|intros t|].
Qed.

Lemma started_world_wf p : server_wf (p_server p) → world_wf (started_world p).
Proof.
  intros Hs. split; [done|done| |constructor|by intros ? ? ? ? ? ?].
  split; simpl; [constructor|by intros ? ?%elem_of_nil|..]; intros ? ?; by rewrite lookup_empty.
Qed.

Lemma world_steps_wf w w' : rtc next w w' → world_wf w → world_wf w'.
Proof. induction 1 as [|x y z (_ & _ & Hxy) _ IH]; [done|]. intros Hx. by eapply IH, world_step_wf. Qed.
(** ** Every slot is somewhere *)

(** The connections of the handlers, of the queue's goroutine, and in channels. *)
Definition all_conns (w : World) : list Conn := held (queue_view w).

(** The connections of one handler among those of all. *)
Lemma out_conns_split i h hs :
  hs !! i = Some h →
  ∃ rest, out_conns hs ≡ₚ handler_conns h ++ rest ∧
    ∀ h', out_conns (<[i := h']> hs) ≡ₚ handler_conns h' ++ rest.
Proof.
  intros Hi. exists (out_conns (take i hs) ++ out_conns (drop (S i) hs)). split.
  - rewrite <- (take_drop_middle hs i h Hi) at 1. unfold out_conns.
    rewrite map_app, concat_app. simpl. solve_Permutation.
  - intros h'. rewrite insert_take_drop by by eapply lookup_lt_Some. unfold out_conns.
    rewrite map_app, concat_app. simpl. solve_Permutation.
Qed.

(** A handler that held nothing. *)
Lemma out_conns_gain i h h' hs :
  hs !! i = Some h → handler_conns h = [] →
  out_conns (<[i := h']> hs) ≡ₚ handler_conns h' ++ out_conns hs.
Proof.
  intros Hi Hh. destruct (out_conns_split i h hs Hi) as (rest & E & E').
  rewrite E', E, Hh. done.
Qed.

Lemma after_route_conns j strategy servers pr :
  handler_conns (after_route j strategy servers pr) = progress_conns pr.
Proof. by destruct pr as [| | | |[]]. Qed.

(** A step of a handler: what it holds is what it has taken. *)
Lemma handler_step_tracked base client h s h' s' hp qs l :
  handler_step io_Copy client h s = Some (h', s') → (∀ st, h ≠ Changing st) →
  server_wf s → handler_ok hp qs h → tracked base (server_pool s) (handler_conns h ++ l) →
  tracked base (server_pool s') (handler_conns h' ++ l).
Proof.
  intros Hstep Hnc Hs Hh Ht.
  destruct h as [e q|check ctx q|j strategy servers pr|j|j id|j c|c o|st|o];
    cbn [handler_step] in Hstep; try discriminate Hstep; [| | | | |by destruct (Hnc st)].
  - by injection Hstep as <- <-.
  - destruct (admit_request (r_Body q)) as [r|[b req]]; injection Hstep as <- <-; [done|].
    by rewrite after_route_conns, (proj2 (start_shape _)).
  - destruct (route_step _ _ _ _) as [pr' rs] eqn:Hr. injection Hstep as <- <-.
    destruct Hh as [Hsh Hnf]. rewrite after_route_conns.
    by destruct (route_step_tracked (ok := pool_wf) base _ _ _ _ _ _ _ (swf_rtr s Hs) Hsh Hnf Ht Hr)
      as (_ & _ & Ht').
  - pose proof (forward_state io_Copy (j_ctx j) c (j_req j) (j_body j)
      (j_check j && Stream (j_openai j)) s) as Hst.
    destruct (forward _ _ _ _ _ _ _) as [o s1]. injection Hstep as <- <-.
    destruct Hst as (Hr & _). unfold server_pool in *. by rewrite Hr.
  - injection Hstep as <- <-. by destruct (release_tracked base c s l (swf_rtr s Hs) Ht).
Qed.

(** Only a change of the configuration reaches the collector and discovery. *)
Lemma handler_step_quiet client h s h' s' :
  handler_step io_Copy client h s = Some (h', s') → (∀ st, h ≠ Changing st) →
  (∀ st, h' ≠ Changing st) ∧ mc s' = mc s ∧ disc s' = disc s.
Proof.
  intros Hstep Hnc.
  destruct h as [e q|check ctx q|j strategy servers pr|j|j id|j c|c o|st|o];
    cbn [handler_step] in Hstep; try discriminate Hstep; [| | | | |by destruct (Hnc st)].
  - by injection Hstep as <- <-.
  - destruct (admit_request (r_Body q)) as [r|[b req]]; injection Hstep as <- <-; [done|].
    split; [|done]. intros st. by destruct (start _) as [| | | |[]].
  - destruct (route_step _ _ _ _) as [pr' rs]. injection Hstep as <- <-.
    split; [|done]. intros st. by destruct pr' as [| | | |[]].
  - pose proof (forward_state io_Copy (j_ctx j) c (j_req j) (j_body j)
      (j_check j && Stream (j_openai j)) s) as Hst.
    destruct (forward _ _ _ _ _ _ _) as [o s1]. injection Hstep as <- <-.
    by destruct Hst as (_ & _ & -> & ->).
  - by injection Hstep as <- <-.
Qed.

(** What holds when nobody changes the configuration. *)
Record accounted (base : string → Z) (w : World) : Prop := {
  acc_slots : tracked base (server_pool (w_server w)) (all_conns w);
  acc_quiet st : Changing st ∉ w_handlers w;
  acc_mc c : mc (w_server w) = Some c → collector_wf c;
  acc_main : w_main w ≠ Crash
}.

Lemma quiet_insert i h (hs : list Handler) :
  (∀ st, Changing st ∉ hs) → (∀ st, h ≠ Changing st) → ∀ st, Changing st ∉ <[i := h]> hs.
Proof.
  intros Hq Hh st Hin. apply list_elem_of_lookup_1 in Hin as [k Hk].
  rewrite list_lookup_insert in Hk. case_decide; [injection Hk as Hk; by apply (Hh st)|].
  apply (Hq st). by eapply list_elem_of_lookup_2.
Qed.

Lemma queue_world_tracked base w qs hs :
  queue_step (D := Discovery) (queue_view w) qs → world_wf w → out_conns hs ≡ₚ q_out qs →
  tracked base (server_pool (w_server w)) (all_conns w) →
  tracked base (server_pool (w_server (put_queue qs hs w))) (all_conns (put_queue qs hs w)).
Proof.
  intros Hstep Hw Ho Ht.
  assert (acct_inv (ok := pool_wf) base (queue_view w)) as Ha.
  { split_and!; [apply (swf_rtr _ (ww_server _ Hw))|apply (ww_runner _ Hw)|exact Ht]. }
  destruct (queue_step_acct (ok := pool_wf) base _ _ Hstep Ha) as (_ & _ & Ht').
  change (tracked base (pool (q_router qs)) (out_conns hs ++ runner_conns qs ++ chan_conns (q_chans qs))).
  by rewrite Ho.
Qed.

(** A step that leaves the queue alone: what the handler held before and holds
    now makes the difference. *)
Lemma tracked_update base i h h' p p' (qs : QState Pool) hs :
  hs !! i = Some h →
  (∀ l, tracked base p (handler_conns h ++ l) → tracked base p' (handler_conns h' ++ l)) →
  tracked base p (out_conns hs ++ runner_conns qs ++ chan_conns (q_chans qs)) →
  tracked base p' (out_conns (<[i := h']> hs) ++ runner_conns qs ++ chan_conns (q_chans qs)).
Proof.
  intros Hi Hstep Ht. destruct (out_conns_split i h hs Hi) as (rest & E & E').
  rewrite E, <- app_assoc in Ht. rewrite E', <- app_assoc. by apply Hstep.
Qed.

Lemma accounted_polls base ps w : accounted base w → accounted base (set_polls ps w).
Proof. by intros []. Qed.

Lemma accounted_request base w w' :
  changes = false → request_step io_Copy clients changes w w' → world_wf w → accounted base w →
  accounted base w'.
Proof.
  intros Hch Hstep Hw [Ht Hq Hcw Hmain]. pose proof Hw as [Hs Hr Hid Hh Ha].
  pose proof Ht as Ht0. change (all_conns w) with (out_conns (w_handlers w) ++
    runner_conns (w_queue w) ++ chan_conns (q_chans (w_queue w))) in Ht.
  destruct Hstep as [h w Harr Hno|client i h h' s' w Hcl Hi Hstep|i j w Hi Hf|i j id qs w Hi Hst
    |i h ctx e w Hi Hctx _].
  - split; [|intros st|done|done].
    + change (tracked base (server_pool (w_server w)) (out_conns (w_handlers w ++ [h]) ++
        runner_conns (w_queue w) ++ chan_conns (q_chans (w_queue w)))).
      assert (out_conns (w_handlers w ++ [h]) = out_conns (w_handlers w)) as ->; [|done].
      unfold out_conns. rewrite map_app, concat_app. simpl.
      by destruct h; try discriminate Harr; rewrite app_nil_r.
    + cbn. rewrite elem_of_app, list_elem_of_singleton. intros [Hin| <-]; [by apply (Hq st)|].
      destruct st; try discriminate Harr. by eapply Hno.
  - pose proof (Forall_lookup_1 _ _ _ _ Hh Hi) as Hok.
    assert (∀ st, h ≠ Changing st) as Hnc by (intros st ->; by eapply Hq, list_elem_of_lookup_2).
    destruct (handler_step_quiet _ _ _ _ _ Hstep Hnc) as (Hnc' & Hmc & _).
    split; [|by apply quiet_insert|cbn; by rewrite Hmc|done].
    eapply tracked_update; [exact Hi| |exact Ht]. intros l Hl.
    by eapply (handler_step_tracked base client h (w_server w) h' s').
  - split; [|by apply quiet_insert|done|done].
    apply queue_world_tracked; [by apply step_start|done| |done].
    rewrite (out_conns_gain i (Enqueuing j)) by done. unfold ensureStarted. by case_match.
  - destruct (waiter_step_moves _ _ _ Hst) as (v & Hv & _ & Ho & _).
    split; [|apply quiet_insert; [done|]|done|done].
    + apply queue_world_tracked; [apply Hst|done| |done].
      rewrite (out_conns_gain i (Queued j id)), Ho, Hv, lookup_insert_eq by done.
      by destruct v as [| | | |[]].
    + intros st. by destruct (q_waiters qs !! id) as [[| | | |[]]|].
  - split; [|apply quiet_insert; [done|]|done|done].
    + assert (∀ l, tracked base (server_pool (w_server w)) (handler_conns h ++ l) →
        tracked base (server_pool (w_server w)) (handler_conns (end_handler e h) ++ l)) as Hkeep
        by by destruct h.
      pose proof (tracked_update base i h (end_handler e h) _ _ (w_queue w) _ Hi Hkeep Ht) as Ht'.
      by destruct h.
    + intros st. by destruct h.
Qed.

Lemma accounted_poll base backends scrape w w' :
  poll_step backends scrape w w' → accounted base w → accounted base w'.
Proof.
  intros Hstep Hacc. pose proof (acc_mc _ _ Hacc) as Hcw.
  destruct Hstep as [w0 w1 [w Hg|u todo w Hg Hd|todo w Hg Ht|w Hg Hd]|w0 w1 [w Hg|u todo c c' w Hg Hd Hc Hf
    |u todo c w Hg Hd Hc Hf|todo w Hg Ht|w Hg Hd]]; try by apply accounted_polls.
  - apply accounted_polls. by destruct Hacc.
  - apply accounted_polls. destruct Hacc. split; [done|done| |done]. intros c1 [= <-].
    destruct (fetch_one_wf u (scrape u) c (Hcw c Hc)) as (c2 & Hf2 & Hwf2).
    rewrite Hf in Hf2. by injection Hf2 as ->.
  - destruct (fetch_one_wf u (scrape u) c (Hcw c Hc)) as (c2 & Hf2 & _). congruence.
Qed.

Lemma accounted_main base w w' : main_step w w' → accounted base w → accounted base w'.
Proof.
  intros Hstep Hacc. pose proof Hacc as [Ht Hq Hcw Hmain].
  change (all_conns w) with (out_conns (w_handlers w) ++
    runner_conns (w_queue w) ++ chan_conns (q_chans (w_queue w))) in Ht.
  destruct Hstep as [w Hm|w Hm Hg|c c' w Hm Hc Hst|w Hm Hg|chans w Hm Hf Hd|w Hm|w Hm];
    try by split.
  - split; [done|done| |done]. intros c1 [= <-]. unfold Metrics.Stop in Hst.
    destruct (stopCh_closed c); [done|]. injection Hst as <-. exact (Hcw c Hc).
  - split; [|done|done|done].
    change (tracked base (server_pool (w_server w)) (out_conns (w_handlers w) ++
      runner_conns (w_queue w) ++ chan_conns chans)). by rewrite (drain_items_conns _ _ _ Hd).
  - split; [|done|done|done].
    change (tracked base (server_pool (w_server w)) (out_conns (w_handlers w) ++
      runner_conns (stop (w_queue w)) ++ chan_conns (q_chans (stop (w_queue w))))).
    unfold stop. destruct (q_runner (w_queue w)) eqn:E; try exact Ht.
    revert Ht. unfold runner_conns. by rewrite E.
Qed.

Lemma accounted_step base w w' :
  changes = false → step w w' → world_wf w → accounted base w → accounted base w'.
Proof.
  intros Hch Hstep Hw Hacc.
  destruct Hstep as [w w' Hst|qs w Hst|backends scrape w w' Hst|w w' Hst|w|w Hm].
  - by eapply accounted_request.
  - destruct (runner_step_others _ _ Hst) as (_ & _ & Ho). destruct Hacc as [Ht ? ? ?].
    split; [|done..]. apply queue_world_tracked; [apply Hst|done|by rewrite Ho|done].
  - by eapply accounted_poll.
  - by eapply accounted_main.
  - by apply accounted_polls.
  - by destruct Hacc.
Qed.

(** ** Nobody is forgotten *)

Lemma kept_step w w' : step w w' → world_wf w → kept (w_queue w) → kept (w_queue w').
Proof.
  intros Hstep Hw Hk. pose proof (world_step_wf _ _ Hstep Hw) as Hw'.
  pose proof (ww_runner _ Hw') as Hr'. pose proof (view_ids w (ww_ids _ Hw)) as Hi.
  assert (∀ qs, queue_step (D := Discovery) (queue_view w) qs → q_runner qs ≠ Panicked → kept qs) as Hq.
  { intros qs Hq Hr. by apply (queue_step_kept _ _ Hq Hr Hi). }
  destruct Hstep as [w w' Hstep|qs w Hst|backends scrape w w' Hstep|w w' Hstep|w|w Hm].
  - destruct Hstep as [h w Harr Hno|client i h h' s' w Hcl Hh Hstep|i j w Hh Hf|i j id qs w Hh Hst
      |i h ctx e w Hh Hctx _]; try exact Hk.
    + apply Hq; [by apply step_start|done].
    + apply Hq; [apply Hst|done].
    + by destruct h.
  - apply Hq; [apply Hst|done].
  - by destruct Hstep as [w w' []|w w' []].
  - destruct Hstep as [w Hm|w Hm Hg|c c' w Hm Hc Hst|w Hm Hg|chans w Hm Hf Hd|w Hm|w Hm];
      try exact Hk.
    + exact (Hq _ (step_drain chans (queue_view w) Hf Hd) Hr').
    + refine (queue_step_kept (D := Discovery) _ _ (step_stop (w_queue w)) Hr' (ww_ids _ Hw) Hk).
  - exact Hk.
  - exact Hk.
Qed.

(** ** The shutdown sequence *)

(** What [Stop] needs: the collector, with its channel closed or not yet, and the
    function that ends the context of the discovery goroutine. *)
Definition collector_open (s : Server) (closed : bool) : Prop :=
  ∃ c, mc s = Some c ∧ stopCh_closed c = closed.

Definition pollers_started (s : Server) : Prop :=
  collector_open s false ∧ Discovery.cancel (disc s) = true.

(** Up to its own step of the shutdown neither has been stopped, and main waits for a
    goroutine only when it has been told to return. *)
Definition main_ok (w : World) : Prop :=
  match w_main w with
  | Listening | StoppingDiscovery => pollers_started (w_server w)
  | WaitingDiscovery => collector_open (w_server w) false ∧ disc_cancelled (w_polls w) = true
  | StoppingMetrics => collector_open (w_server w) false
  | WaitingMetrics => collector_open (w_server w) true
  | _ => True
  end.

(** Neither is of interest to handlers. *)
Definition same_stops (s s' : Server) : Prop :=
  (∀ b, collector_open s b → collector_open s' b) ∧
  Discovery.cancel (disc s') = Discovery.cancel (disc s).

Lemma main_ok_same w s hs qs :
  same_stops (w_server w) s → main_ok w →
  main_ok (mkWorld s qs hs (w_urls w) (w_polls w) (w_main w)).
Proof.
  intros [Hc Hd] Hm. unfold main_ok in *. cbn. unfold pollers_started in *.
  rewrite Hd. destruct (w_main w); intuition.
Qed.

Lemma admin_step_stops st s : same_stops s (admin_step st s).2.
Proof.
  assert (∀ s', mc s' = mc s → Discovery.cancel (disc s') = Discovery.cancel (disc s) →
    same_stops s s') as Hsame by (intros s' E E'; split; [by unfold collector_open; rewrite E|done]).
  destruct st; cbn [admin_step]; unfold arrive, range_at; repeat case_match; try by apply Hsame.
  split; [|done]. intros b (c & Hc & Hop). exists (Metrics.SetServers urls c). simpl. by rewrite Hc.
Qed.

Lemma handler_step_stops client h s h' s' :
  handler_step io_Copy client h s = Some (h', s') → same_stops s s'.
Proof.
  intros Hstep. assert ((∀ st, h ≠ Changing st) ∨ ∃ st, h = Changing st) as [Hq|[st ->]]
    by (destruct h; eauto; by left).
  - destruct (handler_step_quiet _ _ _ _ _ Hstep Hq) as (_ & Hm & Hd).
    split; [by unfold collector_open; rewrite Hm|by rewrite Hd].
  - cbn [handler_step] in Hstep. pose proof (admin_step_stops st s) as Ha.
    destruct (admin_step st s) as [st' s1]. cbn [snd] in Ha.
    destruct st; try (by injection Hstep as _ <-). discriminate Hstep.
Qed.

Lemma fetch_one_open u sc c c' : fetch_one u sc c = Some c' → stopCh_closed c' = stopCh_closed c.
Proof.
  unfold fetch_one. destruct (fetchOne sc); [|by intros [= <-]].
  destruct (match prev c !! u with Some _ => _ | None => _ end); [|done]. by intros [= <-].
Qed.

Lemma Start_open ctx scrape urls c c' :
  Metrics.Start ctx scrape urls c = Some c' → stopCh_closed c' = stopCh_closed c.
Proof.
  unfold Metrics.Start. set (c0 := with_data _ _).
  change (stopCh_closed c) with (stopCh_closed c0). generalize 0%nat as n, c0.
  induction urls as [|u urls IH]; intros n c1; simpl; [by intros [= <-]|].
  destruct (ctx n); [by intros [= <-]|].
  destruct (fetch_one u (scrape n u) c1) as [c2|] eqn:Hf; [|done]. simpl. intros Hr.
  by rewrite (IH _ _ Hr), (fetch_one_open _ _ _ _ Hf).
Qed.

Lemma poll_cancel `{!Backends} u d : Discovery.cancel (poll u d) = Discovery.cancel d.
Proof. unfold poll. repeat case_match; done. Qed.

Lemma same_stops_refl s : same_stops s s.
Proof. by split. Qed.

Lemma request_step_ok w w' :
  request_step io_Copy clients changes w w' → main_ok w → main_ok w'.
Proof.
  intros Hstep Hm. destruct Hstep as [h w _ _|client i h h' s' w _ _ Hstep|i j w _ _|i j id qs w _ _
    |i h ctx e w _ _ _]; apply main_ok_same; try done; try apply same_stops_refl.
  by eapply handler_step_stops.
Qed.

Lemma poll_step_ok backends scrape w w' : poll_step backends scrape w w' → main_ok w → main_ok w'.
Proof.
  intros Hstep Hm. destruct Hstep as [w0 w1 [w Hg|u todo w Hg Hd|todo w Hg Ht|w Hg Hd]|w0 w1 [w Hg
    |u todo c c' w Hg Hd Hc Hf|u todo c w Hg Hd Hc Hf|todo w Hg Ht|w Hg Hd]]; try exact Hm; try done.
  - assert (same_stops (w_server w) (set_disc (poll u (disc (w_server w))) (w_server w))) as Hsame
      by (split; [by intros b|apply poll_cancel]).
    exact (main_ok_same w _ (w_handlers w) (w_queue w) Hsame Hm).
  - assert (same_stops (w_server w) (set_mc (Some c') (w_server w))) as Hsame.
    { split; [|done]. intros b (c0 & Hc0 & Ho). exists c'. split; [done|].
      rewrite (fetch_one_open _ _ _ _ Hf). congruence. }
    exact (main_ok_same w _ (w_handlers w) (w_queue w) Hsame Hm).
Qed.

Lemma main_step_ok w w' : main_step w w' → main_ok w → main_ok w'.
Proof.
  intros Hstep Hm. destruct Hstep as [w Hw|w Hw Hg|c c' w Hw Hc Hst|w Hw Hg|chans w Hw Hf Hd|w Hw|w Hw];
    unfold main_ok in *; rewrite Hw in Hm; cbn; try done.
  - destruct Hm as [Ho Hc]. rewrite Hc. by rewrite orb_true_r.
  - by destruct Hm.
  - unfold Metrics.Stop in Hst. destruct (stopCh_closed c); [done|]. injection Hst as <-.
    by eexists.
Qed.

Lemma main_ok_step w w' : step w w' → main_ok w → main_ok w'.
Proof.
  intros Hstep Hm. destruct Hstep as [w w' Hst|qs w Hst|backends scrape w w' Hst|w w' Hst|w|w Hw].
  - by eapply request_step_ok.
  - exact Hm.
  - by eapply poll_step_ok.
  - by eapply main_step_ok.
  - exact Hm.
  - unfold main_ok in *. by rewrite Hw in Hm.
Qed.

(** ** The end of the shutdown *)

Lemma shutdown_step_world backends scrape w w' : shutdown_step backends scrape w w' → step w w'.
Proof.
  intros []; [by apply world_main|by eapply world_poll|by apply world_runner].
Qed.


(** The goroutine that [Discovery.Stop] waits for, told to return, comes nearer to it. *)
Lemma discovery_goes_on backends scrape w :
  disc_goroutine (w_polls w) ≠ Gone → disc_cancelled (w_polls w) = true →
  ∃ w', poll_step backends scrape w w' ∧ (steps_left w' < steps_left w)%nat.
Proof.
  intros Hg Hc. assert (disc_done w = true) as Hd by (unfold disc_done; by rewrite Hc, orb_true_r).
  destruct (disc_goroutine (w_polls w)) as [|todo|] eqn:E; [| |done].
  - eexists. split; [by apply poll_disc, disc_return|]. unfold steps_left. cbn. rewrite E. simpl. lia.
  - eexists. split; [by eapply poll_disc, disc_round; [|right]|]. unfold steps_left. cbn. rewrite E. simpl. lia.
Qed.

(** So does the one that [Collector.Stop] waits for, whatever the servers answer it;
    unless it crashes. *)
Lemma collector_goes_on backends scrape w :
  mc_goroutine (w_polls w) ≠ Gone → collector_open (w_server w) true →
  ∃ w', poll_step backends scrape w w' ∧ (w_main w' = Crash ∨ (steps_left w' < steps_left w)%nat).
Proof.
  intros Hg (c & Hc & Ho).
  assert (mc_done w = true) as Hd by (unfold mc_done; by rewrite Hc, Ho, orb_true_r).
  destruct (mc_goroutine (w_polls w)) as [|todo|] eqn:E; [| |done].
  - eexists. split; [by apply poll_mc, mc_return|]. right. unfold steps_left. cbn. rewrite E. simpl. lia.
  - destruct (signalled (w_polls w)) eqn:Hsig; [|destruct todo as [|u todo]];
      [| |destruct (fetch_one u (scrape u) c) as [c'|] eqn:Hf].
    + eexists. split; [by eapply poll_mc, mc_round; [|right]|]. right. unfold steps_left. cbn. rewrite E. simpl. lia.
    + eexists. split; [by eapply poll_mc, mc_round; [|left]|]. right. unfold steps_left. cbn. rewrite E. simpl. lia.
    + eexists. split; [by eapply poll_mc, mc_fetch|]. right. unfold steps_left. cbn. rewrite E. simpl. lia.
    + eexists. split; [by eapply poll_mc, mc_crash|]. by left.
Qed.

Definition in_shutdown (m : MainPhase) : Prop := m ≠ Listening ∧ m ≠ Exit ∧ m ≠ Crash.

(** The mutex that [Drain] needs is free, or comes nearer to it. *)
Lemma drain_goes_on backends scrape w :
  world_wf w → w_main w = Draining →
  ∃ w', shutdown_step backends scrape w w' ∧ (steps_left w' < steps_left w)%nat.
Proof.
  intros [Hsw Hrun Hid _ _] E.
  assert (mu_free (w_queue w) ∨ ¬ mu_free (w_queue w)) as [Hf|Hf]
    by (unfold mu_free; destruct (q_runner (w_queue w)); auto).
  - destruct (drain_items_spec (q_queue (w_queue w)) (q_chans (w_queue w))) as (chans & Hd & _).
    + rewrite <- (live_free _ Hf). apply (ids_nodup _ Hid).
    + intros it Hin. rewrite <- (live_free _ Hf) in Hin. by apply (ids_live _ Hid).
    + eexists. split; [by eapply shutdown_main, world_drain|]. unfold steps_left. cbn. rewrite E. simpl. lia.
  - destruct (runner_goes_on (queue_view w) (swf_rtr _ Hsw) Hrun (view_ids w Hid) Hf) as (qs & Hq & Hlt).
    eexists. split; [by apply shutdown_runner|]. unfold steps_left. cbn in *. lia.
Qed.

Definition shutdown_next backends scrape (w w' : World) : Prop :=
  in_shutdown (w_main w) ∧ shutdown_step backends scrape w w'.

(** [main], or what it waits for, can take a step that leaves fewer steps to go. *)
Lemma shutdown_advances backends scrape w :
  world_wf w → main_ok w → in_shutdown (w_main w) →
  ∃ w', shutdown_step backends scrape w w' ∧
    (w_main w' = Crash ∨ (steps_left w' < steps_left w)%nat).
Proof.
  intros Hw Hm (Hl & He & Hc).
  assert (∀ w', main_step w w' → (steps_left w' < steps_left w)%nat →
    ∃ w', shutdown_step backends scrape w w' ∧
      (w_main w' = Crash ∨ (steps_left w' < steps_left w)%nat)) as Hgo.
  { intros w' Hst ?. exists w'. split; [by apply shutdown_main|]. by right. }
  assert (∀ g, g = Gone ∨ g ≠ Gone) as Hgone by (by intros []; auto).
  unfold main_ok in Hm. destruct (w_main w) eqn:E; try done.
  - eapply Hgo; [by apply world_stop_discovery|]. unfold steps_left. cbn. rewrite E. simpl. lia.
  - destruct (Hgone (disc_goroutine (w_polls w))) as [Hg|Hg].
    { eapply Hgo; [by apply world_wait_discovery|]. unfold steps_left. cbn. rewrite E. simpl. lia. }
    destruct (discovery_goes_on backends scrape w Hg) as (w' & Hst & Hlt); [apply Hm|].
    exists w'. split; [by apply shutdown_poll|by right].
  - destruct Hm as (c & Hmc & Hop).
    eapply Hgo; [eapply world_stop_metrics; [done|done|unfold Metrics.Stop; by rewrite Hop]|].
    unfold steps_left. cbn. rewrite E. simpl. lia.
  - destruct (Hgone (mc_goroutine (w_polls w))) as [Hg|Hg].
    { eapply Hgo; [by apply world_wait_metrics|]. unfold steps_left. cbn. rewrite E. simpl. lia. }
    destruct (collector_goes_on backends scrape w Hg Hm) as (w' & Hst & Hlt).
    exists w'. split; [by apply shutdown_poll|done].
  - destruct (drain_goes_on backends scrape w Hw E) as (w' & Hst & Hlt). exists w'. split; [done|by right].
  - eapply Hgo; [by apply world_stop_queue|]. unfold steps_left, stop. cbn. rewrite E.
    destruct (q_runner (w_queue w)) eqn:Er; simpl; rewrite ?Er; simpl; lia.
  - eapply Hgo; [by apply world_exit|]. unfold steps_left. cbn. rewrite E. simpl. lia.
Qed.

(** Nothing takes [main] back to [ListenAndServe]. *)
Lemma shutdown_step_main backends scrape w w' :
  shutdown_step backends scrape w w' → w_main w ≠ Listening → w_main w' ≠ Listening.
Proof. by intros [w1 w2 []|w1 w2 [w3 w4 []|w3 w4 []]|qs w1 Hq]. Qed.

(** So the sequence comes to its end. *)
Lemma shutdown_runs backends scrape w :
  world_wf w → main_ok w → w_main w ≠ Listening →
  ∃ n w', (n <= steps_left w)%nat ∧
    nsteps (shutdown_next backends scrape) n w w' ∧
    (w_main w' = Exit ∨ w_main w' = Crash).
Proof.
  remember (steps_left w) as k eqn:Hk. revert w Hk.
  induction k as [k IH] using lt_wf_ind. intros w -> Hw Hm Hl.
  assert (w_main w = Exit ∨ w_main w = Crash ∨ in_shutdown (w_main w)) as [He|[He|Hin]]
    by (unfold in_shutdown; destruct (w_main w); try (by destruct Hl); auto; right; right; by split_and!).
  1, 2: exists 0%nat, w; split_and!; [lia|constructor|auto].
  destruct (shutdown_advances backends scrape w Hw Hm Hin) as (w1 & Hst & Hlt).
  pose proof (shutdown_step_main _ _ _ _ Hst Hl) as Hl1.
  pose proof (shutdown_step_world _ _ _ _ Hst) as Hws.
  pose proof (world_step_wf _ _ Hws Hw) as Hw1. pose proof (main_ok_step _ _ Hws Hm) as Hm1.
  destruct Hlt as [Hcr|Hlt].
  - exists 1%nat, w1. split_and!; [|by apply nsteps_once|by right].
    destruct Hin as (? & ? & ?). unfold steps_left. destruct (w_main w); simpl; done || lia.
  - destruct (IH _ Hlt w1 eq_refl Hw1 Hm1 Hl1) as (n & w2 & Hn & Hr & Hend).
    exists (S n), w2. split_and!; [lia|by eapply nsteps_l|done].
Qed.

(** Requests do not make the way longer. *)
Lemma request_step_left w w' :
  request_step io_Copy clients changes w w' → (steps_left w' <= steps_left w)%nat ∧ w_main w' = w_main w.
Proof.
  intros Hstep. split; [|by destruct Hstep].
  destruct Hstep as [h w _ _|client i h h' s' w _ _ Hstep|i j w _ Hf|i j id qs w _ Hq
    |i h ctx e w _ _ _]; unfold steps_left; cbn [w_main w_polls w_queue set_handler put_queue]; try lia.
  - assert (runner_left (q_runner (ensureStarted (fresh_waiter (j_ctx j) (Model (j_openai j))
      (queue_view w)))) <= runner_left (q_runner (w_queue w)))%nat; [|lia].
    unfold ensureStarted. by case_match; simpl; lia.
  - assert (q_runner qs = q_runner (w_queue w)) as ->; [|lia].
    by destruct (waiter_step_moves _ _ _ Hq) as (? & _ & _ & _ & ?).
  - assert (∀ qs : QState Pool, q_runner qs = q_runner (w_queue w) →
      (runner_left (q_runner qs) <= runner_left (q_runner (w_queue w)))%nat) as Hle by (by intros qs ->).
    destruct h; lia || (specialize (Hle (set_ctx id (end_context ctx e) (w_queue w)) eq_refl); lia).
Qed.
End safety.

(** ** A request on its own *)

Section alone.
Context `{!GrowPolicy, !Yaml, !NetURL, !MapRange, !SortSlice, !JsonErrors, !TimeText}.
Variable io_Copy : string → string.
Variable client : HttpClient.

(** The steps of one handler with nothing in between. *)
Definition handler_alone : relation (Handler * Server) :=
  λ x y, handler_step io_Copy client x.1 x.2 = Some y.

(** The steps of its call of [route]. *)
Lemma alone_routing j strategy servers x y s :
  rtc (RouterConcurrent.alone strategy (job_call j servers)) x y →
  rtc handler_alone (after_route j strategy servers x.1, set_rtr x.2 s)
    (after_route j strategy servers y.1, set_rtr y.2 s).
Proof.
  induction 1 as [x|[pr st] y z Hxy _ IH]; [done|]. etrans; [|exact IH].
  unfold RouterConcurrent.alone in Hxy. cbn [fst snd] in *. subst y.
  destruct pr as [todo infos|gs infos|g idx ks gs infos|infos|r]; [| | | |apply rtc_refl];
    (apply rtc_once; unfold handler_alone; cbn [fst snd after_route handler_step];
     change (rtr (set_rtr st s)) with st; by destruct (route_step _ _ _ _)).
Qed.

Lemma alone_connected j c s :
  let '(o, s') := forward io_Copy (j_ctx j) c (j_req j) (j_body j)
    (j_check j && Stream (j_openai j)) s in
  rtc handler_alone (Connected j c, s) (Ended o, release c s').
Proof.
  destruct (forward _ _ _ _ _ _ _) as [o s'] eqn:Hf.
  eapply rtc_l; [unfold handler_alone; cbn [fst snd handler_step]; by rewrite Hf|]. by apply rtc_once.
Qed.

(** The request is admitted, and comes to the end of its call of [route]. *)
Lemma alone_admitted check ctx q s b req :
  admit_request (r_Body q) = inr (b, req) →
  let '(r, st) := Route ctx (Global (Config.Get (cfg s))) (disc s) (Model req) (rtr s) in
  rtc handler_alone (Accepted check ctx q, s)
    (after_route (mkJob check ctx q b req) (FallbackStrategy (Global (Config.Get (cfg s))))
      (index_ServersForModel (disc s) (Model req)) (Finished r), set_rtr st s).
Proof.
  intros Ha. set (j := mkJob check ctx q b req).
  set (servers := index_ServersForModel (disc s) (Model req)).
  set (strategy := FallbackStrategy (Global (Config.Get (cfg s)))).
  pose proof (alone_routing j strategy servers _ _ s
    (alone_route strategy (job_call j servers) (rtr s))) as Hr.
  cbn [fst snd finished] in Hr.
  assert (set_rtr (rtr s) s = s) as Hs by by destruct s. rewrite Hs in Hr. clear Hs.
  change (route_servers _ _ _ _ _ (rtr s)) with
    (Route ctx (Global (Config.Get (cfg s))) (disc s) (Model req) (rtr s)) in Hr.
  destruct (Route _ _ _ _ _) as [r st]. eapply rtc_l; [|exact Hr].
  unfold handler_alone. cbn [fst snd handler_step]. by rewrite Ha.
Qed.

(** [C8] The steps of a proxied request are those of its handler.  With nothing in
    between, a request that does not have to wait runs from its arrival to the
    answer, and to the state, that the function [handleOpenAIProxy] gives; one that
    has to wait runs up to the door of the queue, with the state that [Route] leaves
    behind. *)
Theorem handler_steps_refine enqueue check ctx q s :
  if waits ctx q s then
    ∃ b req, admit_request (r_Body q) = inr (b, req) ∧
      rtc handler_alone (Accepted check ctx q, s) (Enqueuing (mkJob check ctx q b req),
        set_rtr (Route ctx (Global (Config.Get (cfg s))) (disc s) (Model req) (rtr s)).2 s)
  else
    let '(o, s') := handleOpenAIProxy io_Copy enqueue check ctx q s in
    rtc handler_alone (Accepted check ctx q, s) (Ended o, s').
Proof.
  unfold waits, handleOpenAIProxy. destruct (admit_request (r_Body q)) as [r|[b req]] eqn:Ha.
  { apply rtc_once. unfold handler_alone. cbn [fst snd handler_step]. by rewrite Ha. }
  pose proof (alone_admitted check ctx q s b req Ha) as Hr. unfold call_Route.
  destruct (Route _ _ _ _ _) as [[c|e| |] st] eqn:Hroute; cbn [fst snd after_route] in *;
    [|exact Hr| |exact Hr].
  - pose proof (alone_connected (mkJob check ctx q b req) c (set_rtr st s)) as Hc.
    cbn [j_ctx j_req j_body j_check j_openai] in Hc.
    destruct (forward _ _ _ _ _ _ _) as [o s']. by etrans.
  - exists b, req. by rewrite Hroute.
Qed.
End alone.

(** ** Theorems *)

Section theorems.
Context `{!GrowPolicy, !Yaml, !NetURL, !MapRange, !MapRangeLaw, !SortSlice, !SortSliceLaws}.
Context `{!JsonErrors, !TimeText, !IntConversion}.
Variable io_Copy : string → string.
Variable clients : HttpClient → Prop.

(** A request that has been answered, rather than ended by a panic; a change of the
    configuration with a success or with 400, 404, 409 or 500. *)
Definition answered_well (h : Handler) : Prop :=
  match h with
  | Ended o => is_Some o
  | Changing (Done o) => ∃ r, o = Some r ∧ (success r ∨ failure r)
  | _ => True
  end.

Lemma accounted_reachable p w :
  (∀ client, clients client → @sane_backends client) → server_wf (p_server p) →
  (∀ c, mc (p_server p) = Some c → collector_wf c) →
  rtc (world_next io_Copy clients false) (started_world p) w →
  accounted (Inflight (server_pool (p_server p))) w.
Proof.
  intros Hcl Hs Hc Hr. set (base := Inflight (server_pool (p_server p))).
  assert (accounted base (started_world p)) as Hacc.
  { split; [|by intros ? ?%elem_of_nil|done|done].
    assert (all_conns (started_world p) = []) as ->
      by (unfold all_conns, held; simpl; unfold chan_conns; by rewrite map_to_list_empty).
    exact (tracked_nil (ok := pool_wf) _ (swf_rtr _ Hs)). }
  pose proof (started_world_wf p Hs) as Hw. clear Hs Hc. clearbody base.
  induction Hr as [w|x y z (_ & _ & Hxy) _ IH]; [done|]. apply IH.
  - by eapply (accounted_step io_Copy clients false).
  - by eapply (world_step_wf io_Copy clients Hcl).
Qed.

(** The process that [startup] starts: both goroutines run, and neither has been
    stopped. *)
Lemma startup_pollers o path ctx scrape p :
  startup o path ctx scrape = Running p → pollers_started (p_server p).
Proof.
  unfold startup. destruct (Load (NewStore o path)) as [[e|] store]; [done|].
  set (ival := seconds _). set (urls := map URL _). set (srv := Server.New _ _ _ _).
  change (mc srv) with (Some (Metrics.SetServers urls (Metrics.New ival))).
  cbn [Discovery.Start disc Discovery.started srv Server.New syncServers Discovery.SetServers
    Discovery.New mbind option_bind].
  match goal with |- context [Metrics.Start ctx scrape ?us ?c0] =>
    destruct (Metrics.Start ctx scrape us c0) as [c|] eqn:Hc; [|done] end.
  case_match; [|done].
  intros [= <-]. split; [|done]. exists c. split; [done|].
  by rewrite (Start_open _ _ _ _ _ Hc).
Qed.

(** [C2] The program with everything in it: proxied requests, the wait queue, changes of
    the configuration, polls and the shutdown, in any interleaving.  Backends may
    answer what they like, as long as the answers are ones that [net/http] hands
    on.  The state of the server stays well formed, the goroutine of the queue does
    not panic, no handler does, and a request that ends is answered. *)
Theorem whole_safe changes p w :
  (∀ client, clients client → @sane_backends client) → server_wf (p_server p) →
  rtc (world_next io_Copy clients changes) (started_world p) w →
  server_wf (w_server w) ∧ q_runner (w_queue w) ≠ Panicked ∧
  Forall answered_well (w_handlers w).
Proof.
  intros Hcl Hs Hr.
  destruct (world_steps_wf io_Copy clients Hcl changes _ _ Hr (started_world_wf p Hs)) as [Hs' Hr' _ Hh _].
  split_and!; [done|done|]. eapply Forall_impl; [exact Hh|].
  intros h Hok. destruct h as [| | | | | | |[]|]; try done.
  destruct r as [r|]; [by exists r|done].
Qed.

(** [C1] As long as nobody changes the configuration, every slot is somewhere: however
    proxied requests, the queue, polls and the shutdown interleave, the in-flight
    counter of every server is what it was at the start, plus one for each of its
    connections that a handler holds, that the queue is about to hand over, or that
    sits in a result channel; and the collector does not crash. *)
Theorem whole_accounts p w :
  (∀ client, clients client → @sane_backends client) → server_wf (p_server p) →
  (∀ c, mc (p_server p) = Some c → collector_wf c) →
  rtc (world_next io_Copy clients false) (started_world p) w →
  w_main w ≠ Crash ∧
  ∀ u, Inflight (server_pool (w_server w)) u =
    wrap64 (Inflight (server_pool (p_server p)) u + count u (all_conns w)).
Proof.
  intros Hcl Hs Hc Hr.
  by destruct (accounted_reachable p w Hcl Hs Hc Hr) as [[_ Ht] _ _ Hm].
Qed.

(** [C3] Nobody is forgotten in the queue, and nobody is locked out of it.  A request in
    the queue can always go on, unless the queue's goroutine holds the mutex, which
    can then go on itself; or unless the request waits, as it should: its context is
    live, no answer has been sent, and its item is still in the queue or in the
    pass that is running. *)
Theorem queued_goes_on changes p w i j id :
  (∀ client, clients client → @sane_backends client) → server_wf (p_server p) →
  rtc (world_next io_Copy clients changes) (started_world p) w →
  w_handlers w !! i = Some (Queued j id) →
  (∃ qs, waiter_step id (queue_view w) qs) ∨
  (¬ mu_free (w_queue w) ∧ ∃ qs, runner_step (queue_view w) qs) ∨
  (q_waiters (w_queue w) !! id = Some Waiting ∧ ctx_Err (j_ctx j) = None ∧
   q_chans (w_queue w) !! id = None ∧ id ∈ map item_id (live_items (w_queue w))).
Proof.
  intros Hcl Hs Hr Hi.
  assert (world_wf w ∧ kept (w_queue w)) as [Hw Hk].
  { assert (world_wf (started_world p) ∧ kept (w_queue (started_world p))) as Hini
      by (split; [by apply started_world_wf|by intros ? ? ?]).
    clear Hi Hs. induction Hr as [w|x y z (_ & _ & Hxy) _ IH]; [done|]. destruct Hini as [Hx Hkx].
    apply IH. split; [by eapply (world_step_wf io_Copy clients Hcl)|].
    by eapply (kept_step io_Copy clients Hcl). }
  pose proof Hw as [Hsw Hrun Hid Hh _].
  destruct (Forall_lookup_1 _ _ _ _ Hh Hi) as (Hctx & v & Hv & Hnr).
  assert (mu_free (w_queue w) ∨ ¬ mu_free (w_queue w)) as [Hf|Hf]
    by (unfold mu_free; destruct (q_runner (w_queue w)); auto).
  - destruct (waiter_goes_on (queue_view w) id (j_ctx j) v (view_ids w Hid) Hk Hctx Hv Hnr Hf)
      as [Hgo|(-> & ? & ? & ?)]; [by left|by right; right].
  - right. left. split; [done|].
    destruct (runner_goes_on (queue_view w) (swf_rtr _ Hsw) Hrun (view_ids w Hid) Hf) as (qs & Hq & _).
    by exists qs.
Qed.

(** [C23] The shutdown sequence comes to its end.  [ListenAndServe] has returned; from
    every world that can be reached then, whatever requests, the queue and the polls
    have done, [main] gets to the end of the process by steps of its own and of the
    goroutines it waits for: the two polling goroutines, for which [Discovery.Stop]
    and [Collector.Stop] wait, and the one of the queue, whose mutex [Drain] needs.
    There is such a run of at most [steps_left] steps, whatever the polled servers
    answer; a scrape that finds its entry gone ends it in a crash, which needs a
    change of the configuration.  The process is one whose polling goroutines have
    been started ([startup_pollers]), and backends give answers that [net/http] hands
    on.  Requests, which are still served meanwhile, neither
    move [main] nor make the way longer.  (That a run exists from every world is what
    can be said of a [select] which may prefer its ticker for a while, and of a mutex
    for which goroutines compete.) *)
Theorem shutdown_goes_on changes p w (backends : Backends) scrape :
  (∀ client, clients client → @sane_backends client) → server_wf (p_server p) →
  pollers_started (p_server p) →
  rtc (world_next io_Copy clients changes) (started_world p) w → w_main w ≠ Listening →
  (∃ n w', (n <= steps_left w)%nat ∧ nsteps (shutdown_next backends scrape) n w w' ∧
    (w_main w' = Exit ∨ w_main w' = Crash) ∧
    (changes = false → (∀ c, mc (p_server p) = Some c → collector_wf c) → w_main w' = Exit)) ∧
  ∀ w', request_step io_Copy clients changes w w' →
    (steps_left w' <= steps_left w)%nat ∧ w_main w' = w_main w.
Proof.
  intros Hcl Hs Ho Hr Hl.
  assert (main_ok w) as Hm.
  { assert (main_ok (started_world p)) as Hini by exact Ho. clear -Hr Hini.
    induction Hr as [w|x y z (_ & _ & Hxy) _ IH]; [done|]. by eapply IH, main_ok_step. }
  pose proof (world_steps_wf io_Copy clients Hcl changes _ _ Hr (started_world_wf p Hs)) as Hw.
  destruct (shutdown_runs io_Copy clients Hcl changes backends scrape w Hw Hm Hl)
    as (n & w' & Hn & Hst & Hend).
  split; [|by intros; eapply request_step_left]. exists n, w'. split_and!; [done|done|done|].
  intros -> Hc. destruct Hend as [?|Hcr]; [done|].
  assert (rtc (world_next io_Copy clients false) w w') as Hr'.
  { eapply (rtc_subrel (shutdown_next backends scrape)); [|by apply rtc_nsteps_2 in Hst].
    intros x y [(_ & ? & ?) Hxy]. split_and!; [done|done|by eapply shutdown_step_world]. }
  destruct (accounted_reachable p w' Hcl Hs Hc) as [_ _ _ Hne]; [by etrans|done].
Qed.
End theorems.

(** ** A run *)

Section sample_run.
#[local] Existing Instances sample_grow sample_yaml sample_url sample_range sample_time.
#[local] Existing Instances insertion_sort insertion_sort_laws sample_conversion.
#[local] Instance whole_errors : JsonErrors := λ _, "unexpected end of JSON input".
#[local] Instance whole_range_ok : MapRangeLaw.
Proof. by intros X. Qed.

(** A backend that answers everything with 200, and no other. *)
Definition plain_http : HttpClient :=
  {| NewRequest_error := λ _ _, None;
     client_Do := λ _ req, Ok (mkResponse 200 ∅ (req_URL req)) |}.

Lemma plain_http_sane client : client = plain_http → @sane_backends client.
Proof. intros ->. intros ctx req resp. intros [= <-]. split; [done|]. intros k. cbn. by rewrite lookup_empty. Qed.

(** The sample server with the fallback [queue]; it has one backend, with two
    slots. *)
Let queue_global : GlobalConfig := mkGlobalConfig FallbackQueue 15 60 30 30 10 "" 8192 1024 0.
Let st0 : Store :=
  let '(h, c) := materialise empty_heap (mkConfigData queue_global (Some [sample_server])) in
  mkStore c "config.yaml" h (sample_os None).
Definition queue_srv : Server := New st0 (Discovery.Start sample_disc).2 (Router.New NewPool) (Some (Metrics.New 15)).

Lemma queue_srv_wf : server_wf queue_srv.
Proof.
  apply syncServers_wf. split.
  - destruct (materialise_spec empty_heap (mkConfigData queue_global (Some [sample_server])))
      as (? & ? & _); [by intros ? ?|]. by split.
  - split; [apply NewPool_wf|]. by intros ? ? ?.
  - apply (sample_srv_wf None).
  - apply (sample_srv_wf None).
  - intros c [= <-]. apply New_ok.
Qed.

Let p0 : Process := mkProcess queue_srv ["http://a:1"].

(** The next step of request [i], if it is one of its handler, or its entry into
    the queue. *)
Definition run_handler (w : World) (i : nat) : option World :=
  match w_handlers w !! i with
  | Some (Enqueuing j) =>
      match q_runner (w_queue w) with
      | NotStarted =>
          Some (put_queue (ensureStarted (fresh_waiter (j_ctx j) (Model (j_openai j)) (queue_view w)))
            (<[i := Queued j (q_next (w_queue w))]> (w_handlers w)) w)
      | _ => None
      end
  | Some h => '(h', s') ← handler_step id plain_http h (w_server w); Some (set_handler i h' s' w)
  | None => None
  end.

Definition run (sched : list nat) (w : World) : option World := foldl (λ w i, w ≫= λ w, run_handler w i) (Some w) sched.

Abbreviation next := (world_next id (eq plain_http) false).

Lemma run_handler_next w i w' :
  run_handler w i = Some w' → w_main w = Listening → next w w' ∧ w_main w' = Listening.
Proof.
  unfold run_handler. intros Hr Hm.
  assert (∀ w', world_step id (eq plain_http) false w w' → w_main w' = w_main w →
    next w w' ∧ w_main w' = Listening) as Hgo
    by (intros v Hv E; rewrite E; unfold world_next; by rewrite Hm).
  destruct (w_handlers w !! i) as [h|] eqn:Hi; [|done].
  assert ((∃ j, h = Enqueuing j) ∨
    ('(h', s') ← handler_step id plain_http h (w_server w); Some (set_handler i h' s' w)) = Some w')
    as [[j ->]|Hs] by (destruct h; eauto).
  - destruct (q_runner (w_queue w)) eqn:Hq; try discriminate Hr. injection Hr as <-.
    apply Hgo; [|done]. apply world_request, world_enqueue; [done|]. unfold mu_free. by rewrite Hq.
  - destruct (handler_step id plain_http h (w_server w)) as [[h' s']|] eqn:Hstep; [|discriminate Hs].
    injection Hs as <-. apply Hgo; [|done]. by eapply world_request, world_handler.
Qed.

Lemma run_steps sched w w' :
  run sched w = Some w' → w_main w = Listening → rtc next w w' ∧ w_main w' = Listening.
Proof.
  unfold run. revert w. induction sched as [|i sched IH]; intros w; simpl; [by intros [= <-]|].
  destruct (run_handler w i) as [w1|] eqn:H1; simpl.
  - intros Hr Hm. destruct (run_handler_next w i w1 H1 Hm) as [Hn Hm1].
    destruct (IH w1 Hr Hm1) as [Hs Hm']. split; [|done]. by eapply rtc_l.
  - intros Hr _. exfalso. clear IH. induction sched; simpl in Hr; done || auto.
Qed.

Lemma run_reaches sched w : w_main w = Listening → rtc next w (default w (run sched w)).
Proof.
  intros Hm. destruct (run sched w) as [w'|] eqn:Hr; [|apply rtc_refl].
  exact (proj1 (run_steps sched w w' Hr Hm)).
Qed.

(** Three requests for one model. *)
Let request : Handler :=
  Accepted false Background (mkProxyReq "POST" "/v1/completions" ∅ (BodyOf (quoted "{'model':'m1'}"))).

Definition three_arrived : World :=
  mkWorld queue_srv (newQueueManager (rtr queue_srv)) [request; request; request] ["http://a:1"]
    (mkPolls false false Selecting Selecting) Listening.

Lemma three_arrived_reachable : rtc next (started_world p0) three_arrived.
Proof.
  assert (∀ w, w_main w = Listening → next w (mkWorld (w_server w) (w_queue w)
    (w_handlers w ++ [request]) (w_urls w) (w_polls w) (w_main w))) as Ha.
  { intros w Hm. unfold world_next. rewrite Hm. split_and!; [done|done|].
    rewrite <- Hm. by apply world_request, world_arrive. }
  eapply rtc_l; [by apply Ha|]. eapply rtc_l; [by apply Ha|]. eapply rtc_l; [by apply Ha|].
  apply rtc_refl.
Qed.

Lemma run_listening sched w : w_main w = Listening → w_main (default w (run sched w)) = Listening.
Proof. intros Hm. destruct (run sched w) as [w'|] eqn:Hr; [|done]. by apply (run_steps sched w w'). Qed.

(** The first two get the two slots, the third has to wait; then the first is
    forwarded and gives its slot back. *)
Definition some_run : option World :=
  run [0; 0; 0; 0; 0; 1; 1; 1; 1; 1; 2; 2; 2; 2; 2; 2; 2; 2; 2; 0; 0]%nat three_arrived.

Definition some_world : World := default three_arrived some_run.

Example some_run_ends :
  map (λ h, match h with
    | Ended (Some r) => Some (StatusCode r, resp_Body r)
    | Connected _ c => Some (0, ServerID c)
    | _ => None
    end) (w_handlers some_world) = [Some (200, "http://a:1/v1/completions"); Some (0, "http://a:1"); None] ∧
  Inflight (server_pool (w_server some_world)) "http://a:1" = 1.
Proof. split; vm_compute; reflexivity. Qed.

Lemma some_world_reachable : rtc next (started_world p0) some_world.
Proof. etrans; [exact three_arrived_reachable|]. exact (run_reaches _ three_arrived eq_refl). Qed.

Lemma whole_safe_witness :
  server_wf (w_server some_world) ∧ q_runner (w_queue some_world) ≠ Panicked ∧
  Forall answered_well (w_handlers some_world).
Proof.
  apply (whole_safe id (eq plain_http) false p0 some_world);
    [by intros client <-; apply plain_http_sane|apply queue_srv_wf|apply some_world_reachable].
Defined.

Lemma whole_accounts_witness :
  w_main some_world ≠ Crash ∧
  ∀ u, Inflight (server_pool (w_server some_world)) u =
    wrap64 (Inflight (server_pool queue_srv) u + count u (all_conns some_world)).
Proof.
  apply (whole_accounts id (eq plain_http) p0 some_world);
    [by intros client <-; apply plain_http_sane|apply queue_srv_wf| |apply some_world_reachable].
  intros c [= <-]. intros u Hu. by apply elem_of_dom in Hu as [? ?].
Defined.

Lemma queued_goes_on_witness :
  (∃ qs, waiter_step 0 (queue_view some_world) qs) ∨
  (¬ mu_free (w_queue some_world) ∧ ∃ qs, runner_step (queue_view some_world) qs) ∨
  (q_waiters (w_queue some_world) !! 0%nat = Some Waiting ∧ ctx_Err Background = None ∧
   q_chans (w_queue some_world) !! 0%nat = None ∧ 0%nat ∈ map item_id (live_items (w_queue some_world))).
Proof.
  refine (queued_goes_on id (eq plain_http) false p0 some_world 2
    (mkJob false Background (mkProxyReq "POST" "/v1/completions" ∅ (BodyOf (quoted "{'model':'m1'}")))
      (quoted "{'model':'m1'}") (mkOpenAI "m1" false)) 0 _ queue_srv_wf some_world_reachable _).
  - by intros client <-; apply plain_http_sane.
  - vm_compute. reflexivity.
Defined.

(** The listener fails while these requests are under way, and then both polling
    goroutines begin a round. *)
Definition listener_failed : World := set_server (w_server some_world) StoppingDiscovery some_world.
Definition discovery_polls : World :=
  disc_at (Polling (if disc_done listener_failed then []
    else Discovery.servers (disc (w_server listener_failed)))) listener_failed.
Definition closing_world : World := mc_at (Polling (w_urls discovery_polls)) discovery_polls.

Example closing_world_busy :
  map (λ g, match g with Polling todo => Some (length todo) | _ => None end)
    [disc_goroutine (w_polls closing_world); mc_goroutine (w_polls closing_world)] = [Some 1%nat; Some 1%nat] ∧
  steps_left closing_world = 13%nat.
Proof. split; vm_compute; reflexivity. Qed.

Lemma closing_world_reachable : rtc next (started_world p0) closing_world.
Proof.
  assert (w_main some_world = Listening) as Hm by exact (run_listening _ three_arrived eq_refl).
  etrans; [exact some_world_reachable|].
  eapply rtc_l; [split_and!; [by rewrite Hm..|by apply world_listen]|].
  eapply rtc_l; [split_and!; [done|done|]; eapply (world_poll _ _ _ sample_backends (λ _, ScrapeFailed)),
    poll_disc, disc_tick; vm_compute; reflexivity|].
  eapply rtc_once. split_and!; [done|done|].
  eapply (world_poll _ _ _ sample_backends (λ _, ScrapeFailed)), poll_mc, mc_tick. vm_compute. reflexivity.
Qed.

Lemma shutdown_goes_on_witness :
  (∃ n w', (n <= 13)%nat ∧ nsteps (shutdown_next sample_backends (λ _, ScrapeFailed)) n closing_world w' ∧
    (w_main w' = Exit ∨ w_main w' = Crash) ∧ w_main w' = Exit) ∧
  ∀ w', request_step id (eq plain_http) false closing_world w' →
    (steps_left w' <= 13)%nat ∧ w_main w' = StoppingDiscovery.
Proof.
  destruct (shutdown_goes_on id (eq plain_http) false p0 closing_world sample_backends (λ _, ScrapeFailed))
    as [(n & w' & Hn & Hr & Hend & Hex) Hreq].
  - by intros client <-; apply plain_http_sane.
  - apply queue_srv_wf.
  - split; [by eexists|]. reflexivity.
  - apply closing_world_reachable.
  - done.
  - rewrite (proj2 closing_world_busy) in Hn, Hreq. split; [|exact Hreq].
    exists n, w'. split_and!; [done|done|done|]. apply Hex; [done|].
    intros c [= <-]. intros u Hu. by apply elem_of_dom in Hu as [? ?].
Defined.
End sample_run.
